(* ===== verification/_CoqProject ===== *)
-Q . S2P
Prelude.v
TimerList.v
TimerListSpec.v
ListProgram.v
TimerWheel.v
TimerWheelSpec.v
TimerFrame.v
WheelTrace.v
Machine.v
ContextSwap.v
ContextSwapSpec.v
ContextSwap32.v
Context.v
Events.v
Thread.v
ThreadSpec.v
Sched.v
Coroutine.v
TaskPool.v
CtlInv.v
Poll.v
MemInv.v
MemPoll.v
CtlSteps.v
System.v
Frames.v
Boot.v
ThreadProps.v
PollFrames.v
PollReturn.v
NewTask.v
SpecFrames.v
SpecData.v
NestProps.v
DueFrames.v
WaitEnds.v
Hooks.v
IdMap.v
IdMapSpec.v
OldSched.v
OldSchedSpec.v
OldProps.v
OldIO.v
HooksSpec.v
ThreadHooks.v
Settle.v
HooksProps.v
SocketProps.v
SelectProps.v
HooksTable.v
AcceptProps.v
Examples.v
ExampleMain.v
EchoProps.v
TestServer.v
HostLookup.v
HostSpec.v
ThreadServer.v
