(* ===== verification/Prelude.v ===== *)
(** * libcr: a verified model of the coroutine library

    libcr (src/src/) runs user tasks as coroutines of a thread: a pool of
    coroutines per thread, a context switch in assembly, an epoll event loop
    that resumes the coroutines whose descriptors or timers are ready, and
    wrappers around the blocking system calls that suspend the calling
    coroutine instead of the thread.  src/oldsrc/ holds its first version, in
    C++.

    ** The parts of the program and the files that model them

    - Timer lists (epoll.c: [popHead], [join], [add_tail],
      [remove_from_link]): [TimerList], an explicit heap of list cells with
      NULL and dangling pointers as failures.  [TimerListSpec] has the
      representation predicate [Rep] and one refinement lemma per operation;
      [ListProgram] composes them into a simulation of arbitrary programs.
    - Timing wheel (epoll.c: [alloc_timer], [add_timeout],
      [takeAllTimeout]; misc.c: [GetTickMS]): [TimerWheel].  Every C
      conversion between int, long long and unsigned long long is written
      out.  [TimerWheelSpec] has the invariant [Wheel] and the abstraction
      [Queue], a finite map from items to deadlines; [TimerFrame] what may
      change around a wheel; [WheelTrace] the refinement of whole executions
      and the theorem that a timer fires once and on time.
    - Context switch (context_swap.S, context.c): [Machine] is a small
      machine with byte memory, [ContextSwap] the two listings as programs of
      it, [ContextSwapSpec] what the x86-64 routine saves and restores,
      [ContextSwap32] the same of the i386 routine, [Context] the initial
      context of a coroutine, and the USE_UCONTEXT variant over the C
      library's contexts.
    - Event masks and options (coroutine_impl.c): [Events].
    - Threads: [Thread] is the state (the C structures, the store, the
      control points) and [ThreadSpec] how its accesses run; [Coroutine] is
      creation, resume, yield and the specific data (coroutine_impl.c),
      [TaskPool] the pool and [task_main] (coroutine_task.c), [Poll]
      [poll_inner] and the event loop (coroutine_impl.c, epoll.c).  The
      kernel's epoll is the interface [Poll.EpollKernel].
    - The thread as a whole: [Sched] is the abstract scheduler (running,
      blocked, idle tasks); [CtlInv] the invariant of the call stack, the
      coroutines and the pool, kept by the steps of [CtlSteps]; [MemInv] the
      invariant of the wheel, the poll objects and the registrations with the
      kernel, kept by the calls of [MemPoll]; [System] joins them into steps
      of a thread, [Boot] starts it, and [ThreadProps] has the theorems on its
      executions. [Frames] says, for any relation of the class [Frame], that
      the code of a thread stays in it; [PollFrames] instantiates it with the
      attributes and flags of tasks, and [PollReturn] says what a coroutine
      therefore finds when [poll_inner] returns; [NewTask] follows a task from
      its creation to the first call of its function. [DueFrames], another
      instance, says that armed deadlines stay, so [WaitEnds] can say when a
      wait is over; [Settle], that there is always a way to end it.
      [SpecFrames], the third, and [SpecData] are the coroutine-specific data
      between arbitrary steps, [NestProps] the bounds of the call stack and of
      the array of tasks.  The size of that array, one in the code
      ([do_init_curr_thread_env]), is an argument of [do_init_with], so that
      the other theorems hold for the pools that it is meant for, too.
    - Hooked system calls (hook_sys_call.c): [Hooks], over the interface
      [Hooks.HookSys] of raw calls and of [poll_inner].  [HooksSpec] states
      the contract [PollContract] of that interface and the lemmas on waiting,
      reading and writing; [ThreadHooks] implements the interface by the
      thread, with [poll_inner] as one call, and proves the contract;
      [HooksProps], [SocketProps] and
      [SelectProps] the properties, [HooksTable] the well-formedness of the
      table of descriptors under every call, [AcceptProps] the loop of
      [accept].
    - Host name lookup (hook_sys_call.c): [HostLookup], over the interface
      [HostLookup.HostSys] of the C library; [HostSpec] has the invariant of
      its buffers and the proof that the loop ends.
    - The first version: [IdMap] is the allocator of ids (idmap.cc), with
      [sizeof(unsigned long)] as a parameter, and [IdMapSpec] its refinement
      to a set; [OldSched] is the scheduler and its hooks (coroutine.cc,
      hooks.cc), [OldSchedSpec] its invariant, [OldProps] and [OldIO] the
      properties of its runs, its sends and its receives.

    - Example programs (example/echoserver.c, example/sleep_coroutine.c):
      [Examples] translates them as clients of the hooks and of the interface
      [Examples.TaskSys] of [coroutine_new_task], [EchoProps] has the theorems
      on the server, [ThreadServer] implements the interface by the thread and
      proves its contract [Examples.TaskContract], [ExampleMain] has the calls
      of the two mains.  [TestServer] is the example of the first version
      (example/test.cc), as coroutines of [OldSched], with the theorem on the
      variable they share.

    ** How the model relates to the code

    A function is a definition of the same name in the state-error monad [M]
    below: [Ok] with a result and the new state, or [Fail] with what C leaves
    undefined ([NullDeref], [BadPointer], [OutOfBounds], [DivByZero],
    [FreedStack]).
    Integers are [Z] with their wrap-around ([to_int], [to_ullong], ...).
    Loops whose bound is not in the code take fuel: the walk of a list gets
    one unit per heap cell, enough for a list that ends; the retry loops of
    [read], [write] and [accept], of the host lookup and of the first
    version's hooks take it as an argument, and the theorems either say how
    much is enough (one unit per doubling of the buffer, one per byte and per
    interruption) or hold for all fuel.  [Settle] lets a thread take 20 steps
    per timer item and 10 per coroutine on the call stack, more than the
    steps that are left (its weight, which every step lowers).

    A context switch ends a segment of code: a suspended coroutine keeps the
    point at which it continues ([Thread.kont], [OldSched.old_kont]), and the
    functions that switch are split there ([poll_inner] into
    [poll_inner_enter] and [poll_inner_leave], [task_main] into its three
    segments, the first version's [Recv] into [Recv_enter] and [Recv_leave]).
    That the machine context is indeed resumed at that point is what
    [ContextSwapSpec] and [ContextSwap32] prove of the assembly.  User code of a thread is the
    sequence of its calls ([System.action]); in the first version a
    coroutine's function is a tree of calls ([OldSched.prog]), among them the
    loads and stores of variables that are used through pointers; where it
    goes wrong by itself the error is [UserFault].  [mainfunc] of the first
    version goes on on a stack that it has freed; whether that works is not up
    to the code, and is a parameter, [OldSched.old_freed_stack]: either it
    does, and the stack is as good as before, or it fails with [FreedStack].

    ** What the theorems show

    The thread: every execution simulates the abstract scheduler and never
    fails; a waiter whose descriptor or timer is ready is woken; what is
    registered with the kernel belongs to a live call; the pool counts its
    tasks; a new task of the pool runs its function at once.  Every wait is
    over by the first round of the loop 10 ms after the call, and can always
    be brought to its end.  A blocked poll returns its own events, with the
    task's attributes and time-out flag untouched, which makes the thread an
    implementation of the interface of the hooks.  Specific data are a map per
    task.  Pools of more than one task leave their array; the call stack has
    room for every task of a pool of fewer than 128.
    Timers: list programs and wheel executions refine their abstract
    counterparts; a timer is collected once, at its deadline; what happens
    when the clock steps back or the loop pauses for 2^31 ms.
    Switching: round trips of the x86-64 and i386 routines; entry of a fresh context.
    Hooks: transparency for tasks without hooking; reads and writes deliver
    the right bytes; table, flags and timeouts; the table stays well formed
    under every call, errors included; which raw calls a [write] makes, and
    what it returns; every end of [accept] and of [connect] in terms of their
    raw calls and waits; the errors of [select], [socket] and of the timeout
    path; the lookup ends with one buffer per coroutine.
    Examples: the server sends back the bytes it receives, in order, and
    writes past its buffer when a message fills it; the listener hands every
    connection to a task of its own as long as one is free.
    First version: segments keep the tables consistent and are safe, but for
    the stack of [mainfunc]; the destructor frees everything once, bytes are sent and received in order;
    ids collide with the table on 64-bit machines, a finished coroutine
    breaks the loop, writers are not woken, half-full messages are held back;
    two handlers of its example serve the same connection.

    ** What is left out

    Not modelled: the lazy resolution of the raw calls with dlsym (each
    wrapper looks its function up once; the model has the functions as a
    parameter), the [ucontext_t] of the C library (a parameter), the bytes of
    the stacks, what raw calls of user code do to the registrations with the
    kernel's epoll, [recvfrom] and [sendto] (declared types only), the
    pthread key of the host lookup, and the build file. *)

From stdpp Require Import gmap list.

(** * Functional record update

    [r <| f := v |>] replaces the field [f] of [r].  A record declares its
    eta expansion once, as an instance of [Eta]; the setter of a field is
    obtained by abstracting its projection out of that expansion. *)

Class Eta (R : Type) := eta : R -> R.
Arguments eta {R _} _.

Class SetField {R T : Type} (proj : R -> T) := set_field : (T -> T) -> R -> R.
Arguments set_field {R T} proj {_} / _ _.

Ltac derive_set_field :=
  lazymatch goal with
  | |- @SetField ?R ?T ?proj =>
      let body := eval hnf in (eta : R -> R) in
      let abs := eval pattern proj in body in
      lazymatch abs with
      | ?g _ => let t := constr:(fun (f : T -> T) (r : R) => g (fun x => f (proj x)) r) in
                let t' := eval cbv beta in t in
                exact t'
      end
  end.

#[export] Hint Extern 0 (SetField _) => derive_set_field : typeclass_instances.

Declare Scope record_scope.
Delimit Scope record_scope with rec.
Notation "x <| proj := v |>" := (set_field proj (fun _ => v) x)
  (at level 1, left associativity, v at level 99) : record_scope.
Notation "x <| proj ::= f |>" := (set_field proj f x)
  (at level 1, left associativity, f at level 99) : record_scope.
#[global] Open Scope record_scope.
#[global] Open Scope Z_scope.

(** * Machine integers

    A C integer of width [w] is a [Z]; a conversion to the type is the
    explicit wrap-around below (two's complement for the signed types, as
    gcc on x86 defines the out-of-range signed conversion). *)

Definition wrap_u (w z : Z) : Z := z `mod` 2 ^ w.
Definition wrap_s (w z : Z) : Z := (z + 2 ^ (w - 1)) `mod` 2 ^ w - 2 ^ (w - 1).

Abbreviation to_short := (wrap_s 16).
Abbreviation to_int := (wrap_s 32).
Abbreviation to_llong := (wrap_s 64).
Abbreviation to_uint := (wrap_u 32).
Abbreviation to_ullong := (wrap_u 64).

Lemma wrap_u_range w z : 0 <= w -> 0 <= wrap_u w z < 2 ^ w.
Proof. intros. unfold wrap_u. apply Z.mod_pos_bound. lia. Qed.

Lemma wrap_u_small w z : 0 <= z < 2 ^ w -> wrap_u w z = z.
Proof. intros. unfold wrap_u. by apply Z.mod_small. Qed.

Lemma pow2_split w : 0 < w -> 2 ^ w = 2 * 2 ^ (w - 1).
Proof. intros. rewrite <- Z.pow_succ_r by lia. f_equal; lia. Qed.

Lemma wrap_s_range w z : 0 < w -> - 2 ^ (w - 1) <= wrap_s w z < 2 ^ (w - 1).
Proof.
  intros Hw. unfold wrap_s.
  pose proof (pow2_split w Hw).
  pose proof (Z.mod_pos_bound (z + 2 ^ (w - 1)) (2 ^ w) ltac:(lia)). lia.
Qed.

Lemma wrap_s_small w z : 0 < w -> - 2 ^ (w - 1) <= z < 2 ^ (w - 1) -> wrap_s w z = z.
Proof.
  intros Hw Hz. unfold wrap_s. pose proof (pow2_split w Hw).
  rewrite Z.mod_small; lia.
Qed.

Lemma to_int_small z : - 2 ^ 31 <= z < 2 ^ 31 -> to_int z = z.
Proof. intros. apply wrap_s_small; simpl; lia. Qed.

Lemma to_llong_small z : - 2 ^ 63 <= z < 2 ^ 63 -> to_llong z = z.
Proof. intros. apply wrap_s_small; simpl; lia. Qed.

Lemma to_ullong_small z : 0 <= z < 2 ^ 64 -> to_ullong z = z.
Proof. apply wrap_u_small. Qed.

Create Rewrite HintDb cint.
#[export] Hint Rewrite to_int_small to_llong_small to_ullong_small using lia : cint.

(** * Failures and the state monad of the library code

    [Fail] is what C leaves undefined or what the model cannot continue
    from: dereferencing NULL or a pointer that designates no live object, an
    array index out of range, a division by zero; [OutOfFuel] stands for a
    loop cut off by its fuel. *)

Inductive error :=
  | NullDeref
  | BadPointer
  | OutOfBounds
  | DivByZero
  | UserFault    (* undefined behaviour of the user's own code *)
  | FreedStack   (* a function goes on on a stack that has been freed *)
  | OutOfFuel.

#[export] Instance error_eq_dec : EqDecision error.
Proof. solve_decision. Defined.

Inductive res (A : Type) :=
  | Ok (a : A)
  | Fail (e : error).
Arguments Ok {A} _.
Arguments Fail {A} _.

Definition M (S A : Type) : Type := S -> res (A * S).

#[export] Instance M_ret S : MRet (M S) := fun A a s => Ok (a, s).
#[export] Instance M_bind S : MBind (M S) := fun A B k m s =>
  match m s with
  | Ok (a, s') => k a s'
  | Fail e => Fail e
  end.

Definition fail {S A} (e : error) : M S A := fun _ => Fail e.
Definition get {S} : M S S := fun s => Ok (s, s).
Definition put {S} (s : S) : M S unit := fun _ => Ok (tt, s).
Definition gets {S A} (f : S -> A) : M S A := fun s => Ok (f s, s).
Definition modify {S} (f : S -> S) : M S unit := fun s => Ok (tt, f s).

(** [*p] for a pointer that may be NULL. *)
Definition deref {S A} (p : option A) : M S A :=
  match p with
  | Some a => mret a
  | None => fail NullDeref
  end.

(** [a[i]] and [a[i] = v] on an array. *)
Definition array_get {S A} (a : list A) (i : Z) : M S A :=
  if bool_decide (0 <= i) then
    match a !! Z.to_nat i with Some v => mret v | None => fail OutOfBounds end
  else fail OutOfBounds.

Definition array_set {S A} (a : list A) (i : Z) (v : A) : M S (list A) :=
  if bool_decide (0 <= i < Z.of_nat (length a)) then mret (<[Z.to_nat i := v]> a)
  else fail OutOfBounds.

Lemma bind_Ok {S A B} (m : M S A) (k : A -> M S B) s a s' :
  m s = Ok (a, s') -> (m ≫= k) s = k a s'.
Proof. intros H. unfold mbind, M_bind. by rewrite H. Qed.

Lemma bind_inv {S A B} (m : M S A) (k : A -> M S B) s r :
  (m ≫= k) s = Ok r -> exists a s', m s = Ok (a, s') /\ k a s' = Ok r.
Proof.
  unfold mbind, M_bind. destruct (m s) as [[a s']|e]; [|done]. eauto.
Qed.

Lemma bind_assoc {S A B C} (m : M S A) (f : A -> M S B) (g : B -> M S C) s :
  ((m ≫= f) ≫= g) s = (m ≫= (fun a => f a ≫= g)) s.
Proof. unfold mbind, M_bind. by destruct (m s) as [[a s']|e]. Qed.

(** Run the monadic code of the goal as far as it evaluates. *)
Ltac mrun := cbv [mbind M_bind mret M_ret get gets put modify fail deref]; simpl.

(** * Specifications of monadic code

    [wp m Q E s]: [m], run in [s], ends in a result and a state with [Q], or
    in an error with [E]. *)
Definition wp {S A} (m : M S A) (Q : A -> S -> Prop) (E : error -> Prop) (s : S) : Prop :=
  match m s with Ok (a, s') => Q a s' | Fail e => E e end.

Lemma wp_ret {S A} (a : A) Q E (s : S) : Q a s -> wp (mret a) Q E s.
Proof. done. Qed.

Lemma wp_bind {S A B} (m : M S A) (k : A -> M S B) Q E s :
  wp m (fun a s' => wp (k a) Q E s') E s -> wp (m ≫= k) Q E s.
Proof. unfold wp, mbind, M_bind. by destruct (m s) as [[a s']|e]. Qed.

Lemma wp_mono {S A} (m : M S A) (Q Q' : A -> S -> Prop) (E E' : error -> Prop) s :
  wp m Q' E' s -> (forall a s', Q' a s' -> Q a s') -> (forall e, E' e -> E e) -> wp m Q E s.
Proof. unfold wp. destruct (m s) as [[a s']|e]; auto. Qed.

Lemma wp_Ok {S A} (m : M S A) Q E s a s' : wp m Q E s -> m s = Ok (a, s') -> Q a s'.
Proof. unfold wp. intros H Hm. by rewrite Hm in H. Qed.

Lemma wp_get {S} Q E (s : S) : Q s s -> wp get Q E s.
Proof. done. Qed.

Lemma wp_put {S} Q E (s s' : S) : Q tt s' -> wp (put s') Q E s.
Proof. done. Qed.

Lemma wp_modify {S} (f : S -> S) Q E (s : S) : Q tt (f s) -> wp (modify f) Q E s.
Proof. done. Qed.

Lemma wp_fail {S A} (e : error) (Q : A -> S -> Prop) E (s : S) : E e -> wp (fail e) Q E s.
Proof. done. Qed.

Lemma wp_array_get {S A} (l : list A) i Q (E : error -> Prop) (s : S) :
  (forall v, 0 <= i -> l !! Z.to_nat i = Some v -> Q v s) -> E OutOfBounds -> wp (array_get l i) Q E s.
Proof.
  intros H He. unfold array_get, wp. case_bool_decide as Hi; [|done]. destruct (l !! Z.to_nat i) eqn:Hl; [|done].
  by apply H.
Qed.

Lemma wp_array_set {S A} (l : list A) i v Q (E : error -> Prop) (s : S) :
  (0 <= i < Z.of_nat (length l) -> Q (<[Z.to_nat i := v]> l) s) -> E OutOfBounds -> wp (array_set l i v) Q E s.
Proof. intros H He. unfold array_set, wp. case_bool_decide as Hi; [|done]. by apply H. Qed.

(** One step of the code in front. *)
Ltac wstep :=
  lazymatch goal with
  | |- wp (mbind _ _) _ _ _ => apply wp_bind
  | |- wp (mret _) _ _ _ => apply wp_ret
  | |- wp get _ _ _ => apply wp_get
  | |- wp (put _) _ _ _ => apply wp_put
  | |- wp (modify _) _ _ _ => apply wp_modify
  | |- wp (fail _) _ _ _ => apply wp_fail
  | |- wp (deref (Some _)) _ _ _ => apply wp_ret
  end; cbv beta.

(** [always R m]: every result of [m] is reached by a change in [R],
    whatever the state it starts from. *)
Definition any_error (e : error) : Prop := True.

Definition always {S A} (R : S -> S -> Prop) (m : M S A) : Prop :=
  forall s, wp m (fun _ s' => R s s') any_error s.

Section always.
Context {S : Type} (R : S -> S -> Prop) `{!PreOrder R}.

Lemma always_ret {A} (a : A) : always R (mret a).
Proof using All. intros s. apply wp_ret. reflexivity. Qed.

Lemma always_fail {A} e : always R (fail (A := A) e).
Proof using. intros s. by apply wp_fail. Qed.

Lemma always_bind {A B} (m : M S A) (k : A -> M S B) :
  always R m -> (forall a, always R (k a)) -> always R (m ≫= k).
Proof using All.
  intros Hm Hk s. wstep. refine (wp_mono _ _ _ _ _ _ (Hm s) _ (fun e H => H)). intros a s1 H1.
  refine (wp_mono _ _ _ _ _ _ (Hk a s1) _ (fun e H => H)). intros b s2 H2. by transitivity s1.
Qed.

Lemma always_get : always R get.
Proof using All. intros s. apply wp_get. reflexivity. Qed.

Lemma always_gets {A} (f : S -> A) : always R (gets f).
Proof using All. intros s. unfold wp, gets. reflexivity. Qed.

Lemma always_modify f : (forall s, R s (f s)) -> always R (modify f).
Proof using. intros H s. by apply wp_modify. Qed.

Lemma always_deref {A} (p : option A) : always R (deref p).
Proof using All. destruct p; [apply always_ret|apply always_fail]. Qed.

Lemma always_array_get {A} (l : list A) i : always R (array_get l i).
Proof using All. unfold array_get. repeat case_match; (apply always_ret || apply always_fail). Qed.

Lemma always_array_set {A} (l : list A) i v : always R (array_set l i v).
Proof using All. unfold array_set. case_match; (apply always_ret || apply always_fail). Qed.

(** Code that starts with a look at the state. *)
Lemma always_state {B} (k : S -> M S B) :
  (forall s, wp (k s) (fun _ s' => R s s') any_error s) -> always R (get ≫= k).
Proof using. intros H s. do 2 wstep. apply H. Qed.
End always.

Lemma always_mono {S A} (R R' : S -> S -> Prop) (m : M S A) :
  always R m -> (forall s s', R s s' -> R' s s') -> always R' m.
Proof. intros H HR s. refine (wp_mono _ _ _ _ _ _ (H s) _ (fun e H => H)). auto. Qed.

Create HintDb always.
#[export] Hint Resolve always_ret always_fail always_get always_gets always_deref always_array_get always_array_set : always.

#[export] Hint Extern 0 (PreOrder _) => typeclasses eauto : always.

(** Step through code made of calls that the hints know. *)
Ltac always_auto := repeat first
  [ progress eauto 2 with always
  | apply always_bind; [typeclasses eauto| |intros] | progress cbn beta iota | case_match ].

(** * Lists *)

Lemma NoDup_mid {A} (l k : list A) x :
  NoDup (l ++ x :: k) <-> (x ∉ l) /\ (x ∉ k) /\ NoDup (l ++ k).
Proof.
  rewrite !NoDup_app, NoDup_cons. set_solver.
Qed.

Lemma NoDup_snoc {A} (l : list A) x : NoDup l -> x ∉ l -> NoDup (l ++ [x]).
Proof. intros Hl Hx. apply NoDup_app. set_solver by auto using NoDup_singleton. Qed.

Lemma head_app_not {A} (l k : list A) x : l <> [] -> x ∉ l -> Some x <> head (l ++ k).
Proof. destruct l; [done|]. simpl. set_solver. Qed.

Lemma last_app_not {A} (l k : list A) x : k <> [] -> x ∉ k -> Some x <> last (l ++ k).
Proof.
  intros Hk Hx Heq. rewrite last_app in Heq. destruct (last k) as [y|] eqn:Hy.
  - apply last_Some_elem_of in Hy. set_solver.
  - by apply last_None in Hy.
Qed.

Create Rewrite HintDb libcr.
#[export] Hint Rewrite @head_app @last_app @last_snoc @app_nil_r : libcr.

(** * Blocks of consecutive addresses *)

(** A fresh block starts one past every address in use. *)
Definition fresh_addr {A} (m : gmap Z A) : Z := 1 + map_fold (fun k _ acc => Z.max k acc) 0 m.

Lemma fresh_addr_spec {A} (m : gmap Z A) :
  0 < fresh_addr m /\ forall k, is_Some (m !! k) -> k < fresh_addr m.
Proof.
  unfold fresh_addr.
  cut (0 <= map_fold (fun k _ acc => Z.max k acc) 0 m /\
       forall k, is_Some (m !! k) -> k <= map_fold (fun k _ acc => Z.max k acc) 0 m).
  { intros [? H]. split; [lia|]. intros k Hk%H. lia. }
  apply (map_fold_weak_ind (fun r m => 0 <= r /\ forall k, is_Some (m !! k) -> k <= r)).
  - split; [lia|]. intros k. rewrite lookup_empty. by intros [].
  - intros i x m' r _ [H0 IH]. split; [lia|]. intros k. rewrite lookup_insert.
    case_decide; [lia|]. intros Hk%IH. lia.
Qed.

Fixpoint insert_block {A} (n : nat) (base : Z) (v : A) (m : gmap Z A) : gmap Z A :=
  match n with
  | O => m
  | S n' => insert_block n' (base + 1) v (<[base := v]> m)
  end.

Fixpoint delete_block {A} (n : nat) (base : Z) (m : gmap Z A) : gmap Z A :=
  match n with
  | O => m
  | S n' => delete_block n' (base + 1) (delete base m)
  end.

Lemma lookup_insert_block {A} n : forall base (v : A) m k,
  insert_block n base v m !! k =
    if decide (base <= k < base + Z.of_nat n) then Some v else m !! k.
Proof.
  induction n as [|n IH]; intros base v m k; simpl; [by rewrite decide_False by lia|].
  rewrite IH. destruct (decide (k = base)) as [->|Hne].
  - rewrite decide_False, decide_True by lia. by rewrite lookup_insert_eq.
  - rewrite lookup_insert_ne by done. apply decide_ext. lia.
Qed.

Lemma lookup_delete_block {A} n : forall base (m : gmap Z A) k,
  delete_block n base m !! k =
    if decide (base <= k < base + Z.of_nat n) then None else m !! k.
Proof.
  induction n as [|n IH]; intros base m k; simpl; [by rewrite decide_False by lia|].
  rewrite IH. destruct (decide (k = base)) as [->|Hne].
  - rewrite decide_False, decide_True by lia. by rewrite lookup_delete_eq.
  - rewrite lookup_delete_ne by done. apply decide_ext. lia.
Qed.
