(* ===== verification/TimerListSpec.v ===== *)
(** Representation predicate of the timer lists and the refinement theorems:
    on a well-formed heap every operation of [TimerList] succeeds, and acts
    on the abstract map from list addresses to sequences of items as the
    list operation its name promises. *)

From stdpp Require Import gmap list.
From S2P Require Import Prelude TimerList.

(** * Linked segments *)

(** [lseg m l p xs n]: the items [xs] are chained in order in the item map
    [m], all have parent [l], the first one's [prev] is [p] and the last
    one's [next] is [n]. *)
Fixpoint lseg (m : gmap Z timer_item_t) (l : Z) (p : option Z) (xs : list Z) (n : option Z) : Prop :=
  match xs with
  | [] => True
  | x :: xs' =>
      (exists it, m !! x = Some it /\ ti_parent it = Some l /\ ti_prev it = p /\
        ti_next it = from_option Some n (head xs')) /\
      lseg m l (Some x) xs' n
  end.

Lemma lseg_app m l p xs ys n :
  lseg m l p (xs ++ ys) n <->
  lseg m l p xs (from_option Some n (head ys)) /\ lseg m l (from_option Some p (last xs)) ys n.
Proof.
  revert p. induction xs as [|x xs IH]; intros p; simpl; [tauto|].
  rewrite IH, head_app. destruct xs as [|y xs]; simpl; [tauto|].
  replace (last (x :: y :: xs)) with (last (y :: xs)) by done.
  assert (is_Some (last (y :: xs))) as [z ->] by (rewrite last_is_Some; done). tauto.
Qed.

Lemma lseg_insert m l p xs n x it :
  x ∉ xs -> lseg (<[x := it]> m) l p xs n <-> lseg m l p xs n.
Proof.
  revert p. induction xs as [|y xs IH]; intros p Hx; simpl; [done|].
  apply not_elem_of_cons in Hx as [Hne Hx].
  rewrite lookup_insert_ne by done. by rewrite IH.
Qed.

Lemma lseg_elem m l p xs n x :
  lseg m l p xs n -> x ∈ xs -> exists it, m !! x = Some it /\ ti_parent it = Some l.
Proof.
  revert p. induction xs as [|y xs IH]; intros p Hseg Hx; [set_solver|].
  destruct Hseg as [(it & ? & ? & _) Hseg].
  apply elem_of_cons in Hx as [->|Hx]; [eauto|]. by eapply IH.
Qed.

(** A segment only looks at the items it lists. *)
Lemma lseg_ext m m' l p xs n :
  (forall x, x ∈ xs -> m' !! x = m !! x) -> lseg m l p xs n -> lseg m' l p xs n.
Proof.
  revert p. induction xs as [|y xs IH]; intros p Hm; simpl; [done|].
  rewrite Hm by set_solver. intros [? ?]. split; [done|]. apply IH; set_solver.
Qed.

(** * Abstract state and representation *)

(** The abstract value of the heap: for each list object, its items. *)
Abbreviation alists := (gmap Z (list Z)).

Definition dll (h : lheap) (l : Z) (xs : list Z) : Prop :=
  lh_lists h !! l = Some (mk_timer_list (head xs) (last xs)) /\ NoDup xs /\
  lseg (lh_items h) l None xs None.

Record Rep (h : lheap) (L : alists) : Prop := {
  rep_dom : dom (lh_lists h) = dom L;
  rep_dll : forall l xs, L !! l = Some xs -> dll h l xs;
  rep_in : forall x it l, lh_items h !! x = Some it -> ti_parent it = Some l ->
    exists xs, L !! l = Some xs /\ x ∈ xs
}.

(** The fields of an item that the list operations leave alone. *)
Definition payload (it : timer_item_t) : timer_item_t :=
  it <| ti_prev := None |> <| ti_next := None |> <| ti_parent := None |>.

Definition same_payload (h h' : lheap) : Prop :=
  forall x, payload <$> lh_items h !! x = payload <$> lh_items h' !! x.

#[export] Instance same_payload_equiv : Equivalence same_payload.
Proof.
  split.
  - by intros h x.
  - intros h h' H x. symmetry. apply H.
  - intros h1 h2 h3 H1 H2 x. etrans; [apply H1 | apply H2].
Qed.

Section rep.
Context (h : lheap) (L : alists) (R : Rep h L).

Lemma rep_list l xs : L !! l = Some xs -> lh_lists h !! l = Some (mk_timer_list (head xs) (last xs)).
Proof using R. intros H. by apply (rep_dll _ _ R _ _ H). Qed.

Lemma rep_nodup l xs : L !! l = Some xs -> NoDup xs.
Proof using R. intros H. by apply (rep_dll _ _ R _ _ H). Qed.

Lemma rep_seg l xs : L !! l = Some xs -> lseg (lh_items h) l None xs None.
Proof using R. intros H. by apply (rep_dll _ _ R _ _ H). Qed.

Lemma rep_parent l xs x :
  L !! l = Some xs -> x ∈ xs -> exists it, lh_items h !! x = Some it /\ ti_parent it = Some l.
Proof using R. intros H Hx. eapply lseg_elem; eauto using rep_seg. Qed.

(** An item is in at most one list. *)
Lemma rep_disjoint l1 l2 xs1 xs2 x :
  L !! l1 = Some xs1 -> L !! l2 = Some xs2 -> x ∈ xs1 -> x ∈ xs2 -> l1 = l2.
Proof using R.
  intros H1 H2 Hx1 Hx2.
  destruct (rep_parent _ _ _ H1 Hx1) as (it1 & ? & ?).
  destruct (rep_parent _ _ _ H2 Hx2) as (it2 & ? & ?). congruence.
Qed.

(** A detached item is in no list. *)
Lemma rep_detached l xs x it :
  lh_items h !! x = Some it -> ti_parent it = None -> L !! l = Some xs -> x ∉ xs.
Proof using R.
  intros Hx Hp Hl Hin. destruct (rep_parent _ _ _ Hl Hin) as (it' & ? & ?). congruence.
Qed.

(** A heap that differs from [h] in the list object [l] and in items that
    are in no other list represents [L] with [l] remapped. *)
Lemma rep_update h' l xs ys :
  L !! l = Some xs ->
  lh_lists h' = <[l := mk_timer_list (head ys) (last ys)]> (lh_lists h) ->
  (forall x, x ∉ xs -> x ∉ ys -> lh_items h' !! x = lh_items h !! x) ->
  (forall l' zs y, l' <> l -> L !! l' = Some zs -> y ∈ zs -> y ∉ ys) ->
  NoDup ys -> lseg (lh_items h') l None ys None ->
  (forall x it, x ∈ xs -> x ∉ ys -> lh_items h' !! x = Some it -> ti_parent it = None) ->
  Rep h' (<[l := ys]> L).
Proof using R.
  intros Hl Hlists Hitems Hother Hnd Hseg Hgone. split.
  - rewrite Hlists, !dom_insert_L, (rep_dom _ _ R). done.
  - intros l' zs. destruct (decide (l' = l)) as [->|Hne].
    + rewrite lookup_insert_eq. intros [= <-]. split; [|done].
      by rewrite Hlists, lookup_insert_eq.
    + rewrite lookup_insert_ne by done. intros Hl'.
      destruct (rep_dll _ _ R _ _ Hl') as (Hh & Hnd' & Hlk). split; [|split; [done|]].
      * by rewrite Hlists, lookup_insert_ne.
      * eapply lseg_ext; [|done]. intros x Hx. apply Hitems; [|by eauto].
        intros Hx'. apply Hne. by eapply rep_disjoint.
  - intros x it l' Hx Hp. destruct (decide (x ∈ ys)) as [Hy|Hy].
    + destruct (lseg_elem _ _ _ _ _ _ Hseg Hy) as (it' & ? & ?).
      assert (l' = l) as -> by congruence. exists ys. by rewrite lookup_insert_eq.
    + destruct (decide (x ∈ xs)) as [Hin|Hin].
      { specialize (Hgone _ _ Hin Hy Hx). congruence. }
      rewrite Hitems in Hx by done. destruct (rep_in _ _ R _ _ _ Hx Hp) as (zs & Hz & ?).
      exists zs. split; [|done]. rewrite lookup_insert_ne; [done|]. intros ->. naive_solver.
Qed.

(** The same when items only leave [l]. *)
Lemma rep_shrink h' l xs ys :
  L !! l = Some xs ->
  lh_lists h' = <[l := mk_timer_list (head ys) (last ys)]> (lh_lists h) ->
  (forall x, x ∉ xs -> lh_items h' !! x = lh_items h !! x) ->
  ys `sublist_of` xs -> lseg (lh_items h') l None ys None ->
  (forall x it, x ∈ xs -> x ∉ ys -> lh_items h' !! x = Some it -> ti_parent it = None) ->
  Rep h' (<[l := ys]> L).
Proof using R.
  intros Hl ? Hitems Hsub ??.
  assert (forall y, y ∈ ys -> y ∈ xs) by (intros; by eapply elem_of_sublist).
  eapply rep_update; eauto.
  - intros l' zs y Hne Hl' Hy Hy'. apply Hne. eapply rep_disjoint; eauto.
  - eapply sublist_NoDup; eauto using rep_nodup.
Qed.
End rep.

(** Evaluate heap accesses whose target is known in the context. *)
Ltac hstep :=
  match goal with
  | H : ?m !! ?x = Some _ |- context [?m !! ?x] => rewrite H
  | |- context [<[?i := _]> _ !! ?i] => rewrite lookup_insert_eq
  | H : ?i <> ?j |- context [<[?i := _]> _ !! ?j] => rewrite (lookup_insert_ne _ i j) by done
  | H : ?j <> ?i |- context [<[?i := _]> _ !! ?j] => rewrite (lookup_insert_ne _ i j) by done
  | |- context [decide (?a = ?a)] => rewrite (decide_True (P := a = a)) by done
  | H : ?a <> ?b |- context [decide (?a = ?b)] => rewrite (decide_False (P := a = b)) by done
  | H : ?a <> ?b |- context [decide (Some ?a = Some ?b)] =>
      rewrite (decide_False (P := Some a = Some b)) by congruence
  | H : ti_parent ?it = _ |- context [ti_parent ?it] => rewrite H
  | H : ti_next ?it = _ |- context [ti_next ?it] => rewrite H
  | H : ti_prev ?it = _ |- context [ti_prev ?it] => rewrite H
  | H : head ?l = _ |- context [head ?l] => rewrite H
  | H : last ?l = _ |- context [last ?l] => rewrite H
  end.

Ltac hrun :=
  cbv [get_item upd_item get_list upd_list]; mrun;
  repeat (hstep; simpl).

(** Pointwise reasoning on updated item maps. *)
Ltac items_off :=
  intros; simpl; rewrite ?lookup_insert_ne by set_solver; done.

Ltac payload_done :=
  let y := fresh "y" in
  intros y; simpl; rewrite ?lookup_insert;
  repeat case_decide; simplify_map_eq; try done;
  repeat match goal with H : ?m !! _ = Some _ |- _ => rewrite H; clear H end; done.

(** * The operations *)

Section ops.
Context (h : lheap) (L : alists) (R : Rep h L).

Lemma add_tail_linked_noop l x it p :
  lh_items h !! x = Some it -> ti_parent it = Some p -> add_tail l x h = Ok (tt, h).
Proof using. intros Hx Hp. unfold add_tail. hrun. done. Qed.

Lemma add_tail_rep l xs x it :
  lh_items h !! x = Some it -> ti_parent it = None -> L !! l = Some xs ->
  exists h', add_tail l x h = Ok (tt, h') /\ Rep h' (<[l := xs ++ [x]]> L) /\ same_payload h h'.
Proof using R.
  intros Hx Hp Hl.
  pose proof (rep_list _ _ R _ _ Hl) as Hlist.
  pose proof (rep_seg _ _ R _ _ Hl) as Hseg.
  pose proof (rep_nodup _ _ R _ _ Hl) as Hnd.
  assert (x ∉ xs) as Hnin by eauto using rep_detached.
  assert (forall l' zs y, l' <> l -> L !! l' = Some zs -> y ∈ zs -> y ∉ xs ++ [x]) as Hoth.
  { intros l' zs y Hne Hl' Hy [Hy'| ->%list_elem_of_singleton]%elem_of_app.
    - apply Hne. by eapply rep_disjoint.
    - by eapply (rep_detached _ _ R l'). }
  destruct (last xs) as [t|] eqn:Ht.
  - apply last_Some in Ht as [pre ->].
    apply lseg_app in Hseg as [Hpre [(itt & Ht & Htp & Htv & Htn) _]].
    assert (t ∉ pre) as Htpre by (apply NoDup_app in Hnd; set_solver).
    assert (x <> t) as Hne by set_solver.
    eexists. split; [unfold add_tail; hrun; done|]. split; [|payload_done].
    eapply rep_update; [done|done|simpl|items_off|done| | |set_solver].
    + f_equal. by rewrite last_snoc, head_app; destruct pre.
    + by apply NoDup_snoc.
    + simpl. rewrite !lseg_app. simpl. rewrite !lseg_insert by set_solver. rewrite last_snoc. hrun. split_and!; eauto 10.
  - apply last_None in Ht as ->.
    eexists. split; [unfold add_tail; hrun; done|]. split; [|payload_done].
    eapply rep_update; [done|done|done|items_off|done| | |set_solver].
    + apply NoDup_singleton.
    + simpl. hrun. eauto 10.
Qed.

Lemma popHead_rep l xs :
  L !! l = Some xs ->
  exists h', popHead l h = Ok (tt, h') /\ Rep h' (<[l := tail xs]> L) /\ same_payload h h'.
Proof using R.
  intros Hl.
  pose proof (rep_list _ _ R _ _ Hl) as Hlist.
  pose proof (rep_seg _ _ R _ _ Hl) as Hseg.
  pose proof (rep_nodup _ _ R _ _ Hl) as Hnd.
  destruct xs as [|x [|y k]].
  - exists h. split; [unfold popHead; by hrun|]. split; [|done].
    by rewrite insert_id.
  - destruct Hseg as [(it & Hx & Hp & Hv & Hn) _].
    eexists. split; [unfold popHead; hrun; done|]. split; [|payload_done].
    eapply rep_shrink; [done|done|done|items_off| |done|].
    + apply sublist_nil_l.
    + simpl. intros ?? ->%list_elem_of_singleton _. rewrite lookup_insert_eq. by intros [= <-].
  - destruct Hseg as [(it & Hx & Hp & Hv & Hn) [(ity & Hy & Hyp & Hyv & Hyn) Hseg]].
    apply NoDup_cons in Hnd as [Hxk Hnd]. apply NoDup_cons in Hnd as [Hyk Hnd].
    assert (x <> y) as Hne by set_solver.
    assert (Some x <> last (x :: y :: k)) as Hlast.
    { rewrite last_cons_cons. intros Heq. symmetry in Heq.
      apply last_Some_elem_of in Heq. set_solver. }
    eexists. split; [unfold popHead; hrun; done|]. split; [|payload_done].
    eapply rep_shrink; [done|done|done|items_off| | |].
    + apply sublist_cons, reflexivity.
    + simpl. rewrite !lseg_insert by set_solver. hrun. split_and!; eauto 10.
    + simpl. intros z itz Hz1 Hz2. assert (z = x) as -> by set_solver.
      hrun. by intros [= <-].
Qed.

Lemma remove_from_link_detached_noop x it :
  lh_items h !! x = Some it -> ti_parent it = None -> remove_from_link x h = Ok (tt, h).
Proof using. intros Hx Hp. unfold remove_from_link. by hrun. Qed.

(** The result of unlinking [x], leaving [ys] in list [l]. *)
Definition unlinks (l x : Z) (ys : list Z) : Prop :=
  exists h', remove_from_link x h = Ok (tt, h') /\ Rep h' (<[l := ys]> L) /\ same_payload h h'.

(** What is known of the list of a linked item. *)
Ltac unlink_facts Hl :=
  let Hlist := fresh "Hlist" in
  pose proof (rep_list _ _ R _ _ Hl) as Hlist;
  pose proof (rep_seg _ _ R _ _ Hl) as Hseg;
  pose proof (rep_nodup _ _ R _ _ Hl) as Hnd.

Ltac unlink_run := eexists; split; [unfold remove_from_link; hrun; done|]; split; [|payload_done].

Ltac unlink_gone x :=
  let z := fresh "z" in let Hz1 := fresh in let Hz2 := fresh in
  simpl; intros z ? Hz1 Hz2; assert (z = x) as -> by set_solver; hrun; by intros [= <-].

Lemma remove_only l x : L !! l = Some [x] -> unlinks l x [].
Proof using R.
  intros Hl. unlink_facts Hl. destruct Hseg as [(it & Hx & Hp & Hv & Hn) _].
  unlink_run. eapply rep_shrink; [done|done| |items_off| |done|unlink_gone x].
  - simpl. by rewrite insert_insert_eq.
  - apply sublist_nil_l.
Qed.

Lemma remove_first l x b post : L !! l = Some (x :: b :: post) -> unlinks l x (b :: post).
Proof using R.
  intros Hl. unlink_facts Hl. rewrite !NoDup_cons in Hnd. destruct Hnd as (Hxb & Hb & _).
  destruct Hseg as [(it & Hx & Hp & Hv & Hn) [(itb & Hb' & Hbp & Hbv & Hbn) Hpost]].
  assert (x <> b) by set_solver.
  assert (Some x <> last (x :: b :: post)) by (apply (last_app_not [x]); [done|set_solver]).
  unlink_run. eapply rep_shrink; [done|done|done|items_off|by apply sublist_cons| |unlink_gone x].
  simpl. rewrite !lseg_insert by set_solver. hrun. split_and!; eauto 10.
Qed.

Lemma remove_last l x pre a :
  L !! l = Some ((pre ++ [a]) ++ [x]) -> unlinks l x (pre ++ [a]).
Proof using R.
  intros Hl. unlink_facts Hl. apply NoDup_mid in Hnd as (Hxp & _ & Hnd). rewrite app_nil_r in Hnd.
  apply lseg_app in Hseg as [Hpre [(it & Hx & Hp & Hv & Hn) _]].
  apply lseg_app in Hpre as [Hpre [(ita & Ha & Hap & Hav & Han) _]]. rewrite last_snoc in Hv.
  assert (x <> a) by set_solver. assert (a ∉ pre) by (apply NoDup_app in Hnd; set_solver).
  assert (Some x <> head ((pre ++ [a]) ++ [x])) by (apply head_app_not; [by destruct pre|done]).
  pose proof (last_snoc x (pre ++ [a])).
  unlink_run. eapply rep_shrink; [done|done| |items_off| | |unlink_gone x].
  - simpl. do 2 f_equal; [by rewrite !head_app; destruct pre|by rewrite last_snoc].
  - by apply sublist_inserts_r.
  - simpl. rewrite lseg_app. simpl. rewrite !lseg_insert by set_solver. hrun. split_and!; eauto 10.
Qed.

Lemma remove_middle l x pre a b post :
  L !! l = Some (pre ++ a :: x :: b :: post) -> unlinks l x (pre ++ a :: b :: post).
Proof using R.
  intros Hl. unlink_facts Hl. apply NoDup_mid in Hnd as (Hap' & Haq & Hnd).
  apply NoDup_mid in Hnd as (Hxp & Hxq & Hnd). apply NoDup_mid in Hnd as (Hbp' & Hbq & _).
  apply lseg_app in Hseg as [Hpre [(ita & Ha & Hap & Hav & Han)
    [(it & Hx & Hp & Hv & Hn) [(itb & Hb & Hbp & Hbv & Hbn) Hpost]]]].
  assert (x <> a) by set_solver. assert (x <> b) by set_solver. assert (a <> b) by set_solver.
  assert (Some x <> head (pre ++ a :: x :: b :: post))
    by (rewrite (cons_middle a), app_assoc; apply head_app_not; [by destruct pre|set_solver]).
  assert (Some x <> last (pre ++ a :: x :: b :: post))
    by (rewrite (cons_middle a), (cons_middle x), !app_assoc; apply last_app_not; [done|set_solver]).
  unlink_run. eapply rep_shrink; [done|done| |items_off| | |unlink_gone x].
  - simpl. symmetry. apply insert_id. rewrite Hlist. by rewrite !head_app, !last_app.
  - apply sublist_app; [done|]. by apply sublist_skip, sublist_cons.
  - simpl. rewrite lseg_app. simpl. rewrite !lseg_insert by set_solver. hrun. split_and!; eauto 10.
Qed.

Lemma remove_from_link_rep l pre x post :
  L !! l = Some (pre ++ x :: post) -> unlinks l x (pre ++ post).
Proof using R.
  intros Hl. destruct pre as [|a pre _] using rev_ind; destruct post as [|b post]; simpl in *.
  - by apply remove_only.
  - by apply remove_first.
  - rewrite app_nil_r. by apply remove_last.
  - rewrite <- app_assoc in *. by apply remove_middle.
Qed.
End ops.

(** * Walks *)

Definition alter_all (f : timer_item_t -> timer_item_t) (ys : list Z) (m : gmap Z timer_item_t) :=
  foldl (fun m y => alter f y m) m ys.

Arguments alter_all : simpl never.

Lemma lookup_alter_all f ys m x :
  NoDup ys -> alter_all f ys m !! x = if decide (x ∈ ys) then f <$> m !! x else m !! x.
Proof.
  revert m. induction ys as [|y ys IH]; intros m Hnd; simpl; [done|].
  apply NoDup_cons in Hnd as [Hy Hnd]. unfold alter_all in *. simpl. rewrite IH by done.
  destruct (decide (x = y)) as [->|Hne].
  - rewrite decide_False, decide_True by set_solver. by rewrite lookup_alter_eq.
  - rewrite lookup_alter_ne by done. destruct (decide (x ∈ ys)).
    + by rewrite decide_True by set_solver.
    + by rewrite decide_False by set_solver.
Qed.

Lemma alter_as_insert (f : timer_item_t -> timer_item_t) (m : gmap Z timer_item_t) x it :
  m !! x = Some it -> alter f x m = <[x := f it]> m.
Proof.
  intros Hx. apply map_eq. intros y. destruct (decide (x = y)) as [->|].
  - by rewrite lookup_alter_eq, lookup_insert_eq, Hx.
  - by rewrite lookup_alter_ne, lookup_insert_ne.
Qed.

(** A walk reaches the end of the chain and updates exactly its items. *)
Lemma walk_seg f l ys : forall fuel h p,
  (forall it, ti_next (f it) = ti_next it) ->
  lseg (lh_items h) l p ys None -> NoDup ys -> (length ys <= fuel)%nat ->
  walk fuel f (head ys) h = Ok (tt, h <| lh_items := alter_all f ys (lh_items h) |>).
Proof.
  induction ys as [|y ys IH]; intros fuel h p Hf Hseg Hnd Hfuel.
  - destruct fuel, h; done.
  - simpl in Hseg, Hfuel. destruct fuel as [|fuel]; [lia|].
    destruct Hseg as [(it & Hy & _ & _ & Hn) Hseg]. apply NoDup_cons in Hnd as [Hys Hnd].
    simpl. hrun. rewrite Hf, Hn.
    replace (from_option Some None (head ys)) with (head ys) by (by destruct ys).
    erewrite IH; [|done|simpl; by apply lseg_insert|done|lia].
    simpl. unfold alter_all. simpl. by rewrite (alter_as_insert _ _ _ _ Hy).
Qed.

Lemma lseg_length m l p xs n : lseg m l p xs n -> NoDup xs -> (length xs <= size m)%nat.
Proof.
  intros Hseg Hnd. rewrite <- (size_list_to_set (C := gset Z)) by done.
  rewrite <- size_dom. apply subseteq_size. intros x Hx%elem_of_list_to_set.
  destruct (lseg_elem _ _ _ _ _ _ Hseg Hx) as (it & ? & _). apply elem_of_dom. eauto.
Qed.

Lemma walk_all_seg f l ys h p :
  (forall it, ti_next (f it) = ti_next it) ->
  lseg (lh_items h) l p ys None -> NoDup ys ->
  walk_all f (head ys) h = Ok (tt, h <| lh_items := alter_all f ys (lh_items h) |>).
Proof.
  intros Hf Hseg Hnd. unfold walk_all. erewrite bind_Ok by done.
  pose proof (lseg_length _ _ _ _ _ Hseg Hnd). eapply walk_seg; eauto with lia.
Qed.

(** Changing the parent of every item of a segment. *)
Lemma lseg_reparent m l o p ys n :
  NoDup ys -> lseg m o p ys n ->
  lseg (alter_all (set_parent l) ys m) l p ys n.
Proof.
  intros Hnd Hseg.
  assert (forall x, x ∈ ys -> alter_all (set_parent l) ys m !! x
     = (set_parent l) <$> m !! x) as Halt.
  { intros x Hx. by rewrite lookup_alter_all, decide_True. }
  revert Halt. generalize (alter_all (set_parent l) ys m). intros m' Halt.
  clear Hnd. revert p Hseg. induction ys as [|y ys IH]; intros p; simpl; [done|].
  intros [(it & Hy & _ & Hv & Hn) Hseg]. split; [|apply IH; set_solver].
  rewrite Halt, Hy by set_solver. simpl. eauto 10.
Qed.

(** * [join] *)

(** Appending list [o] to list [l]: what a heap [h'] has to satisfy to
    represent the result. *)
Lemma rep_append h h' L l o xs ys :
  Rep h L -> l <> o -> L !! l = Some xs -> L !! o = Some ys ->
  lh_lists h' = <[o := empty_list]> (<[l := mk_timer_list (head (xs ++ ys)) (last (xs ++ ys))]> (lh_lists h)) ->
  (forall x, x ∉ xs ++ ys -> lh_items h' !! x = lh_items h !! x) ->
  lseg (lh_items h') l None (xs ++ ys) None ->
  Rep h' (<[o := []]> (<[l := xs ++ ys]> L)).
Proof.
  intros R Hlo Hl Ho Hlists Hitems Hseg. split.
  - by rewrite Hlists, !dom_insert_L, (rep_dom _ _ R).
  - intros l' zs Hl'. unfold dll. rewrite Hlists. destruct (decide (l' = o)) as [->|Hne].
    { simplify_map_eq. split_and!; [done|constructor|done]. }
    destruct (decide (l' = l)) as [->|Hne'].
    { simplify_map_eq. split_and!; [done| |done].
      apply NoDup_app. split_and!; eauto using rep_nodup.
      intros x Hx Hx'. apply Hlo. by eapply (rep_disjoint _ _ R l o). }
    simplify_map_eq.
    destruct (rep_dll _ _ R _ _ Hl') as (? & ? & Hseg'). split_and!; [done..|].
    eapply lseg_ext; [|done]. intros x Hx. apply Hitems. intros [?|?]%elem_of_app.
    + by apply Hne', (rep_disjoint _ _ R l' l zs xs x).
    + by apply Hne, (rep_disjoint _ _ R l' o zs ys x).
  - intros x it l' Hx Hp. destruct (decide (x ∈ xs ++ ys)) as [Hin|Hin].
    + destruct (lseg_elem _ _ _ _ _ _ Hseg Hin) as (it' & ? & ?).
      assert (l' = l) as -> by congruence. exists (xs ++ ys).
      by rewrite lookup_insert_ne, lookup_insert_eq.
    + rewrite Hitems in Hx by done. destruct (rep_in _ _ R _ _ _ Hx Hp) as (zs & Hz & Hxz).
      exists zs. rewrite !lookup_insert_ne; [done|set_solver..].
Qed.

Lemma alter_all_payload h f ys :
  (forall it, payload (f it) = payload it) -> NoDup ys ->
  same_payload h (h <| lh_items := alter_all f ys (lh_items h) |>).
Proof.
  intros Hf Hnd x. simpl. rewrite lookup_alter_all by done. case_decide; [|done].
  destruct (lh_items h !! x); simpl; [|done]. by rewrite Hf.
Qed.

Section join.
Context (h : lheap) (L : alists) (R : Rep h L) (l o : Z) (Hlo : l <> o).
Context (xs : list Z) (y : Z) (ys : list Z).
Context (Hl : L !! l = Some xs) (Ho : L !! o = Some (y :: ys)).

(** The heap after the walk that resets the parents. *)
Let m1 := alter_all (set_parent l) (y :: ys) (lh_items h).

Lemma join_ys_nodup : NoDup (y :: ys).
Proof using R Ho. eauto using rep_nodup. Qed.

Lemma join_walk :
  walk_all (set_parent l) (Some y) h = Ok (tt, h <| lh_items := m1 |>).
Proof using R Ho. apply (walk_all_seg _ o (y :: ys) h None); eauto using rep_seg, join_ys_nodup. Qed.

Lemma join_m1_seg : lseg m1 l None (y :: ys) None.
Proof using R Ho. eapply lseg_reparent; eauto using rep_seg, join_ys_nodup. Qed.

Lemma join_disj x : x ∈ xs -> x ∉ y :: ys.
Proof using R Hl Ho Hlo. intros Hx Hx'. by apply Hlo, (rep_disjoint _ _ R l o xs (y :: ys) x). Qed.

Lemma join_m1_off x : x ∉ y :: ys -> m1 !! x = lh_items h !! x.
Proof using R Ho. intros Hx. unfold m1. rewrite lookup_alter_all by apply join_ys_nodup. by rewrite decide_False. Qed.

Lemma join_m1_xs n : lseg (lh_items h) l None xs n -> lseg m1 l None xs n.
Proof using R Hl Ho Hlo. apply lseg_ext. intros x Hx. by apply join_m1_off, join_disj. Qed.

Lemma join_onto_nonempty pre t :
  xs = pre ++ [t] ->
  exists h', join l o h = Ok (tt, h') /\ Rep h' (<[o := []]> (<[l := xs ++ y :: ys]> L)) /\ same_payload h h'.
Proof using R Hl Ho Hlo.
  intros Hxs. pose proof (rep_list _ _ R _ _ Hl) as Hlist. pose proof (rep_list _ _ R _ _ Ho) as Holist.
  pose proof (rep_nodup _ _ R _ _ Hl) as Hxnd.
  destruct join_m1_seg as [(ity & Hy & Hyp & Hyv & Hyn) Hyseg].
  pose proof (join_m1_xs None (rep_seg _ _ R _ _ Hl)) as Hxseg. pose proof join_disj as Hdisj. subst xs.
  apply lseg_app in Hxseg as [Hxseg [(itt & Ht & Htp & Htv & Htn) _]].
  pose proof (last_snoc t pre) as Hlast. destruct (proj1 (NoDup_cons _ _) join_ys_nodup) as [Hyys _].
  assert (y <> t) by set_solver. assert (t ∉ pre) by (apply NoDup_app in Hxnd; set_solver).
  assert (y ∉ pre) by set_solver. assert (t ∉ ys) by set_solver.
  eexists. split; [unfold join; hrun; rewrite join_walk; hrun; done|]. split.
  - eapply rep_append; [done..| | |].
    + simpl. do 3 f_equal; [by rewrite !head_app; destruct pre|by rewrite last_app_cons].
    + intros x Hx. simpl. rewrite !lookup_insert_ne by set_solver. apply join_m1_off. set_solver.
    + simpl. rewrite !lseg_app. simpl. rewrite !lseg_insert by done. hrun. split_and!; eauto 10.
  - etrans; [eapply (alter_all_payload h (set_parent l)); [done|apply join_ys_nodup]|]. fold m1. payload_done.
Qed.

Lemma join_onto_empty :
  xs = [] ->
  exists h', join l o h = Ok (tt, h') /\ Rep h' (<[o := []]> (<[l := y :: ys]> L)) /\ same_payload h h'.
Proof using R Hl Ho Hlo.
  intros Hxs. pose proof (rep_list _ _ R _ _ Hl) as Hlist. pose proof (rep_list _ _ R _ _ Ho) as Holist.
  subst xs. eexists. split; [unfold join; hrun; rewrite join_walk; hrun; done|]. split.
  - eapply (rep_append _ _ _ _ _ []); [done..| | |].
    + simpl. by rewrite insert_insert_eq.
    + simpl. intros x Hx. by apply join_m1_off.
    + apply join_m1_seg.
  - intros x. exact (alter_all_payload h (set_parent l) (y :: ys) ltac:(done) join_ys_nodup x).
Qed.
End join.

Lemma join_rep h L l o xs ys :
  Rep h L -> l <> o -> L !! l = Some xs -> L !! o = Some ys ->
  exists h', join l o h = Ok (tt, h') /\ Rep h' (<[o := []]> (<[l := xs ++ ys]> L)) /\ same_payload h h'.
Proof.
  intros R Hlo Hl Ho. destruct ys as [|y ys].
  - pose proof (rep_list _ _ R _ _ Ho) as Holist.
    exists h. split; [unfold join; by hrun|]. split; [|done].
    rewrite app_nil_r, (insert_id L l), (insert_id L o); done.
  - destruct xs as [|t pre _] using rev_ind.
    + by eapply join_onto_empty.
    + by eapply join_onto_nonempty.
Qed.

Lemma same_payload_inv h h' x it' :
  same_payload h h' -> lh_items h' !! x = Some it' ->
  exists it, lh_items h !! x = Some it /\ payload it = payload it'.
Proof.
  intros Hp Hx. specialize (Hp x). rewrite Hx in Hp. simpl in Hp.
  apply fmap_Some in Hp as (it & ? & ?). eauto.
Qed.

Lemma payload_expire it it' : payload it = payload it' -> ti_expire it = ti_expire it'.
Proof. intros H. exact (f_equal ti_expire H). Qed.

Lemma same_payload_fwd h h' x it :
  same_payload h h' -> lh_items h !! x = Some it ->
  exists it', lh_items h' !! x = Some it' /\ payload it' = payload it.
Proof. intros Hp. symmetry in Hp. by apply same_payload_inv. Qed.

(** Allocating a block of empty lists at fresh addresses. *)
Lemma rep_alloc_block h L n base :
  Rep h L -> (forall k, base <= k < base + Z.of_nat n -> L !! k = None) ->
  Rep (h <| lh_lists := insert_block n base empty_list (lh_lists h) |>) (insert_block n base [] L).
Proof.
  intros R Hfresh. split; simpl.
  - apply set_eq. intros k. rewrite !elem_of_dom, !lookup_insert_block. case_decide.
    + split; eauto.
    + rewrite <- !elem_of_dom, (rep_dom _ _ R). done.
  - intros l xs. rewrite lookup_insert_block. unfold dll. simpl. rewrite lookup_insert_block.
    case_decide; [|by apply (rep_dll _ _ R)]. intros [= <-]. split_and!; [done|constructor|done].
  - intros x it l Hx Hp. destruct (rep_in _ _ R _ _ _ Hx Hp) as (xs & Hl & Hxs).
    exists xs. split; [|done]. rewrite lookup_insert_block, decide_False; [done|].
    intros Hk. rewrite Hfresh in Hl by done. done.
Qed.

(** * Deciding the representation predicate *)

Fixpoint lsegb (m : gmap Z timer_item_t) (l : Z) (p : option Z) (xs : list Z) (n : option Z) : bool :=
  match xs with
  | [] => true
  | x :: xs' =>
      match m !! x with
      | Some it => bool_decide (ti_parent it = Some l) && bool_decide (ti_prev it = p) &&
          bool_decide (ti_next it = from_option Some n (head xs'))
      | None => false
      end && lsegb m l (Some x) xs' n
  end.

Lemma lsegb_sound m l xs n : forall p, lsegb m l p xs n = true -> lseg m l p xs n.
Proof.
  induction xs as [|x xs IH]; intros p; simpl; [done|].
  intros [Hx Hxs]%andb_true_iff. split; [|by apply IH].
  destruct (m !! x) as [it|]; [|done]. exists it. split; [done|].
  rewrite !andb_true_iff, !bool_decide_eq_true in Hx. tauto.
Qed.

Definition rep_check (h : lheap) (L : alists) : bool :=
  bool_decide (dom (lh_lists h) = dom L) &&
  forallb (fun '(l, xs) => bool_decide (lh_lists h !! l = Some (mk_timer_list (head xs) (last xs))) &&
    bool_decide (NoDup xs) && lsegb (lh_items h) l None xs None) (map_to_list L) &&
  forallb (fun '(x, it) => match ti_parent it with
    | None => true
    | Some l => bool_decide (x ∈ default [] (L !! l))
    end) (map_to_list (lh_items h)).

Lemma rep_check_sound h L : rep_check h L = true -> Rep h L.
Proof.
  unfold rep_check. rewrite !andb_true_iff, !forallb_forall. intros [[Hd Hl] Hi]. split.
  - by apply bool_decide_eq_true in Hd.
  - intros l xs Hlx. specialize (Hl (l, xs)). rewrite <- list_elem_of_In, elem_of_map_to_list in Hl.
    specialize (Hl Hlx). rewrite !andb_true_iff, !bool_decide_eq_true in Hl.
    destruct Hl as [[? ?] ?]. split_and!; [done..|]. by apply lsegb_sound.
  - intros x it l Hx Hp. specialize (Hi (x, it)). rewrite <- list_elem_of_In, elem_of_map_to_list in Hi.
    specialize (Hi Hx). simpl in Hi. rewrite Hp in Hi. apply bool_decide_eq_true in Hi.
    destruct (L !! l) as [xs|]; [eauto|set_solver].
Qed.
