(* ===== verification/ListProgram.v ===== *)
(** Programs over the timer lists: every finite sequence of [popHead],
    [join], [add_tail] and [remove_from_link] on live objects simulates the
    same sequence of operations on mathematical lists. *)

From stdpp Require Import gmap list.
From S2P Require Import Prelude TimerList TimerListSpec.

(** * The abstract machine *)

Inductive list_op :=
  | Op_popHead (l : Z)
  | Op_join (l o : Z)
  | Op_add_tail (l x : Z)
  | Op_remove_from_link (x : Z).

Definition run_op (op : list_op) : M lheap unit :=
  match op with
  | Op_popHead l => popHead l
  | Op_join l o => join l o
  | Op_add_tail l x => add_tail l x
  | Op_remove_from_link x => remove_from_link x
  end.

Fixpoint run_ops (ops : list list_op) : M lheap unit :=
  match ops with
  | [] => mret tt
  | op :: ops' => run_op op;; run_ops ops'
  end.

(** [x] is in one of the lists. *)
Definition linked (L : alists) (x : Z) : Prop := map_Exists (fun _ xs => x ∈ xs) L.
#[export] Instance linked_dec L x : Decision (linked L x).
Proof. unfold linked. apply _. Defined.

(** [x] is in none of the lists afterwards. *)
Definition unlink (x : Z) (L : alists) : alists := filter (.≠ x) <$> L.

(** One operation, [items] being the live items; [None] when it names an
    object that does not exist, or joins a list to itself. *)
Definition abs_op (items : gset Z) (op : list_op) (L : alists) : option alists :=
  match op with
  | Op_popHead l => xs ← L !! l; Some (<[l := tail xs]> L)
  | Op_join l o =>
      xs ← L !! l; ys ← L !! o;
      if decide (l = o) then None else Some (<[o := []]> (<[l := xs ++ ys]> L))
  | Op_add_tail l x =>
      xs ← L !! l;
      if decide (x ∈ items) then
        if decide (linked L x) then Some L else Some (<[l := xs ++ [x]]> L)
      else None
  | Op_remove_from_link x => if decide (x ∈ items) then Some (unlink x L) else None
  end.

Fixpoint abs_ops (items : gset Z) (ops : list list_op) (L : alists) : option alists :=
  match ops with
  | [] => Some L
  | op :: ops' => L' ← abs_op items op L; abs_ops items ops' L'
  end.

(** * Linked items and their parents *)

Lemma filter_ne_id (x : Z) (xs : list Z) : x ∉ xs -> filter (.≠ x) xs = xs.
Proof.
  induction xs as [|y xs IH]; intros Hx; [done|].
  rewrite filter_cons_True by set_solver. rewrite IH; set_solver.
Qed.

Section linked.
Context (h : lheap) (L : alists) (R : Rep h L).

Lemma linked_parent x it :
  lh_items h !! x = Some it -> linked L x <-> exists l, ti_parent it = Some l.
Proof using R.
  intros Hx. split.
  - intros (l & xs & Hl & Hin). destruct (rep_parent _ _ R _ _ _ Hl Hin) as (it' & Hx' & Hp).
    rewrite Hx in Hx'. injection Hx' as <-. eauto.
  - intros [l Hp]. destruct (rep_in _ _ R _ _ _ Hx Hp) as (xs & Hl & Hin). by exists l, xs.
Qed.

Lemma linked_live x : linked L x -> x ∈ dom (lh_items h).
Proof using R.
  intros (l & xs & Hl & Hin). destruct (rep_parent _ _ R _ _ _ Hl Hin) as (it & Hx & _).
  apply elem_of_dom. eauto.
Qed.

Lemma unlink_not_linked x : ~ linked L x -> unlink x L = L.
Proof using.
  intros Hx. apply map_eq. intros l. unfold unlink. rewrite lookup_fmap.
  destruct (L !! l) as [xs|] eqn:Hl; csimpl; [|done]. f_equal. apply filter_ne_id.
  intros Hin. apply Hx. by exists l, xs.
Qed.

(** Removing a linked item changes the list it is in, and no other. *)
Lemma unlink_linked l pre x post :
  L !! l = Some (pre ++ x :: post) -> unlink x L = <[l := pre ++ post]> L.
Proof using R.
  intros Hl. apply map_eq. intros l'. unfold unlink. rewrite lookup_fmap.
  destruct (decide (l' = l)) as [->|Hne].
  - rewrite Hl, lookup_insert_eq. csimpl. f_equal.
    pose proof (rep_nodup _ _ R _ _ Hl) as Hnd. apply NoDup_mid in Hnd as (H1 & H2 & _).
    rewrite filter_app, filter_cons_False by tauto. by rewrite !filter_ne_id.
  - rewrite lookup_insert_ne by done. destruct (L !! l') as [xs|] eqn:Hl'; csimpl; [|done].
    f_equal. apply filter_ne_id. intros Hin. apply Hne.
    eapply (rep_disjoint _ _ R l' l); eauto. set_solver.
Qed.

Lemma remove_from_link_unlink x :
  x ∈ dom (lh_items h) ->
  exists h', remove_from_link x h = Ok (tt, h') /\ Rep h' (unlink x L) /\ same_payload h h'.
Proof using R.
  intros [it Hx]%elem_of_dom. destruct (decide (linked L x)) as [Hlk|Hlk].
  - destruct Hlk as (l & xs & Hl & (pre & post & ->)%list_elem_of_split).
    rewrite (unlink_linked _ _ _ _ Hl). by apply (remove_from_link_rep _ _ R).
  - rewrite (unlink_not_linked _ Hlk). exists h. split; [|split; [done|reflexivity]].
    apply (remove_from_link_detached_noop _ _ _ Hx).
    destruct (ti_parent it) as [l|] eqn:Hp; [|done]. destruct Hlk. apply (linked_parent _ _ Hx). eauto.
Qed.
End linked.

Lemma same_payload_dom h h' : same_payload h h' -> dom (lh_items h') = dom (lh_items h).
Proof.
  intros Hs. apply set_eq. intros x. rewrite !elem_of_dom.
  specialize (Hs x). destruct (lh_items h !! x), (lh_items h' !! x); naive_solver.
Qed.

(** * The simulation *)

Lemma run_op_simulates h L op L' :
  Rep h L -> abs_op (dom (lh_items h)) op L = Some L' ->
  exists h', run_op op h = Ok (tt, h') /\ Rep h' L' /\ same_payload h h'.
Proof.
  intros R H. destruct op as [l|l o|l x|x]; simpl in H |- *.
  - apply bind_Some in H as (xs & Hl & [= <-]). by apply popHead_rep.
  - apply bind_Some in H as (xs & Hl & H). apply bind_Some in H as (ys & Ho & H).
    case_decide; [done|]. injection H as <-. by apply join_rep.
  - apply bind_Some in H as (xs & Hl & H). case_decide as Hx; [|done].
    apply elem_of_dom in Hx as [it Hx]. pose proof (linked_parent _ _ R _ _ Hx) as Hpar.
    case_decide as Hlk; injection H as <-.
    + apply Hpar in Hlk as [p Hp]. exists h. split; [|split; [done|reflexivity]].
      by eapply add_tail_linked_noop.
    + eapply add_tail_rep; [done|done| |done].
      destruct (ti_parent it) eqn:Hp; [|done]. destruct Hlk. apply Hpar. eauto.
  - case_decide; [|done]. injection H as <-. by apply remove_from_link_unlink.
Qed.

(** C15. Every sequence of list operations on live objects runs without
    fault on the linked structures, and its effect is that of the same
    operations on mathematical lists: [popHead] drops the first element,
    [join] appends one list to another and empties it, [add_tail] appends an
    item unless it is already in a list, [remove_from_link] takes an item out
    of whatever list it is in.  Deadlines and callbacks of the items are
    untouched. *)
Theorem list_program_refines h L ops L' :
  Rep h L -> abs_ops (dom (lh_items h)) ops L = Some L' ->
  exists h', run_ops ops h = Ok (tt, h') /\ Rep h' L' /\ same_payload h h'.
Proof.
  revert h L. induction ops as [|op ops IH]; intros h L R H; simpl in H.
  { injection H as <-. by exists h. }
  apply bind_Some in H as (L1 & H1 & H).
  destruct (run_op_simulates _ _ _ _ R H1) as (h1 & Hrun & R1 & Hs1).
  rewrite <- (same_payload_dom _ _ Hs1) in H.
  destruct (IH _ _ R1 H) as (h2 & Hrun2 & R2 & Hs2).
  exists h2. split; [|split; [done|by etrans]]. simpl. by rewrite (bind_Ok _ _ _ _ _ Hrun).
Qed.

(** Two empty lists at 100 and 101, and four detached items. *)
Definition demo_item : timer_item_t := mk_timer_item None None None 0 None None None None 0.
Definition demo_heap : lheap :=
  mk_lheap (list_to_map ((fun x => (x, demo_item)) <$> [1; 2; 3; 4]))
           (list_to_map [(100, empty_list); (101, empty_list)]).
Definition demo_lists : alists := list_to_map [(100, []); (101, [])].
Definition demo_ops : list list_op :=
  [Op_add_tail 100 1; Op_add_tail 100 2; Op_add_tail 101 3; Op_add_tail 101 4; Op_add_tail 100 3;
   Op_remove_from_link 3; Op_join 100 101; Op_popHead 100; Op_add_tail 100 1].

Lemma list_program_refines_witness :
  exists h', run_ops demo_ops demo_heap = Ok (tt, h') /\
    Rep h' (list_to_map [(100, [2; 4; 1]); (101, [])]) /\ same_payload demo_heap h'.
Proof.
  apply (list_program_refines demo_heap demo_lists).
  - apply rep_check_sound. vm_compute. reflexivity.
  - vm_compute. reflexivity.
Defined.
