(* ===== verification/TimerWheel.v ===== *)
(** The timing wheel of src/src/epoll.c: [struct epoll_timer_t],
    [alloc_timer], [free_timer], [takeAllTimeout], [add_timeout], and the
    clock it is driven by, [GetTickMS] of src/src/misc.c. *)

From stdpp Require Import gmap list.
From S2P Require Import Prelude TimerList.

(** * The clock *)

(** What [gettimeofday] stores. *)
Record timeval := mk_timeval { tv_sec : Z; tv_usec : Z }.

#[export] Instance eta_timeval : Eta timeval := fun r => mk_timeval (tv_sec r) (tv_usec r).

#[export] Instance timeval_eq_dec : EqDecision timeval.
Proof. solve_decision. Defined.

Definition GetTickMS (now : timeval) : Z :=
  let u := to_ullong (tv_sec now) in
  let u := to_ullong (u * 1000) in
  let u := to_ullong (u + to_ullong (Z.quot (tv_usec now) 1000)) in
  u.

(** * The wheel *)

Record epoll_timer_t := mk_epoll_timer {
  et_size : Z;
  et_items : Z;           (* address of the array of [et_size] lists *)
  et_start : Z;           (* unsigned long long *)
  et_start_idx : Z        (* long long *)
}.

#[export] Instance eta_epoll_timer : Eta epoll_timer_t := fun r =>
  mk_epoll_timer (et_size r) (et_items r) (et_start r) (et_start_idx r).

(** [calloc(size, sizeof(timer_list_t))]. *)
Definition calloc_lists (size : Z) : M lheap Z := fun h =>
  let base := fresh_addr (lh_lists h) in
  Ok (base, h <| lh_lists := insert_block (Z.to_nat size) base empty_list (lh_lists h) |>).

Definition alloc_timer (size : Z) (now : timeval) : M lheap epoll_timer_t :=
  items ← calloc_lists size;
  mret (mk_epoll_timer size items (GetTickMS now) 0).

Definition free_timer (timer : epoll_timer_t) : M lheap unit :=
  modify (fun h => h <| lh_lists := delete_block (Z.to_nat (et_size timer)) (et_items timer) (lh_lists h) |>).

(** [timer->items + idx], defined inside the array only. *)
Definition slot_addr (timer : epoll_timer_t) (idx : Z) : M lheap Z :=
  if bool_decide (0 <= idx < et_size timer) then mret (et_items timer + idx) else fail OutOfBounds.

(** [a % size] on long long. *)
Definition rem_size (timer : epoll_timer_t) (a : Z) : M lheap Z :=
  if bool_decide (et_size timer = 0) then fail DivByZero else mret (Z.rem a (et_size timer)).

(** [if (timer->start == 0) { timer->start = now; timer->start_idx = 0; }] *)
Definition init_start (timer : epoll_timer_t) (now : Z) : epoll_timer_t :=
  if et_start timer =? 0 then timer <| et_start := now |> <| et_start_idx := 0 |> else timer.

(** The [for] loop of [takeAllTimeout], [n] iterations from index [i]. *)
Fixpoint take_slots (n : nat) (i : Z) (timer : epoll_timer_t) (result : Z) : M lheap unit :=
  match n with
  | O => mret tt
  | S n' =>
      r ← rem_size timer (to_llong (et_start_idx timer + i));
      slot ← slot_addr timer (to_int r);
      join result slot;;
      take_slots n' (i + 1) timer result
  end.

Definition takeAllTimeout (timer : epoll_timer_t) (now result : Z) : M lheap epoll_timer_t :=
  let timer := init_start timer now in
  if now <? et_start timer then mret timer
  else
    let cnt := to_int (to_ullong (to_ullong (now - et_start timer) + 1)) in
    let cnt := if et_size timer <? cnt then et_size timer else cnt in
    if cnt <? 0 then mret timer
    else
      take_slots (Z.to_nat cnt) 0 timer result;;
      let timer := timer <| et_start := now |> in
      mret (timer <| et_start_idx := to_llong (et_start_idx timer + to_int (cnt - 1)) |>).

Definition add_timeout (timer : epoll_timer_t) (item now : Z) : M lheap (Z * epoll_timer_t) :=
  let timer := init_start timer now in
  if now <? et_start timer then mret (-1, timer)
  else
    it ← get_item item;
    if ti_expire it <? now then mret (-1, timer)
    else
      let diff := to_int (to_ullong (ti_expire it - et_start timer)) in
      if et_size timer <=? diff then mret (-1, timer)
      else
        r ← rem_size timer (to_llong (et_start_idx timer + diff));
        slot ← slot_addr timer r;
        add_tail slot item;;
        mret (0, timer).
