(* ===== verification/TimerWheelSpec.v ===== *)
(** Correctness of the timing wheel: the invariant that ties every pending
    item to the slot of its deadline, its preservation by [add_timeout] and
    [takeAllTimeout], and the exactness of the set of expired items. *)

From Stdlib Require Import Sorted.
From stdpp Require Import gmap list.
From S2P Require Import Prelude TimerList TimerListSpec TimerWheel.

(** * Slots in deadline order *)

(** Address of the slot of the deadline [start + j]. *)
Definition slot (timer : epoll_timer_t) (j : Z) : Z :=
  et_items timer + (et_start_idx timer + j) `mod` et_size timer.

(** The items waiting for the deadline [start + j]. *)
Definition bucket (L : alists) (timer : epoll_timer_t) (j : Z) : list Z :=
  default [] (L !! slot timer j).

(** The shape of a wheel: a proper array of lists. *)
Record wheel_shape (timer : epoll_timer_t) (L : alists) : Prop := {
  ws_size : 0 < et_size timer < 2 ^ 31;
  ws_idx : 0 <= et_start_idx timer /\ et_start_idx timer + et_size timer < 2 ^ 63;
  ws_slots : forall i, 0 <= i < et_size timer -> is_Some (L !! (et_items timer + i))
}.

(** The invariant: an item waiting in the slot of [start + j] expires at
    exactly [start + j]. *)
Record Wheel (h : lheap) (timer : epoll_timer_t) (L : alists) : Prop := {
  wh_rep : Rep h L;
  wh_shape : wheel_shape timer L;
  wh_start : 0 < et_start timer < 2 ^ 64;
  wh_expire : forall j x it, 0 <= j < et_size timer -> x ∈ bucket L timer j ->
    lh_items h !! x = Some it -> ti_expire it = et_start timer + j
}.

(** An item is pending when it is in one of the slots. *)
Definition pending (L : alists) (timer : epoll_timer_t) (x : Z) : Prop :=
  exists j, 0 <= j < et_size timer /\ x ∈ bucket L timer j.

(** [l] is not one of the wheel's own lists. *)
Definition off_wheel (timer : epoll_timer_t) (l : Z) : Prop :=
  ~ (et_items timer <= l < et_items timer + et_size timer).

Section slots.
Context (timer : epoll_timer_t) (L : alists) (W : wheel_shape timer L).

Lemma slot_range j : et_items timer <= slot timer j < et_items timer + et_size timer.
Proof using W.
  unfold slot. pose proof (Z.mod_pos_bound (et_start_idx timer + j) (et_size timer)).
  destruct W. lia.
Qed.

Lemma slot_inj j k :
  0 <= j < et_size timer -> 0 <= k < et_size timer -> slot timer j = slot timer k -> j = k.
Proof using W.
  intros Hj Hk Heq. destruct W as [Hs _ _]. unfold slot in Heq.
  set (n := et_size timer) in *. set (s := et_start_idx timer) in *.
  pose proof (Z.div_mod (s + j) n ltac:(lia)). pose proof (Z.div_mod (s + k) n ltac:(lia)).
  assert (n * ((s + j) / n - (s + k) / n) = j - k) as Hd by lia.
  assert ((s + j) / n - (s + k) / n = 0) by nia. nia.
Qed.

Lemma slot_live j : exists xs, L !! slot timer j = Some xs /\ bucket L timer j = xs.
Proof using W.
  pose proof (slot_range j) as Hr. destruct W as [_ _ Hs].
  destruct (Hs (slot timer j - et_items timer)) as [xs Hxs]; [lia|].
  replace (et_items timer + (slot timer j - et_items timer)) with (slot timer j) in Hxs by lia.
  exists xs. unfold bucket. by rewrite Hxs.
Qed.

(** Every slot of the array is the slot of one deadline. *)
Lemma slot_surj i :
  0 <= i < et_size timer -> exists j, 0 <= j < et_size timer /\ slot timer j = et_items timer + i.
Proof using W.
  intros Hi. destruct W as [Hs _ _]. unfold slot.
  exists ((i - et_start_idx timer) `mod` et_size timer).
  split; [apply Z.mod_pos_bound; lia|].
  rewrite Zplus_mod_idemp_r. f_equal.
  replace (et_start_idx timer + (i - et_start_idx timer)) with i by lia. by apply Z.mod_small.
Qed.

(** The index computed by the code is the slot of the deadline. *)
Lemma rem_slot j h :
  0 <= j < et_size timer ->
  rem_size timer (to_llong (et_start_idx timer + j)) h = Ok (slot timer j - et_items timer, h).
Proof using W.
  intros Hj. destruct W as [Hs Hi _]. rewrite to_llong_small by lia.
  unfold rem_size. rewrite bool_decide_eq_false_2 by lia. mrun.
  rewrite Z.rem_mod_nonneg by lia. unfold slot. do 2 f_equal. lia.
Qed.

Lemma addr_slot j h : slot_addr timer (slot timer j - et_items timer) h = Ok (slot timer j, h).
Proof using W.
  pose proof (slot_range j). unfold slot_addr. rewrite bool_decide_eq_true_2 by lia.
  mrun. do 2 f_equal. lia.
Qed.

Lemma slot_offset_int j : to_int (slot timer j - et_items timer) = slot timer j - et_items timer.
Proof using W. pose proof (slot_range j). destruct W. apply to_int_small. lia. Qed.

(** Only the wheel's own lists matter for its shape. *)
Lemma wheel_shape_dom L' : dom L' = dom L -> wheel_shape timer L'.
Proof using W.
  intros Hd. destruct W. split; [done..|]. intros i Hi.
  apply elem_of_dom. rewrite Hd. apply elem_of_dom. eauto.
Qed.
End slots.

(** * [take_slots] *)

(** The effect on the abstract lists of taking the buckets [i .. i + n - 1]. *)
Record taken (L L' : alists) (timer : epoll_timer_t) (r : Z) (rs : list Z) (i n : Z) : Prop := {
  tk_result : L' !! r = Some (rs ++ (seqZ i n ≫= bucket L timer));
  tk_slots : forall j, i <= j < i + n -> L' !! slot timer j = Some [];
  tk_frame : forall l, l <> r -> (forall j, i <= j < i + n -> l <> slot timer j) -> L' !! l = L !! l
}.

Lemma taken_step L L' timer r rs i n :
  wheel_shape timer L -> off_wheel timer r -> 0 <= i -> 0 <= n -> i + n < et_size timer ->
  taken (<[slot timer i := []]> (<[r := rs ++ bucket L timer i]> L)) L' timer r
    (rs ++ bucket L timer i) (i + 1) n ->
  taken L L' timer r rs i (n + 1).
Proof.
  intros W Hoff Hi Hn Hsz [Tr Ts Tf]. pose proof (slot_range _ _ W) as Hrange.
  assert (forall j, r <> slot timer j) as Hr by (intros j; specialize (Hrange j); unfold off_wheel in Hoff; lia).
  split.
  - rewrite Tr, (seqZ_cons i), bind_cons, <- app_assoc by lia. do 3 f_equal.
    replace (Z.pred (n + 1)) with n by lia. replace (Z.succ i) with (i + 1) by lia.
    apply Forall_bind_ext, Forall_forall. intros j Hj%elem_of_seqZ. unfold bucket.
    rewrite lookup_insert_ne; [rewrite lookup_insert_ne; [done|apply Hr]|].
    intros Heq. apply (slot_inj _ _ W) in Heq; lia.
  - intros j Hj. destruct (decide (j = i)) as [->|]; [|apply Ts; lia].
    rewrite Tf; [by rewrite lookup_insert_eq|by apply not_eq_sym, Hr|].
    intros j' Hj' Heq. apply (slot_inj _ _ W) in Heq; lia.
  - intros l Hl Hls. rewrite Tf; [|done|intros j Hj; apply Hls; lia].
    rewrite !lookup_insert_ne; [done|done|]. apply not_eq_sym, Hls. lia.
Qed.

Lemma take_slots_rep timer r : forall n i h L rs,
  Rep h L -> wheel_shape timer L -> off_wheel timer r -> L !! r = Some rs ->
  0 <= i -> i + Z.of_nat n <= et_size timer ->
  exists h' L', take_slots n i timer r h = Ok (tt, h') /\ Rep h' L' /\ same_payload h h' /\
    dom L' = dom L /\ taken L L' timer r rs i (Z.of_nat n).
Proof.
  induction n as [|n IH]; intros i h L rs R W Hoff Hr Hi Hn.
  - exists h, L. split_and!; [done..|]. split; [|lia|done]. simpl. by rewrite app_nil_r.
  - destruct (slot_live _ _ W i) as (xs & Hxs & Hb).
    pose proof (slot_range _ _ W i) as Hrange.
    assert (r <> slot timer i) as Hne by (unfold off_wheel in Hoff; lia).
    destruct (join_rep _ _ _ _ _ _ R Hne Hr Hxs) as (h1 & Hjoin & R1 & Hp1).
    set (L1 := <[slot timer i := []]> (<[r := rs ++ xs]> L)) in *.
    assert (dom L1 = dom L) as Hd1.
    { unfold L1. rewrite !dom_insert_L. apply elem_of_dom_2 in Hr, Hxs. set_solver. }
    destruct (IH (i + 1) h1 L1 (rs ++ xs)) as (h' & L' & Hrun & R' & Hp' & Hd' & T);
      [done|by eapply wheel_shape_dom|done| |lia..|].
    { unfold L1. by rewrite lookup_insert_ne, lookup_insert_eq. }
    exists h', L'. split_and!; [|done|by etrans|congruence|].
    + simpl. erewrite bind_Ok by (apply (rem_slot _ _ W); lia).
      rewrite (slot_offset_int _ _ W). erewrite bind_Ok by apply (addr_slot _ _ W).
      by erewrite bind_Ok by exact Hjoin.
    + replace (Z.of_nat (S n)) with (Z.of_nat n + 1) by lia.
      apply taken_step; [done..|lia|lia|]. rewrite Hb. exact T.
Qed.

(** * The abstract timer queue

    What the wheel promises: a finite map from pending items to deadlines. *)

Definition Queue (h : lheap) (timer : epoll_timer_t) (L : alists) (Q : gmap Z Z) : Prop :=
  forall x e, Q !! x = Some e <->
    pending L timer x /\ exists it, lh_items h !! x = Some it /\ ti_expire it = e.

(** The items of the list come in the order of their deadlines. *)
Definition in_deadline_order (Q : gmap Z Z) (xs : list Z) : Prop :=
  StronglySorted (fun x y => forall ex ey, Q !! x = Some ex -> Q !! y = Some ey -> ex <= ey) xs.

(** The queue without what is due at [now]. *)
Definition later_than (now : Z) (Q : gmap Z Z) : gmap Z Z := filter (fun p => now < p.2) Q.

Section queue.
Context (h : lheap) (timer : epoll_timer_t) (L : alists) (W : Wheel h timer L).

Lemma wheel_bucket_live j x :
  x ∈ bucket L timer j -> exists it, lh_items h !! x = Some it.
Proof using W.
  destruct W as [R S _ _]. destruct (slot_live _ _ S j) as (xs & Hxs & ->). intros Hx.
  destruct (rep_parent _ _ R _ _ _ Hxs Hx) as (it & ? & _). eauto.
Qed.

Lemma queue_lookup Q x e :
  Queue h timer L Q -> (Q !! x = Some e <->
    exists j, 0 <= j < et_size timer /\ x ∈ bucket L timer j /\ e = et_start timer + j).
Proof using W.
  intros HQ. rewrite (HQ x e). split.
  - intros [(j & Hj & Hx) (it & Hit & <-)]. exists j. split_and!; [lia..|done|].
    by eapply (wh_expire _ _ _ W).
  - intros (j & Hj & Hx & ->). split; [by exists j|].
    destruct (wheel_bucket_live _ _ Hx) as [it Hit]. exists it. split; [done|].
    by eapply (wh_expire _ _ _ W).
Qed.

Lemma queue_intro Q :
  (forall x e, Q !! x = Some e <->
    exists j, 0 <= j < et_size timer /\ x ∈ bucket L timer j /\ e = et_start timer + j) ->
  Queue h timer L Q.
Proof using W.
  intros HQ x e. rewrite HQ. split.
  - intros (j & Hj & Hx & ->). split; [by exists j|].
    destruct (wheel_bucket_live _ _ Hx) as [it Hit]. exists it. split; [done|].
    by eapply (wh_expire _ _ _ W).
  - intros [(j & Hj & Hx) (it & Hit & <-)]. exists j. split_and!; [lia..|done|].
    by eapply (wh_expire _ _ _ W).
Qed.

(** Items of the same bucket are found with the same deadline. *)
Lemma queue_bucket Q j x e :
  Queue h timer L Q -> 0 <= j < et_size timer -> x ∈ bucket L timer j -> Q !! x = Some e ->
  e = et_start timer + j.
Proof using W.
  intros HQ Hj Hx He. apply (queue_lookup _ _ _ HQ) in He as (k & Hk & Hx' & ->).
  destruct (wheel_bucket_live _ _ Hx) as [it Hit].
  pose proof (wh_expire _ _ _ W _ _ _ Hj Hx Hit). pose proof (wh_expire _ _ _ W _ _ _ Hk Hx' Hit). lia.
Qed.

Lemma buckets_in_order Q n : forall i,
  Queue h timer L Q -> 0 <= i -> i + Z.of_nat n <= et_size timer ->
  in_deadline_order Q (seqZ i (Z.of_nat n) ≫= bucket L timer).
Proof using W.
  induction n as [|n IH]; intros i HQ Hi Hn; [by constructor|].
  rewrite seqZ_cons, bind_cons by lia.
  replace (Z.succ i) with (i + 1) by lia. replace (Z.pred (Z.of_nat (S n))) with (Z.of_nat n) by lia.
  specialize (IH (i + 1) HQ ltac:(lia) ltac:(lia)).
  assert (forall x y ex ey, x ∈ bucket L timer i ->
    y ∈ bucket L timer i ++ (seqZ (i + 1) (Z.of_nat n) ≫= bucket L timer) ->
    Q !! x = Some ex -> Q !! y = Some ey -> ex <= ey) as Hle.
  { intros x y ex ey Hx Hy Hex Hey.
    apply (queue_bucket _ i) in Hex; [|done|lia|done].
    apply elem_of_app in Hy as [Hy|(j & Hy & Hj%elem_of_seqZ)%list_elem_of_bind].
    - apply (queue_bucket _ i) in Hey; [lia|done|lia|done].
    - apply (queue_bucket _ j) in Hey; [lia|done|lia|done]. }
  revert Hle. induction (bucket L timer i) as [|x xs IHx]; intros Hle; [exact IH|].
  constructor.
  - apply IHx. intros; eapply Hle; [..|done|done]; set_solver.
  - apply Forall_forall. intros y Hy ex ey. apply Hle; set_solver.
Qed.
End queue.

(** * [takeAllTimeout] *)

(** The wheel after [cnt] slots have been taken at time [now]. *)
Definition advanced (timer : epoll_timer_t) (now cnt : Z) : epoll_timer_t :=
  timer <| et_start := now |> <| et_start_idx := et_start_idx timer + (cnt - 1) |>.

(** Number of slots [takeAllTimeout] visits when no conversion truncates. *)
Definition due_slots (timer : epoll_timer_t) (now : Z) : Z :=
  Z.min (et_size timer) (now - et_start timer + 1).

Lemma slot_advanced timer now cnt j :
  slot (advanced timer now cnt) j = slot timer (cnt - 1 + j).
Proof. unfold slot. simpl. do 2 f_equal. lia. Qed.

(** What is left in the buckets of the advanced wheel. *)
Lemma bucket_advanced timer L L' now r rs cnt j :
  wheel_shape timer L -> off_wheel timer r -> 1 <= cnt <= et_size timer ->
  taken L L' timer r rs 0 cnt -> 0 <= j < et_size timer ->
  bucket L' (advanced timer now cnt) j =
    if decide (1 <= j /\ cnt - 1 + j < et_size timer) then bucket L timer (cnt - 1 + j) else [].
Proof.
  intros S Hoff Hc [_ Ts Tf] Hj. unfold bucket. rewrite slot_advanced. case_decide as Hd.
  - rewrite Tf; [done|..].
    + intros Heq. apply Hoff. rewrite <- Heq. apply (slot_range _ _ S).
    + intros k Hk Heq. apply (slot_inj _ _ S) in Heq; lia.
  - destruct (decide (cnt - 1 + j < et_size timer)).
    + rewrite Ts by lia. done.
    + replace (slot timer (cnt - 1 + j)) with (slot timer (cnt - 1 + j - et_size timer)).
      { rewrite Ts by lia. done. }
      unfold slot. f_equal.
      replace (et_start_idx timer + (cnt - 1 + j - et_size timer))
        with (et_start_idx timer + (cnt - 1 + j) + (-1) * et_size timer) by lia.
      destruct S. apply Z_mod_plus_full.
Qed.

Lemma takeAllTimeout_run h timer L now r rs :
  Wheel h timer L -> off_wheel timer r -> L !! r = Some rs ->
  et_start timer <= now < 2 ^ 64 -> now - et_start timer < 2 ^ 31 - 1 ->
  et_start_idx timer + 2 * et_size timer < 2 ^ 63 ->
  let cnt := due_slots timer now in
  exists h' L', takeAllTimeout timer now r h = Ok (advanced timer now cnt, h') /\
    Rep h' L' /\ same_payload h h' /\ dom L' = dom L /\ taken L L' timer r rs 0 cnt.
Proof.
  intros [R S Hst _] Hoff Hr Hnow Hgap Hidx cnt. destruct (id S) as [Hs Hi _].
  assert (1 <= cnt <= et_size timer) as Hc by (unfold cnt, due_slots; lia).
  destruct (take_slots_rep timer r (Z.to_nat cnt) 0 h L rs) as (h' & L' & Hrun & ? & ? & ? & HT);
    [done..|lia|lia|].
  rewrite Z2Nat.id in HT by lia. exists h', L'. split_and!; [|done..].
  unfold takeAllTimeout, init_start. rewrite (proj2 (Z.eqb_neq _ _)) by lia.
  rewrite (proj2 (Z.ltb_ge _ _)) by lia.
  rewrite (to_ullong_small (now - et_start timer)), to_ullong_small, to_int_small by lia.
  replace (if et_size timer <? now - et_start timer + 1 then et_size timer else now - et_start timer + 1)
    with cnt by (unfold cnt, due_slots; destruct (Z.ltb_spec (et_size timer) (now - et_start timer + 1)); lia).
  rewrite (proj2 (Z.ltb_ge cnt 0)) by lia.
  erewrite bind_Ok by exact Hrun. mrun. unfold advanced. simpl.
  rewrite to_int_small, to_llong_small by lia. done.
Qed.

Section take.
Context (h h' : lheap) (timer : epoll_timer_t) (L L' : alists) (now r : Z) (rs : list Z).
Context (W : Wheel h timer L) (Hoff : off_wheel timer r).
Context (Hnow : et_start timer <= now < 2 ^ 64).
Context (Hidx : et_start_idx timer + 2 * et_size timer < 2 ^ 63).
Context (R' : Rep h' L') (Hp : same_payload h h') (Hd : dom L' = dom L).
Let cnt := due_slots timer now.
Context (HT : taken L L' timer r rs 0 cnt).

Let S := wh_shape _ _ _ W.

Lemma cnt_range : 1 <= cnt <= et_size timer.
Proof using All. unfold cnt, due_slots. destruct S as [Hs _ _]. lia. Qed.

(** What stays pending is what was in the slots not visited. *)
Lemma bucket_after j x :
  0 <= j < et_size timer -> x ∈ bucket L' (advanced timer now cnt) j ->
  x ∈ bucket L timer (cnt - 1 + j) /\ 1 <= j /\ cnt - 1 + j < et_size timer /\
  et_start timer + (cnt - 1 + j) = now + j.
Proof using All.
  intros Hj. pose proof cnt_range. erewrite bucket_advanced by eauto.
  case_decide; [|set_solver]. intros Hx. split_and!; [done|lia|lia|].
  unfold cnt, due_slots in *. lia.
Qed.

Lemma wheel_after : Wheel h' (advanced timer now cnt) L'.
Proof using All.
  pose proof cnt_range. pose proof (wh_start _ _ _ W). split; [done| | |].
  - pose proof (wheel_shape_dom _ _ S _ Hd) as [? ? ?]. split; simpl; [done|lia|done].
  - simpl. lia.
  - simpl. intros j x it' Hj Hx Hit'. destruct (bucket_after _ _ Hj Hx) as (Hx' & ? & ? & <-).
    destruct (same_payload_inv _ _ _ _ Hp Hit') as (it & Hit & <-%payload_expire).
    eapply (wh_expire _ _ _ W); eauto. lia.
Qed.

Lemma queue_after Q :
  Queue h timer L Q -> Queue h' (advanced timer now cnt) L' (later_than now Q).
Proof using All.
  intros HQ. pose proof cnt_range as Hc. intros x e. unfold later_than.
  rewrite map_lookup_filter_Some, (queue_lookup _ _ _ W _ _ _ HQ). simpl. split.
  - intros [(k & Hk & Hx & ->) Hlt]. destruct (wheel_bucket_live _ _ _ W _ _ Hx) as [it Hit].
    destruct (same_payload_fwd _ _ _ _ Hp Hit) as (it' & Hit' & Hpl%payload_expire). split.
    + exists (k - (cnt - 1)). assert (cnt - 1 < k) by (unfold cnt, due_slots; lia).
      simpl. split; [lia|]. erewrite bucket_advanced by (eauto; lia). rewrite decide_True by lia.
      by replace (cnt - 1 + (k - (cnt - 1))) with k by lia.
    + exists it'. split; [done|]. rewrite Hpl. by eapply (wh_expire _ _ _ W).
  - intros [(j & Hj & Hx) (it' & Hit' & <-)].
    rewrite (wh_expire _ _ _ wheel_after _ _ _ Hj Hx Hit').
    destruct (bucket_after _ _ Hj Hx) as (Hx' & ? & ? & Heq). simpl.
    split; [|lia]. exists (cnt - 1 + j). split_and!; [lia..|done|lia].
Qed.

Lemma due_exactly Q x :
  Queue h timer L Q ->
  x ∈ seqZ 0 cnt ≫= bucket L timer <-> exists e, Q !! x = Some e /\ e <= now.
Proof using All.
  intros HQ. pose proof cnt_range as Hc. rewrite list_elem_of_bind. split.
  - intros (j & Hx & Hj%elem_of_seqZ). exists (et_start timer + j).
    rewrite (queue_lookup _ _ _ W _ _ _ HQ). unfold cnt, due_slots in Hj, Hc. split; [|lia].
    exists j. split_and!; [lia..|done|done].
  - intros (e & He & Hle). apply (queue_lookup _ _ _ W _ _ _ HQ) in He as (j & Hj & Hx & ->).
    exists j. split; [done|]. apply elem_of_seqZ. unfold cnt, due_slots. lia.
Qed.
End take.

(** The wheel refines the abstract queue: taking the expired timers appends
    to [r] exactly the items due at [now], in the order of their deadlines,
    and leaves a wheel that stands for the rest of the queue. *)
Lemma takeAllTimeout_refines h timer L Q now r rs :
  Wheel h timer L -> Queue h timer L Q -> off_wheel timer r -> L !! r = Some rs ->
  et_start timer <= now < 2 ^ 64 -> now - et_start timer < 2 ^ 31 - 1 ->
  et_start_idx timer + 2 * et_size timer < 2 ^ 63 ->
  exists h' timer' L' due,
    takeAllTimeout timer now r h = Ok (timer', h') /\
    Wheel h' timer' L' /\ Queue h' timer' L' (later_than now Q) /\
    timer' = advanced timer now (due_slots timer now) /\ dom L' = dom L /\
    L' !! r = Some (rs ++ due) /\
    (forall x, x ∈ due <-> exists e, Q !! x = Some e /\ e <= now) /\
    in_deadline_order Q due /\
    (forall l, l <> r -> off_wheel timer l -> L' !! l = L !! l) /\
    same_payload h h'.
Proof.
  intros W HQ Hoff Hr Hnow Hgap Hidx.
  destruct (takeAllTimeout_run _ _ _ _ _ _ W Hoff Hr Hnow Hgap Hidx)
    as (h' & L' & Hrun & R' & Hp & Hd & HT).
  assert (1 <= due_slots timer now <= et_size timer) as Hc by (by eapply (cnt_range h h' timer L L')).
  exists h', (advanced timer now (due_slots timer now)), L', (seqZ 0 (due_slots timer now) ≫= bucket L timer).
  split_and!; [done|by eapply wheel_after|by eapply queue_after|done|done|by apply HT| | | |done].
  - intros x. by eapply due_exactly.
  - rewrite <- (Z2Nat.id (due_slots timer now)) by lia. eapply buckets_in_order; eauto; lia.
  - intros l Hl Hloff. apply HT; [done|]. intros j Hj Heq. apply Hloff. rewrite Heq.
    apply (slot_range _ _ (wh_shape _ _ _ W)).
Qed.

(** * [add_timeout] *)

Lemma init_start_id timer now : et_start timer <> 0 -> init_start timer now = timer.
Proof. intros H. unfold init_start. by rewrite (proj2 (Z.eqb_neq _ _) H). Qed.

Lemma queue_detached h timer L Q x it :
  Wheel h timer L -> Queue h timer L Q -> lh_items h !! x = Some it -> ti_parent it = None ->
  Q !! x = None.
Proof.
  intros W HQ Hx Hp. destruct (Q !! x) as [e|] eqn:He; [|done]. exfalso.
  apply (queue_lookup _ _ _ W _ _ _ HQ) in He as (j & Hj & Hb & _).
  destruct (slot_live _ _ (wh_shape _ _ _ W) j) as (xs & Hxs & Hb'). rewrite Hb' in Hb.
  by eapply (rep_detached _ _ (wh_rep _ _ _ W)).
Qed.

(** Filling one bucket. *)
Lemma bucket_insert timer L j k xs :
  wheel_shape timer L -> 0 <= j < et_size timer -> 0 <= k < et_size timer ->
  bucket (<[slot timer j := xs]> L) timer k = if decide (k = j) then xs else bucket L timer k.
Proof.
  intros S Hj Hk. unfold bucket. case_decide as Heq.
  - subst. by rewrite lookup_insert_eq.
  - rewrite lookup_insert_ne; [done|]. intros Hs. apply (slot_inj _ _ S) in Hs; lia.
Qed.

Lemma add_timeout_run h timer L x it now :
  Wheel h timer L -> lh_items h !! x = Some it -> ti_parent it = None ->
  et_start timer <= now <= ti_expire it -> ti_expire it - et_start timer < et_size timer ->
  let j := ti_expire it - et_start timer in
  exists h', add_timeout timer x now h = Ok ((0, timer), h') /\
    Rep h' (<[slot timer j := bucket L timer j ++ [x]]> L) /\ same_payload h h'.
Proof.
  intros W Hx Hp Hnow Hfar j. destruct (id W) as [R S Hst _]. destruct (id S) as [Hs Hi _].
  destruct (slot_live _ _ S j) as (xs & Hxs & ->).
  destruct (add_tail_rep _ _ R _ _ _ _ Hx Hp Hxs) as (h' & Hrun & R' & Hpl).
  exists h'. split; [|done]. unfold add_timeout. rewrite init_start_id by lia.
  rewrite (proj2 (Z.ltb_ge _ _)) by lia. erewrite bind_Ok by (unfold get_item; by rewrite Hx).
  rewrite (proj2 (Z.ltb_ge _ _)) by lia. fold j.
  rewrite to_ullong_small, to_int_small by (unfold j; lia).
  rewrite (proj2 (Z.leb_gt _ _)) by (unfold j; lia).
  erewrite bind_Ok by (apply (rem_slot _ _ S); unfold j; lia).
  erewrite bind_Ok by apply (addr_slot _ _ S). by erewrite bind_Ok by exact Hrun.
Qed.

Section add.
Context (h h' : lheap) (timer : epoll_timer_t) (L : alists) (x j : Z) (it : timer_item_t).
Context (W : Wheel h timer L) (Hx : lh_items h !! x = Some it) (Hp : ti_parent it = None).
Context (Hj : 0 <= j < et_size timer) (He : ti_expire it = et_start timer + j).
Let L' := <[slot timer j := bucket L timer j ++ [x]]> L.
Context (R' : Rep h' L') (Hpl : same_payload h h').

Lemma add_bucket k y :
  0 <= k < et_size timer -> y ∈ bucket L' timer k <-> y ∈ bucket L timer k \/ (k = j /\ y = x).
Proof using All.
  intros Hk. unfold L'. rewrite bucket_insert by (try apply (wh_shape _ _ _ W); lia).
  case_decide; set_solver.
Qed.

Lemma add_wheel : Wheel h' timer L'.
Proof using All.
  pose proof (wh_shape _ _ _ W) as S. split; [done| |apply W|].
  - eapply wheel_shape_dom; [done|]. destruct (slot_live _ _ S j) as (xs & Hxs & _).
    apply elem_of_dom_2 in Hxs. unfold L'. rewrite dom_insert_L. set_solver.
  - intros k y ity' Hk Hy Hity'.
    destruct (same_payload_inv _ _ _ _ Hpl Hity') as (ity & Hity & <-%payload_expire).
    apply add_bucket in Hy as [Hy|[-> ->]]; [by eapply (wh_expire _ _ _ W)| |done].
    by simplify_eq.
Qed.

Lemma add_queue Q : Queue h timer L Q -> Queue h' timer L' (<[x := ti_expire it]> Q).
Proof using All.
  intros HQ. pose proof (queue_detached _ _ _ _ _ _ W HQ Hx Hp) as HQx.
  apply (queue_intro _ _ _ add_wheel). intros y e.
  destruct (decide (y = x)) as [->|Hne].
  - rewrite lookup_insert_eq. split.
    + intros [= <-]. exists j. rewrite add_bucket by done. split_and!; [lia..|by right|done].
    + intros (k & Hk & Hy & ->). apply add_bucket in Hy as [Hy|[-> _]]; [|by f_equal|done].
      exfalso. assert (Q !! x = Some (et_start timer + k)); [|congruence].
      apply (queue_lookup _ _ _ W _ _ _ HQ). eauto.
  - rewrite lookup_insert_ne, (queue_lookup _ _ _ W _ _ _ HQ) by done.
    apply exist_proper. intros k. split.
    + intros (Hk & Hy & ->). rewrite add_bucket by done. eauto.
    + intros (Hk & Hy & ->). apply add_bucket in Hy; [|done]. naive_solver.
Qed.
End add.

(** A timer whose deadline is within the wheel's horizon is accepted and
    becomes pending for that deadline. *)
Lemma add_timeout_refines h timer L Q x it now :
  Wheel h timer L -> Queue h timer L Q -> lh_items h !! x = Some it -> ti_parent it = None ->
  et_start timer <= now <= ti_expire it -> ti_expire it - et_start timer < et_size timer ->
  exists h' L', add_timeout timer x now h = Ok ((0, timer), h') /\
    Wheel h' timer L' /\ Queue h' timer L' (<[x := ti_expire it]> Q) /\
    (forall l, off_wheel timer l -> L' !! l = L !! l) /\ same_payload h h'.
Proof.
  intros W HQ Hx Hp Hnow Hfar.
  destruct (add_timeout_run _ _ _ _ _ _ W Hx Hp Hnow Hfar) as (h' & Hrun & R' & Hpl).
  set (j := ti_expire it - et_start timer) in *.
  assert (0 <= j < et_size timer) by (unfold j; lia).
  assert (ti_expire it = et_start timer + j) by (unfold j; lia).
  eexists h', _. split_and!; [done|by eapply add_wheel|by eapply add_queue| |done].
  intros l Hl. rewrite lookup_insert_ne; [done|]. intros <-. apply Hl, (slot_range _ _ (wh_shape _ _ _ W)).
Qed.

(** A timer that is already past, or beyond the horizon, or added while the
    clock is behind the wheel, is refused and nothing changes. *)
Lemma add_timeout_rejects h timer x it now :
  et_start timer <> 0 -> lh_items h !! x = Some it ->
  now < et_start timer \/ ti_expire it < now \/
    (et_start timer <= now /\ et_size timer <= ti_expire it - et_start timer < 2 ^ 31) ->
  add_timeout timer x now h = Ok ((-1, timer), h).
Proof.
  intros Hst Hx Hcase. unfold add_timeout. rewrite init_start_id by done.
  destruct (Z.ltb_spec now (et_start timer)); [done|].
  erewrite bind_Ok by (unfold get_item; by rewrite Hx).
  destruct (Z.ltb_spec (ti_expire it) now); [done|].
  rewrite to_ullong_small, to_int_small by lia.
  destruct (Z.leb_spec (et_size timer) (ti_expire it - et_start timer)); [done|lia].
Qed.

(** When the clock has stepped back before the wheel's start, a collection
    takes nothing and leaves the wheel alone. *)
Theorem takeAllTimeout_clock_back h timer now r :
  et_start timer <> 0 -> now < et_start timer -> takeAllTimeout timer now r h = Ok (timer, h).
Proof.
  intros Hst Hlt. unfold takeAllTimeout. rewrite init_start_id by done.
  by rewrite (proj2 (Z.ltb_lt _ _)).
Qed.

(** C40. When the loop has been held up for 2^31 - 1 to 2^32 - 2 ms, the
    slot count does not fit in an [int]: nothing is taken and the wheel does
    not advance, whatever is due. *)
Theorem takeAllTimeout_int_overflow h timer now r :
  et_start timer <> 0 -> 0 < et_size timer -> now < 2 ^ 64 ->
  0 <= et_start timer -> 2 ^ 31 - 1 <= now - et_start timer < 2 ^ 32 - 1 ->
  takeAllTimeout timer now r h = Ok (timer, h).
Proof.
  intros Hst Hsz Hnow H0 Hgap. unfold takeAllTimeout. rewrite init_start_id by done.
  rewrite (proj2 (Z.ltb_ge _ _)) by lia.
  rewrite (to_ullong_small (now - et_start timer)), to_ullong_small by lia.
  assert (to_int (now - et_start timer + 1) = now - et_start timer + 1 - 2 ^ 32) as ->.
  { unfold wrap_s. rewrite <- (Z_mod_plus_full _ (-1)), Z.mod_small; lia. }
  rewrite (proj2 (Z.ltb_ge (et_size timer) _)) by lia. by rewrite (proj2 (Z.ltb_lt _ 0)) by lia.
Qed.

(** * [alloc_timer] *)

(** A new wheel is well formed and empty, and disturbs no existing list. *)
Lemma alloc_timer_wheel h L size now :
  Rep h L -> 0 < size < 2 ^ 31 -> 0 < GetTickMS now ->
  exists h' timer L', alloc_timer size now h = Ok (timer, h') /\
    Wheel h' timer L' /\ Queue h' timer L' ∅ /\
    et_size timer = size /\ et_start timer = GetTickMS now /\
    (forall l xs, L !! l = Some xs -> L' !! l = Some xs /\ off_wheel timer l) /\
    (forall l xs, L' !! l = Some xs -> off_wheel timer l -> L !! l = Some xs) /\
    et_start_idx timer = 0 /\ lh_items h' = lh_items h.
Proof.
  intros R Hs Ht. set (base := fresh_addr (lh_lists h)).
  assert (forall l xs, L !! l = Some xs -> l < base) as Hold.
  { intros l xs Hl. apply (fresh_addr_spec (lh_lists h)). apply elem_of_dom.
    rewrite (rep_dom _ _ R). by eapply elem_of_dom_2. }
  set (timer := mk_epoll_timer size base (GetTickMS now) 0).
  set (L' := insert_block (Z.to_nat size) base [] L).
  assert (forall j, bucket L' timer j = []) as Hempty.
  { intros j. unfold bucket, L'. rewrite lookup_insert_block, decide_True; [done|].
    unfold slot. simpl. pose proof (Z.mod_pos_bound (0 + j) size). lia. }
  eexists _, timer, L'. split; [done|].
  assert (Wheel (h <| lh_lists := insert_block (Z.to_nat size) base empty_list (lh_lists h) |>) timer L') as W.
  { split.
    - apply rep_alloc_block; [done|]. intros k Hk. destruct (L !! k) eqn:E; [|done].
      apply Hold in E. lia.
    - split; simpl; [lia..|]. intros i Hi. unfold L'. rewrite lookup_insert_block, decide_True by lia. eauto.
    - split; [done|]. unfold GetTickMS. apply wrap_u_range. lia.
    - intros j x it _. rewrite Hempty. set_solver. }
  split_and!; [done| |done|done| | |done|done].
  - apply (queue_intro _ _ _ W). intros x e. rewrite lookup_empty. split; [done|].
    intros (j & _ & Hx & _). rewrite Hempty in Hx. set_solver.
  - intros l xs Hl. pose proof (Hold _ _ Hl). split.
    + unfold L'. rewrite lookup_insert_block, decide_False by lia. done.
    + unfold off_wheel. simpl. lia.
  - intros l xs Hl Hoff. unfold L' in Hl. rewrite lookup_insert_block, decide_False in Hl; [done|].
    unfold off_wheel in Hoff. simpl in Hoff. lia.
Qed.

(** * Deciding the wheel invariant, and the abstraction function *)

Definition wheel_check (h : lheap) (timer : epoll_timer_t) (L : alists) : bool :=
  rep_check h L &&
  bool_decide (0 < et_size timer < 2 ^ 31) &&
  bool_decide (0 <= et_start_idx timer /\ et_start_idx timer + et_size timer < 2 ^ 63) &&
  forallb (fun i => bool_decide (is_Some (L !! (et_items timer + i)))) (seqZ 0 (et_size timer)) &&
  bool_decide (0 < et_start timer < 2 ^ 64) &&
  forallb (fun j => forallb (fun x => match lh_items h !! x with
      | Some it => ti_expire it =? et_start timer + j
      | None => true
      end) (bucket L timer j)) (seqZ 0 (et_size timer)).

Lemma wheel_check_sound h timer L : wheel_check h timer L = true -> Wheel h timer L.
Proof.
  unfold wheel_check. rewrite !andb_true_iff, !bool_decide_eq_true, !forallb_forall.
  intros [[[[[HR Hs] Hi] Hsl] Hst] Hex]. split; [by apply rep_check_sound|split; [done..|]|done|].
  - intros i Hi'. specialize (Hsl i). rewrite <- list_elem_of_In, elem_of_seqZ in Hsl.
    rewrite bool_decide_eq_true in Hsl. apply Hsl. lia.
  - intros j x it Hj Hx Hit. specialize (Hex j). rewrite <- list_elem_of_In, elem_of_seqZ in Hex.
    specialize (Hex ltac:(lia)). rewrite forallb_forall in Hex. specialize (Hex x).
    rewrite <- list_elem_of_In in Hex. specialize (Hex Hx). rewrite Hit in Hex. by apply Z.eqb_eq.
Qed.

(** The queue a wheel stands for. *)
Definition queue_of (timer : epoll_timer_t) (L : alists) : gmap Z Z :=
  list_to_map (seqZ 0 (et_size timer) ≫= (fun j => (fun x => (x, et_start timer + j)) <$> bucket L timer j)).

Lemma queue_of_spec h timer L : Wheel h timer L -> Queue h timer L (queue_of timer L).
Proof.
  intros W. assert (forall x e,
    (x, e) ∈ seqZ 0 (et_size timer) ≫= (fun j => (fun x => (x, et_start timer + j)) <$> bucket L timer j) <->
    exists j, 0 <= j < et_size timer /\ x ∈ bucket L timer j /\ e = et_start timer + j) as Hel.
  { intros x e. rewrite list_elem_of_bind. apply exist_proper. intros j.
    rewrite list_elem_of_fmap, elem_of_seqZ. split.
    - intros [(y & [= -> ->] & Hy) Hj]. auto with lia.
    - intros (Hj & Hx & ->). split; [eauto|lia]. }
  apply (queue_intro _ _ _ W). intros x e. rewrite <- Hel. split.
  - apply elem_of_list_to_map_2.
  - intros Hin. apply elem_of_list_to_map_1'; [|done]. intros e' Hin'. rewrite Hel in Hin, Hin'.
    destruct Hin as (j & Hj & Hx & ->), Hin' as (k & Hk & Hx' & ->).
    destruct (wheel_bucket_live _ _ _ W _ _ Hx) as [it Hit].
    pose proof (wh_expire _ _ _ W _ _ _ Hj Hx Hit). pose proof (wh_expire _ _ _ W _ _ _ Hk Hx' Hit). lia.
Qed.

(** * Witnesses *)

Definition demo_timer : epoll_timer_t := mk_epoll_timer 60000 1 5000 0.
Definition demo_timer_heap : lheap := mk_lheap ∅ ∅.

Lemma takeAllTimeout_clock_back_witness :
  takeAllTimeout demo_timer 4999 7 demo_timer_heap = Ok (demo_timer, demo_timer_heap).
Proof.
  apply (takeAllTimeout_clock_back demo_timer_heap demo_timer 4999 7).
  - discriminate.
  - reflexivity.
Defined.

Lemma takeAllTimeout_int_overflow_witness :
  takeAllTimeout demo_timer (5000 + 2 ^ 31) 7 demo_timer_heap = Ok (demo_timer, demo_timer_heap).
Proof.
  apply (takeAllTimeout_int_overflow demo_timer_heap demo_timer (5000 + 2 ^ 31) 7); simpl; lia.
Defined.
