(* ===== verification/TimerFrame.v ===== *)
(** Frame lemmas of the timer structures: what may change around a list or a
    wheel without disturbing it (the payload of items, detached items, other
    lists), and the removal of an item from the wheel. *)

From stdpp Require Import gmap list.
From S2P Require Import Prelude TimerList TimerListSpec TimerWheel TimerWheelSpec ListProgram.

(** * Lists *)

Definition links (it : timer_item_t) : option Z * option Z * option Z :=
  (ti_prev it, ti_next it, ti_parent it).

(** Items that are in no list are not looked at by the representation. *)
Lemma rep_transfer h h' L :
  Rep h L -> lh_lists h' = lh_lists h ->
  (forall x, linked L x -> links <$> lh_items h' !! x = links <$> lh_items h !! x) ->
  (forall x it l, lh_items h' !! x = Some it -> ti_parent it = Some l -> linked L x) ->
  Rep h' L.
Proof.
  intros R Hls Hln Hin. split.
  - rewrite Hls. apply R.
  - intros l xs Hl. destruct (rep_dll _ _ R _ _ Hl) as (Hlist & Hnd & Hseg).
    split; [by rewrite Hls|split; [done|]].
    assert (forall x, x ∈ xs -> links <$> lh_items h' !! x = links <$> lh_items h !! x) as Hxs.
    { intros x Hx. apply Hln. by exists l, xs. }
    clear Hl Hlist Hnd. revert Hseg Hxs. generalize (@None Z) at 1 3 as p.
    induction xs as [|x xs IH]; intros p Hseg Hxs; [done|].
    destruct Hseg as [(it & Hx & Hp & Hv & Hn) Hseg]. split; [|apply IH; [done|set_solver]].
    specialize (Hxs x ltac:(set_solver)). rewrite Hx in Hxs. csimpl in Hxs.
    apply fmap_Some in Hxs as (it' & Hx' & [= E1 E2 E3]). exists it'. split_and!; congruence.
  - intros x it l Hx Hp. destruct (Hin _ _ _ Hx Hp) as (l' & xs & Hl' & Hxs).
    destruct (rep_parent _ _ R _ _ _ Hl' Hxs) as (it0 & Hx0 & Hp0).
    specialize (Hln x ltac:(by exists l', xs)). rewrite Hx, Hx0 in Hln. injection Hln as _ _ Hpp.
    exists xs. split; [congruence|done].
Qed.

Lemma rep_payload h L (f : timer_item_t -> timer_item_t) x :
  Rep h L -> (forall it, links (f it) = links it) ->
  Rep (h <| lh_items := alter f x (lh_items h) |>) L.
Proof.
  intros R Hf.
  assert (forall y, links <$> alter f x (lh_items h) !! y = links <$> lh_items h !! y) as Hl.
  { intros y. destruct (decide (y = x)) as [->|].
    - rewrite lookup_alter_eq. destruct (lh_items h !! x); csimpl; by rewrite ?Hf.
    - by rewrite lookup_alter_ne. }
  eapply rep_transfer; [done|done|auto|]. simpl. intros y it l Hy Hp.
  specialize (Hl y). rewrite Hy in Hl. symmetry in Hl. apply fmap_Some in Hl as (it' & Hy' & [= _ _ E]).
  apply (linked_parent _ _ R _ _ Hy'). exists l. congruence.
Qed.

(** An item in no list may be replaced by another one that is in no list. *)
Lemma rep_insert_detached h L x it :
  Rep h L -> ~ linked L x -> ti_parent it = None -> Rep (h <| lh_items := <[x := it]> (lh_items h) |>) L.
Proof.
  intros R Hx Hp. eapply rep_transfer; [done|done|simpl..].
  - intros y Hy. rewrite lookup_insert_ne; [done|by intros ->].
  - intros y ity l. rewrite lookup_insert_Some. intros [[<- <-]|[Hne Hy]] Hl; [congruence|].
    apply (linked_parent _ _ R _ _ Hy). eauto.
Qed.

Lemma rep_delete_detached h L x :
  Rep h L -> ~ linked L x -> Rep (h <| lh_items := delete x (lh_items h) |>) L.
Proof.
  intros R Hx. eapply rep_transfer; [done|done|simpl..].
  - intros y Hy. rewrite lookup_delete_ne; [done|by intros ->].
  - intros y ity l. rewrite lookup_delete_Some. intros [Hne Hy] Hl.
    apply (linked_parent _ _ R _ _ Hy). eauto.
Qed.

(** * Wheels *)

(** Fewer pending items, with the same deadlines. *)
Lemma wheel_transfer h h' timer L L' :
  Wheel h timer L -> Rep h' L' -> dom L' = dom L ->
  (forall j x, 0 <= j < et_size timer -> x ∈ bucket L' timer j -> x ∈ bucket L timer j) ->
  (forall x it', pending L' timer x -> lh_items h' !! x = Some it' ->
    exists it, lh_items h !! x = Some it /\ ti_expire it = ti_expire it') ->
  Wheel h' timer L'.
Proof.
  intros W R' Hd Hsub Hex. split; [done|eapply wheel_shape_dom; [apply W|done]|apply W|].
  intros j x it' Hj Hx Hit'. destruct (Hex x it') as (it & Hit & <-); [by exists j|done|].
  eapply (wh_expire _ _ _ W); eauto.
Qed.

(** Same lists on the wheel, same deadlines. *)
Lemma wheel_queue_transfer h h' timer L L' Q :
  Wheel h timer L -> Queue h timer L Q -> Rep h' L' -> dom L' = dom L ->
  (forall j, 0 <= j < et_size timer -> bucket L' timer j = bucket L timer j) ->
  (forall x it', pending L timer x -> lh_items h' !! x = Some it' ->
    exists it, lh_items h !! x = Some it /\ ti_expire it = ti_expire it') ->
  Wheel h' timer L' /\ Queue h' timer L' Q.
Proof.
  intros W HQ R' Hd Hb Hex.
  assert (Wheel h' timer L') as W'.
  { eapply wheel_transfer; [done..| |].
    - intros j x Hj. by rewrite Hb.
    - intros x it' (j & Hj & Hx). rewrite Hb in Hx by done. apply Hex. by exists j. }
  split; [done|]. apply (queue_intro _ _ _ W'). intros x e. rewrite (queue_lookup _ _ _ W _ _ _ HQ).
  apply exist_proper. intros j. split; intros (Hj & ?); [rewrite Hb by done|rewrite Hb in * by done]; tauto.
Qed.

Lemma bucket_unlink timer L x j :
  bucket (unlink x L) timer j = filter (.≠ x) (bucket L timer j).
Proof. unfold bucket, unlink. rewrite lookup_fmap. by destruct (L !! slot timer j). Qed.

(** Removing an item from its list takes it off the queue. *)
Lemma remove_from_link_wheel h timer L Q x :
  Wheel h timer L -> Queue h timer L Q -> x ∈ dom (lh_items h) ->
  exists h', remove_from_link x h = Ok (tt, h') /\ Wheel h' timer (unlink x L) /\
    Queue h' timer (unlink x L) (delete x Q) /\ same_payload h h'.
Proof.
  intros W HQ Hx.
  destruct (remove_from_link_unlink _ _ (wh_rep _ _ _ W) _ Hx) as (h' & Hrun & R' & Hpl).
  assert (Wheel h' timer (unlink x L)) as W'.
  { eapply wheel_transfer; [done|done|by apply dom_fmap_L| |].
    - intros j y Hj. rewrite bucket_unlink, list_elem_of_filter. tauto.
    - intros y it' _ Hy. destruct (same_payload_inv _ _ _ _ Hpl Hy) as (it & ? & ?%payload_expire). eauto. }
  exists h'. split_and!; [done|done| |done]. apply (queue_intro _ _ _ W'). intros y e.
  rewrite lookup_delete_Some, (queue_lookup _ _ _ W _ _ _ HQ).
  setoid_rewrite bucket_unlink. setoid_rewrite list_elem_of_filter. naive_solver.
Qed.

(** Operations on lists outside the wheel leave it alone. *)
Lemma wheel_off_insert h h' timer L Q l ys :
  Wheel h timer L -> Queue h timer L Q -> off_wheel timer l -> is_Some (L !! l) ->
  Rep h' (<[l := ys]> L) -> same_payload h h' ->
  Wheel h' timer (<[l := ys]> L) /\ Queue h' timer (<[l := ys]> L) Q.
Proof.
  intros W HQ Hoff Hl R' Hp. eapply wheel_queue_transfer; [done|done|done| | |].
  - rewrite dom_insert_L. apply elem_of_dom in Hl. set_solver.
  - intros j Hj. unfold bucket. rewrite lookup_insert_ne; [done|]. intros ->.
    by apply Hoff, (slot_range _ _ (wh_shape _ _ _ W)).
  - intros x it' _ Hx. destruct (same_payload_inv _ _ _ _ Hp Hx) as (it & ? & ?%payload_expire). eauto.
Qed.

(** Appending an unlinked item to a list outside the wheel. *)
Lemma add_tail_off h timer L Q l xs x :
  Wheel h timer L -> Queue h timer L Q -> off_wheel timer l -> L !! l = Some xs ->
  x ∈ dom (lh_items h) -> ~ linked L x ->
  exists h', add_tail l x h = Ok (tt, h') /\ Wheel h' timer (<[l := xs ++ [x]]> L) /\
    Queue h' timer (<[l := xs ++ [x]]> L) Q /\ same_payload h h'.
Proof.
  intros W HQ Hoff Hl [it Hx]%elem_of_dom Hun.
  destruct (add_tail_rep _ _ (wh_rep _ _ _ W) l xs x it Hx) as (h' & Hrun & R' & Hp); [|done|].
  { destruct (ti_parent it) eqn:Hpar; [|done]. destruct Hun. apply (linked_parent _ _ (wh_rep _ _ _ W) _ _ Hx). eauto. }
  destruct (wheel_off_insert _ _ _ _ _ _ _ W HQ Hoff (mk_is_Some _ _ Hl) R' Hp). by exists h'.
Qed.
