(* ===== verification/WheelTrace.v ===== *)
(** Executions of the timing wheel: any sequence of arming, cancelling and
    collecting timers, under a clock that may step back but does not jump
    ahead by 2^31 ms, refines a finite map from armed items to deadlines. *)

From stdpp Require Import gmap list.
From S2P Require Import Prelude TimerList TimerListSpec ListProgram TimerWheel TimerWheelSpec TimerFrame.

(** * Concrete executions *)

Inductive wheel_op :=
  | W_add (x e now : Z)      (* item->expire = e; add_timeout(timer, item, now) *)
  | W_cancel (x : Z)         (* remove_from_link(item) *)
  | W_take (now : Z).        (* takeAllTimeout(timer, now, r), then pop everything from r *)

(** [while (r->head) popHead(r)]: the items in the order they are popped. *)
Fixpoint drain (fuel : nat) (r : Z) : M lheap (list Z) :=
  tl ← get_list r;
  match tl_head tl with
  | None => mret []
  | Some x =>
      match fuel with
      | O => fail OutOfFuel
      | S fuel' => popHead r;; xs ← drain fuel' r; mret (x :: xs)
      end
  end.

(** The output of an operation: its return value and the items collected. *)
Definition run_wop (r : Z) (op : wheel_op) (timer : epoll_timer_t) : M lheap (Z * list Z * epoll_timer_t) :=
  match op with
  | W_add x e now =>
      upd_item x (fun it => it <| ti_expire := e |>);;
      '(ret, timer') ← add_timeout timer x now;
      mret (ret, [], timer')
  | W_cancel x => remove_from_link x;; mret (0, [], timer)
  | W_take now =>
      timer' ← takeAllTimeout timer now r;
      h ← get;
      xs ← drain (size (lh_items h)) r;
      mret (0, xs, timer')
  end.

Fixpoint run_wops (r : Z) (ops : list wheel_op) (timer : epoll_timer_t) :
    M lheap (list (Z * list Z) * epoll_timer_t) :=
  match ops with
  | [] => mret ([], timer)
  | op :: ops' =>
      '(out, timer') ← run_wop r op timer;
      '(outs, timer'') ← run_wops r ops' timer';
      mret (out :: outs, timer'')
  end.

(** * The abstract queue: the time of the last collection, and the deadlines *)

Abbreviation aqueue := (Z * gmap Z Z)%type.

Section abstract.
Context (items : gset Z) (size : Z).

(** A timer is accepted if the clock is not behind the wheel's, the deadline
    not behind the clock, and within the wheel's horizon. *)
Definition q_accepts (q : aqueue) (e now : Z) : bool := (q.1 <=? now) && (now <=? e) && (e - q.1 <? size).

(** What a caller must respect: live items; an item that is armed is not armed
    again; no deadline is 2^31 ms or more ahead of the last collection, and no
    collection 2^31 - 1 ms or more after the one before. *)
Definition q_enabled (q : aqueue) (op : wheel_op) : bool :=
  match op with
  | W_add x e now =>
      bool_decide (x ∈ items) && bool_decide (q.2 !! x = None) && bool_decide (0 <= now /\ 0 <= e /\ e - q.1 < 2 ^ 31)
  | W_cancel x => bool_decide (x ∈ items)
  | W_take now => bool_decide (0 <= now < 2 ^ 62 /\ now - q.1 < 2 ^ 31 - 1)
  end.

Definition q_next (q : aqueue) (op : wheel_op) : aqueue :=
  match op with
  | W_add x e now => (q.1, if q_accepts q e now then <[x := e]> q.2 else q.2)
  | W_cancel x => (q.1, delete x q.2)
  | W_take now => if now <? q.1 then q else (now, later_than now q.2)
  end.

(** -1 for a timer that is not accepted; a collection brings what is due, each
    item once, in the order of the deadlines, and nothing when the clock has
    stepped back. *)
Definition q_out (q : aqueue) (op : wheel_op) (out : Z * list Z) : Prop :=
  match op with
  | W_add x e now => out = (if q_accepts q e now then 0 else -1, [])
  | W_cancel x => out = (0, [])
  | W_take now =>
      if now <? q.1 then out = (0, [])
      else
        out.1 = 0 /\ NoDup out.2 /\ (forall x, x ∈ out.2 <-> exists e, q.2 !! x = Some e /\ e <= now) /\
        in_deadline_order q.2 out.2
  end.

Fixpoint q_all_enabled (q : aqueue) (ops : list wheel_op) : bool :=
  match ops with
  | [] => true
  | op :: ops' => q_enabled q op && q_all_enabled (q_next q op) ops'
  end.

Fixpoint q_trace (q : aqueue) (ops : list wheel_op) (outs : list (Z * list Z)) : Prop :=
  match ops, outs with
  | [], [] => True
  | op :: ops', out :: outs' => q_out q op out /\ q_trace (q_next q op) ops' outs'
  | _, _ => False
  end.

Definition q_final (q : aqueue) (ops : list wheel_op) : aqueue := foldl q_next q ops.
End abstract.

(** * The invariant *)

(** A wheel of [sz] slots over the items [items] stands for [q]; no other list
    holds items; [start_idx] has not run ahead of the clock. *)
Definition WInv (items : gset Z) (sz r : Z) (h : lheap) (timer : epoll_timer_t) (q : aqueue) : Prop :=
  exists L, Wheel h timer L /\ Queue h timer L q.2 /\ off_wheel timer r /\ L !! r = Some [] /\
    (forall l xs, L !! l = Some xs -> off_wheel timer l -> xs = []) /\
    dom (lh_items h) = items /\ et_size timer = sz /\ et_start timer = q.1 /\
    et_start_idx timer <= et_start timer < 2 ^ 62.

Lemma winv_unlinked h timer (q : aqueue) L x :
  Wheel h timer L -> Queue h timer L q.2 ->
  (forall l xs, L !! l = Some xs -> off_wheel timer l -> xs = []) ->
  q.2 !! x = None -> ~ linked L x.
Proof.
  intros W HQ Hoff HQx (l & xs & Hl & Hx).
  destruct (decide (et_items timer <= l < et_items timer + et_size timer)) as [Hr|Hr].
  - destruct (slot_surj _ _ (wh_shape _ _ _ W) (l - et_items timer)) as (j & Hj & Hs); [lia|].
    assert (q.2 !! x = Some (et_start timer + j)); [|congruence].
    apply (queue_lookup _ _ _ W _ _ _ HQ). exists j. split_and!; [lia..| |done].
    unfold bucket. rewrite Hs. replace (et_items timer + (l - et_items timer)) with l by lia. by rewrite Hl.
  - apply Hoff in Hl as ->; [set_solver|exact Hr].
Qed.

Lemma drain_rep r : forall xs fuel h L,
  Rep h L -> L !! r = Some xs -> (length xs <= fuel)%nat ->
  exists h', drain fuel r h = Ok (xs, h') /\ Rep h' (<[r := []]> L) /\ same_payload h h'.
Proof.
  induction xs as [|x xs IH]; intros fuel h L R Hr Hf.
  - exists h. rewrite insert_id by done. destruct fuel; cbn [drain].
    all: erewrite bind_Ok by (unfold get_list; by rewrite (rep_list _ _ R _ _ Hr)); done.
  - destruct fuel as [|fuel]; [simpl in Hf; lia|].
    destruct (popHead_rep _ _ R _ _ Hr) as (h1 & Hpop & R1 & Hp1). simpl in R1.
    destruct (IH fuel h1 _ R1 (lookup_insert_eq _ _ _)) as (h2 & Hrun & R2 & Hp2); [simpl in Hf; lia|].
    rewrite insert_insert_eq in R2. exists h2. split; [|split; [done|by etrans]].
    cbn [drain]. erewrite bind_Ok by (unfold get_list; by rewrite (rep_list _ _ R _ _ Hr)). simpl.
    rewrite (bind_Ok _ _ _ _ _ Hpop). by rewrite (bind_Ok _ _ _ _ _ Hrun).
Qed.

(** A list has no more items than the heap. *)
Lemma rep_length h L l xs : Rep h L -> L !! l = Some xs -> (length xs <= size (lh_items h))%nat.
Proof.
  intros R Hl. rewrite <- size_dom. rewrite <- (size_list_to_set (C := gset Z)) by (by eapply rep_nodup).
  apply subseteq_size. intros x Hx%elem_of_list_to_set. apply (linked_live _ _ R). by exists l, xs.
Qed.

(** * The simulation *)

Section simulation.
Context (items : gset Z) (sz r : Z).
Abbreviation inv := (WInv items sz r).

Lemma sim_add h timer q x e now :
  inv h timer q -> q_enabled items q (W_add x e now) = true ->
  exists out h' timer', run_wop r (W_add x e now) timer h = Ok ((out, timer'), h') /\
    q_out sz q (W_add x e now) out /\ inv h' timer' (q_next sz q (W_add x e now)).
Proof using.
  intros (L & W & HQ & Hr & Hr0 & Hem & Hdom & Hsz & Hst & Hidx) Hen.
  unfold q_enabled in Hen. rewrite !andb_true_iff, !bool_decide_eq_true in Hen.
  destruct Hen as [[Hx HQx] (Hnow & He & Hfar)]. rewrite <- Hdom in Hx. apply elem_of_dom in Hx as [it Hx].
  pose proof (winv_unlinked _ _ _ _ _ W HQ Hem HQx) as Hun.
  assert (ti_parent it = None) as Hp.
  { destruct (ti_parent it) eqn:Hp; [|done]. destruct Hun. apply (linked_parent _ _ (wh_rep _ _ _ W) _ _ Hx). eauto. }
  set (it1 := it <| ti_expire := e |>). set (h1 := h <| lh_items := <[x := it1]> (lh_items h) |>).
  destruct (wheel_queue_transfer h h1 timer L L q.2) as [W1 HQ1]; [done|done| |done|done| |].
  { apply rep_insert_detached; [apply W|done|done]. }
  { intros y it' Hy. simpl. rewrite lookup_insert_ne; [eauto|]. intros <-.
    destruct Hy as (j & Hj & Hy), (slot_live _ _ (wh_shape _ _ _ W) j) as (xs & Hxs & Hb).
    apply Hun. exists (slot timer j), xs. split; [done|by rewrite <- Hb]. }
  assert (lh_items h1 !! x = Some it1) as Hx1 by apply lookup_insert_eq.
  assert (dom (lh_items h1) = items) as Hdom1.
  { simpl. rewrite dom_insert_L, <- Hdom. apply elem_of_dom_2 in Hx. set_solver. }
  pose proof (wh_start _ _ _ W). pose proof (ws_size _ _ (wh_shape _ _ _ W)).
  assert (upd_item x (fun it => it <| ti_expire := e |>) h = Ok (tt, h1)) as Hupd
    by (unfold upd_item; by rewrite Hx).
  unfold run_wop, q_out, q_next. destruct (q_accepts sz q e now) eqn:Hacc; unfold q_accepts in Hacc;
    rewrite ?andb_true_iff, ?andb_false_iff, ?Z.leb_le, ?Z.ltb_lt, ?Z.leb_gt, ?Z.ltb_ge in Hacc.
  - destruct (add_timeout_refines h1 timer L q.2 x it1 now W1 HQ1 Hx1 Hp)
      as (h2 & L2 & Hrun & W2 & HQ2 & Hoff2 & Hpl2); [simpl; lia..|].
    exists (0, []), h2, timer. split_and!; [|done|].
    + rewrite (bind_Ok _ _ _ _ _ Hupd). by rewrite (bind_Ok _ _ _ _ _ Hrun).
    + exists L2. split_and!; [done|done|done|by rewrite Hoff2| |by rewrite (same_payload_dom _ _ Hpl2)|done|done|simpl; lia..].
      intros l xs Hl Ho. rewrite Hoff2 in Hl by done. eauto.
  - exists (-1, []), h1, timer. split_and!; [|done|].
    + rewrite (bind_Ok _ _ _ _ _ Hupd).
      by erewrite bind_Ok by (eapply add_timeout_rejects; [lia|done|simpl; lia]).
    + exists L. repeat (split; [done|]). lia.
Qed.

Lemma sim_cancel h timer q x :
  inv h timer q -> q_enabled items q (W_cancel x) = true ->
  exists out h' timer', run_wop r (W_cancel x) timer h = Ok ((out, timer'), h') /\
    q_out sz q (W_cancel x) out /\ inv h' timer' (q_next sz q (W_cancel x)).
Proof using.
  intros (L & W & HQ & Hr & Hr0 & Hem & Hdom & Hsz & Hst & Hidx) Hx%bool_decide_eq_true.
  rewrite <- Hdom in Hx.
  destruct (remove_from_link_wheel _ _ _ _ _ W HQ Hx) as (h' & Hrun & W' & HQ' & Hpl).
  exists (0, []), h', timer. split_and!; [|done|].
  - unfold run_wop. by rewrite (bind_Ok _ _ _ _ _ Hrun).
  - exists (unlink x L). split_and!; [done|done|done| | |by rewrite (same_payload_dom _ _ Hpl)|done|done|lia..].
    + unfold unlink. by rewrite lookup_fmap, Hr0.
    + intros l xs. unfold unlink. rewrite lookup_fmap. intros (ys & Hl & ->)%fmap_Some Ho.
      by rewrite (Hem _ _ Hl Ho).
Qed.

Lemma sim_take h timer q now :
  inv h timer q -> q_enabled items q (W_take now) = true ->
  exists out h' timer', run_wop r (W_take now) timer h = Ok ((out, timer'), h') /\
    q_out sz q (W_take now) out /\ inv h' timer' (q_next sz q (W_take now)).
Proof using.
  intros (L & W & HQ & Hr & Hr0 & Hem & Hdom & Hsz & Hst & Hidx) Hen.
  apply bool_decide_eq_true in Hen as [Hnow Hgap]. pose proof (ws_size _ _ (wh_shape _ _ _ W)) as Hs.
  unfold q_out, q_next. destruct (Z.ltb_spec now q.1) as [Hback|Hfwd].
  { destruct (drain_rep r [] (size (lh_items h)) h L (wh_rep _ _ _ W) Hr0 ltac:(simpl; lia)) as (h' & Hdr & R' & Hp).
    rewrite insert_id in R' by done. destruct (wheel_queue_transfer h h' timer L L q.2) as [W1 HQ1]; [done..| |].
    { intros y it' _ Hy. destruct (same_payload_inv _ _ _ _ Hp Hy) as (it & ? & ?%payload_expire). eauto. }
    exists (0, []), h', timer. split_and!; [|done|].
    - unfold run_wop. rewrite (bind_Ok _ _ h timer h) by (apply takeAllTimeout_clock_back; [pose proof (wh_start _ _ _ W)|]; lia).
      mrun. by rewrite Hdr.
    - exists L. split_and!; [done|done|done|done|done| |done|done|lia..]. by rewrite (same_payload_dom _ _ Hp). }
  destruct (takeAllTimeout_refines _ _ _ _ now r [] W HQ Hr Hr0)
    as (h1 & timer1 & L1 & due & Hrun & W1 & HQ1 & -> & Hd1 & Hr1 & Hdue & Hord & Hoff1 & Hp1); [lia..|].
  simpl in Hr1. destruct (drain_rep r due (size (lh_items h1)) h1 L1) as (h2 & Hdr & R2 & Hp2);
    [apply W1|done|by eapply rep_length; [apply W1|]|].
  set (t1 := advanced timer now (due_slots timer now)) in *.
  destruct (wheel_queue_transfer h1 h2 t1 L1 (<[r := []]> L1) (later_than now q.2)) as [W2 HQ2]; [done..| | | |].
  { rewrite dom_insert_L. apply elem_of_dom_2 in Hr1. set_solver. }
  { intros j Hj. unfold bucket. rewrite lookup_insert_ne; [done|]. intros ->.
    by apply Hr, (slot_range _ _ (wh_shape _ _ _ W1)). }
  { intros y it' _ Hy. destruct (same_payload_inv _ _ _ _ Hp2 Hy) as (it & ? & ?%payload_expire). eauto. }
  exists (0, due), h2, t1. split; [|split].
  - unfold run_wop. rewrite (bind_Ok _ _ _ _ _ Hrun). mrun. by rewrite Hdr.
  - split_and!; [done|by eapply (rep_nodup _ _ (wh_rep _ _ _ W1))|done|done].
  - exists (<[r := []]> L1). unfold due_slots in t1.
    split_and!; [done|done|done|by rewrite lookup_insert_eq| | |done|done|simpl; lia..].
    + intros l xs. rewrite lookup_insert_Some. intros [[_ <-]|[Hne Hl]] Ho; [done|].
      rewrite Hoff1 in Hl by done. eauto.
    + by rewrite (same_payload_dom _ _ Hp2), (same_payload_dom _ _ Hp1).
Qed.

Lemma sim_wop h timer q op :
  inv h timer q -> q_enabled items q op = true ->
  exists out h' timer', run_wop r op timer h = Ok ((out, timer'), h') /\
    q_out sz q op out /\ inv h' timer' (q_next sz q op).
Proof using. destruct op; eauto using sim_add, sim_cancel, sim_take. Qed.

Lemma sim_wops ops : forall h timer q,
  inv h timer q -> q_all_enabled items sz q ops = true ->
  exists outs h' timer', run_wops r ops timer h = Ok ((outs, timer'), h') /\
    q_trace sz q ops outs /\ inv h' timer' (q_final sz q ops).
Proof using.
  induction ops as [|op ops IH]; intros h timer q HI Hen.
  { by exists [], h, timer. }
  simpl in Hen. apply andb_true_iff in Hen as [Hop Hen].
  destruct (sim_wop _ _ _ _ HI Hop) as (out & h1 & t1 & Hrun & Hout & HI1).
  destruct (IH _ _ _ HI1 Hen) as (outs & h2 & t2 & Hruns & Htr & HI2).
  exists (out :: outs), h2, t2. split_and!; [|done|exact HI2].
  cbn [run_wops]. rewrite (bind_Ok _ _ _ _ _ Hrun). by rewrite (bind_Ok _ _ _ _ _ Hruns).
Qed.
End simulation.

(** * No timer is lost, early or repeated *)

(** [op] neither cancels [x] nor collects at or after [e]. *)
Definition leaves_armed (x e : Z) (op : wheel_op) : bool :=
  match op with
  | W_add _ _ _ => true
  | W_cancel y => negb (x =? y)
  | W_take now => now <? e
  end.

Lemma q_next_armed items sz q op x e :
  q_enabled items q op = true -> leaves_armed x e op = true ->
  q.2 !! x = Some e -> q.1 <= e -> (q_next sz q op).2 !! x = Some e /\ (q_next sz q op).1 <= e.
Proof.
  destruct op as [y e' now|y|now]; simpl; intros Hen Hl Hx Hq; [split; [|done]..|].
  - rewrite !andb_true_iff, !bool_decide_eq_true in Hen. destruct Hen as [[_ Hy] _].
    destruct (q_accepts sz q e' now); [|done]. rewrite lookup_insert_ne; [done|]. intros ->. congruence.
  - rewrite lookup_delete_ne; [done|]. intros ->. by rewrite Z.eqb_refl in Hl.
  - destruct (now <? q.1); [done|]. simpl. unfold later_than. rewrite map_lookup_filter_Some. split; [split; [done|simpl; lia]|lia].
Qed.

Lemma q_trace_armed items sz x e mid : forall q outs,
  q_all_enabled items sz q mid = true -> forallb (leaves_armed x e) mid = true ->
  q.2 !! x = Some e -> q.1 <= e -> q_trace sz q mid outs ->
  ((q_final sz q mid).2 !! x = Some e /\ (q_final sz q mid).1 <= e) /\ Forall (fun out => x ∉ out.2) outs.
Proof.
  induction mid as [|op mid IH]; intros q [|out outs]; simpl; intros Hen Hl Hx Hq Htr; [done..|].
  rewrite andb_true_iff in Hen, Hl. destruct Hen as [He Hen], Hl as [Ha Hl], Htr as [Ho Htr].
  destruct (q_next_armed items sz q op x e He Ha Hx Hq) as [Hx' Hq'].
  destruct (IH (q_next sz q op) outs) as [Hf Hall]; [done..|].
  split; [done|constructor; [|done]].
  destruct op as [y e' now|y|now]; simpl in *; [subst; set_solver..|].
  destruct (now <? q.1); [subst; set_solver|]. destruct Ho as (_ & _ & Hin & _). rewrite Hin. intros (e' & He' & Hle). rewrite Hx in He'.
  injection He' as <-. lia.
Qed.

Lemma q_all_enabled_app items sz ops1 : forall ops2 q,
  q_all_enabled items sz q (ops1 ++ ops2) =
  q_all_enabled items sz q ops1 && q_all_enabled items sz (q_final sz q ops1) ops2.
Proof.
  induction ops1 as [|op ops1 IH]; intros ops2 q; simpl; [done|]. by rewrite IH, andb_assoc.
Qed.

Lemma q_trace_app sz ops1 : forall ops2 q outs,
  q_trace sz q (ops1 ++ ops2) outs <->
  exists o1 o2, outs = o1 ++ o2 /\ q_trace sz q ops1 o1 /\ q_trace sz (q_final sz q ops1) ops2 o2.
Proof.
  induction ops1 as [|op ops1 IH]; intros ops2 q outs; simpl.
  - split; [by exists [], outs|]. by intros ([|] & o2 & -> & ? & ?).
  - destruct outs as [|out outs].
    + split; [done|]. by intros ([|] & o2 & ? & ? & ?).
    + rewrite IH. split.
      * intros (Ho & o1 & o2 & -> & H1 & H2). by exists (out :: o1), o2.
      * intros ([|o o1] & o2 & Heq & H1 & H2); [done|]. injection Heq as -> ->. naive_solver.
Qed.

(** * Claims *)

(** C13. The timing wheel implements a queue of deadlines.  From a wheel that
    stands for the queue [q], every sequence of arming, cancelling and
    collecting runs without fault, as long as it uses live items, does not arm
    an item that is armed, and keeps its deadlines less than 2^31 ms ahead of
    the last collection and its collections less than 2^31 - 1 ms after the
    one before ([q_all_enabled]).  Arming answers -1 and arms nothing when the
    clock is behind the wheel's, the deadline behind the clock, or beyond the
    wheel's horizon, and 0 otherwise; a collection yields exactly the armed
    items whose deadline has been reached, each once, in the order of their
    deadlines, and nothing when the clock has stepped back; and the wheel
    stands for the resulting queue. *)
Theorem wheel_trace_refines items sz r h timer q ops :
  WInv items sz r h timer q -> q_all_enabled items sz q ops = true ->
  exists outs h' timer', run_wops r ops timer h = Ok ((outs, timer'), h') /\
    q_trace sz q ops outs /\ WInv items sz r h' timer' (q_final sz q ops).
Proof. apply sim_wops. Qed.

(** C14. Within the conditions of [q_all_enabled] (live items, none armed
    twice, no deadline 2^31 ms ahead of the wheel and no collection 2^31 - 1 ms
    after the one before), a timer that is armed at [now] with a deadline [e],
    not before [now], within the wheel's horizon, and is not cancelled, is
    collected by the first collection at or after [e], exactly once, and by no
    earlier one, whatever other timers are armed, cancelled or collected in
    between. *)
Theorem timer_fires_on_time items sz r h timer q x e now mid t :
  WInv items sz r h timer q ->
  q_all_enabled items sz q (W_add x e now :: mid ++ [W_take t]) = true ->
  q.1 <= now <= e -> e - q.1 < sz -> forallb (leaves_armed x e) mid = true -> e <= t ->
  exists outs due h' timer',
    run_wops r (W_add x e now :: mid ++ [W_take t]) timer h = Ok (((0, []) :: outs ++ [(0, due)], timer'), h') /\
    Forall (fun out => x ∉ out.2) outs /\ x ∈ due /\ NoDup due.
Proof.
  intros HI Hen Hnow Hfar Hl Ht. destruct (sim_wops _ _ _ _ _ _ _ HI Hen) as (outs & h' & timer' & Hrun & Htr & _).
  destruct outs as [|o outs]; [done|]. cbn [q_trace] in Htr. destruct Htr as [Ho Htr].
  assert (q_accepts sz q e now = true) as Hacc by (unfold q_accepts; rewrite !andb_true_iff, !Z.leb_le, Z.ltb_lt; lia).
  unfold q_out in Ho. rewrite Hacc in Ho. subst o.
  cbn [q_all_enabled] in Hen. apply andb_true_iff in Hen as [_ Hen].
  rewrite q_all_enabled_app in Hen. apply andb_true_iff in Hen as [Hmid _].
  apply q_trace_app in Htr as (o1 & o2 & -> & H1 & H2). set (q1 := q_next sz q (W_add x e now)) in *.
  assert (q1.2 !! x = Some e) as Hx by (unfold q1, q_next; rewrite Hacc; apply lookup_insert_eq).
  assert (q1.1 <= e) as Hq1 by (simpl; lia).
  destruct (q_trace_armed _ _ _ _ _ _ _ Hmid Hl Hx Hq1 H1) as [[Hf Hq] Hno].
  destruct o2 as [|[ret due] [|]]; simpl in H2; try tauto. destruct H2 as [H2 _].
  rewrite (proj2 (Z.ltb_ge _ _)) in H2 by lia. destruct H2 as (-> & Hnd & Hin & _).
  exists o1, due, h', timer'. split_and!; [done|done| |done]. apply Hin. eauto.
Qed.

(** A wheel of eight slots at 100, a result list at 50, clock at 1000. *)
Definition demo_wheel : epoll_timer_t := mk_epoll_timer 8 100 1000 0.
Definition demo_wheel_lists : alists := <[50 := []]> (insert_block 8 100 [] ∅).
Definition demo_wheel_heap : lheap :=
  mk_lheap (list_to_map ((fun x => (x, demo_item)) <$> [1; 2; 3]))
           (<[50 := empty_list]> (insert_block 8 100 empty_list ∅)).

Lemma demo_wheel_inv : WInv {[1; 2; 3]} 8 50 demo_wheel_heap demo_wheel (1000, ∅).
Proof.
  assert (Wheel demo_wheel_heap demo_wheel demo_wheel_lists) as W
    by (apply wheel_check_sound; vm_compute; reflexivity).
  exists demo_wheel_lists. split_and!; [done| | |done| |by apply (bool_decide_unpack _); vm_compute|done..].
  - exact (queue_of_spec _ _ _ W).
  - unfold off_wheel. simpl. lia.
  - intros l xs Hl _. revert l xs Hl.
    change (map_Forall (fun _ xs => xs = []) demo_wheel_lists). apply (bool_decide_unpack _). vm_compute. done.
Qed.

Definition demo_trace : list wheel_op :=
  [W_add 1 1005 1000; W_add 2 1002 1001; W_add 3 1009 1001; W_take 1001; W_add 3 1001 1002; W_cancel 2;
   W_take 1004; W_take 1003; W_add 3 1010 1004; W_take 1006].

Lemma wheel_trace_refines_witness :
  exists outs h' timer', run_wops 50 demo_trace demo_wheel demo_wheel_heap = Ok ((outs, timer'), h') /\
    q_trace 8 (1000, ∅) demo_trace outs /\
    WInv {[1; 2; 3]} 8 50 h' timer' (q_final 8 (1000, ∅) demo_trace).
Proof.
  apply (wheel_trace_refines {[1; 2; 3]} 8 50 demo_wheel_heap demo_wheel (1000, ∅) demo_trace demo_wheel_inv).
  vm_compute. reflexivity.
Defined.

Lemma timer_fires_on_time_witness :
  exists outs due h' timer',
    run_wops 50 (W_add 1 1005 1000 :: [W_add 2 1002 1001; W_take 1004] ++ [W_take 1006])
      demo_wheel demo_wheel_heap = Ok (((0, []) :: outs ++ [(0, due)], timer'), h') /\
    Forall (fun out => 1 ∉ out.2) outs /\ 1 ∈ due /\ NoDup due.
Proof.
  apply (timer_fires_on_time {[1; 2; 3]} 8 50 demo_wheel_heap demo_wheel (1000, ∅)).
  - exact demo_wheel_inv.
  - vm_compute. reflexivity.
  - simpl. lia.
  - vm_compute. reflexivity.
  - vm_compute. reflexivity.
  - vm_compute. discriminate.
Defined.
