(* ===== verification/Machine.v ===== *)
(** The part of the x86 machine that src/src/context_swap.S uses: byte
    memory, general purpose registers, and the straight-line instructions of
    its two listings (32 and 64 bit), with their execution. *)

From stdpp Require Import list.
From S2P Require Import Prelude.

(** * Memory: bytes, little endian words *)

Definition mem := Z -> Z.

Definition upd_byte (m : mem) (a v : Z) : mem := fun x => if x =? a then v else m x.

Fixpoint load (n : nat) (m : mem) (a : Z) : Z :=
  match n with
  | O => 0
  | S n' => m a + 256 * load n' m (a + 1)
  end.

Fixpoint store (n : nat) (m : mem) (a v : Z) : mem :=
  match n with
  | O => m
  | S n' => store n' (upd_byte m a (v `mod` 256)) (a + 1) (v / 256)
  end.

Lemma store_off n : forall m a v x, ~ (a <= x < a + Z.of_nat n) -> store n m a v x = m x.
Proof.
  induction n as [|n IH]; intros m a v x Hx; simpl; [done|].
  rewrite IH by lia. unfold upd_byte. destruct (Z.eqb_spec x a); [lia|done].
Qed.

Lemma load_ext n : forall m m' a,
  (forall x, a <= x < a + Z.of_nat n -> m x = m' x) -> load n m a = load n m' a.
Proof.
  induction n as [|n IH]; intros m m' a Hx; simpl; [done|].
  rewrite (Hx a), (IH m m' (a + 1)); [done| |lia]. intros x ?. apply Hx. lia.
Qed.

Lemma load_store_ne n k m a b v :
  a + Z.of_nat n <= b \/ b + Z.of_nat k <= a -> load n (store k m b v) a = load n m a.
Proof. intros H. apply load_ext. intros x Hx. apply store_off. lia. Qed.

Lemma load_store_eq n : forall m a v, 0 <= v < 256 ^ Z.of_nat n -> load n (store n m a v) a = v.
Proof.
  induction n as [|n IH]; intros m a v Hv; simpl; [simpl in Hv; lia|].
  rewrite Nat2Z.inj_succ, Z.pow_succ_r in Hv by lia.
  rewrite store_off, IH by lia || (split; [apply Z.div_pos; lia|apply Z.div_lt_upper_bound; lia]).
  unfold upd_byte. rewrite Z.eqb_refl. pose proof (Z.div_mod v 256). lia.
Qed.

(** * Registers *)

(** The 32-bit listing uses the low halves of the same registers. *)
Inductive reg := RAX | RBX | RCX | RDX | RSI | RDI | RBP | RSP | R8 | R9 | R12 | R13 | R14 | R15.

#[export] Instance reg_eq_dec : EqDecision reg.
Proof. solve_decision. Defined.

Record machine := mk_machine {
  m_reg : reg -> Z;
  m_pc : Z;
  m_mem : mem
}.

#[export] Instance eta_machine : Eta machine := fun r => mk_machine (m_reg r) (m_pc r) (m_mem r).

Definition set_reg (r : reg) (v : Z) (f : reg -> Z) : reg -> Z :=
  fun r' => if bool_decide (r' = r) then v else f r'.

(** * Instructions (AT&T operand order) *)

Inductive instr :=
  | LEA (disp : Z) (base dst : reg)      (* lea disp(base), dst *)
  | MOV (src dst : reg)                  (* mov src, dst *)
  | MOVL (disp : Z) (base dst : reg)     (* mov disp(base), dst *)
  | PUSH (src : reg)                     (* push src *)
  | PUSHM (disp : Z) (base : reg)        (* push disp(base) *)
  | POP (dst : reg)                      (* pop dst *)
  | XORL (r : reg)                       (* xorl r, r *)
  | RET.

Section exec.
(** Word size in bytes: 8 or 4. *)
Context (w : nat).

Definition addr (v : Z) : Z := wrap_u (8 * Z.of_nat w) v.

Definition push (v : Z) (s : machine) : machine :=
  let sp := addr (m_reg s RSP - Z.of_nat w) in
  mk_machine (set_reg RSP sp (m_reg s)) (m_pc s) (store w (m_mem s) sp v).

Definition top (s : machine) : Z := load w (m_mem s) (m_reg s RSP).

Definition exec1 (i : instr) (s : machine) : machine :=
  match i with
  | LEA d b r => s <| m_reg := set_reg r (addr (m_reg s b + d)) (m_reg s) |>
  | MOV src dst => s <| m_reg := set_reg dst (m_reg s src) (m_reg s) |>
  | MOVL d b r => s <| m_reg := set_reg r (load w (m_mem s) (addr (m_reg s b + d))) (m_reg s) |>
  | PUSH r => push (m_reg s r) s
  | PUSHM d b => push (load w (m_mem s) (addr (m_reg s b + d))) s
  | POP r =>
      let v := top s in
      s <| m_reg := set_reg r v (set_reg RSP (addr (m_reg s RSP + Z.of_nat w)) (m_reg s)) |>
  | XORL r => s <| m_reg := set_reg r 0 (m_reg s) |>
  | RET =>
      mk_machine (set_reg RSP (addr (m_reg s RSP + Z.of_nat w)) (m_reg s)) (top s) (m_mem s)
  end.

Fixpoint exec (code : list instr) (s : machine) : machine :=
  match code with
  | [] => s
  | i :: code' => exec code' (exec1 i s)
  end.
End exec.

(** * Runs of pushes and of pops *)

Lemma exec_app w c1 : forall c2 s, exec w (c1 ++ c2) s = exec w c2 (exec w c1 s).
Proof. induction c1 as [|i c1 IH]; intros c2 s; simpl; [done|apply IH]. Qed.

(** [v] fits in a machine word. *)
Definition fits (w : nat) (v : Z) : Prop := 0 <= v < 256 ^ Z.of_nat w.

Record wf_machine (w : nat) (s : machine) : Prop := {
  wf_reg : forall r, fits w (m_reg s r);
  wf_mem : forall x, 0 <= m_mem s x < 256
}.

Lemma addr_fits w v : fits w v -> addr w v = v.
Proof.
  unfold fits, addr. intros H. apply wrap_u_small. by rewrite Z.pow_mul_r by lia.
Qed.

Lemma set_reg_eq r v f : set_reg r v f r = v.
Proof. unfold set_reg. by rewrite bool_decide_eq_true_2. Qed.

Lemma set_reg_ne r r' v f : r' <> r -> set_reg r v f r' = f r'.
Proof. intros H. unfold set_reg. by rewrite bool_decide_eq_false_2. Qed.

Create Rewrite HintDb machine.
#[export] Hint Rewrite set_reg_eq : machine.
#[export] Hint Rewrite set_reg_ne using done : machine.

Lemma load_fits n m : (forall x, 0 <= m x < 256) -> forall a, fits n (load n m a).
Proof.
  intros Hm. unfold fits. induction n as [|n IH]; intros a; simpl load; [simpl; lia|].
  rewrite Nat2Z.inj_succ, Z.pow_succ_r by lia. specialize (IH (a + 1)). specialize (Hm a). lia.
Qed.

Lemma store_bytes n : forall m a v, (forall x, 0 <= m x < 256) -> forall x, 0 <= store n m a v x < 256.
Proof.
  induction n as [|n IH]; intros m a v Hm x; simpl; [done|]. apply IH. intros y. unfold upd_byte.
  destruct (y =? a); [|done]. apply Z.mod_pos_bound. lia.
Qed.

(** The effect of pushing the values [vs] from the stack pointer [sp]. *)
Record pushed (w : nat) (vs : list Z) (sp : Z) (s s' : machine) : Prop := {
  ps_sp : m_reg s' RSP = sp - Z.of_nat w * Z.of_nat (length vs);
  ps_regs : forall r, r <> RSP -> m_reg s' r = m_reg s r;
  ps_pc : m_pc s' = m_pc s;
  ps_words : forall k v, vs !! k = Some v ->
    load w (m_mem s') (sp - Z.of_nat w * (Z.of_nat k + 1)) = v;
  ps_frame : forall x, ~ (sp - Z.of_nat w * Z.of_nat (length vs) <= x < sp) -> m_mem s' x = m_mem s x;
  ps_wf : wf_machine w s'
}.

Lemma pushed_nil w s : wf_machine w s -> pushed w [] (m_reg s RSP) s s.
Proof. intros Hwf. split; simpl; [lia|done|done|done|done|done]. Qed.

Lemma pushed_snoc w vs v sp s s' :
  pushed w vs sp s s' -> fits w v -> fits w sp ->
  Z.of_nat w * (Z.of_nat (length vs) + 1) <= sp ->
  pushed w (vs ++ [v]) sp s (push w v s').
Proof.
  intros [Hsp Hr Hpc Hw Hf [Hwr Hwm]] Hv Hfit Hlow. unfold push.
  rewrite Hsp. rewrite (addr_fits w _) by (unfold fits in *; lia).
  assert (length (vs ++ [v]) = S (length vs)) as Hlen by (rewrite length_app; simpl; lia).
  split; simpl; rewrite ?Hlen.
  - rewrite set_reg_eq. lia.
  - intros r Hne. by rewrite set_reg_ne, Hr.
  - done.
  - intros k u Hk. apply lookup_app_Some in Hk as [Hk|[Hge Hk]].
    + pose proof (lookup_lt_Some _ _ _ Hk). rewrite load_store_ne by nia. by apply Hw.
    + apply list_lookup_singleton_Some in Hk as [? <-]. assert (k = length vs) as -> by lia.
      rewrite <- (load_store_eq w (m_mem s') (sp - Z.of_nat w * Z.of_nat (length vs) - Z.of_nat w) v) at 2 by done.
      f_equal. lia.
  - intros x Hx. rewrite store_off by lia. apply Hf. nia.
  - split; simpl.
    + intros r. unfold set_reg. case_bool_decide; [unfold fits in *; nia|apply Hwr].
    + by apply store_bytes.
Qed.

Lemma push_regs w sp s : forall rs vs s',
  pushed w vs sp s s' -> RSP ∉ rs -> fits w sp -> (forall r, fits w (m_reg s r)) ->
  Z.of_nat w * (Z.of_nat (length vs) + Z.of_nat (length rs)) <= sp ->
  pushed w (vs ++ (m_reg s <$> rs)) sp s (exec w (PUSH <$> rs) s').
Proof.
  induction rs as [|r rs IH]; intros vs s' HP Hrsp Hfit Hall Hlow; simpl in *.
  - by rewrite app_nil_r.
  - apply not_elem_of_cons in Hrsp as [Hne Hrsp].
    rewrite (cons_middle (m_reg s r)), app_assoc. apply IH; [|done..|rewrite length_app; simpl; lia].
    rewrite (ps_regs _ _ _ _ _ HP) by done. apply pushed_snoc; [done..|nia].
Qed.

(** Pops into distinct registers. *)
Lemma pop_regs w : forall rs s,
  NoDup rs -> RSP ∉ rs -> 0 <= m_reg s RSP ->
  m_reg s RSP + Z.of_nat w * Z.of_nat (length rs) < 256 ^ Z.of_nat w ->
  let s' := exec w (POP <$> rs) s in
  m_reg s' RSP = m_reg s RSP + Z.of_nat w * Z.of_nat (length rs) /\
  (forall k r, rs !! k = Some r -> m_reg s' r = load w (m_mem s) (m_reg s RSP + Z.of_nat w * Z.of_nat k)) /\
  (forall r, r <> RSP -> r ∉ rs -> m_reg s' r = m_reg s r) /\
  m_mem s' = m_mem s /\ m_pc s' = m_pc s.
Proof.
  induction rs as [|r rs IH]; intros s Hnd Hrsp Hlo Hhi; csimpl.
  - split_and!; [lia|done..].
  - apply NoDup_cons in Hnd as [Hr Hnd]. apply not_elem_of_cons in Hrsp as [Hne Hrsp].
    set (s1 := {| m_reg := _ |}). simpl in Hhi.
    assert (m_reg s1 RSP = m_reg s RSP + Z.of_nat w) as Hsp1.
    { unfold s1. simpl. rewrite set_reg_ne, set_reg_eq by done. apply addr_fits. unfold fits. nia. }
    destruct (IH s1) as (H1 & H2 & H3 & H4 & H5); [done..|lia|rewrite Hsp1; nia|].
    split_and!.
    + rewrite H1, Hsp1. lia.
    + intros [|k] r' Hk; simpl in Hk.
      * simplify_eq. rewrite H3 by done. unfold s1. simpl. rewrite set_reg_eq. unfold top. f_equal. lia.
      * rewrite (H2 _ _ Hk), Hsp1. unfold s1. simpl. f_equal. lia.
    + intros r' Hne' Hr'. apply not_elem_of_cons in Hr' as [??]. rewrite H3 by done.
      unfold s1. simpl. by rewrite !set_reg_ne.
    + done.
    + done.
Qed.

Arguments load : simpl never.
Arguments store : simpl never.
