(* ===== verification/ContextSwap.v ===== *)
(** The context switch of src/src/context_swap.S as programs of [Machine]. *)

From stdpp Require Import list.
From S2P Require Import Prelude Machine.

(** The [__x86_64__] listing. *)
Definition context_swap_x86_64 : list instr := [
  LEA 8 RSP RAX;
  LEA 112 RDI RSP;
  PUSH RAX;
  PUSH RBX;
  PUSH RCX;
  PUSH RDX;

  PUSHM (-8) RAX;

  PUSH RSI;
  PUSH RDI;
  PUSH RBP;
  PUSH R8;
  PUSH R9;
  PUSH R12;
  PUSH R13;
  PUSH R14;
  PUSH R15;

  MOV RSI RSP;
  POP R15;
  POP R14;
  POP R13;
  POP R12;
  POP R9;
  POP R8;
  POP RBP;
  POP RDI;
  POP RSI;
  POP RAX;
  POP RDX;
  POP RCX;
  POP RBX;
  POP RSP;
  PUSH RAX;

  XORL RAX;
  RET
].

(** The [__i386__] listing. *)
Definition context_swap_i386 : list instr := [
  LEA 4 RSP RAX;
  MOVL 4 RSP RSP;
  LEA 32 RSP RSP;

  PUSH RAX;

  PUSH RBP;
  PUSH RSI;
  PUSH RDI;
  PUSH RDX;
  PUSH RCX;
  PUSH RBX;
  PUSHM (-4) RAX;

  MOVL 4 RAX RSP;

  POP RAX;
  POP RBX;
  POP RCX;
  POP RDX;
  POP RDI;
  POP RSI;
  POP RBP;
  POP RSP;
  PUSH RAX;

  XORL RAX;
  RET
].

(** The block [regs] of a [context_t] in memory, word [k]. *)
Definition word64 (m : mem) (ctx k : Z) : Z := load 8 m (ctx + 8 * k).

(** Running the routine from its first instruction. *)
Definition run64 (s : machine) : machine := exec 8 context_swap_x86_64 s.
Definition run32 (s : machine) : machine := exec 4 context_swap_i386 s.
