(* ===== verification/ContextSwapSpec.v ===== *)
(** Correctness of the x86-64 context switch: what it saves, what it
    restores, and the round trip: a context switched out and later switched
    in again resumes as if its call of [context_swap] had just returned. *)

From stdpp Require Import gmap list.
From S2P Require Import Prelude Machine ContextSwap.

(** * The layout of [regs] (the table in src/src/context.c) *)

(** What [context_swap] stores for the calling context, from word 0 up. *)
Definition image64 (s : machine) : list Z :=
  [ m_reg s R15; m_reg s R14; m_reg s R13; m_reg s R12; m_reg s R9; m_reg s R8;
    m_reg s RBP; m_reg s RDI; m_reg s RSI;
    load 8 (m_mem s) (m_reg s RSP);          (* the return address *)
    m_reg s RDX; m_reg s RCX; m_reg s RBX;
    m_reg s RSP + 8 ].                       (* the caller's stack pointer *)

(** The registers restored from words 0 to 8, and from 10 to 12. *)
Definition low_regs : list reg := [R15; R14; R13; R12; R9; R8; RBP; RDI; RSI].
Definition high_regs : list reg := [RDX; RCX; RBX].

Lemma image64_split s :
  image64 s = (m_reg s <$> low_regs) ++ [load 8 (m_mem s) (m_reg s RSP)] ++
    (m_reg s <$> high_regs) ++ [m_reg s RSP + 8].
Proof. reflexivity. Qed.

Lemma image64_low s k r : low_regs !! k = Some r -> image64 s !! k = Some (m_reg s r).
Proof.
  intros Hk. rewrite image64_split. apply lookup_app_l_Some. by rewrite list_lookup_fmap, Hk.
Qed.

Lemma image64_high s k r : high_regs !! k = Some r -> image64 s !! (10 + k)%nat = Some (m_reg s r).
Proof.
  intros Hk. rewrite image64_split, app_assoc, lookup_app_r by (simpl; lia).
  apply lookup_app_l_Some. rewrite list_lookup_fmap. replace (10 + k - _)%nat with k by (simpl; lia). by rewrite Hk.
Qed.

Lemma low_regs_plain : Forall (fun r => r <> RSP /\ r <> RAX) low_regs.
Proof. repeat constructor; done. Qed.

Lemma high_regs_plain : Forall (fun r => r <> RSP /\ r <> RAX) high_regs.
Proof. repeat constructor; done. Qed.

(** [a] and [b] designate [n] and [k] bytes that do not overlap. *)
Definition apart (a n b k : Z) : Prop := a + n <= b \/ b + k <= a.

(** * Saving *)

Definition save_code : list instr :=
  [LEA 8 RSP RAX; LEA 112 RDI RSP] ++ (PUSH <$> [RAX; RBX; RCX; RDX]) ++
  [PUSHM (-8) RAX] ++ (PUSH <$> reverse low_regs).

Definition restore_code : list instr :=
  [MOV RSI RSP] ++ (POP <$> low_regs ++ [RAX] ++ high_regs) ++ [POP RSP; PUSH RAX; XORL RAX; RET].

Lemma context_swap_split : context_swap_x86_64 = save_code ++ restore_code.
Proof. reflexivity. Qed.

(** After the two [lea]s the stack pointer is just above the block. *)
Lemma setup_spec s :
  wf_machine 8 s -> m_reg s RDI + 112 < 2 ^ 64 -> m_reg s RSP + 8 < 2 ^ 64 ->
  let s0 := exec 8 [LEA 8 RSP RAX; LEA 112 RDI RSP] s in
  wf_machine 8 s0 /\ m_mem s0 = m_mem s /\ m_reg s0 RAX = m_reg s RSP + 8 /\
  m_reg s0 RSP = m_reg s RDI + 112 /\ (forall r, r <> RSP -> r <> RAX -> m_reg s0 r = m_reg s r).
Proof.
  intros Hwf Ha Hsp. change (2 ^ 64) with (256 ^ Z.of_nat 8) in *.
  pose proof (wf_reg _ _ Hwf) as Hr. pose proof (Hr RDI) as HfA. pose proof (Hr RSP) as HfS.
  unfold fits in HfA, HfS. set (s0 := exec 8 [LEA 8 RSP RAX; LEA 112 RDI RSP] s).
  assert (m_reg s0 RAX = m_reg s RSP + 8) as H0a.
  { unfold s0. simpl. rewrite set_reg_ne, set_reg_eq by done. apply addr_fits. unfold fits. lia. }
  assert (m_reg s0 RSP = m_reg s RDI + 112) as H0s.
  { unfold s0. simpl. rewrite set_reg_eq, set_reg_ne by done. apply addr_fits. unfold fits. lia. }
  assert (forall r, r <> RSP -> r <> RAX -> m_reg s0 r = m_reg s r) as H0r.
  { intros r ??. unfold s0. simpl. by rewrite !set_reg_ne. }
  split_and!; [|done..]. split; [|apply Hwf]. intros r.
  destruct (decide (r = RSP)) as [->|]; [unfold fits; lia|].
  destruct (decide (r = RAX)) as [->|]; [unfold fits; lia|]. rewrite H0r by done. apply Hr.
Qed.

(** The values pushed, first to last. *)
Lemma save_pushes s :
  wf_machine 8 s -> m_reg s RDI + 112 < 2 ^ 64 -> m_reg s RSP + 8 < 2 ^ 64 ->
  apart (m_reg s RDI) 112 (m_reg s RSP) 8 ->
  exists s0, m_mem s0 = m_mem s /\ (forall r, r <> RSP -> r <> RAX -> m_reg s0 r = m_reg s r) /\
    pushed 8 (reverse (image64 s)) (m_reg s RDI + 112) s0 (exec 8 save_code s).
Proof.
  intros Hwf Ha Hsp Hap. destruct (setup_spec s Hwf Ha Hsp) as (Hwf0 & Hm0 & Hax & Hs0 & Hr0).
  unfold save_code. rewrite !exec_app.
  set (s0 := exec 8 [LEA 8 RSP RAX; LEA 112 RDI RSP] s) in *. exists s0. split_and!; [done..|].
  pose proof (wf_reg _ _ Hwf RDI) as HfA. pose proof (wf_reg _ _ Hwf RSP) as HfS.
  change (2 ^ 64) with (256 ^ Z.of_nat 8) in *. unfold fits in HfA, HfS.
  assert (fits 8 (m_reg s RDI + 112)) as Hfit by (unfold fits; lia).
  pose proof (pushed_nil _ _ Hwf0) as HP. rewrite Hs0 in HP.
  apply (push_regs _ _ _ [RAX; RBX; RCX; RDX]) in HP; [|set_solver|done|apply Hwf0|simpl; lia].
  set (s1 := exec 8 (PUSH <$> [RAX; RBX; RCX; RDX]) s0) in *.
  assert (load 8 (m_mem s1) (m_reg s RSP) = load 8 (m_mem s) (m_reg s RSP)) as Hret.
  { apply load_ext. intros x Hx. rewrite <- Hm0. apply (ps_frame _ _ _ _ _ HP). simpl. unfold apart in Hap. lia. }
  assert (m_reg s1 RAX = m_reg s RSP + 8) as Hax1
    by (rewrite (ps_regs _ _ _ _ _ HP) by done; exact Hax).
  apply (pushed_snoc _ _ (load 8 (m_mem s) (m_reg s RSP))) in HP; [|apply load_fits, Hwf|done|simpl; lia].
  assert (exec 8 [PUSHM (-8) RAX] s1 = push 8 (load 8 (m_mem s) (m_reg s RSP)) s1) as ->.
  { cbn [exec exec1]. rewrite Hax1, <- Hret, addr_fits by (unfold fits; lia). do 2 f_equal. lia. }
  apply (push_regs _ _ _ (reverse low_regs)) in HP; [|rewrite elem_of_reverse; set_solver|done|apply Hwf0|simpl; lia].
  cbn [fmap list_fmap reverse rev_append low_regs app] in HP |- *.
  rewrite Hax in HP. rewrite !Hr0 in HP by done. exact HP.
Qed.

Lemma save_spec s :
  wf_machine 8 s -> m_reg s RDI + 112 < 2 ^ 64 -> m_reg s RSP + 8 < 2 ^ 64 ->
  apart (m_reg s RDI) 112 (m_reg s RSP) 8 ->
  let s1 := exec 8 save_code s in
  (forall k v, image64 s !! k = Some v -> word64 (m_mem s1) (m_reg s RDI) (Z.of_nat k) = v) /\
  (forall x, ~ (m_reg s RDI <= x < m_reg s RDI + 112) -> m_mem s1 x = m_mem s x) /\
  (forall r, r <> RSP -> r <> RAX -> m_reg s1 r = m_reg s r) /\ wf_machine 8 s1.
Proof.
  intros Hwf Ha Hsp Hap. destruct (save_pushes s Hwf Ha Hsp Hap) as (s0 & Hm0 & Hr0 & HP).
  set (s1 := exec 8 save_code s) in *. split_and!.
  - intros k v Hk. pose proof (lookup_lt_Some _ _ _ Hk) as Hlt. simpl in Hlt.
    rewrite <- (ps_words _ _ _ _ _ HP (13 - k) v).
    + unfold word64. f_equal. lia.
    + rewrite reverse_lookup by (simpl; lia). rewrite <- Hk. f_equal. simpl. lia.
  - intros x Hx. rewrite <- Hm0. apply (ps_frame _ _ _ _ _ HP). simpl. lia.
  - intros r ??. rewrite (ps_regs _ _ _ _ _ HP) by done. by apply Hr0.
  - apply HP.
Qed.

(** * Restoring *)

(** The state reached from the block [b]: registers, stack and program
    counter as the words of the block say. *)
Record resumes (m : mem) (b : Z) (s' : machine) : Prop := {
  rs_low : forall k r, low_regs !! k = Some r -> m_reg s' r = word64 m b (Z.of_nat k);
  rs_high : forall k r, high_regs !! k = Some r -> m_reg s' r = word64 m b (10 + Z.of_nat k);
  rs_rax : m_reg s' RAX = 0;
  rs_pc : m_pc s' = word64 m b 9;
  rs_rsp : m_reg s' RSP = word64 m b 13
}.

(** The last four instructions of both listings: load the stack pointer,
    return to [rax]. *)
Lemma finish_spec w s :
  let v := top w s in
  fits w v -> Z.of_nat w <= v -> fits w (m_reg s RAX) ->
  let s' := exec w [POP RSP; PUSH RAX; XORL RAX; RET] s in
  (forall r, r <> RSP -> r <> RAX -> m_reg s' r = m_reg s r) /\
  m_reg s' RAX = 0 /\ m_reg s' RSP = v /\ m_pc s' = m_reg s RAX /\
  m_mem s' = store w (m_mem s) (v - Z.of_nat w) (m_reg s RAX).
Proof.
  intros v Hv Hvw Hax. unfold fits in *.
  cbn [exec exec1]. unfold push. cbn [m_reg m_mem m_pc set_field].
  fold v. autorewrite with machine. rewrite (addr_fits w (v - Z.of_nat w)) by (unfold fits; lia).
  split_and!.
  - intros r ??. by autorewrite with machine.
  - by autorewrite with machine.
  - autorewrite with machine. rewrite addr_fits by (unfold fits; lia). lia.
  - unfold top. cbn [m_reg m_mem]. autorewrite with machine. by apply load_store_eq.
  - done.
Qed.

Lemma restore_spec s :
  wf_machine 8 s -> m_reg s RSI + 112 < 2 ^ 64 -> 8 <= word64 (m_mem s) (m_reg s RSI) 13 ->
  let s' := exec 8 restore_code s in
  resumes (m_mem s) (m_reg s RSI) s' /\
  (forall x, ~ (word64 (m_mem s) (m_reg s RSI) 13 - 8 <= x < word64 (m_mem s) (m_reg s RSI) 13) ->
    m_mem s' x = m_mem s x).
Proof.
  intros Hwf Hb Hsp. set (b := m_reg s RSI) in *. change (2 ^ 64) with (256 ^ Z.of_nat 8) in *.
  unfold restore_code. rewrite !exec_app. set (s0 := exec 8 [MOV RSI RSP] s).
  assert (m_reg s0 RSP = b) as H0 by done.
  pose proof (wf_reg _ _ Hwf RSI) as HfB. fold b in HfB. unfold fits in HfB.
  destruct (pop_regs 8 (low_regs ++ [RAX] ++ high_regs) s0) as (H1 & H2 & _ & H4 & _).
  { vm_compute. repeat constructor; set_solver. }
  { set_solver. }
  { lia. }
  { rewrite H0. simpl. lia. }
  set (s1 := exec 8 (POP <$> low_regs ++ [RAX] ++ high_regs) s0) in *.
  rewrite H0 in H1, H2. change (m_mem s0) with (m_mem s) in H2, H4.
  assert (top 8 s1 = word64 (m_mem s) b 13) as Htop by (unfold top; rewrite H1, H4; done).
  assert (m_reg s1 RAX = word64 (m_mem s) b 9) as Hax by (by apply (H2 9%nat)).
  assert (forall k, fits 8 (word64 (m_mem s) b k)) as Hfw by (intros k; apply load_fits, Hwf).
  destruct (finish_spec 8 s1) as (Hf & Hrax & Hrsp & Hpc & Hm); [rewrite ?Htop, ?Hax; done..|].
  set (s' := exec 8 [POP RSP; PUSH RAX; XORL RAX; RET] s1) in *. rewrite Htop in Hrsp, Hm. split.
  - split; [| |done|congruence|done].
    + intros k r Hk. destruct (Forall_lookup_1 _ _ _ _ low_regs_plain Hk). rewrite Hf by done.
      apply H2. by apply lookup_app_l_Some.
    + intros k r Hk. destruct (Forall_lookup_1 _ _ _ _ high_regs_plain Hk). rewrite Hf by done.
      rewrite (H2 (10 + k)%nat r) by (rewrite lookup_app_r by (simpl; lia); exact Hk).
      unfold word64. f_equal. lia.
  - intros x Hx. rewrite Hm, store_off by lia. by rewrite H4.
Qed.

(** * The whole routine *)

Record swap_pre (s : machine) : Prop := {
  sp_wf : wf_machine 8 s;
  sp_a : m_reg s RDI + 112 < 2 ^ 64;
  sp_b : m_reg s RSI + 112 < 2 ^ 64;
  sp_stack : m_reg s RSP + 8 < 2 ^ 64;
  sp_ret : apart (m_reg s RDI) 112 (m_reg s RSP) 8;
  sp_ab : apart (m_reg s RDI) 112 (m_reg s RSI) 112;
  (* the stack [b] is switched to has room for the return address, outside [a] *)
  sp_room : 8 <= word64 (m_mem s) (m_reg s RSI) 13;
  sp_target : apart (m_reg s RDI) 112 (word64 (m_mem s) (m_reg s RSI) 13 - 8) 8
}.

(** [context_swap(a, b)] stores the caller's image in [a] and resumes what
    [b] holds; memory changes in [a] and in one word below [b]'s stack
    pointer only. *)
Lemma run64_spec s :
  swap_pre s ->
  (forall k v, image64 s !! k = Some v -> word64 (m_mem (run64 s)) (m_reg s RDI) (Z.of_nat k) = v) /\
  resumes (m_mem s) (m_reg s RSI) (run64 s) /\
  (forall x, ~ (m_reg s RDI <= x < m_reg s RDI + 112) ->
     ~ (word64 (m_mem s) (m_reg s RSI) 13 - 8 <= x < word64 (m_mem s) (m_reg s RSI) 13) ->
     m_mem (run64 s) x = m_mem s x).
Proof.
  intros [Hwf Ha Hb Hst Hret Hab Hroom Htgt].
  unfold run64. rewrite context_swap_split, exec_app.
  destruct (save_spec s Hwf Ha Hst Hret) as (Hsave & Hframe & Hregs & Hwf1).
  set (s1 := exec 8 save_code s) in *.
  assert (forall k, 0 <= k < 14 -> word64 (m_mem s1) (m_reg s RSI) k = word64 (m_mem s) (m_reg s RSI) k) as Hbw.
  { intros k Hk. apply load_ext. intros x Hx. apply Hframe. unfold apart in Hab. lia. }
  assert (m_reg s1 RSI = m_reg s RSI) as Hrsi by (by apply Hregs).
  destruct (restore_spec s1) as [Hres Hframe1]; [done|congruence|by rewrite Hrsi, Hbw by lia|].
  rewrite Hrsi, Hbw in Hframe1 by lia. rewrite Hrsi in Hres. split_and!.
  - intros k v Hk. rewrite <- (Hsave _ _ Hk). apply lookup_lt_Some in Hk. simpl in Hk.
    apply load_ext. intros x Hx. apply Hframe1. unfold apart in Htgt. lia.
  - destruct Hres as [R1 R2 R3 R4 R5]. split; [| |done|by rewrite R4, Hbw by lia|by rewrite R5, Hbw by lia].
    + intros k r Hk. rewrite (R1 _ _ Hk). apply lookup_lt_Some in Hk. simpl in Hk. by rewrite Hbw by lia.
    + intros k r Hk. rewrite (R2 _ _ Hk). apply lookup_lt_Some in Hk. simpl in Hk. by rewrite Hbw by lia.
  - intros x Hx1 Hx2. by rewrite Hframe1, Hframe.
Qed.

(** C16. The round trip of the x86-64 switch.  [s] calls [context_swap(a, b)];
    later some [t] whose memory still has [a]'s block calls
    [context_swap(_, a)].  Control then is where the first call returns to, on
    the first caller's stack, with all its saved registers and 0 as result. *)
Theorem run64_roundtrip s t :
  swap_pre s -> swap_pre t ->
  m_reg t RSI = m_reg s RDI ->
  (forall x, m_reg s RDI <= x < m_reg s RDI + 112 -> m_mem t x = m_mem (run64 s) x) ->
  m_pc (run64 t) = load 8 (m_mem s) (m_reg s RSP) /\
  m_reg (run64 t) RSP = m_reg s RSP + 8 /\
  m_reg (run64 t) RAX = 0 /\
  (forall r, r ∈ low_regs ++ high_regs -> m_reg (run64 t) r = m_reg s r).
Proof.
  intros Hs Ht Hsi Hblk.
  destruct (run64_spec s Hs) as (Hsave & _ & _). destruct (run64_spec t Ht) as (_ & [R1 R2 R3 R4 R5] & _).
  assert (forall k v, image64 s !! k = Some v -> word64 (m_mem t) (m_reg t RSI) (Z.of_nat k) = v) as Hw.
  { intros k v Hk. rewrite <- (Hsave _ _ Hk), Hsi. apply load_ext. intros x Hx.
    apply lookup_lt_Some in Hk. simpl in Hk. apply Hblk. lia. }
  split_and!.
  - rewrite R4. by apply (Hw 9%nat).
  - rewrite R5. by apply (Hw 13%nat).
  - done.
  - intros r [Hr|Hr]%elem_of_app; apply list_elem_of_lookup_1 in Hr as [k Hk].
    + rewrite (R1 _ _ Hk). by apply Hw, image64_low.
    + rewrite (R2 _ _ Hk). specialize (Hw (10 + k)%nat). rewrite Nat2Z.inj_add in Hw. by apply Hw, image64_high.
Qed.

(** Memory stays a memory of bytes. *)
Lemma exec_bytes w code : forall s, (forall x, 0 <= m_mem s x < 256) -> forall x, 0 <= m_mem (exec w code s) x < 256.
Proof.
  induction code as [|i code IH]; intros s Hs; [done|]. cbn [exec]. apply IH.
  destruct i; cbn; try exact Hs; by apply store_bytes.
Qed.

(** A caller that switches from the block at 1000 to the block at 2000, whose
    stack pointer is 8000, and a later caller that switches back. *)
Definition demo_caller : machine :=
  mk_machine (fun r => match r with RDI => 1000 | RSI => 2000 | RSP => 5000 | RBX => 77 | R12 => 88 | _ => 1 end)
    400 (store 8 (store 8 (fun _ => 0) 2104 8000) 5000 4242).
Definition demo_back_in (m : mem) : machine :=
  mk_machine (fun r => match r with RDI => 2000 | RSI => 1000 | RSP => 7000 | _ => 2 end) 500 m.
Definition demo_back : machine := demo_back_in (m_mem (run64 demo_caller)).

Lemma demo_caller_pre : swap_pre demo_caller.
Proof.
  split; try (vm_compute; (intuition congruence) || (left; discriminate)).
  split; [intros []; vm_compute; split; congruence|].
  apply store_bytes, store_bytes. intros x. lia.
Qed.

Lemma demo_back_mem m x : m_mem (demo_back_in m) x = m x.
Proof. reflexivity. Qed.

Lemma demo_back_pre : swap_pre demo_back.
Proof.
  destruct (run64_spec demo_caller demo_caller_pre) as (Hsave & _ & _).
  assert (forall x, 0 <= m_mem (run64 demo_caller) x < 256) as Hm
    by apply exec_bytes, (wf_mem _ _ (sp_wf _ demo_caller_pre)).
  unfold demo_back. revert Hsave Hm. generalize (m_mem (run64 demo_caller)). intros m Hsave Hm.
  assert (word64 m 1000 13 = 5008) as Hsp by exact (Hsave 13%nat _ eq_refl).
  split; cbn [demo_back_in m_reg m_mem]; rewrite ?Hsp; try (unfold apart; lia).
  split; [intros []; vm_compute; split; congruence|done].
Qed.

Lemma run64_roundtrip_witness :
  m_pc (run64 demo_back) = load 8 (m_mem demo_caller) (m_reg demo_caller RSP) /\
  m_reg (run64 demo_back) RSP = m_reg demo_caller RSP + 8 /\
  m_reg (run64 demo_back) RAX = 0 /\
  (forall r, r ∈ low_regs ++ high_regs -> m_reg (run64 demo_back) r = m_reg demo_caller r).
Proof.
  refine (run64_roundtrip demo_caller demo_back demo_caller_pre demo_back_pre _ _).
  - reflexivity.
  - intros x _. exact (demo_back_mem (m_mem (run64 demo_caller)) x).
Defined.
