(* ===== verification/ContextSwap32.v ===== *)
(** Correctness of the i386 context switch: the arguments are on the stack,
    the block has eight words of four bytes, and the round trip is that of
    the x86-64 routine ([ContextSwapSpec]). *)

From stdpp Require Import gmap list.
From S2P Require Import Prelude Machine ContextSwap ContextSwapSpec.

(** Word [k] of a block, and the arguments [a] and [b] of the call. *)
Definition word32 (m : mem) (ctx k : Z) : Z := load 4 m (ctx + 4 * k).
Definition arg_a (s : machine) : Z := load 4 (m_mem s) (m_reg s RSP + 4).
Definition arg_b (s : machine) : Z := load 4 (m_mem s) (m_reg s RSP + 8).

(** The registers restored from words 1 to 6. *)
Definition regs32 : list reg := [RBX; RCX; RDX; RDI; RSI; RBP].

(** What [context_swap] stores for the calling context, from word 0 up. *)
Definition image32 (s : machine) : list Z :=
  load 4 (m_mem s) (m_reg s RSP) :: (m_reg s <$> regs32) ++ [m_reg s RSP + 4].

Lemma image32_regs s k r : regs32 !! k = Some r -> image32 s !! S k = Some (m_reg s r).
Proof.
  intros Hk. change (((m_reg s <$> regs32) ++ [m_reg s RSP + 4]) !! k = Some (m_reg s r)).
  apply lookup_app_l_Some. by rewrite list_lookup_fmap, Hk.
Qed.

Lemma regs32_plain : Forall (fun r => r <> RSP /\ r <> RAX) regs32.
Proof. repeat constructor; done. Qed.

(** * Saving *)

Definition setup32 : list instr := [LEA 4 RSP RAX; MOVL 4 RSP RSP; LEA 32 RSP RSP].

Definition save32 : list instr := setup32 ++ (PUSH <$> RAX :: reverse regs32) ++ [PUSHM (-4) RAX].

Definition restore32 : list instr :=
  [MOVL 4 RAX RSP] ++ (POP <$> RAX :: regs32) ++ [POP RSP; PUSH RAX; XORL RAX; RET].

Lemma context_swap32_split : context_swap_i386 = save32 ++ restore32.
Proof. reflexivity. Qed.

(** The caller's frame (return address and arguments) is outside [a]. *)
Record frame32 (s : machine) : Prop := {
  fr_wf : wf_machine 4 s;
  fr_a : arg_a s + 32 < 2 ^ 32;
  fr_stack : m_reg s RSP + 12 < 2 ^ 32;
  fr_apart : apart (arg_a s) 32 (m_reg s RSP) 12
}.

Lemma setup32_spec s :
  frame32 s ->
  let s0 := exec 4 setup32 s in
  wf_machine 4 s0 /\ m_mem s0 = m_mem s /\ m_reg s0 RAX = m_reg s RSP + 4 /\
  m_reg s0 RSP = arg_a s + 32 /\ (forall r, r <> RSP -> r <> RAX -> m_reg s0 r = m_reg s r).
Proof.
  intros [Hwf Ha Hsp _]. change (2 ^ 32) with (256 ^ Z.of_nat 4) in *.
  pose proof (wf_reg _ _ Hwf) as Hr. pose proof (Hr RSP) as HfS.
  pose proof (load_fits 4 _ (wf_mem _ _ Hwf) (m_reg s RSP + 4)) as HfA. fold (arg_a s) in HfA. unfold fits in HfA, HfS.
  set (s0 := exec 4 setup32 s).
  assert (m_reg s0 RAX = m_reg s RSP + 4) as H0a.
  { unfold s0. simpl. rewrite !(set_reg_ne RSP RAX), set_reg_eq by done. apply addr_fits. unfold fits. lia. }
  assert (m_reg s0 RSP = arg_a s + 32) as H0s.
  { unfold s0. simpl. rewrite !set_reg_eq, (set_reg_ne RAX RSP) by done.
    rewrite (addr_fits 4 (m_reg s RSP + 4)) by (unfold fits; lia). apply addr_fits. fold (arg_a s). unfold fits. lia. }
  assert (forall r, r <> RSP -> r <> RAX -> m_reg s0 r = m_reg s r) as H0r.
  { intros r ??. unfold s0. simpl. by rewrite !set_reg_ne. }
  split_and!; [|done..]. split; [|apply Hwf]. intros r.
  destruct (decide (r = RSP)) as [->|]; [unfold fits; lia|].
  destruct (decide (r = RAX)) as [->|]; [unfold fits; lia|]. rewrite H0r by done. apply Hr.
Qed.

(** The values pushed, first to last. *)
Lemma save32_pushes s :
  frame32 s ->
  exists s0, m_mem s0 = m_mem s /\ (forall r, r <> RSP -> r <> RAX -> m_reg s0 r = m_reg s r) /\
    m_reg s0 RAX = m_reg s RSP + 4 /\ pushed 4 (reverse (image32 s)) (arg_a s + 32) s0 (exec 4 save32 s).
Proof.
  intros HF. destruct (setup32_spec s HF) as (Hwf0 & Hm0 & Hax & Hs0 & Hr0). destruct HF as [Hwf Ha Hsp Hap].
  unfold save32. rewrite !exec_app. set (s0 := exec 4 setup32 s) in *. exists s0. split_and!; [done..|].
  pose proof (wf_reg _ _ Hwf RSP) as HfS. pose proof (load_fits 4 _ (wf_mem _ _ Hwf) (m_reg s RSP + 4)) as HfA. fold (arg_a s) in HfA.
  change (2 ^ 32) with (256 ^ Z.of_nat 4) in *. unfold fits in HfA, HfS.
  assert (fits 4 (arg_a s + 32)) as Hfit by (unfold fits; lia).
  pose proof (pushed_nil _ _ Hwf0) as HP. rewrite Hs0 in HP.
  apply (push_regs _ _ _ (RAX :: reverse regs32)) in HP; [|set_solver|done|apply Hwf0|simpl; lia].
  set (s1 := exec 4 (PUSH <$> RAX :: reverse regs32) s0) in *.
  assert (load 4 (m_mem s1) (m_reg s RSP) = load 4 (m_mem s) (m_reg s RSP)) as Hret.
  { apply load_ext. intros x Hx. rewrite <- Hm0. apply (ps_frame _ _ _ _ _ HP). simpl. unfold apart in Hap. lia. }
  assert (m_reg s1 RAX = m_reg s RSP + 4) as Hax1 by (rewrite (ps_regs _ _ _ _ _ HP) by done; exact Hax).
  apply (pushed_snoc _ _ (load 4 (m_mem s) (m_reg s RSP))) in HP; [|apply load_fits, Hwf|done|simpl; lia].
  assert (exec 4 [PUSHM (-4) RAX] s1 = push 4 (load 4 (m_mem s) (m_reg s RSP)) s1) as ->.
  { cbn [exec exec1]. rewrite Hax1, <- Hret, addr_fits by (unfold fits; lia). do 2 f_equal. lia. }
  cbn [fmap list_fmap reverse rev_append regs32 app] in HP |- *. rewrite Hax in HP. rewrite !Hr0 in HP by done. exact HP.
Qed.

Lemma save32_spec s :
  frame32 s ->
  let s1 := exec 4 save32 s in
  (forall k v, image32 s !! k = Some v -> word32 (m_mem s1) (arg_a s) (Z.of_nat k) = v) /\
  (forall x, ~ (arg_a s <= x < arg_a s + 32) -> m_mem s1 x = m_mem s x) /\
  m_reg s1 RAX = m_reg s RSP + 4 /\ wf_machine 4 s1.
Proof.
  intros HF. destruct (save32_pushes s HF) as (s0 & Hm0 & Hr0 & Hax & HP).
  set (s1 := exec 4 save32 s) in *. split_and!.
  - intros k v Hk. pose proof (lookup_lt_Some _ _ _ Hk) as Hlt. simpl in Hlt.
    rewrite <- (ps_words _ _ _ _ _ HP (7 - k) v).
    + unfold word32. f_equal. lia.
    + rewrite reverse_lookup by (simpl; lia). rewrite <- Hk. f_equal. simpl. lia.
  - intros x Hx. rewrite <- Hm0. apply (ps_frame _ _ _ _ _ HP). simpl. lia.
  - by rewrite (ps_regs _ _ _ _ _ HP).
  - apply HP.
Qed.

(** * Restoring *)

(** The state reached from the block [b]. *)
Record resumes32 (m : mem) (b : Z) (s' : machine) : Prop := {
  r32_regs : forall k r, regs32 !! k = Some r -> m_reg s' r = word32 m b (1 + Z.of_nat k);
  r32_eax : m_reg s' RAX = 0;
  r32_pc : m_pc s' = word32 m b 0;
  r32_esp : m_reg s' RSP = word32 m b 7
}.

(** The block to restore is the word at [4(%eax)]. *)
Lemma restore32_spec s b :
  wf_machine 4 s -> load 4 (m_mem s) (addr 4 (m_reg s RAX + 4)) = b -> b + 32 < 2 ^ 32 -> 4 <= word32 (m_mem s) b 7 ->
  let s' := exec 4 restore32 s in
  resumes32 (m_mem s) b s' /\
  (forall x, ~ (word32 (m_mem s) b 7 - 4 <= x < word32 (m_mem s) b 7) -> m_mem s' x = m_mem s x).
Proof.
  intros Hwf Hld Hb Hsp. change (2 ^ 32) with (256 ^ Z.of_nat 4) in *.
  unfold restore32. rewrite !exec_app. set (s0 := exec 4 [MOVL 4 RAX RSP] s).
  assert (m_reg s0 RSP = b) as H0 by (unfold s0; simpl; by rewrite set_reg_eq).
  assert (fits 4 b) as HfB by (rewrite <- Hld; apply load_fits, Hwf). unfold fits in HfB.
  destruct (pop_regs 4 (RAX :: regs32) s0) as (H1 & H2 & _ & H4 & _).
  { vm_compute. repeat constructor; set_solver. }
  { set_solver. }
  { lia. }
  { rewrite H0. simpl. lia. }
  set (s1 := exec 4 (POP <$> RAX :: regs32) s0) in *.
  rewrite H0 in H1, H2. change (m_mem s0) with (m_mem s) in H2, H4.
  assert (top 4 s1 = word32 (m_mem s) b 7) as Htop by (unfold top; rewrite H1, H4; done).
  assert (m_reg s1 RAX = word32 (m_mem s) b 0) as Hax by (by apply (H2 0%nat)).
  assert (forall k, fits 4 (word32 (m_mem s) b k)) as Hfw by (intros k; apply load_fits, Hwf).
  destruct (finish_spec 4 s1) as (Hf & Hrax & Hrsp & Hpc & Hm); [rewrite ?Htop, ?Hax; done..|].
  set (s' := exec 4 [POP RSP; PUSH RAX; XORL RAX; RET] s1) in *. rewrite Htop in Hrsp, Hm. split.
  - split; [|done|congruence|done]. intros k r Hk. destruct (Forall_lookup_1 _ _ _ _ regs32_plain Hk).
    rewrite Hf by done. rewrite (H2 (S k) r) by done. unfold word32. f_equal. lia.
  - intros x Hx. rewrite Hm, store_off by lia. by rewrite H4.
Qed.

(** * The whole routine *)

Record swap32_pre (s : machine) : Prop := {
  s32_frame : frame32 s;
  s32_b : arg_b s + 32 < 2 ^ 32;
  s32_ab : apart (arg_a s) 32 (arg_b s) 32;
  (* the stack [b] is switched to has room for the return address, outside [a] *)
  s32_room : 4 <= word32 (m_mem s) (arg_b s) 7;
  s32_target : apart (arg_a s) 32 (word32 (m_mem s) (arg_b s) 7 - 4) 4
}.

Lemma run32_spec s :
  swap32_pre s ->
  (forall k v, image32 s !! k = Some v -> word32 (m_mem (run32 s)) (arg_a s) (Z.of_nat k) = v) /\
  resumes32 (m_mem s) (arg_b s) (run32 s) /\
  (forall x, ~ (arg_a s <= x < arg_a s + 32) ->
     ~ (word32 (m_mem s) (arg_b s) 7 - 4 <= x < word32 (m_mem s) (arg_b s) 7) -> m_mem (run32 s) x = m_mem s x).
Proof.
  intros [HF Hb Hab Hroom Htgt]. unfold run32. rewrite context_swap32_split, exec_app.
  destruct (save32_spec s HF) as (Hsave & Hframe & Hax & Hwf1). destruct HF as [Hwf Ha Hst Hap].
  set (s1 := exec 4 save32 s) in *. pose proof (wf_reg _ _ Hwf RSP) as HfS. unfold fits in HfS.
  assert (forall k, 0 <= k < 8 -> word32 (m_mem s1) (arg_b s) k = word32 (m_mem s) (arg_b s) k) as Hbw.
  { intros k Hk. apply load_ext. intros x Hx. apply Hframe. unfold apart in Hab. lia. }
  destruct (restore32_spec s1 (arg_b s)) as [Hres Hframe1]; [done| |done|by rewrite Hbw by lia|].
  { rewrite Hax, addr_fits by (unfold fits; change (2 ^ 32) with (256 ^ Z.of_nat 4) in *; lia). unfold arg_b.
    replace (m_reg s RSP + 4 + 4) with (m_reg s RSP + 8) by lia. apply load_ext. intros x Hx. apply Hframe. unfold apart in Hap. lia. }
  rewrite Hbw in Hframe1 by lia. split_and!.
  - intros k v Hk. rewrite <- (Hsave _ _ Hk). apply lookup_lt_Some in Hk. simpl in Hk.
    apply load_ext. intros x Hx. apply Hframe1. unfold apart in Htgt. lia.
  - destruct Hres as [R1 R2 R3 R4]. split; [|done|by rewrite R3, Hbw by lia|by rewrite R4, Hbw by lia].
    intros k r Hk. rewrite (R1 _ _ Hk). apply lookup_lt_Some in Hk. simpl in Hk. by rewrite Hbw by lia.
  - intros x Hx1 Hx2. by rewrite Hframe1, Hframe.
Qed.

(** C17. The round trip of the i386 switch, for machine words of four bytes
    and arguments on the stack.  [s] calls [context_swap(a, b)]; later some [t]
    whose memory still has [a]'s block calls [context_swap(_, a)].  Control then
    is where the first call returns to, on the first caller's stack, with all
    its saved registers and 0 as result. *)
Theorem run32_roundtrip s t :
  swap32_pre s -> swap32_pre t -> arg_b t = arg_a s ->
  (forall x, arg_a s <= x < arg_a s + 32 -> m_mem t x = m_mem (run32 s) x) ->
  m_pc (run32 t) = load 4 (m_mem s) (m_reg s RSP) /\
  m_reg (run32 t) RSP = m_reg s RSP + 4 /\
  m_reg (run32 t) RAX = 0 /\
  (forall r, r ∈ regs32 -> m_reg (run32 t) r = m_reg s r).
Proof.
  intros Hs Ht Hsi Hblk.
  destruct (run32_spec s Hs) as (Hsave & _ & _). destruct (run32_spec t Ht) as (_ & [R1 R2 R3 R4] & _).
  assert (forall k v, image32 s !! k = Some v -> word32 (m_mem t) (arg_b t) (Z.of_nat k) = v) as Hw.
  { intros k v Hk. rewrite <- (Hsave _ _ Hk), Hsi. apply load_ext. intros x Hx.
    apply lookup_lt_Some in Hk. simpl in Hk. apply Hblk. lia. }
  split_and!.
  - rewrite R3. by apply (Hw 0%nat).
  - rewrite R4. by apply (Hw 7%nat).
  - done.
  - intros r [k Hk]%list_elem_of_lookup_1. rewrite (R1 _ _ Hk). specialize (Hw (S k)).
    rewrite Nat2Z.inj_succ, <- Z.add_1_l in Hw. by apply Hw, image32_regs.
Qed.

(** A caller at stack pointer 5000 that switches from the block at 1000 to the
    block at 2000, whose stack pointer is 8000, and a later caller at 7000 that
    switches back. *)
Definition demo32_mem : mem :=
  foldr (fun '(a, v) m => store 4 m a v) (fun _ => 0)
    [(5000, 4242); (5004, 1000); (5008, 2000); (2028, 8000); (7004, 2000); (7008, 1000)].
Definition demo32_caller : machine :=
  mk_machine (fun r => match r with RSP => 5000 | RBX => 77 | RBP => 88 | _ => 1 end) 400 demo32_mem.
Definition demo32_in (m : mem) : machine := mk_machine (fun r => match r with RSP => 7000 | _ => 2 end) 500 m.
Definition demo32_back : machine := demo32_in (m_mem (run32 demo32_caller)).

Lemma demo32_bytes x : 0 <= demo32_mem x < 256.
Proof. revert x. do 6 (apply store_bytes). intros x. lia. Qed.

Lemma demo32_caller_pre : swap32_pre demo32_caller.
Proof.
  split; [split|..]; try (vm_compute; (intuition congruence) || (left; discriminate)).
  split; [intros []; vm_compute; split; congruence|exact demo32_bytes].
Qed.

(** What the first call leaves alone. *)
Lemma demo32_kept a : 7000 <= a -> a + 4 <= 7996 -> load 4 (m_mem (run32 demo32_caller)) a = load 4 demo32_mem a.
Proof.
  intros H1 H2. destruct (run32_spec demo32_caller demo32_caller_pre) as (_ & _ & Hf). apply load_ext. intros x Hx.
  assert (arg_a demo32_caller = 1000) as Ha by by vm_compute.
  assert (word32 (m_mem demo32_caller) (arg_b demo32_caller) 7 = 8000) as Hb by by vm_compute.
  apply Hf; rewrite ?Ha, ?Hb; lia.
Qed.

Lemma demo32_in_mem m x : m_mem (demo32_in m) x = m x.
Proof. reflexivity. Qed.

Lemma demo32_args m : arg_a (demo32_in m) = load 4 m 7004 /\ arg_b (demo32_in m) = load 4 m 7008.
Proof. split; reflexivity. Qed.

Lemma demo32_back_args : arg_a demo32_back = 2000 /\ arg_b demo32_back = 1000.
Proof.
  unfold demo32_back. destruct (demo32_args (m_mem (run32 demo32_caller))) as [-> ->].
  rewrite !demo32_kept by lia. split; by vm_compute.
Qed.

Lemma demo32_back_pre : swap32_pre demo32_back /\ arg_b demo32_back = 1000.
Proof.
  destruct (run32_spec demo32_caller demo32_caller_pre) as (Hsave & _ & _).
  assert (forall x, 0 <= m_mem (run32 demo32_caller) x < 256) as Hm by exact (exec_bytes 4 context_swap_i386 demo32_caller demo32_bytes).
  destruct demo32_back_args as [Ha Hb]. unfold demo32_back in *. revert Hsave Hm Ha Hb.
  generalize (m_mem (run32 demo32_caller)). intros m Hsave Hm Ha Hb.
  assert (word32 m 1000 7 = 5004) as Hsp by exact (Hsave 7%nat _ eq_refl).
  split; [|done]. split; [split|..]; cbn [demo32_in m_reg m_mem]; rewrite ?Ha, ?Hb, ?Hsp; try (unfold apart; lia).
  split; [intros []; vm_compute; split; congruence|exact Hm].
Qed.

Lemma run32_roundtrip_witness :
  m_pc (run32 demo32_back) = load 4 (m_mem demo32_caller) (m_reg demo32_caller RSP) /\
  m_reg (run32 demo32_back) RSP = m_reg demo32_caller RSP + 4 /\
  m_reg (run32 demo32_back) RAX = 0 /\
  (forall r, r ∈ regs32 -> m_reg (run32 demo32_back) r = m_reg demo32_caller r).
Proof.
  refine (run32_roundtrip demo32_caller demo32_back demo32_caller_pre (proj1 demo32_back_pre) _ _).
  - exact (proj2 demo32_back_pre).
  - intros x _. exact (demo32_in_mem (m_mem (run32 demo32_caller)) x).
Defined.
