(* ===== verification/Context.v ===== *)
(** Contexts (src/src/context.h, src/src/context.c): the saved register block
    of a coroutine, its initialisation, and the entry into a fresh context
    through [context_swap]; and the USE_UCONTEXT variant of the three. *)

From stdpp Require Import gmap list.
From S2P Require Import Prelude Machine ContextSwap ContextSwapSpec.

(** * Data *)

(** Word numbers in [regs]. *)
Definition kEIP : nat := 0.
Definition kESP : nat := 7.
Definition kRDI : nat := 7.
Definition kRSI : nat := 8.
Definition kRETAddr : nat := 9.
Definition kRSP : nat := 13.

(** [regs] has 14 words on x86-64 and 8 on i386. *)
Record context_t := mk_context {
  ctx_regs : list Z;
  ctx_size : Z;
  ctx_sp : Z
}.

#[export] Instance eta_context : Eta context_t := fun r =>
  mk_context (ctx_regs r) (ctx_size r) (ctx_sp r).

#[export] Instance context_eq_dec : EqDecision context_t.
Proof. solve_decision. Defined.

(** * Operations *)

(** [memset(context, 0, sizeof(context_t))] (x86-64 layout). *)
Definition context_init (context : context_t) : Z * context_t :=
  (0, mk_context (replicate 14 0) 0 0).

(** x86-64. *)
Definition context_make (ctx : context_t) (fn s : Z) : Z * context_t :=
  let sp := wrap_u 64 (ctx_sp ctx + ctx_size ctx) in
  let sp := Z.land sp (wrap_u 64 (-16)) in
  let ctx := ctx <| ctx_regs := replicate 14 0 |> in
  let ctx := ctx <| ctx_regs ::= <[kRSP := wrap_u 64 (sp - 8)]> |> in
  let ctx := ctx <| ctx_regs ::= <[kRETAddr := fn]> |> in
  let ctx := ctx <| ctx_regs ::= <[kRDI := s]> |> in
  (0, ctx).

(** i386: the argument goes through the new stack, in memory. *)
Definition context_make_i386 (ctx : context_t) (fn s : Z) (m : mem) : Z * context_t * mem :=
  let sp := wrap_u 32 (ctx_sp ctx + ctx_size ctx - 4) in
  let sp := Z.land sp (wrap_u 32 (-16)) in
  let m := store 4 m sp s in
  let ctx := ctx <| ctx_regs := replicate 8 0 |> in
  let ctx := ctx <| ctx_regs ::= <[kESP := wrap_u 32 (sp - 4)]> |> in
  let ctx := ctx <| ctx_regs ::= <[kEIP := fn]> |> in
  (0, ctx, m).

(** * The variant with the C library's contexts (USE_UCONTEXT)

    [R] is what the C library keeps in a [ucontext_t] besides its public
    fields, [W] the machine.  [makecontext] has the number of arguments and
    the arguments; [swapcontext] stores the context it leaves. *)

Record ucontext_t (R : Type) := mk_ucontext {
  uc_ss_sp : Z;
  uc_ss_size : Z;
  uc_link : option Z;
  uc_mcontext : R
}.
Arguments mk_ucontext {R}.
Arguments uc_ss_sp {R}. Arguments uc_ss_size {R}. Arguments uc_link {R}. Arguments uc_mcontext {R}.
#[export] Instance eta_ucontext R : Eta (ucontext_t R) := fun r =>
  mk_ucontext (uc_ss_sp r) (uc_ss_size r) (uc_link r) (uc_mcontext r).

Class UcontextLib (R W : Type) := {
  getcontext : ucontext_t R -> W -> ucontext_t R;
  makecontext : ucontext_t R -> Z -> Z -> list Z -> ucontext_t R;
  swapcontext : ucontext_t R -> ucontext_t R -> W -> ucontext_t R * W
}.

Record context_ut (R : Type) := mk_context_ut {
  cu_ut : ucontext_t R;
  cu_size : Z;
  cu_sp : Z
}.
Arguments mk_context_ut {R}.
Arguments cu_ut {R}. Arguments cu_size {R}. Arguments cu_sp {R}.
#[export] Instance eta_context_ut R : Eta (context_ut R) := fun r => mk_context_ut (cu_ut r) (cu_size r) (cu_sp r).

Section ucontext.
Context {R W : Type} `{!UcontextLib R W}.

(** The contexts of [curr] and [pending], and the machine. *)
Definition ucontext_swap (curr pending : context_ut R) (w : W) : context_ut R * W :=
  let '(ut, w) := swapcontext (cu_ut curr) (cu_ut pending) w in (curr <| cu_ut := ut |>, w).

(** [argc] is 1, but no argument follows. *)
Definition context_make_ucontext (ctx : context_ut R) (fn s : Z) (w : W) : Z * context_ut R :=
  let ctx := ctx <| cu_ut := getcontext (cu_ut ctx) w |> in
  let ctx := ctx <| cu_ut := (cu_ut ctx) <| uc_ss_sp := cu_sp ctx |> |> in
  let ctx := ctx <| cu_ut := (cu_ut ctx) <| uc_ss_size := cu_size ctx |> |> in
  let ctx := ctx <| cu_ut := (cu_ut ctx) <| uc_link := None |> |> in
  let ctx := ctx <| cu_ut := makecontext (cu_ut ctx) fn 1 [] |> in
  (0, ctx).

(** The context is made in the coroutine's stack, and does not depend on [s]. *)
Lemma context_make_ucontext_run ctx fn s w :
  exists ut, uc_ss_sp ut = cu_sp ctx /\ uc_ss_size ut = cu_size ctx /\ uc_link ut = None /\
    context_make_ucontext ctx fn s w = (0, ctx <| cu_ut := makecontext ut fn 1 [] |>).
Proof using. by eexists (mk_ucontext _ _ None _). Qed.
End ucontext.

(** * Alignment *)

Lemma land_mask16 w x : 4 <= w -> 0 <= x < 2 ^ w -> Z.land x (wrap_u w (-16)) = x - x `mod` 16.
Proof.
  intros Hw Hx. unfold wrap_u.
  assert ((-16) `mod` 2 ^ w = Z.ldiff (Z.ones w) (Z.ones 4)) as ->.
  { apply Z.bits_inj'. intros n Hn. rewrite <- Z.land_ones, Z.land_spec, Z.ldiff_spec by lia.
    rewrite andb_comm. f_equal. replace (-16) with (Z.lnot (Z.ones 4)) by done. by rewrite Z.lnot_spec. }
  transitivity (Z.ldiff x (Z.ones 4)).
  - apply Z.bits_inj'. intros n Hn. rewrite Z.land_spec, !Z.ldiff_spec, andb_assoc, <- Z.land_spec.
    by rewrite Z.land_ones, Z.mod_small by lia.
  - rewrite Z.ldiff_ones_r, Z.shiftl_mul_pow2, Z.shiftr_div_pow2 by lia.
    change (2 ^ 4) with 16. pose proof (Z.div_mod x 16). lia.
Qed.

(** Top of a stack, rounded down to 16 bytes. *)
Definition stack_top (ctx : context_t) : Z :=
  ctx_sp ctx + ctx_size ctx - (ctx_sp ctx + ctx_size ctx) `mod` 16.

Lemma context_make_regs ctx fn s :
  0 <= ctx_sp ctx -> 24 <= ctx_size ctx -> ctx_sp ctx + ctx_size ctx < 2 ^ 64 ->
  context_make ctx fn s =
    (0, ctx <| ctx_regs := [0; 0; 0; 0; 0; 0; 0; s; 0; fn; 0; 0; 0; stack_top ctx - 8] |>).
Proof.
  intros H0 Hsz Htop. unfold context_make, stack_top.
  rewrite (wrap_u_small 64 (ctx_sp ctx + ctx_size ctx)) by lia.
  rewrite land_mask16 by lia. set (x := ctx_sp ctx + ctx_size ctx) in *.
  pose proof (Z.mod_pos_bound x 16). rewrite wrap_u_small by lia. done.
Qed.

(** * Entering a fresh context *)

(** The block at [b] in memory holds the registers of [ctx]. *)
Definition holds (m : mem) (b : Z) (ctx : context_t) : Prop :=
  forall k v, ctx_regs ctx !! k = Some v -> word64 m b (Z.of_nat k) = v.

(** C18. Switching to a context made by [context_make ctx fn arg] starts [fn]
    with [arg] as first argument, on the context's own stack, aligned as the
    System V ABI asks at a function entry. *)
Theorem context_make_entry s ctx fn arg :
  swap_pre s -> 0 <= ctx_sp ctx -> 32 <= ctx_size ctx -> ctx_sp ctx + ctx_size ctx < 2 ^ 64 ->
  holds (m_mem s) (m_reg s RSI) (context_make ctx fn arg).2 ->
  let s' := run64 s in
  m_pc s' = fn /\ m_reg s' RDI = arg /\
  (m_reg s' RSP + 8) `mod` 16 = 0 /\
  ctx_sp ctx <= m_reg s' RSP - 8 /\ m_reg s' RSP + 8 <= ctx_sp ctx + ctx_size ctx.
Proof.
  intros Hs H0 Hsz Htop Hb s'. subst s'. rewrite context_make_regs in Hb by lia.
  destruct (run64_spec s Hs) as (_ & [R1 _ _ R4 R5] & _).
  rewrite R4, R5, (R1 7%nat RDI) by done.
  pose proof (Hb 9%nat fn eq_refl : word64 _ _ 9 = _) as ->.
  pose proof (Hb 13%nat _ eq_refl : word64 _ _ 13 = _) as ->.
  pose proof (Hb 7%nat arg eq_refl) as ->.
  unfold stack_top. set (x := ctx_sp ctx + ctx_size ctx) in *.
  pose proof (Z.mod_pos_bound x 16). split_and!; [done|done| |lia|lia].
  replace (x - x `mod` 16 - 8 + 8) with (x - x `mod` 16) by lia.
  rewrite Zminus_mod_idemp_r, Z.sub_diag. done.
Qed.

(** A context with a stack of 4 KiB at 10000, stored in the block at 2000. *)
Definition demo_ctx : context_t := mk_context (replicate 14 0) 10000 4096.
Definition demo_entry : machine :=
  mk_machine (fun r => match r with RDI => 1000 | RSI => 2000 | RSP => 5000 | _ => 1 end) 400
    (store 8 (store 8 (store 8 (fun _ => 0) 2056 123) 2072 9999) 2104 (stack_top demo_ctx - 8)).

Lemma context_make_entry_witness :
  m_pc (run64 demo_entry) = 9999 /\ m_reg (run64 demo_entry) RDI = 123 /\
  (m_reg (run64 demo_entry) RSP + 8) `mod` 16 = 0 /\
  ctx_sp demo_ctx <= m_reg (run64 demo_entry) RSP - 8 /\
  m_reg (run64 demo_entry) RSP + 8 <= ctx_sp demo_ctx + ctx_size demo_ctx.
Proof.
  refine (context_make_entry demo_entry demo_ctx 9999 123 _ _ _ _ _).
  - split; try (vm_compute; (intuition congruence) || (left; discriminate)).
    split; [intros []; vm_compute; split; congruence|]. do 3 apply store_bytes. intros x. lia.
  - vm_compute. discriminate.
  - vm_compute. discriminate.
  - reflexivity.
  - intros k v Hk. do 14 (destruct k as [|k]; [vm_compute in Hk; injection Hk as <-; vm_compute; reflexivity|]).
    discriminate Hk.
Defined.
