(* ===== verification/Events.v ===== *)
(** The conversions between poll and epoll event masks
    (src/src/coroutine_impl.c, [poll_event_to_epoll], [epoll_event_to_poll])
    and the stack size options ([coroutine_init_env]). *)

From stdpp Require Import list.
From S2P Require Import Prelude.

(** * Event masks (Linux values) *)

Definition POLLIN : Z := 1.
Definition POLLOUT : Z := 4.
Definition POLLERR : Z := 8.
Definition POLLHUP : Z := 16.
Definition EPOLLIN : Z := 1.
Definition EPOLLOUT : Z := 4.
Definition EPOLLERR : Z := 8.
Definition EPOLLHUP : Z := 16.
Definition EPOLL_CTL_ADD : Z := 1.
Definition EPOLL_CTL_DEL : Z := 2.

(** [if (events & src) e |= dst;] *)
Definition on_bit (events src dst e : Z) : Z :=
  if negb (Z.land events src =? 0) then Z.lor e dst else e.

Definition poll_event_to_epoll (events : Z) : Z :=
  let e := 0 in
  let e := on_bit events POLLIN EPOLLIN e in
  let e := on_bit events POLLOUT EPOLLOUT e in
  let e := on_bit events POLLHUP EPOLLHUP e in
  let e := on_bit events POLLERR EPOLLERR e in
  let e := on_bit events POLLIN EPOLLIN e in
  let e := on_bit events POLLOUT EPOLLOUT e in
  e.

Definition epoll_event_to_poll (events : Z) : Z :=
  let e := 0 in
  let e := on_bit events EPOLLIN POLLIN e in
  let e := on_bit events EPOLLOUT POLLOUT e in
  let e := on_bit events EPOLLHUP POLLHUP e in
  let e := on_bit events EPOLLERR POLLERR e in
  let e := on_bit events EPOLLIN POLLIN e in
  let e := on_bit events EPOLLOUT POLLOUT e in
  e.

(** The four events both interfaces know. *)
Definition common_events : Z := 29.

Lemma on_bit_lor events k e :
  0 <= k -> on_bit events (2 ^ k) (2 ^ k) e = Z.lor e (Z.land events (2 ^ k)).
Proof.
  intros Hk. unfold on_bit. destruct (Z.eqb_spec (Z.land events (2 ^ k)) 0) as [->|Hne]; simpl.
  - by rewrite Z.lor_0_r.
  - f_equal. symmetry. apply Z.bits_inj'. intros n Hn. rewrite Z.land_spec, Z.pow2_bits_eqb by lia.
    destruct (Z.eqb_spec k n) as [<-|]; [|by rewrite andb_false_r]. rewrite andb_true_r.
    destruct (Z.testbit events k) eqn:Hb; [done|]. exfalso. apply Hne.
    apply Z.bits_inj'. intros i Hi. rewrite Z.land_spec, Z.pow2_bits_eqb, Z.bits_0 by lia.
    destruct (Z.eqb_spec k i) as [<-|]; [by rewrite Hb|by rewrite andb_false_r].
Qed.

Lemma to_epoll_mask events : poll_event_to_epoll events = Z.land events common_events.
Proof.
  unfold poll_event_to_epoll, POLLIN, POLLOUT, POLLERR, POLLHUP, EPOLLIN, EPOLLOUT, EPOLLERR, EPOLLHUP.
  change 16 with (2 ^ 4). change 8 with (2 ^ 3). change 4 with (2 ^ 2) at 1 2 4 5. change 1 with (2 ^ 0).
  rewrite !on_bit_lor by lia. rewrite Z.lor_0_l, <- !Z.land_lor_distr_r. done.
Qed.

Lemma to_poll_mask events : epoll_event_to_poll events = Z.land events common_events.
Proof. exact (to_epoll_mask events). Qed.

(** Converting an event mask from poll to epoll and back, or the other
    way round, keeps exactly the events both sides know (IN, OUT, ERR, HUP):
    it is the identity on the masks the library uses and drops every other
    bit. *)
Theorem event_masks_roundtrip events :
  epoll_event_to_poll (poll_event_to_epoll events) = Z.land events common_events /\
  poll_event_to_epoll (epoll_event_to_poll events) = Z.land events common_events.
Proof.
  rewrite !to_epoll_mask, ?to_poll_mask. split; by rewrite <- Z.land_assoc.
Qed.

(** * Options *)

Record coroutine_options_t := mk_options {
  opt_stack_size : Z;
  opt_task_per_thread : Z
}.

#[export] Instance eta_options : Eta coroutine_options_t := fun r =>
  mk_options (opt_stack_size r) (opt_task_per_thread r).

Definition kMinStackSize : Z := 128 * 1024.
Definition kMaxStackSize : Z := 8 * 1024 * 1024.
Definition kDefaultTaskPerThread : Z := 1000.

(** [coroutine_init_env]: the resulting [gOptions]. *)
Definition coroutine_init_env (options : coroutine_options_t) : coroutine_options_t :=
  let gOptions := options in
  let stack_size := opt_stack_size gOptions in
  let stack_size :=
    if stack_size <? kMinStackSize then kMinStackSize
    else if kMaxStackSize <? stack_size then kMaxStackSize
    else stack_size in
  let stack_size :=
    if negb (Z.land stack_size 0xFFF =? 0)
    then to_int (Z.land stack_size (Z.lnot 0xFFF) + 0x1000)
    else stack_size in
  let gOptions := gOptions <| opt_stack_size := stack_size |> in
  if opt_task_per_thread gOptions =? 0
  then gOptions <| opt_task_per_thread := kDefaultTaskPerThread |>
  else gOptions.

Lemma land_page x : Z.land x 0xFFF = x `mod` 4096.
Proof. exact (Z.land_ones x 12 ltac:(lia)). Qed.

Lemma land_not_page x : Z.land x (Z.lnot 0xFFF) = x - x `mod` 4096.
Proof.
  change 0xFFF with (Z.ones 12). rewrite <- Z.ldiff_land, Z.ldiff_ones_r by lia.
  rewrite Z.shiftl_mul_pow2, Z.shiftr_div_pow2 by lia. change (2 ^ 12) with 4096.
  pose proof (Z.div_mod x 4096). lia.
Qed.

(** For every [int] request the stack size is a whole number of 4 KiB pages
    between 128 KiB and 8 MiB, at least the request where that is possible,
    and less than a page above it; the number of tasks is never 0. *)
Theorem coroutine_init_env_spec o :
  let g := coroutine_init_env o in
  let r := Z.max kMinStackSize (Z.min kMaxStackSize (opt_stack_size o)) in
  opt_stack_size g `mod` 4096 = 0 /\ r <= opt_stack_size g < r + 4096 /\
  kMinStackSize <= opt_stack_size g <= kMaxStackSize /\ opt_task_per_thread g <> 0.
Proof.
  intros g r. unfold kMinStackSize, kMaxStackSize in *.
  set (c := if opt_stack_size o <? 128 * 1024 then 128 * 1024
            else if 8 * 1024 * 1024 <? opt_stack_size o then 8 * 1024 * 1024 else opt_stack_size o).
  assert (c = r) as Hc.
  { unfold c, r. destruct (Z.ltb_spec (opt_stack_size o) (128 * 1024)); [lia|].
    destruct (Z.ltb_spec (8 * 1024 * 1024) (opt_stack_size o)); lia. }
  assert (131072 <= r <= 8388608) as Hr by (unfold r; lia).
  set (z := if negb (Z.land c 0xFFF =? 0) then to_int (Z.land c (Z.lnot 0xFFF) + 0x1000) else c).
  assert (opt_stack_size g = z /\ opt_task_per_thread g <> 0) as [-> Ht].
  { unfold g, coroutine_init_env. simpl.
    destruct (Z.eqb_spec (opt_task_per_thread o) 0); (split; [reflexivity|]); [done|simpl; done]. }
  assert (z `mod` 4096 = 0 /\ r <= z < r + 4096 /\ z <= 8388608); [|naive_solver lia].
  unfold z. rewrite land_page, land_not_page, Hc. pose proof (Z.mod_pos_bound r 4096).
  destruct (Z.eqb_spec (r `mod` 4096) 0) as [H0|H0]; simpl; [lia|].
  rewrite to_int_small by lia. pose proof (Z.div_mod r 4096).
  assert (r - r `mod` 4096 + 4096 = (r / 4096 + 1) * 4096) as Heq by lia.
  rewrite Heq, Z.mod_mul by lia. split_and!; lia.
Qed.
