(* ===== verification/Thread.v ===== *)
(** The state of one thread of libcr: the structures of coroutine_impl.h,
    coroutine_task.h, coroutine.h, epoll.h and of [poll_inner], the shared
    store they live in, and the accesses to it.

    Control.  What [context_swap] saves and resumes is a machine context
    ([ContextSwapSpec] proves that it is resumed faithfully); here the saved
    context of a coroutine is represented by the point of the C code at which
    it will continue, [kont], and the point the running coroutine is at by
    [mode]. *)

From stdpp Require Import gmap list.
From S2P Require Import Prelude TimerList TimerWheel Context Events.

(** * Enumerations and pointers *)

Inductive state_t := INIT | RUNNING | STOPPED.
Inductive task_state_t := TASK_RUNNING | TASK_WAITING | TASK_END.

(** [coroutine_fun_t]: the library's [task_main], or a function of the user. *)
Inductive coroutine_fun_t := F_task_main | F_user (f : Z).

(** [void *] values: NULL, a [task_t], or a pointer of the user. *)
Inductive void_ptr := VNull | VTask (t : Z) | VUser (p : Z).

#[export] Instance state_t_eq_dec : EqDecision state_t.
Proof. solve_decision. Defined.
#[export] Instance task_state_t_eq_dec : EqDecision task_state_t.
Proof. solve_decision. Defined.
#[export] Instance coroutine_fun_t_eq_dec : EqDecision coroutine_fun_t.
Proof. solve_decision. Defined.
#[export] Instance void_ptr_eq_dec : EqDecision void_ptr.
Proof. solve_decision. Defined.

(** * Poll structures *)

Record pollfd := mk_pollfd { pfd_fd : Z; pfd_events : Z; pfd_revents : Z }.
#[export] Instance eta_pollfd : Eta pollfd := fun r => mk_pollfd (pfd_fd r) (pfd_events r) (pfd_revents r).
#[export] Instance pollfd_eq_dec : EqDecision pollfd.
Proof. solve_decision. Defined.

(** [struct epoll_event] with a pointer in [data]. *)
Record epoll_event := mk_epoll_event { ev_events : Z; ev_ptr : Z }.
#[export] Instance eta_epoll_event : Eta epoll_event := fun r => mk_epoll_event (ev_events r) (ev_ptr r).

(** The embedded [timer_item_t] of a [poll_item_t] is at the item's own
    address in the list heap, that of a [poll_context_t] at the context's. *)
Record poll_item_t := mk_poll_item {
  pi_self : nat;        (* index in the [fds] of the context *)
  pi_poll : Z;
  pi_event : epoll_event
}.

Record poll_context_t := mk_poll_context {
  pc_fds : list pollfd;
  pc_nfds : Z;
  pc_items : list Z;
  pc_allEventDetatch : Z;
  pc_raise_cnt : Z
}.
#[export] Instance eta_poll_context : Eta poll_context_t := fun r =>
  mk_poll_context (pc_fds r) (pc_nfds r) (pc_items r) (pc_allEventDetatch r) (pc_raise_cnt r).

(** * Control points *)

(** Whose code runs above the library: the thread's own [main], a task's
    function or its timeout callback (both called by [task_main]), or a
    function called by [coroutine_main] directly. *)
Inductive user_ctx := U_main | U_fun | U_timeout | U_body.

(** Where a coroutine that is switched out continues. *)
Inductive kont :=
  | K_none                                            (* never ran *)
  | K_entry                                           (* at the entry of coroutine_main *)
  | K_task_wait                                       (* in task_main, coroutine_yield_context() *)
  | K_poll (arg : Z) (fds : list pollfd) (u : user_ctx)  (* in poll_inner, yield_env(...) *)
  | K_user (u : user_ctx)                             (* in new_task, coroutine_resume(...) *)
  | K_create                                          (* in create_thread_taskpool, coroutine_resume(co) *)
  | K_process                                         (* in coroutine_eventloop, item->process(item) *)
  | K_dead.                                           (* in coroutine_main, the last yield_env *)

(** Where the running coroutine is. *)
Inductive mode :=
  | M_entry
  | M_task_loop                                       (* head of the loop of task_main *)
  | M_user (u : user_ctx)
  | M_poll_ret (arg : Z) (fds : list pollfd) (u : user_ctx)
  | M_create
  | M_process                                         (* head of the process loop *)
  | M_loop_wait                                       (* at do_epoll_wait *)
  | M_dead.

Definition resume_mode (k : kont) : mode :=
  match k with
  | K_none | K_dead => M_dead
  | K_entry => M_entry
  | K_task_wait => M_task_loop
  | K_poll arg fds u => M_poll_ret arg fds u
  | K_user u => M_user u
  | K_create => M_create
  | K_process => M_process
  end.

(** * Library structures *)

Record coroutine_task_attr_t := mk_attr {
  attr_enable_sys_hook : Z;
  attr_max_timeout_ms : Z;
  attr_arg : void_ptr;
  attr_fun : option coroutine_fun_t;
  attr_timeout : option coroutine_fun_t
}.

Record task_t := mk_task {
  tk_coroutine : option Z;
  tk_arg : void_ptr;
  tk_state : task_state_t;
  tk_pool : option Z;
  tk_next : option Z;
  tk_attr : coroutine_task_attr_t;
  tk_timeout : Z;
  tk_leftmsec : Z;
  tk_start : Z;
  tk_last : Z
}.
#[export] Instance eta_task : Eta task_t := fun r =>
  mk_task (tk_coroutine r) (tk_arg r) (tk_state r) (tk_pool r) (tk_next r) (tk_attr r)
    (tk_timeout r) (tk_leftmsec r) (tk_start r) (tk_last r).

Record taskpool_t := mk_taskpool {
  tp_tasks : list Z;       (* what has been stored in the array [tasks] *)
  tp_free : option Z;
  tp_size : Z;
  tp_working : Z
}.
#[export] Instance eta_taskpool : Eta taskpool_t := fun r =>
  mk_taskpool (tp_tasks r) (tp_free r) (tp_size r) (tp_working r).

Record coroutine_stack_t := mk_stack { st_size : Z; st_end : Z; st_start : Z }.

Record coroutine_t := mk_coroutine {
  co_fun : option coroutine_fun_t;
  co_arg : void_ptr;
  co_main : Z;
  co_state : state_t;
  co_context : context_t;
  co_save_size : Z;
  co_save_buffer : option Z;
  co_stack : option coroutine_stack_t;
  co_task : option Z;
  co_spec : gmap Z Z;      (* the non-NULL entries of [spec] *)
  co_kont : kont
}.
#[export] Instance eta_coroutine : Eta coroutine_t := fun r =>
  mk_coroutine (co_fun r) (co_arg r) (co_main r) (co_state r) (co_context r) (co_save_size r)
    (co_save_buffer r) (co_stack r) (co_task r) (co_spec r) (co_kont r).

(** [events] has [er_events] elements; what [epoll_wait] stores in them is the
    argument of [Poll.eventloop_wait]. *)
Record epoll_result_t := mk_epoll_result { er_size : Z; er_events : Z }.

Record epoll_context_t := mk_epoll_context {
  ep_fd : Z;
  ep_size : Z;
  ep_now : Z;
  ep_timer : epoll_timer_t;
  ep_timeout_list : Z;
  ep_active_list : Z;
  ep_result : option epoll_result_t
}.
#[export] Instance eta_epoll_context : Eta epoll_context_t := fun r =>
  mk_epoll_context (ep_fd r) (ep_size r) (ep_now r) (ep_timer r) (ep_timeout_list r)
    (ep_active_list r) (ep_result r).

Record env_t := mk_env {
  env_callstack : list (option Z);
  env_callstacksize : Z;
  env_main : option Z;
  env_epoll : option epoll_context_t;
  env_pool : option Z;
  env_arg : void_ptr;
  env_occupy : option Z;
  env_pending : option Z
}.
#[export] Instance eta_env : Eta env_t := fun r =>
  mk_env (env_callstack r) (env_callstacksize r) (env_main r) (env_epoll r) (env_pool r)
    (env_arg r) (env_occupy r) (env_pending r).

(** * The store of a thread *)

(** [K] is the state of the kernel's epoll instance. *)
Record world (K : Type) := mk_world {
  w_pid : Z;
  w_env : option env_t;                (* gEnv[pid] *)
  w_options : coroutine_options_t;     (* gOptions *)
  w_cos : gmap Z coroutine_t;
  w_tasks : gmap Z task_t;
  w_pools : gmap Z taskpool_t;
  w_heap : lheap;
  w_polls : gmap Z poll_context_t;
  w_pitems : gmap Z poll_item_t;
  w_errno : Z;
  w_brk : Z;                           (* next address malloc hands out for stacks *)
  w_coroutine_main : Z;                (* address of the function coroutine_main *)
  w_mode : mode;
  w_kern : K
}.
Arguments mk_world {K}.
Arguments w_pid {K}. Arguments w_env {K}. Arguments w_options {K}. Arguments w_cos {K}.
Arguments w_tasks {K}. Arguments w_pools {K}. Arguments w_heap {K}. Arguments w_polls {K}.
Arguments w_pitems {K}. Arguments w_errno {K}. Arguments w_brk {K}. Arguments w_coroutine_main {K}.
Arguments w_mode {K}. Arguments w_kern {K}.

#[export] Instance eta_world K : Eta (world K) := fun r =>
  mk_world (w_pid r) (w_env r) (w_options r) (w_cos r) (w_tasks r) (w_pools r) (w_heap r)
    (w_polls r) (w_pitems r) (w_errno r) (w_brk r) (w_coroutine_main r) (w_mode r) (w_kern r).

(** * Accesses *)

Section access.
Context {K : Type}.

Definition get_co (c : Z) : M (world K) coroutine_t := fun w =>
  match w_cos w !! c with Some v => Ok (v, w) | None => Fail BadPointer end.
Definition upd_co (c : Z) (f : coroutine_t -> coroutine_t) : M (world K) unit := fun w =>
  match w_cos w !! c with
  | Some v => Ok (tt, w <| w_cos := <[c := f v]> (w_cos w) |>)
  | None => Fail BadPointer
  end.

Definition get_task (t : Z) : M (world K) task_t := fun w =>
  match w_tasks w !! t with Some v => Ok (v, w) | None => Fail BadPointer end.
Definition upd_task (t : Z) (f : task_t -> task_t) : M (world K) unit := fun w =>
  match w_tasks w !! t with
  | Some v => Ok (tt, w <| w_tasks := <[t := f v]> (w_tasks w) |>)
  | None => Fail BadPointer
  end.

Definition get_pool (p : Z) : M (world K) taskpool_t := fun w =>
  match w_pools w !! p with Some v => Ok (v, w) | None => Fail BadPointer end.
Definition upd_pool (p : Z) (f : taskpool_t -> taskpool_t) : M (world K) unit := fun w =>
  match w_pools w !! p with
  | Some v => Ok (tt, w <| w_pools := <[p := f v]> (w_pools w) |>)
  | None => Fail BadPointer
  end.

Definition get_poll (p : Z) : M (world K) poll_context_t := fun w =>
  match w_polls w !! p with Some v => Ok (v, w) | None => Fail BadPointer end.
Definition upd_poll (p : Z) (f : poll_context_t -> poll_context_t) : M (world K) unit := fun w =>
  match w_polls w !! p with
  | Some v => Ok (tt, w <| w_polls := <[p := f v]> (w_polls w) |>)
  | None => Fail BadPointer
  end.

Definition get_pitem (p : Z) : M (world K) poll_item_t := fun w =>
  match w_pitems w !! p with Some v => Ok (v, w) | None => Fail BadPointer end.

(** The thread's [env_t], reached through a pointer that is not NULL. *)
Definition get_env : M (world K) env_t := fun w =>
  match w_env w with Some e => Ok (e, w) | None => Fail NullDeref end.
Definition upd_env (f : env_t -> env_t) : M (world K) unit := fun w =>
  match w_env w with
  | Some e => Ok (tt, w <| w_env := Some (f e) |>)
  | None => Fail NullDeref
  end.

Definition get_epoll : M (world K) epoll_context_t :=
  e ← get_env; deref (env_epoll e).
Definition upd_epoll (f : epoll_context_t -> epoll_context_t) : M (world K) unit :=
  ep ← get_epoll; upd_env (fun e => e <| env_epoll := Some (f ep) |>).

(** Code that works on the list heap only. *)
Definition on_heap {A} (m : M lheap A) : M (world K) A := fun w =>
  match m (w_heap w) with
  | Ok (a, h) => Ok (a, w <| w_heap := h |>)
  | Fail e => Fail e
  end.

Definition set_mode (m : mode) : M (world K) unit := modify (fun w => w <| w_mode := m |>).
End access.
