(* ===== verification/ThreadSpec.v ===== *)
(** Running the accesses of [Thread]: one equation per access, collected in
    the hint database [run], and the tactic [step] that runs the first
    command of a sequence with them. *)

From stdpp Require Import gmap list.
From S2P Require Import Prelude TimerList TimerWheel Context Events Thread.

Section runs.
Context {K : Type}.
Implicit Types w : world K.

Lemma get_co_run w c v : w_cos w !! c = Some v -> get_co c w = Ok (v, w).
Proof using. intros H. unfold get_co. by rewrite H. Qed.
Lemma upd_co_run w c v f : w_cos w !! c = Some v -> upd_co c f w = Ok (tt, w <| w_cos := <[c := f v]> (w_cos w) |>).
Proof using. intros H. unfold upd_co. by rewrite H. Qed.
Lemma get_task_run w t v : w_tasks w !! t = Some v -> get_task t w = Ok (v, w).
Proof using. intros H. unfold get_task. by rewrite H. Qed.
Lemma upd_task_run w t v f :
  w_tasks w !! t = Some v -> upd_task t f w = Ok (tt, w <| w_tasks := <[t := f v]> (w_tasks w) |>).
Proof using. intros H. unfold upd_task. by rewrite H. Qed.
Lemma get_pool_run w p v : w_pools w !! p = Some v -> get_pool p w = Ok (v, w).
Proof using. intros H. unfold get_pool. by rewrite H. Qed.
Lemma upd_pool_run w p v f :
  w_pools w !! p = Some v -> upd_pool p f w = Ok (tt, w <| w_pools := <[p := f v]> (w_pools w) |>).
Proof using. intros H. unfold upd_pool. by rewrite H. Qed.
Lemma get_poll_run w p v : w_polls w !! p = Some v -> get_poll p w = Ok (v, w).
Proof using. intros H. unfold get_poll. by rewrite H. Qed.
Lemma upd_poll_run w p v f :
  w_polls w !! p = Some v -> upd_poll p f w = Ok (tt, w <| w_polls := <[p := f v]> (w_polls w) |>).
Proof using. intros H. unfold upd_poll. by rewrite H. Qed.
Lemma get_pitem_run w p v : w_pitems w !! p = Some v -> get_pitem p w = Ok (v, w).
Proof using. intros H. unfold get_pitem. by rewrite H. Qed.
Lemma get_env_run w e : w_env w = Some e -> get_env w = Ok (e, w).
Proof using. intros H. unfold get_env. by rewrite H. Qed.
Lemma upd_env_run w e f : w_env w = Some e -> upd_env f w = Ok (tt, w <| w_env := Some (f e) |>).
Proof using. intros H. unfold upd_env. by rewrite H. Qed.
Lemma get_epoll_run w e ep : w_env w = Some e -> env_epoll e = Some ep -> get_epoll w = Ok (ep, w).
Proof using. intros H He. unfold get_epoll. rewrite (bind_Ok _ _ _ _ _ (get_env_run _ _ H)). by rewrite He. Qed.
Lemma upd_epoll_run w e ep f :
  w_env w = Some e -> env_epoll e = Some ep ->
  upd_epoll f w = Ok (tt, w <| w_env := Some (e <| env_epoll := Some (f ep) |>) |>).
Proof using.
  intros H He. unfold upd_epoll. rewrite (bind_Ok _ _ _ _ _ (get_epoll_run _ _ _ H He)). by apply upd_env_run.
Qed.
Lemma on_heap_run {A} (m : M lheap A) w a h :
  m (w_heap w) = Ok (a, h) -> on_heap m w = Ok (a, w <| w_heap := h |>).
Proof using. intros H. unfold on_heap. by rewrite H. Qed.

(** Reading the heap leaves the world as it is. *)
Lemma on_heap_read {A} (m : M lheap A) w a :
  m (w_heap w) = Ok (a, w_heap w) -> on_heap m w = Ok (a, w).
Proof using. intros H. unfold on_heap. rewrite H. by destruct w. Qed.
Lemma get_item_run x h it : lh_items h !! x = Some it -> get_item x h = Ok (it, h).
Proof using. intros H. unfold get_item. by rewrite H. Qed.
Lemma upd_item_run x h it f :
  lh_items h !! x = Some it -> upd_item x f h = Ok (tt, h <| lh_items := <[x := f it]> (lh_items h) |>).
Proof using. intros H. unfold upd_item. by rewrite H. Qed.
Lemma get_list_run l h t : lh_lists h !! l = Some t -> get_list l h = Ok (t, h).
Proof using. intros H. unfold get_list. by rewrite H. Qed.
Lemma upd_list_run l h t f :
  lh_lists h !! l = Some t -> upd_list l f h = Ok (tt, h <| lh_lists := <[l := f t]> (lh_lists h) |>).
Proof using. intros H. unfold upd_list. by rewrite H. Qed.

Lemma set_mode_run w m : set_mode m w = Ok (tt, w <| w_mode := m |>).
Proof using. done. Qed.
Lemma gets_run {S A} (f : S -> A) (s : S) : gets f s = Ok (f s, s).
Proof using. done. Qed.
Lemma get_run {S} (s : S) : get s = Ok (s, s).
Proof using. done. Qed.
Lemma modify_run {S} (f : S -> S) (s : S) : modify f s = Ok (tt, f s).
Proof using. done. Qed.
Lemma mret_run {S A} (a : A) (s : S) : (mret a : M S A) s = Ok (a, s).
Proof using. done. Qed.
Lemma deref_run {S A} (p : option A) a (s : S) : p = Some a -> deref p s = Ok (a, s).
Proof using. by intros ->. Qed.

Lemma array_get_run {S A} (l : list A) i x (s : S) :
  0 <= i -> l !! Z.to_nat i = Some x -> array_get l i s = Ok (x, s).
Proof using. intros Hi Hx. unfold array_get. rewrite bool_decide_eq_true_2 by done. by rewrite Hx. Qed.
Lemma array_set_run {S A} (l : list A) i x (s : S) :
  0 <= i < Z.of_nat (length l) -> array_set l i x s = Ok (<[Z.to_nat i := x]> l, s).
Proof using. intros Hi. unfold array_set. by rewrite bool_decide_eq_true_2. Qed.
End runs.

Create HintDb run.
#[export] Hint Resolve get_co_run upd_co_run get_task_run upd_task_run get_pool_run upd_pool_run
  get_poll_run upd_poll_run get_pitem_run get_env_run upd_env_run get_epoll_run upd_epoll_run
  on_heap_read get_item_run get_list_run set_mode_run gets_run get_run modify_run mret_run deref_run
  array_get_run array_set_run : run.
#[export] Hint Extern 2 (_ <= _) => lia : run.
#[export] Hint Extern 2 (_ /\ _) => lia : run.
#[export] Hint Extern 5 (_ !! _ = _) => apply lookup_insert_eq : run.

(** Run the first command of the goal's sequence. *)
Ltac step := erewrite bind_Ok by (eauto 5 with run); cbv beta.
