(* ===== verification/Sched.v ===== *)
(** The abstract scheduler of a thread: which task runs, which are suspended
    inside [new_task], which wait in [poll_inner], which are free; and its
    well-formedness, preserved by the transitions. *)

From stdpp Require Import gmap list.
From S2P Require Import Prelude Thread.

(** * State *)

(** Where the running coroutine is. *)
Inductive pc :=
  | PC_start                                          (* a task about to call its function *)
  | PC_idle                                           (* a task back on the free list, about to yield *)
  | PC_user (u : user_ctx)
  | PC_ret (q : Z) (fds : list pollfd) (u : user_ctx) (* back in poll_inner *)
  | PC_process                                        (* main, in the process loop *)
  | PC_events.                                        (* main, at do_epoll_wait *)

Inductive tstat :=
  | T_run
  | T_susp (u : user_ctx)                             (* in new_task *)
  | T_wait (q : Z) (fds : list pollfd) (u : user_ctx) (* in poll_inner *)
  | T_free.

Record sched := mk_sched {
  s_pc : pc;
  s_stack : list Z;            (* tasks above main on the call stack, innermost first *)
  s_main : kont;               (* where main continues when a task runs *)
  s_free : list Z;
  s_stat : gmap Z tstat
}.

(** User code of a task; code of main. *)
Definition task_ctx (u : user_ctx) : Prop := u = U_fun \/ u = U_timeout.
Definition main_kont (k : kont) : Prop := k = K_user U_main \/ k = K_process.

Definition pc_ok (stack : list Z) (p : pc) : Prop :=
  match stack, p with
  | [], PC_user u => u = U_main
  | [], (PC_process | PC_events) => True
  | _ :: _, (PC_start | PC_idle) => True
  | _ :: _, (PC_user u | PC_ret _ _ u) => task_ctx u
  | _, _ => False
  end.

(** What the position of a task in stack and free list says of its status. *)
Definition stat_ok (s : sched) (t : Z) (st : tstat) : Prop :=
  match st with
  | T_run => head (s_stack s) = Some t
  | T_susp u => t ∈ tail (s_stack s) /\ task_ctx u
  | T_wait _ _ u => task_ctx u
  | T_free => t ∈ s_free s
  end.

Record sched_ok (s : sched) : Prop := {
  so_stack : NoDup (s_stack s);
  so_free : NoDup (s_free s);
  so_stat : forall t st, s_stat s !! t = Some st -> stat_ok s t st;
  so_head : forall t, head (s_stack s) = Some t -> s_stat s !! t = Some T_run;
  so_tail : forall t, t ∈ tail (s_stack s) -> exists u, s_stat s !! t = Some (T_susp u);
  so_frees : forall t, t ∈ s_free s -> s_stat s !! t = Some T_free;
  so_pc : pc_ok (s_stack s) (s_pc s);
  so_main : s_stack s <> [] -> main_kont (s_main s)
}.

(** * Transitions *)

(** The running code calls down: [t] runs at [p], the caller is suspended in
    user code [u], or main at [k]. *)
Definition s_push (t : Z) (p : pc) (u : user_ctx) (k : kont) (s : sched) : sched :=
  mk_sched p (t :: s_stack s)
    (match s_stack s with [] => k | _ => s_main s end)
    (filter (.≠ t) (s_free s))
    (<[t := T_run]> (match s_stack s with [] => s_stat s | c :: _ => <[c := T_susp u]> (s_stat s) end)).

(** The running task leaves the stack with status [st]; its caller goes on. *)
Definition s_pop (st : tstat) (s : sched) : sched :=
  match s_stack s with
  | [] => s
  | t :: r =>
      mk_sched
        (match r with
         | [] => match s_main s with K_user u => PC_user u | _ => PC_process end
         | c :: _ => match s_stat s !! c with Some (T_susp u) => PC_user u | _ => PC_start end
         end) r (s_main s)
        (match st with T_free => t :: s_free s | _ => s_free s end)
        (<[t := st]> (match r with [] => s_stat s | c :: _ => <[c := T_run]> (s_stat s) end))
  end.

Definition s_goto (p : pc) (s : sched) : sched :=
  mk_sched p (s_stack s) (s_main s) (s_free s) (s_stat s).

(** * Preservation *)

Lemma s_goto_ok p s : sched_ok s -> pc_ok (s_stack s) p -> sched_ok (s_goto p s).
Proof. intros [] Hp. by split. Qed.

(** A status change of one task does not concern the position of another. *)
Section positions.
Context (s : sched) (OK : sched_ok s).

Lemma stacked_stat t : t ∈ s_stack s -> s_stat s !! t = Some T_run \/ exists u, s_stat s !! t = Some (T_susp u).
Proof using OK.
  intros Hin. destruct (s_stack s) as [|c r] eqn:E; [by apply elem_of_nil in Hin|].
  apply elem_of_cons in Hin as [->|Hin].
  - left. apply (so_head _ OK). by rewrite E.
  - right. apply (so_tail _ OK). by rewrite E.
Qed.

Lemma off_stack t st :
  s_stat s !! t = Some st -> (st = T_free \/ exists q fds v, st = T_wait q fds v) -> t ∉ s_stack s.
Proof using OK.
  intros Ht Hst Hin. destruct (stacked_stat t Hin) as [H|[u H]]; rewrite Ht in H; injection H as ->;
    destruct Hst as [?|(? & ? & ? & ?)]; discriminate.
Qed.

Lemma free_off_stack t : t ∈ s_free s -> t ∉ s_stack s.
Proof using OK. intros Ht. eapply off_stack; [by apply (so_frees _ OK)|by left]. Qed.
End positions.

Lemma s_push_ok t p u k s st :
  sched_ok s -> s_stat s !! t = Some st -> (st = T_free \/ exists q fds v, st = T_wait q fds v) ->
  (p = PC_start \/ exists q fds v, p = PC_ret q fds v /\ task_ctx v) ->
  (s_stack s <> [] -> task_ctx u) -> (s_stack s = [] -> main_kont k) ->
  sched_ok (s_push t p u k s).
Proof.
  intros OK Ht Hst Hp Hu Hk. pose proof (off_stack _ OK _ _ Ht Hst) as Hnt.
  pose proof (free_off_stack _ OK) as Hfs. destruct OK as [H1 H2 H3 H4 H5 H6 H7 H8].
  unfold s_push. split; cbn [s_stack s_free s_stat s_pc s_main].
  - by constructor.
  - by apply NoDup_filter.
  - intros x stx. rewrite lookup_insert_Some. intros [[<- <-]|[Hne Hx]]; [done|].
    assert (forall stx', s_stat s !! x = Some stx' -> (s_stack s <> [] -> head (s_stack s) <> Some x) ->
      stat_ok (mk_sched p (t :: s_stack s) (match s_stack s with [] => k | _ => s_main s end)
        (filter (.≠ t) (s_free s)) ∅) x stx') as Hother.
    { intros stx' Hx' Hh. specialize (H3 _ _ Hx'). destruct stx'; cbn in *.
      - exfalso. destruct (s_stack s); [discriminate H3|]. by apply Hh.
      - destruct H3 as [Hin ?]. split; [|done]. destruct (s_stack s); [by apply elem_of_nil in Hin|by right].
      - done.
      - by apply list_elem_of_filter. }
    destruct (s_stack s) as [|c r] eqn:E; [by apply (Hother stx)|].
    apply lookup_insert_Some in Hx as [[<- <-]|[Hnc Hx]].
    + split; [by left|by apply Hu].
    + apply (Hother stx Hx). intros _ [= ->]. done.
  - intros x [= <-]. by rewrite lookup_insert_eq.
  - intros x Hx. cbn [tail] in Hx. rewrite lookup_insert_ne by (intros ->; done).
    destruct (s_stack s) as [|c r]; [by apply elem_of_nil in Hx|].
    destruct (decide (c = x)) as [->|Hne]; [rewrite lookup_insert_eq; eauto|].
    rewrite lookup_insert_ne by done. apply H5. apply elem_of_cons in Hx as [->|?]; done.
  - intros x [Hne Hx]%list_elem_of_filter. rewrite lookup_insert_ne by done. specialize (Hfs _ Hx).
    destruct (s_stack s) as [|c r]; [auto|]. rewrite lookup_insert_ne; [auto|]. intros ->. apply Hfs. by left.
  - by destruct Hp as [->|(q & fds & v & -> & Hv)].
  - intros _. destruct (s_stack s); auto.
Qed.

Lemma s_pop_ok st s :
  sched_ok s -> s_stack s <> [] -> (st = T_free \/ exists q fds v, st = T_wait q fds v /\ task_ctx v) ->
  sched_ok (s_pop st s).
Proof.
  intros OK Hne Hst. pose proof (free_off_stack _ OK) as Hfs. destruct OK as [H1 H2 H3 H4 H5 H6 H7 H8].
  unfold s_pop. destruct (s_stack s) as [|t r] eqn:E; [done|].
  pose proof (H4 t eq_refl) as Ht. cbn [tail] in H5. apply NoDup_cons in H1 as [Htr Hr].
  set (m := match r with [] => s_stat s | c :: _ => <[c := T_run]> (s_stat s) end).
  assert (forall x, x ∉ r -> m !! x = s_stat s !! x) as Hm.
  { intros x Hx. unfold m. destruct r; [done|]. rewrite lookup_insert_ne; [done|]. intros ->. apply Hx. by left. }
  split; cbn [s_stack s_free s_stat s_pc s_main].
  - done.
  - destruct st; try done. constructor; [|done]. intros Hin. apply (Hfs _ Hin). by left.
  - intros x stx. rewrite lookup_insert_Some. intros [[<- <-]|[Hxt Hx]].
    { destruct Hst as [->|(q & fds & v & -> & Hv)]; [by left|done]. }
    assert (forall y, y ∈ s_free s -> y ∈ match st with T_free => t :: s_free s | _ => s_free s end) as Hfr
      by (intros y Hy; destruct st; [done..|by right]).
    destruct r as [|c r]; [|apply lookup_insert_Some in Hx as [[<- <-]|[Hxc Hx]]; [done|]]; specialize (H3 _ _ Hx);
      unfold stat_ok in *; rewrite E in H3; cbn [s_stack s_free head tail] in *; destruct stx; auto.
    + congruence.
    + congruence.
    + destruct H3 as [Hin ?]. split; [|done]. by apply elem_of_cons in Hin as [->|?].
  - intros x Hx. unfold m. destruct r as [|c r]; [done|]. injection Hx as <-.
    rewrite lookup_insert_ne; [by rewrite lookup_insert_eq|]. intros ->. apply Htr. by left.
  - intros x Hx. destruct r as [|c r]; [by apply elem_of_nil in Hx|]. cbn [tail] in Hx.
    apply NoDup_cons in Hr as [Hcr Hr]. rewrite lookup_insert_ne by (intros ->; apply Htr; by right).
    unfold m. rewrite lookup_insert_ne by (by intros ->). apply H5. by right.
  - intros x Hx. destruct (decide (x = t)) as [->|Hxt].
    + rewrite lookup_insert_eq. destruct st; try done; specialize (Hfs _ Hx); destruct Hfs; by left.
    + assert (x ∈ s_free s) as Hxf by (destruct st; try done; by apply elem_of_cons in Hx as [?|?]).
      rewrite lookup_insert_ne by done. rewrite Hm; [auto|]. intros Hin. apply (Hfs _ Hxf). by right.
  - destruct r as [|c r].
    + by destruct (H8 ltac:(done)) as [-> | ->].
    + destruct (H5 c) as [v Hv]; [by left|]. rewrite Hv. apply H3 in Hv. apply Hv.
  - intros _. by apply H8.
Qed.
