(* ===== verification/Coroutine.v ===== *)
(** Coroutines and the call stack of a thread (src/src/coroutine_impl.c up to
    [get_curr_coroutine], and [coroutine_getspecific]/[setspecific]), and the
    allocation of the epoll context (src/src/epoll.c, [alloc_epoll]). *)

From stdpp Require Import gmap list.
From S2P Require Import Prelude TimerList TimerWheel Context Events Thread.

Definition kMaxCallStack : Z := 128.

(** Number of elements of [gEnv]. *)
Definition gEnv_len : Z := 204800.

(** Number of elements of [spec] in [coroutine_t]. *)
Definition spec_len : Z := 1024.

Section coroutine.
Context {K : Type}.

(** [gEnv[get_pid()]]. *)
Definition get_curr_thread_env : M (world K) (option env_t) :=
  w ← get;
  if bool_decide (0 <= w_pid w < gEnv_len) then mret (w_env w) else fail OutOfBounds.

(** * Allocation *)

Definition alloc_stack (size : Z) : M (world K) coroutine_stack_t :=
  start ← gets w_brk;
  modify (fun w => w <| w_brk := start + size |>);;
  mret (mk_stack size (start + size) start).

(** [malloc(sizeof(coroutine_t))] and [memset] to 0. *)
Definition zero_coroutine : coroutine_t :=
  mk_coroutine None VNull 0 INIT (mk_context (replicate 14 0) 0 0) 0 None None None ∅ K_none.

Definition create_env (func : option coroutine_fun_t) (arg : void_ptr) : M (world K) Z :=
  stack_size ← gets (fun w => opt_stack_size (w_options w));
  co ← gets (fun w => fresh_addr (w_cos w));
  modify (fun w => w <| w_cos := <[co := zero_coroutine]> (w_cos w) |>);;
  upd_co co (fun c => c <| co_fun := func |> <| co_arg := arg |> <| co_state := INIT |>);;
  stack ← alloc_stack stack_size;
  upd_co co (fun c => c <| co_stack := Some stack |>);;
  upd_co co (fun c => c <| co_context := (co_context c) <| ctx_sp := st_start stack |> |>);;
  upd_co co (fun c => c <| co_context := (co_context c) <| ctx_size := stack_size |> |>);;
  upd_co co (fun c => c <| co_save_size := 0 |> <| co_save_buffer := None |>);;
  mret co.

(** [epfd] is what [epoll_create] returned, [now] what [gettimeofday] stored. *)
Definition alloc_epoll (size epfd : Z) (now : timeval) : M (world K) epoll_context_t :=
  timer ← on_heap (alloc_timer 60000 now);
  active ← on_heap (calloc_lists 1);
  timeout ← on_heap (calloc_lists 1);
  mret (mk_epoll_context epfd size 0 timer timeout active None).

Definition free_epoll (epoll : epoll_context_t) : M (world K) unit :=
  on_heap (modify (fun h => h <| lh_lists := delete (ep_active_list epoll) (lh_lists h) |>));;
  on_heap (modify (fun h => h <| lh_lists := delete (ep_timeout_list epoll) (lh_lists h) |>));;
  on_heap (free_timer (ep_timer epoll)).

Definition init_curr_thread_env (epfd : Z) (now : timeval) : M (world K) unit :=
  pid ← gets w_pid;
  (if bool_decide (0 <= pid < gEnv_len) then
     modify (fun w => w <| w_env := Some (mk_env (replicate (Z.to_nat kMaxCallStack) None) 0 None None
                                            None VNull None None) |>)
   else fail OutOfBounds);;
  co ← create_env None VNull;
  upd_co co (fun c => c <| co_main := 1 |>);;
  upd_co co (fun c => c <| co_context := (context_init (co_context c)).2 |>);;
  env ← get_env;
  cs ← array_set (env_callstack env) (env_callstacksize env) (Some co);
  upd_env (fun e => e <| env_callstack := cs |> <| env_callstacksize := env_callstacksize env + 1 |>);;
  ep ← alloc_epoll 10240 epfd now;
  upd_env (fun e => e <| env_epoll := Some ep |>).

(** [init] is [do_init_curr_thread_env]. *)
Definition coroutine_new (init : M (world K) unit) (fn : option coroutine_fun_t) (arg : void_ptr) :
    M (world K) Z :=
  env ← get_curr_thread_env;
  match env with
  | Some _ => create_env fn arg
  | None => init;; create_env fn arg
  end.

Definition coroutine_free (co : Z) : M (world K) unit :=
  get_co co;; modify (fun w => w <| w_cos := delete co (w_cos w) |>).

(** * Switching *)

(** [context_swap(&curr->context, &pending->context)]: [curr] will continue
    at [k]. *)
Definition context_swap (curr pending : Z) (k : kont) : M (world K) unit :=
  upd_co curr (fun c => c <| co_kont := k |>);;
  p ← get_co pending;
  set_mode (resume_mode (co_kont p)).

(** [coroutine_swap] up to the switch. *)
Definition coroutine_swap (curr pending : Z) (k : kont) : M (world K) unit :=
  env ← get_curr_thread_env;
  deref env;;
  get_co curr;;
  upd_env (fun e => e <| env_pending := None |> <| env_occupy := None |>);;
  context_swap curr pending k.

(** The rest of [coroutine_swap], run when the coroutine is switched in
    again: whether it copies a saved stack back. *)
Definition swap_restores_stack : M (world K) bool :=
  env ← get_curr_thread_env;
  e ← deref env;
  match env_occupy e, env_pending e with
  | Some update_occupy, Some update_pending =>
      if decide (update_occupy = update_pending) then mret false
      else
        p ← get_co update_pending;
        mret (match co_save_buffer p with Some _ => 0 <? co_save_size p | None => false end)
  | _, _ => mret false
  end.

Definition yield_env (k : kont) : M (world K) unit :=
  env ← get_env;
  let size := env_callstacksize env in
  last ← array_get (env_callstack env) (size - 2);
  curr ← array_get (env_callstack env) (size - 1);
  upd_env (fun e => e <| env_callstacksize := to_int (size - 1) |>);;
  c ← deref curr;
  l ← deref last;
  coroutine_swap c l k.

Definition coroutine_resume (co : Z) (k : kont) : M (world K) unit :=
  c ← get_co co;
  env ← get_env;
  curr ← array_get (env_callstack env) (env_callstacksize env - 1);
  (if decide (co_state c = RUNNING) then mret tt
   else
     main ← gets w_coroutine_main;
     upd_co co (fun c => c <| co_context := (context_make (co_context c) main co).2 |>
                           <| co_kont := K_entry |>);;
     upd_co co (fun c => c <| co_state := RUNNING |>));;
  cs ← array_set (env_callstack env) (env_callstacksize env) (Some co);
  upd_env (fun e => e <| env_callstack := cs |>
                      <| env_callstacksize := to_int (env_callstacksize env + 1) |>);;
  cr ← deref curr;
  coroutine_swap cr co k.

Definition coroutine_yield (k : kont) : M (world K) unit := yield_env k.

Definition coroutine_yield_context (k : kont) : M (world K) unit :=
  env ← get_curr_thread_env;
  deref env;;
  yield_env k.

(** * The running coroutine *)

Definition curr_coroutine (env : env_t) : M (world K) (option Z) :=
  array_get (env_callstack env) (env_callstacksize env - 1).

Definition coroutine_self : M (world K) (option Z) :=
  env ← get_curr_thread_env;
  match env with
  | None => mret None
  | Some e => curr_coroutine e
  end.

Definition get_curr_thread_coroutine : M (world K) (option Z) := coroutine_self.

Definition coroutine_arg : M (world K) void_ptr :=
  co ← coroutine_self;
  match co with
  | None => mret VNull
  | Some c =>
      cr ← get_co c;
      match co_task cr with
      | None => mret VNull
      | Some t => tk ← get_task t; mret (tk_arg tk)
      end
  end.

Definition coroutine_thread_arg : M (world K) void_ptr :=
  env ← get_curr_thread_env;
  match env with
  | None => mret VNull
  | Some e => mret (env_arg e)
  end.

(** * Coroutine-specific data *)

(** [thread_value] is what [pthread_getspecific(key)] returns. *)
Definition coroutine_getspecific (key : Z) (thread_value : option Z) : M (world K) (option Z) :=
  co ← get_curr_thread_coroutine;
  match co with
  | None => mret thread_value
  | Some c =>
      cr ← get_co c;
      if negb (co_main cr =? 0) then mret thread_value
      else if bool_decide (0 <= key < spec_len) then mret (co_spec cr !! key) else fail OutOfBounds
  end.

(** [thread_ret] is what [pthread_setspecific(key, value)] returns. *)
Definition coroutine_setspecific (key : Z) (value : option Z) (thread_ret : Z) : M (world K) Z :=
  co ← get_curr_thread_coroutine;
  match co with
  | None => mret thread_ret
  | Some c =>
      cr ← get_co c;
      if negb (co_main cr =? 0) then mret thread_ret
      else if bool_decide (0 <= key < spec_len) then
        upd_co c (fun x => x <| co_spec := partial_alter (fun _ => value) key (co_spec x) |>);;
        mret 0
      else fail OutOfBounds
  end.
End coroutine.
