(* ===== verification/TaskPool.v ===== *)
(** The task pool (src/src/coroutine_task.c), [coroutine_main] and the thread
    initialisation of src/src/coroutine_impl.c that creates the pool. *)

From stdpp Require Import gmap list.
From S2P Require Import Prelude TimerList TimerWheel Context Events Thread Coroutine.

Section taskpool.
Context {K : Type}.

(** * The code of a coroutine, between two switches *)

(** The rest of [coroutine_main] once [fun] has returned. *)
Definition coroutine_main_tail (co : Z) : M (world K) unit :=
  upd_co co (fun c => c <| co_state := STOPPED |>);;
  yield_env K_dead.

(** [coroutine_main] from its entry. *)
Definition coroutine_main : M (world K) unit :=
  self ← coroutine_self;
  co ← deref self;
  c ← get_co co;
  match co_fun c with
  | Some F_task_main => set_mode M_task_loop
  | Some (F_user _) => set_mode (M_user U_body)
  | None => coroutine_main_tail co
  end.

(** The variable [task] of the running [task_main]: its argument. *)
Definition self_task : M (world K) Z :=
  self ← coroutine_self;
  co ← deref self;
  c ← get_co co;
  match co_arg c with
  | VTask t => mret t
  | _ => fail BadPointer
  end.

(** One round of the loop of [task_main] up to the call of the task's
    function, or the switch. *)
Definition task_main_loop : M (world K) unit :=
  t ← self_task;
  task ← get_task t;
  match tk_state task with
  | TASK_WAITING => coroutine_yield_context K_task_wait
  | TASK_END =>
      self ← coroutine_self;
      co ← deref self;
      coroutine_main_tail co
  | TASK_RUNNING =>
      p ← deref (tk_pool task);
      upd_pool p (fun x => x <| tp_working := to_int (tp_working x + 1) |>);;
      co ← deref (tk_coroutine task);
      c ← get_co co;
      fn ← deref (co_fun c);
      match fn with
      | F_user _ => set_mode (M_user U_fun)
      | F_task_main => fail BadPointer
      end
  end.

(** The function called in the round: [task->coroutine->fun]. *)
Definition task_function : M (world K) coroutine_fun_t :=
  t ← self_task;
  task ← get_task t;
  co ← deref (tk_coroutine task);
  c ← get_co co;
  deref (co_fun c).

(** The end of the round: back to the free list. *)
Definition task_main_release : M (world K) unit :=
  t ← self_task;
  task ← get_task t;
  p ← deref (tk_pool task);
  pool ← get_pool p;
  upd_task t (fun x => x <| tk_next := tp_free pool |>);;
  upd_pool p (fun x => x <| tp_free := Some t |>);;
  upd_pool p (fun x => x <| tp_working := to_int (tp_working x - 1) |>);;
  upd_task t (fun x => x <| tk_arg := VNull |>);;
  co ← deref (tk_coroutine task);
  upd_co co (fun c => c <| co_fun := None |>);;
  upd_task t (fun x => x <| tk_state := TASK_WAITING |>);;
  set_mode M_task_loop.

(** After [task->coroutine->fun(task->arg)] has returned. *)
Definition task_main_after_fun : M (world K) unit :=
  t ← self_task;
  task ← get_task t;
  match attr_timeout (tk_attr task) with
  | Some _ => if negb (tk_timeout task =? 0) then set_mode (M_user U_timeout) else task_main_release
  | None => task_main_release
  end.

(** The argument the timeout callback is called with. *)
Definition timeout_callback_arg : M (world K) void_ptr :=
  t ← self_task;
  task ← get_task t;
  co ← deref (tk_coroutine task);
  c ← get_co co;
  mret (co_arg c).

(** * Operations *)

Definition get_now : M (world K) Z :=
  env ← get_curr_thread_env;
  e ← deref env;
  ep ← deref (env_epoll e);
  mret (ep_now ep).

(** The caller is user code in context [u]; a 0 is delivered to it when it
    is switched in again. *)
Definition new_task (p : Z) (attr : coroutine_task_attr_t) (u : user_ctx) : M (world K) Z :=
  pool ← get_pool p;
  if tp_working pool =? tp_size pool then mret (-1)
  else
    match tp_free pool with
    | None => mret (-1)
    | Some t =>
        task ← get_task t;
        upd_pool p (fun x => x <| tp_free := tk_next task |>);;
        upd_task t (fun x => x <| tk_next := None |>);;
        upd_task t (fun x => x <| tk_arg := attr_arg attr |>);;
        co ← deref (tk_coroutine task);
        upd_co co (fun c => c <| co_fun := attr_fun attr |>);;
        upd_task t (fun x => x <| tk_state := TASK_RUNNING |>);;
        upd_task t (fun x => x <| tk_leftmsec := attr_max_timeout_ms attr |>);;
        upd_task t (fun x => x <| tk_timeout := 0 |>);;
        now ← get_now;
        upd_task t (fun x => x <| tk_last := now |>);;
        upd_task t (fun x => x <| tk_attr := attr |>);;
        coroutine_resume co (K_user u);;
        mret 0
    end.

(** [malloc(sizeof(task_t))] and [memset] to 0. *)
Definition zero_task : task_t :=
  mk_task None VNull TASK_RUNNING None None (mk_attr 0 0 VNull None None) 0 0 0 0.

(** [pool->tasks[i] = task], for an array allocated with [cap] elements. *)
Definition store_task (cap : Z) (p i t : Z) : M (world K) unit :=
  if bool_decide (0 <= i < cap) then upd_pool p (fun x => x <| tp_tasks ::= fun l => l ++ [t] |>)
  else fail OutOfBounds.

(** One round of the creation loop; the new coroutine runs up to its first
    [coroutine_yield_context] before [coroutine_resume] returns. *)
Definition create_task (cap p i : Z) : M (world K) unit :=
  t ← gets (fun w => fresh_addr (w_tasks w));
  modify (fun w => w <| w_tasks := <[t := zero_task]> (w_tasks w) |>);;
  store_task cap p i t;;
  upd_task t (fun x => x <| tk_pool := Some p |>);;
  co ← coroutine_new (fail NullDeref) (Some F_task_main) (VTask t);
  upd_co co (fun c => c <| co_task := Some t |>);;
  upd_task t (fun x => x <| tk_coroutine := Some co |>);;
  pool ← get_pool p;
  upd_task t (fun x => x <| tk_next := tp_free pool |>);;
  upd_task t (fun x => x <| tk_state := TASK_WAITING |>);;
  upd_pool p (fun x => x <| tp_free := Some t |>);;
  coroutine_resume co K_create;;
  coroutine_main;;
  task_main_loop.

Fixpoint create_tasks (n : nat) (cap p i : Z) : M (world K) unit :=
  match n with
  | O => mret tt
  | S n' => create_task cap p i;; create_tasks n' cap p (i + 1)
  end.

(** [create_thread_taskpool] with room for [cap] pointers in [tasks]. *)
Definition create_pool (cap size : Z) : M (world K) Z :=
  p ← gets (fun w => fresh_addr (w_pools w));
  modify (fun w => w <| w_pools := <[p := mk_taskpool [] None 0 0]> (w_pools w) |>);;
  create_tasks (Z.to_nat size) cap p 0;;
  upd_pool p (fun x => x <| tp_size := size |>);;
  mret p.

(** [pool->tasks] is [malloc(sizeof(task_t* ))]: one element. *)
Definition create_thread_taskpool (size : Z) : M (world K) Z := create_pool 1 size.

(** The initialisation of a thread, with a task array of [cap] elements. *)
Definition do_init_with (cap epfd : Z) (now : timeval) : M (world K) unit :=
  m ← gets w_mode;
  init_curr_thread_env epfd now;;
  size ← gets (fun w => opt_task_per_thread (w_options w));
  pool ← create_pool cap size;
  upd_env (fun e => e <| env_pool := Some pool |>);;
  set_mode m.

Definition do_init_curr_thread_env (epfd : Z) (now : timeval) : M (world K) unit := do_init_with 1 epfd now.

Definition coroutine_new_task (epfd : Z) (now : timeval) (attr : coroutine_task_attr_t) (u : user_ctx) :
    M (world K) Z :=
  env ← get_curr_thread_env;
  (match env with Some _ => mret tt | None => do_init_curr_thread_env epfd now end);;
  env ← get_curr_thread_env;
  e ← deref env;
  p ← deref (env_pool e);
  new_task p attr u.

Definition coroutine_init_eventloop (epfd : Z) (now : timeval) (arg : void_ptr) : M (world K) unit :=
  env ← get_curr_thread_env;
  (match env with Some _ => mret tt | None => do_init_curr_thread_env epfd now end);;
  upd_env (fun e => e <| env_arg := arg |>).
End taskpool.
