(* ===== verification/CtlInv.v ===== *)
(** The control invariant of a thread: the call stack, the coroutines, the
    tasks and their free list represent the state of the abstract scheduler
    of [Sched]; and the switches, resume and yield, in terms of it. *)

From stdpp Require Import gmap list.
From S2P Require Import Prelude TimerList TimerWheel Context Events Thread ThreadSpec Sched Coroutine TaskPool.

(** * The call stack *)

(** The array [callstack] holds [cos], the main coroutine first. *)
Record stack_env (e : env_t) (cos : list Z) : Prop := {
  se_len : length (env_callstack e) = Z.to_nat kMaxCallStack;
  se_size : env_callstacksize e = Z.of_nat (length cos);
  se_slots : forall i c, cos !! i = Some c -> env_callstack e !! i = Some (Some c)
}.

(** What a switch leaves alone in [env_t]. *)
Definition env_eq (e e' : env_t) : Prop :=
  env_pool e' = env_pool e /\ env_epoll e' = env_epoll e /\ env_arg e' = env_arg e /\ env_main e' = env_main e.

Section switch.
Context {K : Type}.
Implicit Types w : world K.

Definition in_gEnv w : Prop := 0 <= w_pid w < gEnv_len.

Lemma get_curr_thread_env_run w : in_gEnv w -> get_curr_thread_env w = Ok (w_env w, w).
Proof using. intros H. unfold get_curr_thread_env. step. by rewrite bool_decide_eq_true_2. Qed.

Lemma coroutine_self_run w e l c :
  in_gEnv w -> w_env w = Some e -> stack_env e (l ++ [c]) -> coroutine_self w = Ok (Some c, w).
Proof using.
  intros Hp He [_ Hsz Hs]. unfold coroutine_self. rewrite (bind_Ok _ _ _ _ _ (get_curr_thread_env_run _ Hp)), He.
  unfold curr_coroutine. rewrite length_app in Hsz. simpl in Hsz. apply array_get_run; [lia|].
  replace (Z.to_nat (env_callstacksize e - 1)) with (length l) by lia. apply Hs. by rewrite list_lookup_middle.
Qed.

(** The world after a switch from [cur], that will continue at [k], to a
    coroutine that continues at [m]. *)
Definition switched w (e : env_t) (cur : Z) (rc : coroutine_t) (k : kont) (m : mode) : world K :=
  w <| w_env := Some e |> <| w_cos := <[cur := rc <| co_kont := k |>]> (w_cos w) |> <| w_mode := m |>.

Lemma coroutine_swap_run w e cur pend rc rp k :
  in_gEnv w -> w_env w = Some e -> w_cos w !! cur = Some rc -> w_cos w !! pend = Some rp -> cur <> pend ->
  coroutine_swap cur pend k w =
    Ok (tt, switched w (e <| env_pending := None |> <| env_occupy := None |>) cur rc k (resume_mode (co_kont rp))).
Proof using.
  intros Hp He Hc Hpd Hne. unfold coroutine_swap. rewrite (bind_Ok _ _ _ _ _ (get_curr_thread_env_run _ Hp)), He.
  step. step. step. unfold context_swap. step. erewrite bind_Ok; [apply set_mode_run|].
  apply get_co_run. simpl. by rewrite lookup_insert_ne.
Qed.

(** The second half of [coroutine_resume]: [co] on top of the stack, and the
    switch. *)
Lemma resume_push_run w e l cur co rc rp k :
  in_gEnv w -> w_env w = Some e -> stack_env e (l ++ [cur]) -> Z.of_nat (length l) + 1 < kMaxCallStack ->
  w_cos w !! cur = Some rc -> w_cos w !! co = Some rp -> cur <> co ->
  exists e', (cs ← array_set (env_callstack e) (env_callstacksize e) (Some co);
      upd_env (fun e0 => e0 <| env_callstack := cs |> <| env_callstacksize := to_int (env_callstacksize e + 1) |>);;
      cr ← deref (Some cur); coroutine_swap cr co k) w =
      Ok (tt, switched w e' cur rc k (resume_mode (co_kont rp))) /\
    stack_env e' (l ++ [cur; co]) /\ env_eq e e'.
Proof using.
  intros Hp He [Hlen Hsz Hs] Hdepth Hc Hpd Hne. rewrite length_app in Hsz. simpl in Hsz. unfold kMaxCallStack in *.
  erewrite bind_Ok by (apply array_set_run; lia). step. step.
  match goal with |- context [coroutine_swap _ _ _ ?w1] => rewrite (coroutine_swap_run w1 _ cur co rc rp k Hp eq_refl Hc Hpd Hne) end.
  eexists. split; [reflexivity|]. split; [|done].
  split; cbn -[Z.add Z.sub].
  - by rewrite length_insert.
  - rewrite length_app, to_int_small; simpl; lia.
  - replace (Z.to_nat (env_callstacksize e)) with (length (l ++ [cur])) by (rewrite length_app; simpl; lia).
    intros i c Hi. replace (l ++ [cur; co]) with ((l ++ [cur]) ++ [co]) in Hi by by rewrite <- app_assoc.
    apply lookup_app_Some in Hi as [Hi|[Hge Hi]].
    + rewrite list_lookup_insert_ne; [by apply Hs|]. apply lookup_lt_Some in Hi. lia.
    + apply list_lookup_singleton_Some in Hi as [Hi ->]. replace i with (length (l ++ [cur])) by lia.
      apply list_lookup_insert_eq. rewrite length_app. simpl. lia.
Qed.

Lemma stack_env_top e l cur : stack_env e (l ++ [cur]) ->
  0 <= env_callstacksize e - 1 /\ env_callstack e !! Z.to_nat (env_callstacksize e - 1) = Some (Some cur).
Proof using.
  intros [_ Hsz Hs]. rewrite length_app in Hsz. simpl in Hsz. split; [lia|].
  replace (Z.to_nat (env_callstacksize e - 1)) with (length l) by lia. apply Hs. by rewrite list_lookup_middle.
Qed.

(** [coroutine_resume] of a coroutine that has been started. *)
Lemma coroutine_resume_run w e l cur co rc rp k :
  in_gEnv w -> w_env w = Some e -> stack_env e (l ++ [cur]) -> Z.of_nat (length l) + 1 < kMaxCallStack ->
  w_cos w !! cur = Some rc -> w_cos w !! co = Some rp -> cur <> co -> co_state rp = RUNNING ->
  exists e', coroutine_resume co k w = Ok (tt, switched w e' cur rc k (resume_mode (co_kont rp))) /\
    stack_env e' (l ++ [cur; co]) /\ env_eq e e'.
Proof using.
  intros Hp He Hse Hdepth Hc Hpd Hne Hrun. destruct (stack_env_top _ _ _ Hse) as [Htop1 Htop2].
  unfold coroutine_resume. step. step. erewrite bind_Ok by (apply array_get_run; [exact Htop1|exact Htop2]).
  rewrite decide_True by done. step. by apply resume_push_run.
Qed.

(** [coroutine_resume] of a new coroutine: its context is made first. *)
Definition entered w (co : Z) (rp : coroutine_t) : coroutine_t :=
  rp <| co_context := (context_make (co_context rp) (w_coroutine_main w) co).2 |> <| co_kont := K_entry |> <| co_state := RUNNING |>.

Lemma coroutine_start_run w e l cur co rc rp k :
  in_gEnv w -> w_env w = Some e -> stack_env e (l ++ [cur]) -> Z.of_nat (length l) + 1 < kMaxCallStack ->
  w_cos w !! cur = Some rc -> w_cos w !! co = Some rp -> cur <> co -> co_state rp <> RUNNING ->
  exists e', coroutine_resume co k w =
      Ok (tt, switched (w <| w_cos := <[co := entered w co rp]> (w_cos w) |>) e' cur rc k M_entry) /\
    stack_env e' (l ++ [cur; co]) /\ env_eq e e'.
Proof using.
  intros Hp He Hse Hdepth Hc Hpd Hne Hrun. destruct (stack_env_top _ _ _ Hse) as [Htop1 Htop2].
  set (w1 := w <| w_cos := <[co := entered w co rp]> (w_cos w) |>).
  destruct (resume_push_run w1 e l cur co rc (entered w co rp) k Hp He Hse Hdepth) as (e' & Hpush & He'); [| |done|].
  - cbn. by rewrite lookup_insert_ne.
  - apply lookup_insert_eq.
  - exists e'. split; [|done]. refine (eq_trans _ Hpush).
    unfold coroutine_resume. step. step. erewrite bind_Ok by (apply array_get_run; [exact Htop1|exact Htop2]).
    rewrite decide_False by done. rewrite bind_assoc. step. rewrite bind_assoc. step. step.
    f_equal. unfold w1. cbn. by rewrite insert_insert_eq.
Qed.

(** [yield_env] with a caller on the stack. *)
Lemma yield_env_run w e l last cur rc rp k :
  in_gEnv w -> w_env w = Some e -> stack_env e (l ++ [last; cur]) -> Z.of_nat (length l) + 2 <= kMaxCallStack ->
  w_cos w !! cur = Some rc -> w_cos w !! last = Some rp -> cur <> last ->
  exists e', yield_env k w = Ok (tt, switched w e' cur rc k (resume_mode (co_kont rp))) /\
    stack_env e' (l ++ [last]) /\ env_eq e e'.
Proof using.
  intros Hp He [Hlen Hsz Hs] Hdepth Hc Hpd Hne. rewrite length_app in Hsz. simpl in Hsz. unfold kMaxCallStack in *.
  assert (env_callstack e !! length l = Some (Some last)) as H1 by (apply Hs; by rewrite list_lookup_middle).
  assert (env_callstack e !! S (length l) = Some (Some cur)) as H2.
  { apply Hs. replace (l ++ [last; cur]) with ((l ++ [last]) ++ [cur]) by by rewrite <- app_assoc.
    replace (S (length l)) with (length (l ++ [last])) by (rewrite length_app; simpl; lia). by rewrite list_lookup_middle. }
  unfold yield_env. step.
  erewrite bind_Ok by (apply array_get_run; [lia|replace (Z.to_nat (env_callstacksize e - 2)) with (length l) by lia; exact H1]).
  erewrite bind_Ok by (apply array_get_run; [lia|replace (Z.to_nat (env_callstacksize e - 1)) with (S (length l)) by lia; exact H2]).
  step. step. step. match goal with |- context [coroutine_swap _ _ _ ?w1] => rewrite (coroutine_swap_run w1 _ cur last rc rp k Hp eq_refl Hc Hpd Hne) end.
  eexists. split; [reflexivity|]. split; [|done].
  split; cbn -[Z.add Z.sub].
  - done.
  - rewrite length_app, to_int_small; simpl; lia.
  - intros i c Hi. apply Hs. replace (l ++ [last; cur]) with ((l ++ [last]) ++ [cur]) by by rewrite <- app_assoc.
    by apply lookup_app_l_Some.
Qed.
End switch.

(** * The thread and the representation of the scheduler's state *)

(** What never changes: the main coroutine, the pool, and the coroutine of
    every task. *)
Record thread := mk_thread {
  th_main : Z;
  th_pool : Z;
  th_co : gmap Z Z
}.

Record thread_ok (th : thread) : Prop := {
  to_inj : forall t1 t2 c, th_co th !! t1 = Some c -> th_co th !! t2 = Some c -> t1 = t2;
  to_main : forall t, th_co th !! t <> Some (th_main th);
  to_size : Z.of_nat (size (th_co th)) < 2 ^ 31
}.

Definition co_of (th : thread) (t : Z) : Z := default (th_main th) (th_co th !! t).

(** The call stack, main first; its top; and what is below the top. *)
Definition stack_cos (th : thread) (stack : list Z) : list Z := th_main th :: reverse (co_of th <$> stack).
Definition top_co (th : thread) (stack : list Z) : Z := match stack with [] => th_main th | t :: _ => co_of th t end.
Definition under (th : thread) (stack : list Z) : list Z := match stack with [] => [] | _ :: r => stack_cos th r end.

Lemma stack_cos_push th t stack : stack_cos th (t :: stack) = stack_cos th stack ++ [co_of th t].
Proof. unfold stack_cos. csimpl. by rewrite reverse_cons. Qed.

Lemma stack_cos_top th stack : stack_cos th stack = under th stack ++ [top_co th stack].
Proof. destruct stack as [|t r]; [done|apply stack_cos_push]. Qed.

Lemma stack_cos_length th stack : length (stack_cos th stack) = S (length stack).
Proof. unfold stack_cos. simpl. by rewrite length_reverse, length_fmap. Qed.

(** A task, its coroutine and its status. *)
Record task_static (th : thread) (t c : Z) (tk : task_t) (rc : coroutine_t) : Prop := {
  ts_coroutine : tk_coroutine tk = Some c;
  ts_pool : tk_pool tk = Some (th_pool th);
  ts_arg : co_arg rc = VTask t;
  ts_task : co_task rc = Some t;
  ts_state : co_state rc = RUNNING;
  ts_main : co_main rc = 0
}.

Definition run_phase (p : pc) (tk : task_t) (rc : coroutine_t) : Prop :=
  match p with
  | PC_start => tk_state tk = TASK_RUNNING /\ exists f, co_fun rc = Some (F_user f)
  | PC_idle => tk_state tk = TASK_WAITING
  | _ => tk_state tk = TASK_RUNNING
  end.

Definition task_phase (p : pc) (st : tstat) (tk : task_t) (rc : coroutine_t) : Prop :=
  match st with
  | T_run => run_phase p tk rc
  | T_susp u => tk_state tk = TASK_RUNNING /\ co_kont rc = K_user u
  | T_wait q fds u => tk_state tk = TASK_RUNNING /\ co_kont rc = K_poll q fds u
  | T_free => tk_state tk = TASK_WAITING /\ co_kont rc = K_task_wait
  end.

Definition task_ok (tasks : gmap Z task_t) (cos : gmap Z coroutine_t) (th : thread) (p : pc) (t : Z) (st : tstat) :
    Prop :=
  exists c tk rc, th_co th !! t = Some c /\ tasks !! t = Some tk /\ cos !! c = Some rc /\
    task_static th t c tk rc /\ task_phase p st tk rc.

(** The free list as the pool has it: with the task that is back on it, but
    has not yielded yet. *)
Definition cfree (s : sched) : list Z :=
  match s_pc s, s_stack s with
  | PC_idle, t :: _ => t :: s_free s
  | _, _ => s_free s
  end.

Fixpoint chain (tasks : gmap Z task_t) (l : list Z) : Prop :=
  match l with
  | [] => True
  | t :: l' => (exists tk, tasks !! t = Some tk /\ tk_next tk = head l') /\ chain tasks l'
  end.

(** A task taken from the free list, not counted in [working] yet. *)
Definition starting (p : pc) : Z := match p with PC_start => 1 | _ => 0 end.

Definition mode_of (p : pc) : mode :=
  match p with
  | PC_start | PC_idle => M_task_loop
  | PC_user u => M_user u
  | PC_ret q fds u => M_poll_ret q fds u
  | PC_process => M_process
  | PC_events => M_loop_wait
  end.

Section inv.
Context {K : Type}.
Implicit Types w : world K.

Record CtlBase w (th : thread) (ep : epoll_context_t) (s : sched) : Prop := {
  cb_pid : in_gEnv w;
  cb_env : exists e, w_env w = Some e /\ stack_env e (stack_cos th (s_stack s)) /\
    env_pool e = Some (th_pool th) /\ env_epoll e = Some ep;
  cb_main : exists rm, w_cos w !! th_main th = Some rm /\ (s_stack s <> [] -> co_kont rm = s_main s);
  cb_dom : dom (s_stat s) = dom (th_co th);
  cb_sched : sched_ok s
}.

Record PoolInv (tasks : gmap Z task_t) (pool : taskpool_t) (th : thread) (s : sched) : Prop := {
  pi_free : tp_free pool = head (cfree s);
  pi_size : tp_size pool = Z.of_nat (size (th_co th));
  pi_working : tp_working pool = Z.of_nat (size (th_co th)) - Z.of_nat (length (cfree s)) - starting (s_pc s);
  pi_chain : chain tasks (cfree s);
  pi_tasks : forall t, t ∈ tp_tasks pool <-> is_Some (th_co th !! t)
}.

(** The state of the scheduler [s] is what the world's structures say. *)
Record CtlInv w (th : thread) (ep : epoll_context_t) (s : sched) : Prop := {
  ci_base : CtlBase w th ep s;
  ci_tasks : forall t st, s_stat s !! t = Some st -> task_ok (w_tasks w) (w_cos w) th (s_pc s) t st;
  ci_pool : exists pool, w_pools w !! th_pool th = Some pool /\ PoolInv (w_tasks w) pool th s;
  ci_mode : w_mode w = mode_of (s_pc s)
}.
End inv.
