(* ===== verification/Poll.v ===== *)
(** [poll_inner] and its callbacks (src/src/coroutine_impl.c, from
    [poll_item_t] to [poll_inner]), and one iteration of the event loop
    (src/src/epoll.c, [coroutine_eventloop]). *)

From stdpp Require Import gmap list.
From S2P Require Import Prelude TimerList TimerWheel Context Events Thread Coroutine TaskPool.

Definition kMaxTimeoutMs : Z := 10.

Definition EPERM : Z := 1.
Definition EINVAL : Z := 22.

(** * The kernel's side of epoll

    [epoll_ctl k op fd ev] is the return value, [errno] if it failed, and the
    new state.  [registered k fd] is the pointer the kernel will hand back
    with the events of [fd].  The laws are what epoll_ctl(2) says: an ADD
    registers at most the given descriptor with the given data and a DEL
    leaves the descriptor unregistered; both leave the others alone. *)
Class EpollKernel (K : Type) := {
  epoll_ctl : K -> Z -> Z -> epoll_event -> Z * Z * K;
  registered : K -> Z -> option Z;
  ctl_add_other : forall k fd ev fd', fd' <> fd ->
    registered (epoll_ctl k EPOLL_CTL_ADD fd ev).2 fd' = registered k fd';
  ctl_add_same : forall k fd ev,
    registered (epoll_ctl k EPOLL_CTL_ADD fd ev).2 fd = registered k fd \/
    registered (epoll_ctl k EPOLL_CTL_ADD fd ev).2 fd = Some (ev_ptr ev);
  ctl_add_fail : forall k fd ev, (epoll_ctl k EPOLL_CTL_ADD fd ev).1.1 < 0 ->
    registered (epoll_ctl k EPOLL_CTL_ADD fd ev).2 fd = registered k fd;
  ctl_del_other : forall k fd ev fd', fd' <> fd ->
    registered (epoll_ctl k EPOLL_CTL_DEL fd ev).2 fd' = registered k fd';
  ctl_del_same : forall k fd ev, registered (epoll_ctl k EPOLL_CTL_DEL fd ev).2 fd = None
}.

(** A kernel that accepts everything, as a map from descriptors to data. *)
#[export] Program Instance map_kernel : EpollKernel (gmap Z Z) := {|
  epoll_ctl k op fd ev :=
    if op =? EPOLL_CTL_ADD then
      match k !! fd with
      | Some _ => (-1, 17 (* EEXIST *), k)
      | None => (0, 0, <[fd := ev_ptr ev]> k)
      end
    else (0, 0, delete fd k);
  registered k fd := k !! fd
|}.
Next Obligation. intros k fd ev fd' Hne. simpl. destruct (k !! fd); [done|]. by apply lookup_insert_ne. Qed.
Next Obligation.
  intros k fd ev. simpl. destruct (k !! fd) eqn:E; simpl; [by left|right]. apply lookup_insert_eq.
Qed.
Next Obligation. intros k fd ev. simpl. destruct (k !! fd) eqn:E; simpl; [done|lia]. Qed.
Next Obligation. intros k fd ev fd' Hne. simpl. by apply lookup_delete_ne. Qed.
Next Obligation. intros k fd ev. simpl. apply lookup_delete_eq. Qed.

Section poll.
Context {K : Type} `{!EpollKernel K}.

Definition do_epoll_ctl (op fd : Z) (ev : epoll_event) : M (world K) Z :=
  k ← gets w_kern;
  let '(ret, err, k') := epoll_ctl k op fd ev in
  modify (fun w => w <| w_kern := k' |>);;
  (if ret <? 0 then modify (fun w => w <| w_errno := err |>) else mret tt);;
  mret ret.

(** * Callbacks *)

Definition process_poll_event (item : timer_item_t) : M (world K) unit :=
  co ← deref (ti_coroutine item);
  coroutine_resume co K_process.

Definition prepare_poll_event (item : timer_item_t) (ev : epoll_event) (active : Z) : M (world K) unit :=
  a ← deref (ti_arg item);
  poll_item ← get_pitem a;
  let p := pi_poll poll_item in
  poll ← get_poll p;
  fds ← array_get (pc_fds poll) (Z.of_nat (pi_self poll_item));
  upd_poll p (fun x => x <| pc_fds ::= <[pi_self poll_item :=
                              fds <| pfd_revents := epoll_event_to_poll (ev_events ev) |>]> |>);;
  upd_poll p (fun x => x <| pc_raise_cnt := to_int (pc_raise_cnt x + 1) |>);;
  if pc_allEventDetatch poll =? 0 then
    upd_poll p (fun x => x <| pc_allEventDetatch := 1 |>);;
    on_heap (remove_from_link p);;
    on_heap (add_tail active p)
  else mret tt.

(** * [fix_coroutine_timeout] *)

(** The new timeout and [*istimeout]. *)
Definition fix_coroutine_timeout (co timeout : Z) : M (world K) (Z * Z) :=
  c ← get_co co;
  t ← deref (co_task c);
  task ← get_task t;
  if attr_max_timeout_ms (tk_attr task) =? -1 then
    mret (if (timeout =? -1) || (kMaxTimeoutMs <? timeout) then kMaxTimeoutMs else timeout, 0)
  else if negb (tk_timeout task =? 0) then mret (0, 1)
  else
    now ← get_now;
    let diff := to_int (to_ullong (now - tk_last task)) in
    let left := to_int (tk_leftmsec task - diff) in
    upd_task t (fun x => x <| tk_leftmsec := left |>);;
    upd_task t (fun x => x <| tk_last := now |>);;
    if left <=? 0 then
      upd_task t (fun x => x <| tk_timeout := 1 |>);;
      mret (0, 1)
    else
      let timeout :=
        if timeout =? -1 then left
        else if left <? timeout then left else timeout in
      mret (if (timeout =? -1) || (kMaxTimeoutMs <? timeout) then kMaxTimeoutMs else timeout, 0).

(** * [poll_inner] *)

(** All fields 0, as after [memset]. *)
Definition zero_item : timer_item_t := mk_timer_item None None None 0 None None None None 0.

(** The automatic and heap objects of one call: [arg] at address [p] and the
    [nfds] elements of [arg.items] behind it. *)
Definition item_addr (p : Z) (i : nat) : Z := p + 1 + Z.of_nat i.

Definition alloc_arg (self : Z) (nfds : nat) : M (world K) Z :=
  p ← gets (fun w => fresh_addr (lh_items (w_heap w)));
  modify (fun w => w <| w_polls := <[p := mk_poll_context (replicate nfds (mk_pollfd 0 0 0)) (Z.of_nat nfds)
                                       (item_addr p <$> seq 0 nfds) 0 0]> (w_polls w) |>);;
  on_heap (modify (fun h => h <| lh_items := insert_block nfds (p + 1) zero_item (lh_items h) |>));;
  on_heap (modify (fun h => h <| lh_items := <[p := zero_item <| ti_process := Some process_poll_event_ptr |>
                                                              <| ti_coroutine := Some self |>]> (lh_items h) |>));;
  mret p.

(** The end of the lifetime of those objects. *)
Definition free_arg (p : Z) (nfds : nat) : M (world K) unit :=
  modify (fun w => w <| w_polls := delete p (w_polls w) |>
                     <| w_pitems := delete_block nfds (p + 1) (w_pitems w) |>);;
  on_heap (modify (fun h => h <| lh_items := delete p (delete_block nfds (p + 1) (lh_items h)) |>)).

(** Body of the loop "2. add epoll" for element [i]: the result of the ADD,
    if the descriptor is watched. *)
Definition add_epoll (self p : Z) (i : nat) (fd : pollfd) : M (world K) (option Z) :=
  let a := item_addr p i in
  let ev := mk_epoll_event (poll_event_to_epoll (pfd_events fd)) a in
  on_heap (upd_item a (fun x => x <| ti_prepare := Some prepare_poll_event_ptr |> <| ti_coroutine := Some self |>
                                  <| ti_arg := Some a |> <| ti_prev := None |> <| ti_next := None |>));;
  if -1 <? pfd_fd fd then
    modify (fun w => w <| w_pitems := <[a := mk_poll_item i p ev]> (w_pitems w) |>);;
    ret ← do_epoll_ctl EPOLL_CTL_ADD (pfd_fd fd) ev;
    mret (Some ret)
  else
    modify (fun w => w <| w_pitems := <[a := mk_poll_item i p (mk_epoll_event 0 0)]> (w_pitems w) |>);;
    mret None.

(** The loop; [true] if it is left through the [pollfunc] fallback.
    [fallback] says that [nfds == 1 && pollfunc != NULL]. *)
Fixpoint add_epoll_all (self p : Z) (fallback : bool) (i : nat) (fds : list pollfd) : M (world K) bool :=
  match fds with
  | [] => mret false
  | fd :: fds' =>
      r ← add_epoll self p i fd;
      err ← gets w_errno;
      if fallback && (match r with Some ret => ret <? 0 | None => false end) && (err =? EPERM)
      then mret true
      else add_epoll_all self p fallback (S i) fds'
  end.

(** The loop that removes the descriptors again. *)
Fixpoint del_epoll_all (p : Z) (i : nat) (fds : list pollfd) : M (world K) unit :=
  match fds with
  | [] => mret tt
  | fd :: fds' =>
      (if -1 <? pfd_fd fd then do_epoll_ctl EPOLL_CTL_DEL (pfd_fd fd) (mk_epoll_event 0 (item_addr p i));; mret tt
       else mret tt);;
      del_epoll_all p (S i) fds'
  end.

(** Outcome of the first half: the call returned, or the coroutine has been
    switched out. *)
Inductive poll_outcome :=
  | PollReturn (ret : Z) (fds : list pollfd)
  | PollBlocked.

(** [poll_inner] up to the switch.  [pollfunc], when not NULL, is given by
    what the system's poll returns and stores; [now] is the clock. *)
Definition poll_inner_enter (fds : list pollfd) (timeout : Z)
    (pollfunc : option (Z * list pollfd)) (now : timeval) (u : user_ctx) : M (world K) poll_outcome :=
  self ← coroutine_self;
  co ← deref self;
  '(timeout, istimeout) ← fix_coroutine_timeout co timeout;
  if istimeout =? 1 then mret (PollReturn (-1) fds)
  else
    let timeout := if (timeout =? -1) || (kMaxTimeoutMs <? timeout) then kMaxTimeoutMs else timeout in
    let nfds := length fds in
    p ← alloc_arg co nfds;
    fell_back ← add_epoll_all co p (bool_decide (nfds = 1%nat /\ is_Some pollfunc)) 0 fds;
    if (fell_back : bool) then
      free_arg p nfds;;
      '(ret, fds') ← deref pollfunc;
      mret (PollReturn ret fds')
    else
      let now := GetTickMS now in
      on_heap (upd_item p (fun x => x <| ti_expire := to_ullong (now + to_ullong timeout) |>));;
      ep ← get_epoll;
      '(ret, timer) ← on_heap (add_timeout (ep_timer ep) p now);
      upd_epoll (fun e => e <| ep_timer := timer |>);;
      if negb (ret =? 0) then
        modify (fun w => w <| w_errno := EINVAL |>);;
        free_arg p nfds;;
        del_epoll_all p 0 fds;;
        mret (PollReturn (-1) fds)
      else
        env ← get_curr_thread_env;
        deref env;;
        yield_env (K_poll p fds u);;
        mret PollBlocked.

(** The rest, run when the coroutine is switched in: the return value and
    the descriptors with their [revents]. *)
Definition poll_inner_leave (p : Z) (fds : list pollfd) : M (world K) (Z * list pollfd) :=
  on_heap (remove_from_link p);;
  del_epoll_all p 0 fds;;
  poll ← get_poll p;
  let fds' := zip_with (fun f g => f <| pfd_revents := pfd_revents g |>) fds (pc_fds poll) in
  free_arg p (length fds);;
  mret (pc_raise_cnt poll, fds').

Definition coroutine_poll (fds : list pollfd) (timeout_ms : Z) (now : timeval) (u : user_ctx) :
    M (world K) poll_outcome :=
  poll_inner_enter fds timeout_ms None now u.

(** * The event loop *)

Definition get_epoll_context (epfd : Z) (now : timeval) : M (world K) epoll_context_t :=
  env ← get_curr_thread_env;
  (match env with Some _ => mret tt | None => do_init_curr_thread_env epfd now end);;
  get_epoll.

(** [calloc(1, n * sizeof(struct epoll_event))]: the product is of type
    [size_t]. *)
Definition sizeof_epoll_event : Z := 12.

Definition alloc_epoll_result (n : Z) : epoll_result_t :=
  mk_epoll_result n (to_ullong (to_ullong n * sizeof_epoll_event) `div` sizeof_epoll_event).

(** [coroutine_eventloop] up to its loop. *)
Definition eventloop_start (epfd : Z) (now0 now : timeval) : M (world K) unit :=
  env ← get_curr_thread_env;
  (match env with Some _ => mret tt | None => do_init_curr_thread_env epfd now0 end);;
  upd_epoll (fun e => e <| ep_now := GetTickMS now |>);;
  ep ← get_epoll;
  (match ep_result ep with
   | None => upd_epoll (fun e => e <| ep_result := Some (alloc_epoll_result (ep_size e)) |>)
   | Some _ => mret tt
   end);;
  set_mode M_loop_wait.

Definition prepare_one (active : Z) (ev : epoll_event) : M (world K) unit :=
  item ← on_heap (get_item (ev_ptr ev));
  match ti_prepare item with
  | Some prepare_poll_event_ptr => prepare_poll_event item ev active
  | None => on_heap (add_tail active (ev_ptr ev))
  end.

Fixpoint prepare_all (active : Z) (evs : list epoll_event) : M (world K) unit :=
  match evs with
  | [] => mret tt
  | ev :: evs' => prepare_one active ev;; prepare_all active evs'
  end.

(** [item->timeout = 1;] *)
Definition set_timed_out (it : timer_item_t) : timer_item_t := it <| ti_timeout := 1 |>.
Arguments set_timed_out : simpl never.

(** One iteration of [while (1)] up to the process loop: [events] are what
    [do_epoll_wait] reported, [now] the clock read after it. *)
Definition eventloop_wait (events : list epoll_event) (now : timeval) : M (world K) unit :=
  ep ← get_epoll;
  let active := ep_active_list ep in
  let timeout := ep_timeout_list ep in
  on_heap (upd_list timeout (fun _ => empty_list));;
  prepare_all active events;;
  let now := GetTickMS now in
  upd_epoll (fun e => e <| ep_now := now |>);;
  timer ← on_heap (takeAllTimeout (ep_timer ep) now timeout);
  upd_epoll (fun e => e <| ep_timer := timer |>);;
  tl ← on_heap (get_list timeout);
  on_heap (walk_all set_timed_out (tl_head tl));;
  on_heap (join active timeout);;
  set_mode M_process.

Definition get_epoll_now (epoll : epoll_context_t) : Z := ep_now epoll.

(** One round of the process loop. *)
Definition eventloop_process : M (world K) unit :=
  ep ← get_epoll;
  let active := ep_active_list ep in
  tl ← on_heap (get_list active);
  match tl_head tl with
  | None => set_mode M_loop_wait
  | Some x =>
      on_heap (popHead active);;
      item ← on_heap (get_item x);
      match ti_process item with
      | Some process_poll_event_ptr => process_poll_event item
      | None => mret tt
      end
  end.
End poll.
