(* ===== verification/MemInv.v ===== *)
(** The invariant of the poll structures of a thread: live poll contexts,
    their timer items on the wheel or the active list, and the kernel's
    registrations, which only ever point into live contexts. *)

From stdpp Require Import gmap list.
From S2P Require Import Prelude TimerList TimerListSpec ListProgram TimerWheel TimerWheelSpec TimerFrame.
From S2P Require Import Events Thread ThreadSpec Coroutine TaskPool Poll.

(** * Linked items *)

Lemma linked_unlink L x y : linked (unlink x L) y <-> linked L y /\ y <> x.
Proof.
  unfold linked, unlink, map_Exists. split.
  - intros (l & xs & Hl & Hy). rewrite lookup_fmap in Hl. apply fmap_Some in Hl as (ys & Hl & ->).
    apply list_elem_of_filter in Hy as [Hne Hy]. eauto.
  - intros [(l & xs & Hl & Hy) Hne]. exists l, (filter (.≠ x) xs). split; [by rewrite lookup_fmap, Hl|].
    by apply list_elem_of_filter.
Qed.

Lemma linked_snoc L l xs x y : L !! l = Some xs -> linked (<[l := xs ++ [x]]> L) y <-> linked L y \/ y = x.
Proof.
  intros Hl. unfold linked, map_Exists. split.
  - intros (k & ys & Hk & Hy). apply lookup_insert_Some in Hk as [[<- <-]|[Hne Hk]].
    + apply elem_of_app in Hy as [Hy|Hy]; [left; eauto|right; set_solver].
    + left. eauto.
  - intros [(k & ys & Hk & Hy)| ->].
    + destruct (decide (k = l)) as [->|Hne].
      * exists l, (xs ++ [x]). rewrite lookup_insert_eq. split; [done|]. simplify_eq. set_solver.
      * exists k, ys. by rewrite lookup_insert_ne.
    + exists l, (xs ++ [x]). rewrite lookup_insert_eq. split; [done|set_solver].
Qed.

Lemma linked_tail h L l x xs y :
  Rep h L -> L !! l = Some (x :: xs) -> linked (<[l := xs]> L) y <-> linked L y /\ y <> x.
Proof.
  intros R Hl. rewrite <- linked_unlink. by rewrite (unlink_linked _ _ R l [] x xs Hl).
Qed.

(** Joining two lists links the same items. *)
Lemma linked_join L l o xs ys y :
  l <> o -> L !! l = Some xs -> L !! o = Some ys ->
  linked (<[o := []]> (<[l := xs ++ ys]> L)) y <-> linked L y.
Proof.
  intros Hne Hl Ho. unfold linked, map_Exists. split.
  - intros (k & zs & Hk & Hy). apply lookup_insert_Some in Hk as [[<- <-]|[Hko Hk]]; [set_solver|].
    apply lookup_insert_Some in Hk as [[<- <-]|[Hkl Hk]]; [|eauto].
    apply elem_of_app in Hy as [Hy|Hy]; eauto.
  - intros (k & zs & Hk & Hy). destruct (decide (k = l)) as [->|Hkl].
    + exists l, (xs ++ ys). rewrite lookup_insert_ne, lookup_insert_eq by done. simplify_eq. split; [done|set_solver].
    + destruct (decide (k = o)) as [->|Hko].
      * exists l, (xs ++ ys). rewrite lookup_insert_ne, lookup_insert_eq by done. simplify_eq. split; [done|set_solver].
      * exists k, zs. by rewrite !lookup_insert_ne.
Qed.

(** An item is linked when it is armed or in a list that is not a slot. *)
Lemma linked_split h timer L Q x :
  Wheel h timer L -> Queue h timer L Q ->
  linked L x <-> is_Some (Q !! x) \/ exists l xs, off_wheel timer l /\ L !! l = Some xs /\ x ∈ xs.
Proof.
  intros W HQ. split.
  - intros (l & xs & Hl & Hx). destruct (decide (et_items timer <= l < et_items timer + et_size timer)) as [Hr|Hr].
    + left. destruct (slot_surj _ _ (wh_shape _ _ _ W) (l - et_items timer)) as (j & Hj & Hs); [lia|].
      exists (et_start timer + j). apply (queue_lookup _ _ _ W _ _ _ HQ). exists j. split_and!; [lia..| |done].
      unfold bucket. rewrite Hs. replace (et_items timer + (l - et_items timer)) with l by lia. by rewrite Hl.
    + right. by exists l, xs.
  - intros [[e He]|(l & xs & _ & Hl & Hx)]; [|by exists l, xs].
    apply (queue_lookup _ _ _ W _ _ _ HQ) in He as (j & Hj & Hx & _).
    destruct (slot_live _ _ (wh_shape _ _ _ W) j) as (xs & Hxs & Hb). rewrite Hb in Hx. by exists (slot timer j), xs.
Qed.

(** * The invariant *)

Section mem.
Context {K : Type} `{!EpollKernel K}.
Implicit Types w : world K.

(** The poll contexts in use: for each address, the coroutine that waits and
    the descriptors it gave. *)
Abbreviation lives := (gmap Z (Z * list pollfd)).

(** [a] is where the kernel points for [fd]: element [i] of the items of a
    live context, initialised. *)
Definition points_into w (live : lives) (fd a : Z) : Prop :=
  exists q c fds i f, live !! q = Some (c, fds) /\ a = item_addr q i /\ fds !! i = Some f /\ pfd_fd f = fd /\
    (exists it, lh_items (w_heap w) !! a = Some it /\ ti_prepare it = Some prepare_poll_event_ptr /\ ti_arg it = Some a) /\
    (exists pi, w_pitems w !! a = Some pi /\ pi_self pi = i /\ pi_poll pi = q).

(** What a live context consists of. *)
Definition context_ok w (q c : Z) (fds : list pollfd) : Prop :=
  (exists pc, w_polls w !! q = Some pc /\ length (pc_fds pc) = length fds) /\
  (exists it, lh_items (w_heap w) !! q = Some it /\ ti_prepare it = None /\
     ti_process it = Some process_poll_event_ptr /\ ti_coroutine it = Some c) /\
  (forall i, (i < length fds)%nat -> is_Some (lh_items (w_heap w) !! item_addr q i)).

(** A context with a reported event is in the active list, unless it is
    [det]. *)
Definition raised_ok w (active : Z) (live : lives) (det : option Z) (L : alists) : Prop :=
  forall q pc, is_Some (live !! q) -> w_polls w !! q = Some pc -> pc_allEventDetatch pc <> 0 ->
    det = Some q \/ exists xs, L !! active = Some xs /\ q ∈ xs.

Lemma raised_keep w w' active live det L L' :
  raised_ok w active live det L -> w_polls w' = w_polls w ->
  (forall xs, L !! active = Some xs -> exists xs', L' !! active = Some xs' /\ forall q, q ∈ xs -> q ∈ xs') ->
  raised_ok w' active live det L'.
Proof using.
  intros H Hp HL q pc Hq Hpc Hne. rewrite Hp in Hpc. destruct (H q pc Hq Hpc Hne) as [?|(xs & Hxs & Hin)]; [by left|right].
  destruct (HL _ Hxs) as (xs' & ? & Hsub). exists xs'. auto.
Qed.

(** All live contexts have their item in a list, but for [det]. *)
Record MemInv w (ep : epoll_context_t) (live : lives) (det : option Z) (L : alists) : Prop := {
  mi_wheel : Wheel (w_heap w) (ep_timer ep) L;
  mi_idx : et_start_idx (ep_timer ep) <= et_start (ep_timer ep) < 2 ^ 62;
  mi_active : off_wheel (ep_timer ep) (ep_active_list ep) /\ is_Some (L !! ep_active_list ep);
  mi_timeout : off_wheel (ep_timer ep) (ep_timeout_list ep) /\ L !! ep_timeout_list ep = Some [];
  mi_ne : ep_active_list ep <> ep_timeout_list ep;
  mi_others : forall l xs, L !! l = Some xs -> off_wheel (ep_timer ep) l -> l <> ep_active_list ep -> xs = [];
  mi_live : forall q c fds, live !! q = Some (c, fds) -> context_ok w q c fds;
  mi_linked : forall x, linked L x <-> is_Some (live !! x) /\ det <> Some x;
  mi_disj : forall q1 c1 fds1 q2 c2 fds2, live !! q1 = Some (c1, fds1) -> live !! q2 = Some (c2, fds2) ->
    q1 < q2 -> q1 + Z.of_nat (length fds1) < q2;
  mi_reg : forall fd a, registered (w_kern w) fd = Some a -> -1 < fd /\ points_into w live fd a;
  mi_raised : raised_ok w (ep_active_list ep) live det L
}.

(** Everything but the heap, the poll structures, the kernel and [errno]. *)
Definition ctl_eq w w' : Prop :=
  w_pid w' = w_pid w /\ w_env w' = w_env w /\ w_options w' = w_options w /\ w_cos w' = w_cos w /\
  w_tasks w' = w_tasks w /\ w_pools w' = w_pools w /\ w_coroutine_main w' = w_coroutine_main w /\ w_mode w' = w_mode w.

#[export] Instance ctl_eq_preorder : PreOrder ctl_eq.
Proof using.
  split; unfold ctl_eq; [intros w; done|]. intros w1 w2 w3. intuition congruence.
Qed.

(** What the invariant asks of an item, apart from its links. *)
Definition core (it : timer_item_t) : Z * option prepare_fun_t * option process_fun_t * option Z * option Z :=
  (ti_expire it, ti_prepare it, ti_process it, ti_coroutine it, ti_arg it).

Definition same_core (h h' : lheap) : Prop := forall x, core <$> lh_items h !! x = core <$> lh_items h' !! x.

Lemma same_core_fwd h h' x it : same_core h h' -> lh_items h !! x = Some it ->
  exists it', lh_items h' !! x = Some it' /\ core it' = core it.
Proof using. intros Hc Hx. specialize (Hc x). rewrite Hx in Hc. symmetry in Hc. by apply fmap_Some in Hc as (it' & ? & ?); eauto. Qed.

Lemma same_core_inv h h' x it' : same_core h h' -> lh_items h' !! x = Some it' ->
  exists it, lh_items h !! x = Some it /\ core it = core it'.
Proof using. intros Hc Hx. specialize (Hc x). rewrite Hx in Hc. apply fmap_Some in Hc as (it & ? & ?); eauto. Qed.

Lemma same_payload_core h h' : same_payload h h' -> same_core h h'.
Proof using.
  intros Hp x. specialize (Hp x). destruct (lh_items h !! x), (lh_items h' !! x); try discriminate; [|done].
  injection Hp as Hp. unfold core. csimpl. congruence.
Qed.

Lemma same_core_trans h1 h2 h3 : same_core h1 h2 -> same_core h2 h3 -> same_core h1 h3.
Proof using. intros H1 H2 x. etrans; [apply H1|apply H2]. Qed.

(** A change of the links and of counters only. *)
Lemma context_ok_core w w' q c fds :
  same_core (w_heap w) (w_heap w') ->
  (forall pc, w_polls w !! q = Some pc -> exists pc', w_polls w' !! q = Some pc' /\ length (pc_fds pc') = length (pc_fds pc)) ->
  context_ok w q c fds -> context_ok w' q c fds.
Proof using.
  intros Hp Hpc ((pc & Hq & Hlen) & (it & Hit & H1 & H2 & H3) & Hitems). split_and!.
  - destruct (Hpc _ Hq) as (pc' & ? & ?). exists pc'. split; [done|congruence].
  - destruct (same_core_fwd _ _ _ _ Hp Hit) as (it' & Hit' & [= _ E1 E2 E3 _]). exists it'. split_and!; congruence.
  - intros i Hi. destruct (Hitems i Hi) as [it' Hit']. by destruct (same_core_fwd _ _ _ _ Hp Hit') as (it2 & -> & _).
Qed.

Lemma points_into_core w w' live fd a :
  same_core (w_heap w) (w_heap w') -> w_pitems w' = w_pitems w ->
  points_into w live fd a -> points_into w' live fd a.
Proof using.
  intros Hp Hpi (q & c & fds & i & f & Hq & Ha & Hf & Hfd & (it & Hit & H1 & H2) & Hpit).
  exists q, c, fds, i, f. split_and!; [done..| |by rewrite Hpi].
  destruct (same_core_fwd _ _ _ _ Hp Hit) as (it' & Hit' & [= _ E1 _ _ E2]). exists it'. split_and!; congruence.
Qed.

(** The invariant after an operation on the lists. *)
Lemma mem_lists w w' ep timer' live det det' L L' :
  MemInv w ep live det L ->
  same_core (w_heap w) (w_heap w') ->
  (forall q pc, w_polls w !! q = Some pc -> exists pc', w_polls w' !! q = Some pc' /\ length (pc_fds pc') = length (pc_fds pc)) ->
  w_pitems w' = w_pitems w -> w_kern w' = w_kern w ->
  Wheel (w_heap w') timer' L' ->
  et_items timer' = et_items (ep_timer ep) -> et_size timer' = et_size (ep_timer ep) ->
  et_start_idx timer' <= et_start timer' < 2 ^ 62 ->
  is_Some (L' !! ep_active_list ep) -> L' !! ep_timeout_list ep = Some [] ->
  (forall l xs, L' !! l = Some xs -> off_wheel (ep_timer ep) l -> l <> ep_active_list ep -> xs = []) ->
  (forall x, linked L' x <-> is_Some (live !! x) /\ det' <> Some x) ->
  raised_ok w' (ep_active_list ep) live det' L' ->
  MemInv w' (ep <| ep_timer := timer' |>) live det' L'.
Proof using.
  intros [I1 I2 I3 I4 I5 Io I6 I7 I8 I9 I10] Hp Hpc Hpi Hk W' Hi Hs Hidx Ha Ht Hot Hl Hrs.
  split; [done|done| | |done| | |done|done| |done].
  - split; [|done]. unfold off_wheel in *. simpl. rewrite Hi, Hs. apply I3.
  - split; [|done]. unfold off_wheel in *. simpl. rewrite Hi, Hs. apply I4.
  - intros l xs. unfold off_wheel. simpl. rewrite Hi, Hs. apply Hot.
  - intros q c fds Hq. eapply context_ok_core; eauto.
  - intros fd a Hfd. rewrite Hk in Hfd. destruct (I9 _ _ Hfd) as [? ?]. split; [done|].
    eapply points_into_core; eauto.
Qed.

(** * Events reported by the kernel *)

(** Moving a live item to the end of the active list. *)
Lemma move_to_active w ep live L q c fds :
  MemInv w ep live None L -> live !! q = Some (c, fds) ->
  exists h L', (remove_from_link q;; add_tail (ep_active_list ep) q) (w_heap w) = Ok (tt, h) /\
    same_payload (w_heap w) h /\ Wheel h (ep_timer ep) L' /\
    (forall xs, L !! ep_active_list ep = Some xs -> L' !! ep_active_list ep = Some (filter (.≠ q) xs ++ [q])) /\
    L' !! ep_timeout_list ep = Some [] /\
    (forall l xs, L' !! l = Some xs -> off_wheel (ep_timer ep) l -> l <> ep_active_list ep -> xs = []) /\
    (forall x, linked L' x <-> linked L x).
Proof using.
  intros I Hq. pose proof (mi_wheel _ _ _ _ _ I) as W. pose proof (queue_of_spec _ _ _ W) as HQ.
  destruct (mi_live _ _ _ _ _ I _ _ _ Hq) as (_ & (it & Hit & _) & _).
  assert (linked L q) as Hlk by (apply (mi_linked _ _ _ _ _ I); eauto).
  assert (q ∈ dom (lh_items (w_heap w))) as Hdom by (apply elem_of_dom; eauto).
  destruct (remove_from_link_wheel _ _ _ _ _ W HQ Hdom) as (h1 & Hrun1 & W1 & HQ1 & Hp1).
  destruct (mi_active _ _ _ _ _ I) as [Hoff [xs Hxs]]. destruct (mi_timeout _ _ _ _ _ I) as [_ Hto].
  assert (unlink q L !! ep_active_list ep = Some (filter (.≠ q) xs)) as Hact by (unfold unlink; by rewrite lookup_fmap, Hxs).
  destruct (add_tail_off _ _ _ _ _ _ q W1 HQ1 Hoff Hact) as (h2 & Hrun2 & W2 & _ & Hp2).
  { by rewrite (same_payload_dom _ _ Hp1). }
  { rewrite linked_unlink. tauto. }
  eexists h2, _. split_and!; [by rewrite (bind_Ok _ _ _ _ _ Hrun1)|by etrans|exact W2|intros ys Hys; rewrite Hxs in Hys; injection Hys as <-; by rewrite lookup_insert_eq| | |].
  - rewrite lookup_insert_ne by apply I. unfold unlink. by rewrite lookup_fmap, Hto.
  - intros l ys Hl Ho Hne. rewrite lookup_insert_ne in Hl by done. unfold unlink in Hl. rewrite lookup_fmap in Hl.
    apply fmap_Some in Hl as (zs & Hl & ->). by rewrite (mi_others _ _ _ _ _ I _ _ Hl Ho Hne).
  - intros x. rewrite (linked_snoc _ _ _ _ _ Hact), linked_unlink. destruct (decide (x = q)) as [->|]; tauto.
Qed.

(** Nothing leaves the active list. *)
Definition active_grows (ep : epoll_context_t) (L L' : alists) : Prop :=
  forall xs, L !! ep_active_list ep = Some xs ->
    exists xs', L' !! ep_active_list ep = Some xs' /\ forall q, q ∈ xs -> q ∈ xs'.

Lemma active_grows_refl ep L : active_grows ep L L.
Proof using. intros xs Hxs. exists xs. auto. Qed.

Lemma active_grows_trans ep L1 L2 L3 : active_grows ep L1 L2 -> active_grows ep L2 L3 -> active_grows ep L1 L3.
Proof using. intros H1 H2 xs (ys & (zs & Hzs & Hyz)%H2 & Hxy)%H1. exists zs. auto. Qed.

(** One reported event: counted, and the first one of a context moves its
    item to the active list. *)
Lemma prepare_one_mem w ep live L ev fd :
  MemInv w ep live None L -> registered (w_kern w) fd = Some (ev_ptr ev) ->
  exists w' L', prepare_one (ep_active_list ep) ev w = Ok (tt, w') /\ ctl_eq w w' /\ w_kern w' = w_kern w /\
    same_core (w_heap w) (w_heap w') /\ MemInv w' ep live None L' /\ active_grows ep L L' /\
    exists q c fds i xs, live !! q = Some (c, fds) /\ ev_ptr ev = item_addr q i /\ (i < length fds)%nat /\
      L' !! ep_active_list ep = Some xs /\ q ∈ xs.
Proof using.
  intros I Hreg. destruct (mi_active _ _ _ _ _ I) as [_ [xs0 Hxs0]]. destruct (mi_reg _ _ _ _ _ I _ _ Hreg) as (_ & q & c & fds & i & f & Hq & Ha & Hf & _ & (it & Hit & Hpr & Harg) & (pi & Hpi & Hself & Hpoll)).
  destruct (mi_live _ _ _ _ _ I _ _ _ Hq) as ((pc & Hpc & Hlen) & _ & _).
  assert (exists g, pc_fds pc !! i = Some g) as [g Hg].
  { apply lookup_lt_is_Some. rewrite Hlen. by eapply lookup_lt_Some. }
  set (pc1 := pc <| pc_fds ::= <[i := g <| pfd_revents := epoll_event_to_poll (ev_events ev) |>]> |>
                 <| pc_raise_cnt := to_int (pc_raise_cnt pc + 1) |>).
  unfold prepare_one. step. rewrite Hpr. unfold prepare_poll_event. rewrite Harg. step. step. rewrite Hpoll, Hself.
  step. erewrite bind_Ok by (apply array_get_run; [lia|by rewrite Nat2Z.id]). step. step.
  match goal with |- context [w <| w_polls := ?a |> <| w_polls := ?b |>] => set (w1 := w <| w_polls := a |> <| w_polls := b |>) end.
  assert (w_polls w1 = <[q := pc1]> (w_polls w)) as Hw1 by (unfold w1; simpl; by rewrite insert_insert_eq).
  assert (forall pc2, length (pc_fds pc2) = length (pc_fds pc) ->
    forall r p, w_polls w !! r = Some p -> exists p', <[q := pc2]> (w_polls w) !! r = Some p' /\ length (pc_fds p') = length (pc_fds p)) as Hlens.
  { intros pc2 Hl2 r p Hr. destruct (decide (r = q)) as [->|]; [rewrite lookup_insert_eq|rewrite lookup_insert_ne by done; eauto].
    exists pc2. split; [done|congruence]. }
  assert (length (pc_fds pc1) = length (pc_fds pc)) as Hl1 by (unfold pc1; simpl; by rewrite length_insert).
  destruct (Z.eqb_spec (pc_allEventDetatch pc) 0) as [Hflag|Hflag].
  - erewrite bind_Ok by (apply upd_poll_run; rewrite Hw1; apply lookup_insert_eq).
    destruct (move_to_active _ _ _ _ _ _ _ I Hq) as (h & L' & Hrun & Hp & W' & Ha' & Ht' & Ho' & Hl').
    apply bind_inv in Hrun as ([] & h1 & Hr1 & Hr2).
    erewrite bind_Ok by (apply on_heap_run; exact Hr1).
    erewrite on_heap_run by exact Hr2.
    specialize (Ha' _ Hxs0).
    assert (active_grows ep L L') as Hgrow.
    { intros ys Hys. rewrite Hxs0 in Hys. injection Hys as <-. eexists. split; [exact Ha'|]. intros x Hx.
      apply elem_of_app. destruct (decide (x = q)) as [->|]; [right; by left|left]. by apply list_elem_of_filter. }
    assert (q ∈ filter (.≠ q) xs0 ++ [q]) as Hqin by (apply elem_of_app; right; by left).
    eexists _, L'. split; [done|]. split_and!; [done|done|by apply same_payload_core| |exact Hgrow|exists q, c, fds, i, (filter (.≠ q) xs0 ++ [q]); split_and!; (done || by eapply lookup_lt_Some)].
    replace ep with (ep <| ep_timer := ep_timer ep |>) by (by destruct ep).
    eapply mem_lists; [exact I|by apply same_payload_core| |done|done|exact W'|done|done|apply I|eauto|done|done| |].
    + simpl. rewrite !insert_insert_eq. apply Hlens. simpl. by rewrite length_insert.
    + intros x. rewrite Hl'. apply I.
    + intros r pr Hr Hpr' Hne. right. destruct (decide (r = q)) as [->|Hrq]; [eauto|].
      simpl in Hpr'. rewrite !insert_insert_eq, lookup_insert_ne in Hpr' by done.
      destruct (mi_raised _ _ _ _ _ I r pr Hr Hpr' Hne) as [?|(ys & Hys & Hin)]; [done|].
      destruct (Hgrow _ Hys) as (zs & ? & ?). exists zs. auto.
  - assert (exists xs, L !! ep_active_list ep = Some xs /\ q ∈ xs) as (xs & Hxs & Hqin).
    { by destruct (mi_raised _ _ _ _ _ I q pc ltac:(eauto) Hpc Hflag) as [?|?]. }
    exists w1, L. split; [done|]. split_and!; [done|done|done| |apply active_grows_refl|exists q, c, fds, i, xs; split_and!; (done || by eapply lookup_lt_Some)].
    replace ep with (ep <| ep_timer := ep_timer ep |>) by (by destruct ep).
    eapply mem_lists; [exact I|done| |done|done|apply I|done|done|apply I|apply I|apply I|apply I|apply I|].
    { rewrite Hw1. by apply Hlens. }
    intros r pr Hr Hpr' Hne. right. rewrite Hw1 in Hpr'. destruct (decide (r = q)) as [->|Hrq]; [eauto|].
    rewrite lookup_insert_ne in Hpr' by done. by destruct (mi_raised _ _ _ _ _ I r pr Hr Hpr' Hne).
Qed.

Lemma prepare_all_mem evs : forall w ep live L,
  MemInv w ep live None L -> Forall (fun ev => exists fd, registered (w_kern w) fd = Some (ev_ptr ev)) evs ->
  exists w' L', prepare_all (ep_active_list ep) evs w = Ok (tt, w') /\ ctl_eq w w' /\ w_kern w' = w_kern w /\
    same_core (w_heap w) (w_heap w') /\ MemInv w' ep live None L' /\ active_grows ep L L' /\
    forall ev, ev ∈ evs -> exists q c fds i xs, live !! q = Some (c, fds) /\ ev_ptr ev = item_addr q i /\ (i < length fds)%nat /\
      L' !! ep_active_list ep = Some xs /\ q ∈ xs.
Proof using.
  induction evs as [|ev evs IH]; intros w ep live L I Hev.
  { exists w, L. split_and!; [done..|apply active_grows_refl|]. intros ev Hin. by apply elem_of_nil in Hin. }
  apply Forall_cons in Hev as [[fd Hfd] Hev].
  destruct (prepare_one_mem _ _ _ _ _ _ I Hfd) as (w1 & L1 & Hrun1 & Hc1 & Hk1 & Hs1 & I1 & G1 & q & c & fds & i & xs & Hq & Hptr & Hlt & Hxs & Hin).
  rewrite <- Hk1 in Hev. destruct (IH _ _ _ _ I1 Hev) as (w2 & L2 & Hrun2 & Hc2 & Hk2 & Hs2 & I2 & G2 & Hall).
  exists w2, L2. split_and!; [|by etrans|congruence|by eapply same_core_trans|done|by eapply active_grows_trans|].
  { cbn [prepare_all]. by rewrite (bind_Ok _ _ _ _ _ Hrun1). }
  intros ev' [->|Hev']%elem_of_cons; [|by apply Hall].
  destruct (G2 _ Hxs) as (ys & ? & Hsub). exists q, c, fds, i, ys. split_and!; auto.
Qed.

(** * Timeouts *)

(** Only the timer and the lists of the epoll context matter. *)
Lemma mem_now w ep live det L now : MemInv w ep live det L -> MemInv w (ep <| ep_now := now |>) live det L.
Proof using. by intros []. Qed.

(** Lists outside the wheel may change. *)
Lemma wheel_off_update h h' timer L L' Q :
  Wheel h timer L -> Queue h timer L Q -> Rep h' L' -> dom L' = dom L ->
  (forall l, ~ off_wheel timer l -> L' !! l = L !! l) -> same_core h h' ->
  Wheel h' timer L' /\ Queue h' timer L' Q.
Proof using.
  intros W HQ R' Hd Hl Hc. eapply wheel_queue_transfer; [done..| |].
  - intros j Hj. unfold bucket. rewrite Hl; [done|]. intros Ho. by apply Ho, (slot_range _ _ (wh_shape _ _ _ W)).
  - intros x it' _ Hx. destruct (same_core_inv _ _ _ _ Hc Hx) as (it & ? & [= ?]). eauto.
Qed.

(** [takeAllTimeout] into an empty list outside the wheel, whatever the clock
    says: what is due moves to that list and nothing is lost. *)
Lemma take_heap h timer L Q r now :
  Wheel h timer L -> Queue h timer L Q -> off_wheel timer r -> L !! r = Some [] ->
  et_start_idx timer <= et_start timer < 2 ^ 62 -> 0 <= now < 2 ^ 62 -> now - et_start timer < 2 ^ 31 - 1 ->
  exists h' timer' L' due,
    takeAllTimeout timer now r h = Ok (timer', h') /\ Wheel h' timer' L' /\ L' !! r = Some due /\
    same_payload h h' /\ et_items timer' = et_items timer /\ et_size timer' = et_size timer /\
    et_start_idx timer' <= et_start timer' < 2 ^ 62 /\
    (forall l, l <> r -> off_wheel timer l -> L' !! l = L !! l) /\
    (forall x, linked L' x <-> linked L x) /\
    (forall x e, et_start timer <= now -> Q !! x = Some e -> e <= now -> x ∈ due).
Proof using.
  intros W HQ Hoff Hr Hidx Hnow Hgap. pose proof (wh_start _ _ _ W) as Hst.
  destruct (Z.le_gt_cases (et_start timer) now) as [Hle|Hlt].
  - pose proof (ws_size _ _ (wh_shape _ _ _ W)) as Hs.
    destruct (takeAllTimeout_refines _ _ _ _ now r [] W HQ Hoff Hr)
      as (h' & timer' & L' & due & Hrun & W' & HQ' & Htm & Hd & Hr' & Hdue & _ & Hl & Hp); [lia..|].
    assert (et_items timer' = et_items timer /\ et_size timer' = et_size timer /\ et_start timer' = now /\
      et_start_idx timer' = et_start_idx timer + (due_slots timer now - 1)) as (E1 & E2 & E3 & E4) by (by subst timer').
    exists h', timer', L', due. split_and!; [done|done|done|done|done|done|unfold due_slots in *; lia|lia|done| |].
    + intros x. rewrite (linked_split _ _ _ _ x W' HQ'), (linked_split _ _ _ _ x W HQ).
      unfold off_wheel. rewrite E1, E2. fold (off_wheel timer). unfold later_than. split.
      * intros [[e He]|(l & xs & Hol & Hlx & Hx)].
        -- apply map_lookup_filter_Some in He as [He _]. left. eauto.
        -- destruct (decide (l = r)) as [->|Hne]; [|right; exists l, xs; rewrite <- Hl by done; eauto].
           rewrite Hr' in Hlx. injection Hlx as <-. simpl in Hx. apply Hdue in Hx as (e & He & _). left. eauto.
      * intros [[e He]|(l & xs & Hol & Hlx & Hx)].
        -- destruct (Z.le_gt_cases e now) as [Hen|Hen].
           ++ right. exists r, due. split_and!; [exact Hoff|done|]. apply Hdue. eauto.
           ++ left. exists e. by apply map_lookup_filter_Some.
        -- destruct (decide (l = r)) as [->|Hne]; [rewrite Hr in Hlx; injection Hlx as <-; set_solver|].
           right. exists l, xs. by rewrite Hl.
    + intros x e _ He Hen. apply Hdue. eauto.
  - exists h, timer, L, []. split_and!; [|done|done|done|done|done|lia|lia|done|done|lia].
    unfold takeAllTimeout. rewrite init_start_id by lia. by rewrite (proj2 (Z.ltb_lt _ _)).
Qed.

(** Marking the items of a list as timed out. *)
Lemma mark_heap h timer L r due :
  Wheel h timer L -> L !! r = Some due ->
  exists h', walk_all set_timed_out (head due) h = Ok (tt, h') /\ Wheel h' timer L /\ same_core h h' /\
    lh_lists h' = lh_lists h.
Proof using.
  intros W Hr. pose proof (wh_rep _ _ _ W) as R. pose proof (rep_nodup _ _ R _ _ Hr) as Hnd.
  set (h' := h <| lh_items := alter_all set_timed_out due (lh_items h) |>).
  assert (forall A (f : timer_item_t -> A), (forall it, f (set_timed_out it) = f it) ->
    forall x, f <$> lh_items h' !! x = f <$> lh_items h !! x) as Hkeep.
  { intros A f Hf x. unfold h'. simpl. rewrite lookup_alter_all by done. case_decide; [|done].
    destruct (lh_items h !! x); csimpl; [by rewrite Hf|done]. }
  assert (same_core h h') as Hc by (intros x; symmetry; by apply (Hkeep _ core)).
  assert (Rep h' L) as R'.
  { eapply rep_transfer; [exact R|done|intros x _; by apply (Hkeep _ links)|].
    intros x it l Hx Hp. pose proof (Hkeep _ links ltac:(done) x) as Hlk. rewrite Hx in Hlk. symmetry in Hlk.
    apply fmap_Some in Hlk as (it0 & Hx0 & [= _ _ E]). apply (linked_parent _ _ R _ _ Hx0). exists l. congruence. }
  exists h'. split_and!; [|by eapply (wheel_off_update h h' timer L L); eauto using queue_of_spec|done|done].
  eapply walk_all_seg; [done|by eapply rep_seg|done].
Qed.

(** Joining the collected items to the active list. *)
Lemma join_heap h timer L act r xs due :
  Wheel h timer L -> off_wheel timer act -> off_wheel timer r -> act <> r ->
  L !! act = Some xs -> L !! r = Some due ->
  exists h', join act r h = Ok (tt, h') /\ Wheel h' timer (<[r := []]> (<[act := xs ++ due]> L)) /\ same_core h h'.
Proof using.
  intros W Ha Hr Hne Hact Hrl.
  destruct (join_rep _ _ _ _ _ _ (wh_rep _ _ _ W) Hne Hact Hrl) as (h' & Hrun & R' & Hp).
  exists h'. split_and!; [done| |by apply same_payload_core].
  eapply (wheel_off_update h h' timer L _ (queue_of timer L)); [done|by apply queue_of_spec|done| | |by apply same_payload_core].
  - rewrite !dom_insert_L. apply elem_of_dom_2 in Hact, Hrl. set_solver.
  - intros l Hl. rewrite !lookup_insert_ne; [done|by intros ->|by intros ->].
Qed.

(** * One iteration of the event loop *)

(** An item in no list but the active one and the slots. *)
Lemma live_armed_or_active w ep live L Q x :
  MemInv w ep live None L -> Queue (w_heap w) (ep_timer ep) L Q -> is_Some (live !! x) ->
  (exists e it, Q !! x = Some e /\ lh_items (w_heap w) !! x = Some it /\ ti_expire it = e) \/
  exists xs, L !! ep_active_list ep = Some xs /\ x ∈ xs.
Proof using.
  intros I HQ Hx. assert (linked L x) as Hl by (apply I; done).
  apply (linked_split _ _ _ _ _ (mi_wheel _ _ _ _ _ I) HQ) in Hl as [[e He]|(l & xs & Ho & Hl & Hin)].
  - left. exists e. pose proof He as Hq. apply HQ in Hq as (_ & it & Hit & Hex). eauto.
  - right. destruct (decide (l = ep_active_list ep)) as [->|Hne]; [eauto|].
    rewrite (mi_others _ _ _ _ _ I _ _ Hl Ho Hne) in Hin. set_solver.
Qed.

(** What an iteration needs of the clock. *)
Definition clock_ok (ep : epoll_context_t) (now : timeval) : Prop :=
  2 ^ 31 <= GetTickMS now /\ GetTickMS now < 2 ^ 62 /\ GetTickMS now - et_start (ep_timer ep) < 2 ^ 31 - 11.

Lemma GetTickMS_nonneg now : 0 <= GetTickMS now.
Proof using. unfold GetTickMS. apply wrap_u_range. lia. Qed.

(** Collecting: the three steps of an iteration on the heap. *)
Lemma collect_heap w ep live L t :
  MemInv w ep live None L -> 0 <= t < 2 ^ 62 -> t - et_start (ep_timer ep) < 2 ^ 31 - 1 ->
  exists timer' h1 tl h2 h3 L' xs,
    takeAllTimeout (ep_timer ep) t (ep_timeout_list ep) (w_heap w) = Ok (timer', h1) /\
    get_list (ep_timeout_list ep) h1 = Ok (tl, h1) /\
    walk_all set_timed_out (tl_head tl) h1 = Ok (tt, h2) /\
    join (ep_active_list ep) (ep_timeout_list ep) h2 = Ok (tt, h3) /\ same_core (w_heap w) h3 /\
    (forall w', w_heap w' = h3 -> w_polls w' = w_polls w -> w_pitems w' = w_pitems w -> w_kern w' = w_kern w ->
       MemInv w' (ep <| ep_timer := timer' |>) live None L') /\
    L' !! ep_active_list ep = Some xs /\ active_grows ep L L' /\
    (forall q it, is_Some (live !! q) -> lh_items (w_heap w) !! q = Some it ->
       ti_expire it <= t -> et_start (ep_timer ep) <= t -> q ∈ xs).
Proof using.
  intros I Ht Hgap. pose proof (mi_wheel _ _ _ _ _ I) as W. pose proof (queue_of_spec _ _ _ W) as HQ.
  destruct (mi_timeout _ _ _ _ _ I) as [Hto1 Hto2]. destruct (mi_active _ _ _ _ _ I) as [Hact1 [xs1 Hact2]].
  pose proof (mi_ne _ _ _ _ _ I) as Hne.
  destruct (take_heap _ _ _ _ (ep_timeout_list ep) t W HQ Hto1 Hto2)
    as (h1 & timer' & L1 & due & Hrun1 & W1 & Hr1 & Hp1 & Ei & Es & Hidx & Hl1 & Hlk1 & Hdue); [apply I|lia|lia|].
  destruct (mark_heap _ _ _ _ _ W1 Hr1) as (h2 & Hrun2 & W2 & Hc2 & _).
  assert (forall l, off_wheel (ep_timer ep) l -> off_wheel timer' l) as Hoff by (intros l; unfold off_wheel; by rewrite Ei, Es).
  assert (L1 !! ep_active_list ep = Some xs1) as Hact3 by (by rewrite Hl1).
  destruct (join_heap _ _ _ _ _ _ _ W2 (Hoff _ Hact1) (Hoff _ Hto1) Hne Hact3 Hr1) as (h3 & Hrun3 & W3 & Hc3).
  assert (same_core (w_heap w) h3) as Hc.
  { eapply same_core_trans; [by apply same_payload_core|]. by eapply same_core_trans. }
  assert (active_grows ep L (<[ep_timeout_list ep := []]> (<[ep_active_list ep := xs1 ++ due]> L1))) as Hgrow.
  { intros ys Hys. rewrite Hact2 in Hys. injection Hys as <-. exists (xs1 ++ due).
    rewrite lookup_insert_ne, lookup_insert_eq by done. split; [done|]. intros q Hq. apply elem_of_app. by left. }
  eexists timer', h1, _, h2, h3, _, (xs1 ++ due). split_and!;
    [done|apply get_list_run, (rep_list _ _ (wh_rep _ _ _ W1) _ _ Hr1)|exact Hrun2|done|done| | |exact Hgrow|].
  - intros w' <- Hpo Hpi Hk. eapply mem_lists; [exact I|done| |done|done|exact W3|done|done|done| | | | |].
    + rewrite Hpo. eauto.
    + by rewrite lookup_insert_ne, lookup_insert_eq.
    + by rewrite lookup_insert_eq.
    + intros l zs. rewrite lookup_insert_Some. intros [[_ <-]|[Hlt Hl]] Ho Hla; [done|].
      rewrite lookup_insert_ne, Hl1 in Hl by done. by eapply (mi_others _ _ _ _ _ I).
    + intros x. rewrite (linked_join _ _ _ _ _ _ Hne Hact3 Hr1), Hlk1. apply I.
    + eapply raised_keep; [apply I|done|exact Hgrow].
  - by rewrite lookup_insert_ne, lookup_insert_eq.
  - intros q it Hq Hit Hex Hst. apply elem_of_app.
    destruct (live_armed_or_active _ _ _ _ _ _ I HQ Hq) as [(x & it1 & HQq & Hit1 & Hx)|(ys & Hys & Hin)].
    + right. eapply Hdue; [done|exact HQq|]. simplify_eq. lia.
    + left. by simplify_eq.
Qed.

Lemma eventloop_wait_mem w e ep live L evs now :
  w_env w = Some e -> env_epoll e = Some ep -> MemInv w ep live None L ->
  Forall (fun ev => exists fd, registered (w_kern w) fd = Some (ev_ptr ev)) evs -> clock_ok ep now ->
  exists w' ep' L' xs, eventloop_wait evs now w = Ok (tt, w') /\
    ctl_eq (w <| w_env := Some (e <| env_epoll := Some ep' |>) |> <| w_mode := M_process |>) w' /\
    MemInv w' ep' live None L' /\ w_kern w' = w_kern w /\
    L' !! ep_active_list ep' = Some xs /\
    (forall q it, is_Some (live !! q) -> lh_items (w_heap w) !! q = Some it ->
       ti_expire it <= GetTickMS now -> et_start (ep_timer ep) <= GetTickMS now -> q ∈ xs) /\
    (forall ev, ev ∈ evs -> exists q c fds i, live !! q = Some (c, fds) /\ ev_ptr ev = item_addr q i /\ (i < length fds)%nat /\ q ∈ xs).
Proof using.
  intros Hw He I Hev (_ & Hclk & Hgap). set (t := GetTickMS now) in *. pose proof (GetTickMS_nonneg now) as Ht. fold t in Ht.
  unfold eventloop_wait. step.
  pose proof (rep_list _ _ (wh_rep _ _ _ (mi_wheel _ _ _ _ _ I)) _ _ (proj2 (mi_timeout _ _ _ _ _ I))) as Htl.
  rewrite (bind_Ok _ _ w tt w).
  2: { apply on_heap_read. rewrite (upd_list_run _ _ _ _ Htl). do 2 f_equal. rewrite insert_id by done. by destruct (w_heap w). }
  destruct (prepare_all_mem _ _ _ _ _ I Hev) as (w1 & L1 & Hrun1 & Hc1 & Hk1 & Hs1 & I1 & _ & Hevs).
  rewrite (bind_Ok _ _ _ _ _ Hrun1). fold t.
  assert (w_env w1 = Some e) as Hw1 by (rewrite <- Hw; apply Hc1).
  erewrite bind_Ok by (by eapply upd_epoll_run). cbv beta.
  set (w2 := w1 <| w_env := _ |>).
  pose proof (mem_now _ _ _ _ _ t I1) as I2. set (ep2 := ep <| ep_now := t |>) in *.
  destruct (collect_heap _ _ _ _ t I2) as (timer' & h3 & tl & h5 & h6 & L' & xs & R3 & R4 & R5 & R6 & Hc & HI & Hxs & Hgrow & Hdue);
    [lia|simpl; lia|].
  erewrite bind_Ok by (apply (on_heap_run _ w2); exact R3). set (w3 := w2 <| w_heap := h3 |>).
  erewrite bind_Ok by (eapply (upd_epoll_run w3); [done|done]). cbv beta. set (w4 := w3 <| w_env := _ |>).
  erewrite bind_Ok by (apply (on_heap_read _ w4); exact R4).
  erewrite bind_Ok by (apply (on_heap_run _ w4); exact R5). set (w5 := w4 <| w_heap := h5 |>).
  erewrite bind_Ok by (apply (on_heap_run _ w5); exact R6). set (w6 := w5 <| w_heap := h6 |>).
  eexists _, _, L', xs. split_and!; [apply set_mode_run| |by apply HI|exact Hk1|exact Hxs| |].
  - destruct Hc1 as (C1 & C2 & C3 & C4 & C5 & C6 & C7 & C8). unfold ctl_eq. simpl. split_and!; done.
  - intros q it Hq Hit Hex Hst. destruct (same_core_fwd _ _ _ _ Hs1 Hit) as (it1 & Hit1 & [= E _ _ _ _]).
    eapply Hdue; [done|exact Hit1|lia|done].
  - intros ev Hev'. destruct (Hevs ev Hev') as (q & c & fds & i & ys & Hq & Hptr & Hlt & Hys & Hin).
    destruct (Hgrow _ Hys) as (zs & Hzs & Hsub). rewrite Hxs in Hzs. injection Hzs as <-. exists q, c, fds, i. auto.
Qed.
End mem.
