(* ===== verification/MemPoll.v ===== *)
(** [poll_inner] on the poll structures: what its allocation, registrations,
    timer and clean-up do to the invariant of [MemInv]. *)

From stdpp Require Import gmap list.
From S2P Require Import Prelude TimerList TimerListSpec ListProgram TimerWheel TimerWheelSpec TimerFrame.
From S2P Require Import Events Thread ThreadSpec Coroutine TaskPool Poll MemInv.

Section mem.
Context {K : Type} `{!EpollKernel K}.
Implicit Types w : world K.

Lemma item_addr_inj q i j : item_addr q i = item_addr q j -> i = j.
Proof using. unfold item_addr. lia. Qed.

Section facts.
Context w (ep : epoll_context_t) (live : gmap Z (Z * list pollfd)) (det : option Z) (L : alists).
Context (I : MemInv w ep live det L).

(** The blocks of two contexts do not overlap. *)
Lemma block_unique q1 c1 fds1 q2 c2 fds2 a :
  live !! q1 = Some (c1, fds1) -> live !! q2 = Some (c2, fds2) ->
  q1 <= a <= q1 + Z.of_nat (length fds1) -> q2 <= a <= q2 + Z.of_nat (length fds2) -> q1 = q2.
Proof using I.
  intros H1 H2 Ha1 Ha2. pose proof (mi_disj _ _ _ _ _ I _ _ _ _ _ _ H1 H2).
  pose proof (mi_disj _ _ _ _ _ I _ _ _ _ _ _ H2 H1). lia.
Qed.

(** The elements of a block are in no list. *)
Lemma element_unlinked q c fds i :
  live !! q = Some (c, fds) -> (i < length fds)%nat -> ~ linked L (item_addr q i).
Proof using I.
  intros Hq Hi Hl. apply (mi_linked _ _ _ _ _ I) in Hl as [[[c2 fds2] H2] _].
  assert (q = item_addr q i) as Heq; [|unfold item_addr in Heq; lia].
  eapply (block_unique q c fds _ c2 fds2 (item_addr q i)); [done|exact H2| |]; unfold item_addr; lia.
Qed.

Lemma unlinked_parent x it :
  lh_items (w_heap w) !! x = Some it -> ~ linked L x -> ti_parent it = None.
Proof using I.
  intros Hx Hun. destruct (ti_parent it) eqn:Hp; [|done]. destruct Hun.
  apply (linked_parent _ _ (wh_rep _ _ _ (mi_wheel _ _ _ _ _ I)) _ _ Hx). eauto.
Qed.

Lemma live_lt_fresh q c fds : live !! q = Some (c, fds) ->
  q + Z.of_nat (length fds) < fresh_addr (lh_items (w_heap w)).
Proof using I.
  intros Hq. destruct (mi_live _ _ _ _ _ I _ _ _ Hq) as (_ & (it & Hit & _) & Hitems).
  destruct (fresh_addr_spec (lh_items (w_heap w))) as [_ Hf]. destruct (length fds) as [|n] eqn:Hn.
  - assert (q < fresh_addr (lh_items (w_heap w))); [|lia]. apply Hf. eauto.
  - specialize (Hf _ (Hitems n ltac:(lia))). unfold item_addr in Hf. lia.
Qed.
End facts.

(** The invariant looks at these parts of the world only. *)
Lemma mem_ext w w' ep live det L :
  w_heap w' = w_heap w -> w_polls w' = w_polls w -> w_pitems w' = w_pitems w -> w_kern w' = w_kern w ->
  MemInv w ep live det L -> MemInv w' ep live det L.
Proof using.
  intros E1 E2 E3 E4 [I1 I2 I3 I4 I5 I6 I7 I8 I9 I10 I11].
  split; unfold context_ok, points_into, raised_ok in *; rewrite ?E1, ?E2, ?E3, ?E4; done.
Qed.

(** An unlinked item may be replaced by another unlinked one, with the same
    deadline or not. *)
Lemma wheel_insert_detached h timer L x it :
  Wheel h timer L -> ~ linked L x -> ti_parent it = None ->
  Wheel (h <| lh_items := <[x := it]> (lh_items h) |>) timer L.
Proof using.
  intros W Hx Hp. eapply wheel_queue_transfer; [exact W|by apply queue_of_spec|apply rep_insert_detached; [apply W|done|done]|done|done|].
  intros y it' Hy Hit'. exists it'. split; [|done]. simpl in Hit'. rewrite lookup_insert_ne in Hit'; [done|].
  intros <-. destruct Hy as (j & Hj & Hy), (slot_live _ _ (wh_shape _ _ _ W) j) as (xs & Hxs & Hb).
  apply Hx. exists (slot timer j), xs. split; [done|by rewrite <- Hb].
Qed.

(** * Allocation *)

Lemma insert_block_wheel n : forall base h timer L,
  Wheel h timer L -> (forall k, base <= k < base + Z.of_nat n -> ~ linked L k) ->
  Wheel (h <| lh_items := insert_block n base zero_item (lh_items h) |>) timer L.
Proof using.
  induction n as [|n IH]; intros base h timer L W Hk; [by destruct h|]. cbn [insert_block].
  assert (Wheel (h <| lh_items := <[base := zero_item]> (lh_items h) |>) timer L) as W1
    by (apply wheel_insert_detached; [done|apply Hk; lia|done]).
  exact (IH (base + 1) _ timer L W1 ltac:(intros k Hr; apply Hk; lia)).
Qed.

Lemma alloc_arg_mem w ep live L c fds :
  MemInv w ep live None L ->
  exists p w', alloc_arg c (length fds) w = Ok (p, w') /\ live !! p = None /\ ctl_eq w w' /\
    w_kern w' = w_kern w /\ MemInv w' ep (<[p := (c, fds)]> live) (Some p) L /\
    exists pc, w_polls w' !! p = Some pc /\ pc_allEventDetatch pc = 0 /\ pc_raise_cnt pc = 0.
Proof using.
  intros I. set (p := fresh_addr (lh_items (w_heap w))).
  destruct (fresh_addr_spec (lh_items (w_heap w))) as [_ Hfresh]. fold p in Hfresh.
  assert (forall q c fds, live !! q = Some (c, fds) -> q + Z.of_nat (length fds) < p) as Hlt
    by (intros; by eapply live_lt_fresh).
  assert (live !! p = None) as Hp by (destruct (live !! p) as [[c0 f0]|] eqn:E; [apply Hlt in E; lia|done]).
  assert (forall k, p <= k -> ~ linked L k) as Hun.
  { intros k Hk Hl. apply (mi_linked _ _ _ _ _ I) in Hl as [[[c0 f0] Hq] _]. apply Hlt in Hq. lia. }
  unfold alloc_arg. step. fold p. step. erewrite bind_Ok by (apply on_heap_run, modify_run).
  erewrite bind_Ok by (apply on_heap_run, modify_run).
  eexists p, _. split; [done|]. split; [done|]. split; [by repeat split|]. split; [done|].
  split; [|eexists; split; [apply lookup_insert_eq|by split]].
  set (it0 := zero_item <| ti_process := Some process_poll_event_ptr |> <| ti_coroutine := Some c |>).
  set (h1 := (w_heap w) <| lh_items := insert_block (length fds) (p + 1) zero_item (lh_items (w_heap w)) |>).
  set (h2 := h1 <| lh_items := <[p := it0]> (lh_items h1) |>).
  assert (forall a, a < p -> lh_items h2 !! a = lh_items (w_heap w) !! a) as Hold.
  { intros a Ha. simpl. rewrite lookup_insert_ne, lookup_insert_block, decide_False by lia. done. }
  assert (forall a, p < a <= p + Z.of_nat (length fds) -> lh_items h2 !! a = Some zero_item) as Hnew.
  { intros a Ha. simpl. rewrite lookup_insert_ne, lookup_insert_block, decide_True by lia. done. }
  assert (forall q, is_Some (lh_items (w_heap w) !! q) -> lh_items h2 !! q = lh_items (w_heap w) !! q) as Hkeep
    by (intros q Hq; by apply Hold, Hfresh).
  destruct I as [I1 I2 I3 I4 I5 I6 I7 I8 I9 I10 I11]. split; [|done..| | | | |]; cbn [w_heap w_polls w_pitems w_kern set_field].
  - apply wheel_insert_detached; [|apply Hun; lia|done].
    apply insert_block_wheel; [done|]. intros k Hk. apply Hun. lia.
  - intros q c0 f0. rewrite lookup_insert_Some. intros [[<- [= <- <-]]|[Hne Hq]].
    + split_and!.
      * eexists. simpl. rewrite lookup_insert_eq. split; [done|]. simpl. by rewrite length_replicate.
      * exists it0. simpl. by rewrite lookup_insert_eq.
      * intros i Hi. exists zero_item. apply Hnew. unfold item_addr. lia.
    + destruct (I7 _ _ _ Hq) as (Hpc & (it & Hit & Hprops) & Hitems). split_and!.
      * simpl. by rewrite lookup_insert_ne.
      * exists it. split; [|done]. change (lh_items h2 !! q = Some it). by rewrite Hkeep.
      * intros i Hi. change (is_Some (lh_items h2 !! item_addr q i)). rewrite Hkeep by auto. auto.
  - intros x. rewrite I8, lookup_insert_is_Some. split.
    + intros [Hx _]. destruct (decide (p = x)) as [<-|]; [rewrite Hp in Hx; by destruct Hx|]. split; [by right|congruence].
    + intros [[<-|[Hne Hx]] Hd]; [done|]. by split.
  - intros q1 c1 f1 q2 c2 f2. rewrite !lookup_insert_Some.
    intros [[<- [= <- <-]]|[Hn1 H1]] [[<- [= <- <-]]|[Hn2 H2]] Hq; [lia| | |by eapply I9].
    + apply Hlt in H2. lia.
    + by apply Hlt in H1.
  - intros fd a Ha. destruct (I10 _ _ Ha) as (Hfd & q & c0 & f0 & i & f & Hq & -> & Hf & Hfdf & (it & Hit & Hprops) & Hpi).
    split; [done|]. exists q, c0, f0, i, f. split_and!; [|done|done|done| |done].
    + rewrite lookup_insert_ne; [done|]. intros <-. congruence.
    + exists it. split; [|done]. change (lh_items h2 !! item_addr q i = Some it). rewrite Hkeep; eauto.
  - intros q pc Hq Hpc Hne. destruct (decide (q = p)) as [->|Hqp]; [by left|]. right.
    simpl in Hpc. rewrite lookup_insert_ne in Hpc by (by apply not_eq_sym). rewrite lookup_insert_ne in Hq by (by apply not_eq_sym).
    by destruct (I11 q pc Hq Hpc Hne).
Qed.

(** * Registration *)

(** Initialising element [i] of the block [p] keeps the invariant. *)
Lemma init_item_mem w ep live L p c fds i f it it' pi :
  MemInv w ep live (Some p) L -> live !! p = Some (c, fds) -> fds !! i = Some f ->
  lh_items (w_heap w) !! item_addr p i = Some it ->
  ti_parent it' = None -> ti_prepare it' = Some prepare_poll_event_ptr -> ti_arg it' = Some (item_addr p i) ->
  pi_self pi = i -> pi_poll pi = p ->
  MemInv (w <| w_heap := (w_heap w) <| lh_items := <[item_addr p i := it']> (lh_items (w_heap w)) |> |>
            <| w_pitems := <[item_addr p i := pi]> (w_pitems w) |>) ep live (Some p) L.
Proof using.
  intros I Hp Hi Hit Hpar Hpr Harg Hself Hpoll. set (a := item_addr p i) in *.
  pose proof (lookup_lt_Some _ _ _ Hi) as Hlt.
  assert (~ linked L a) as Hun by (by eapply (element_unlinked w ep live (Some p) L I)).
  assert (forall q c0 f0, live !! q = Some (c0, f0) -> q <> a) as Hne.
  { intros q c0 f0 Hq ->. assert (p = a) as Heq; [|unfold a, item_addr in Heq; lia].
    eapply (block_unique w ep live (Some p) L I p c fds _ c0 f0 a); [done|exact Hq| |]; unfold a, item_addr; lia. }
  pose proof I as [I1 I2 I3 I4 I5 I6 I7 I8 I9 I10 I11]. split; [|done..| |done|done| |done]; cbn [w_heap w_kern set_field].
  - by apply wheel_insert_detached.
  - intros q c0 f0 Hq. destruct (I7 _ _ _ Hq) as (Hpc & (it1 & Hit1 & Hprops) & Hitems). split_and!; [done| |].
    + exists it1. simpl. rewrite lookup_insert_ne; [done|]. intros E. by eapply Hne.
    + intros j Hj. simpl. destruct (decide (a = item_addr q j)) as [->|]; [rewrite lookup_insert_eq; eauto|].
      rewrite lookup_insert_ne by done. auto.
  - intros fd b Hb. destruct (I10 _ _ Hb) as (Hfd & q & c0 & f0 & j & g & Hq & -> & Hg & Hgfd & (it1 & Hit1 & Hprops) & (pi1 & Hpi1 & Hs1 & Hp1)).
    split; [done|]. exists q, c0, f0, j, g. destruct (decide (a = item_addr q j)) as [Heq|Hneq].
    + assert (p = q) as <-.
      { eapply (block_unique w ep live (Some p) L I p c fds q c0 f0 a); [done..| |].
        - unfold a, item_addr. lia.
        - apply lookup_lt_Some in Hg. rewrite Heq. unfold item_addr. lia. }
      apply item_addr_inj in Heq as <-. split_and!; [done..| |].
      * exists it'. simpl. by rewrite lookup_insert_eq.
      * exists pi. simpl. by rewrite lookup_insert_eq.
    + split_and!; [done..| |]; simpl; rewrite lookup_insert_ne by done; eauto.
Qed.

(** A call of [epoll_ctl] changes the kernel and [errno] only. *)
Lemma do_epoll_ctl_run op fd ev w :
  exists w', do_epoll_ctl op fd ev w = Ok ((epoll_ctl (w_kern w) op fd ev).1.1, w') /\ ctl_eq w w' /\
    w_kern w' = (epoll_ctl (w_kern w) op fd ev).2 /\ w_heap w' = w_heap w /\ w_polls w' = w_polls w /\
    w_pitems w' = w_pitems w.
Proof using.
  unfold do_epoll_ctl. step. destruct (epoll_ctl (w_kern w) op fd ev) as [[ret err] k]. step.
  destruct (ret <? 0); step; eexists; by split_and!.
Qed.

Lemma mem_kern w w' ep live det L :
  w_heap w' = w_heap w -> w_polls w' = w_polls w -> w_pitems w' = w_pitems w ->
  (forall fd a, registered (w_kern w') fd = Some a -> -1 < fd /\ points_into w live fd a) ->
  MemInv w ep live det L -> MemInv w' ep live det L.
Proof using.
  intros E1 E2 E3 Hk [I1 I2 I3 I4 I5 I6 I7 I8 I9 I10 I11].
  split; unfold context_ok, points_into, raised_ok in *; rewrite ?E1, ?E2, ?E3; done.
Qed.

Lemma add_epoll_mem w ep live L p c fds i f :
  MemInv w ep live (Some p) L -> live !! p = Some (c, fds) -> fds !! i = Some f ->
  exists r w', add_epoll c p i f w = Ok (r, w') /\ ctl_eq w w' /\ MemInv w' ep live (Some p) L /\ w_polls w' = w_polls w.
Proof using.
  intros I Hp Hi. pose proof (lookup_lt_Some _ _ _ Hi) as Hlt.
  destruct (mi_live _ _ _ _ _ I _ _ _ Hp) as (_ & _ & Hitems). destruct (Hitems i Hlt) as [it Hit].
  assert (ti_parent it = None) as Hpar.
  { eapply (unlinked_parent w ep live (Some p) L I); [exact Hit|]. by eapply (element_unlinked w ep live (Some p) L I). }
  unfold add_epoll. erewrite bind_Ok by (apply on_heap_run; by apply upd_item_run).
  destruct (Z.ltb_spec (-1) (pfd_fd f)) as [Hfd|Hfd]; step.
  - match goal with |- context [(do_epoll_ctl ?o ?d ?e ≫= _) ?x] => set (w1 := x); set (ev := e) end.
    assert (MemInv w1 ep live (Some p) L) as I1 by (by eapply (init_item_mem w ep live L p c fds i f it)).
    destruct (do_epoll_ctl_run EPOLL_CTL_ADD (pfd_fd f) ev w1) as (w2 & Hrun & Hc & Hk & E1 & E2 & E3).
    rewrite (bind_Ok _ _ _ _ _ Hrun). eexists _, w2. split_and!; [done|by etrans; [|exact Hc]| |exact E2].
    eapply (mem_kern w1); [done..| |exact I1]. intros fd a Ha. rewrite Hk in Ha.
    destruct (decide (fd = pfd_fd f)) as [->|Hne].
    + destruct (ctl_add_same (w_kern w1) (pfd_fd f) ev) as [E|E]; rewrite E in Ha; [by apply I1|].
      injection Ha as <-. split; [done|]. exists p, c, fds, i, f. split_and!; [done..| |].
      * eexists. simpl. rewrite lookup_insert_eq. by split.
      * eexists. simpl. rewrite lookup_insert_eq. by split.
    + rewrite ctl_add_other in Ha by done. by apply I1.
  - eexists _, _. split_and!; [done|done| |done]. by eapply (init_item_mem w ep live L p c fds i f it).
Qed.

Lemma add_epoll_all_mem w ep live L p c fds fb fds2 : forall i fds1,
  MemInv w ep live (Some p) L -> live !! p = Some (c, fds) -> fds = fds1 ++ fds2 -> i = length fds1 ->
  exists r w', add_epoll_all c p fb i fds2 w = Ok (r, w') /\ ctl_eq w w' /\ MemInv w' ep live (Some p) L /\ w_polls w' = w_polls w.
Proof using.
  revert w. induction fds2 as [|f fds2 IH]; intros w i fds1 I Hp Hfds Hi.
  { exists false, w. by split_and!. }
  assert (fds !! i = Some f) as Hf by (subst; by rewrite list_lookup_middle).
  destruct (add_epoll_mem _ _ _ _ _ _ _ _ _ I Hp Hf) as (r & w1 & Hrun & Hc & I1 & P1).
  cbn [add_epoll_all]. rewrite (bind_Ok _ _ _ _ _ Hrun). step.
  destruct (fb && _ && _); [exists true, w1; by split_and!|].
  destruct (IH w1 (S i) (fds1 ++ [f]) I1 Hp) as (r2 & w2 & Hrun2 & Hc2 & I2 & P2).
  { by rewrite <- app_assoc. }
  { rewrite length_app. simpl. lia. }
  exists r2, w2. split_and!; [done|by etrans|done|congruence].
Qed.

(** Removing the registrations of [fds]. *)
Lemma del_epoll_all_mem fds : forall w ep live det L p i,
  MemInv w ep live det L ->
  exists w', del_epoll_all p i fds w = Ok (tt, w') /\ ctl_eq w w' /\ MemInv w' ep live det L /\
    w_heap w' = w_heap w /\ w_polls w' = w_polls w /\ w_pitems w' = w_pitems w /\
    (forall fd a, registered (w_kern w') fd = Some a ->
       registered (w_kern w) fd = Some a /\ fd ∉ filter (fun d => -1 < d) (pfd_fd <$> fds)).
Proof using.
  induction fds as [|f fds IH]; intros w ep live det L p i I.
  { exists w. split_and!; [done..|]. intros fd a Ha. split; [done|apply not_elem_of_nil]. }
  cbn [del_epoll_all]. destruct (Z.ltb_spec (-1) (pfd_fd f)) as [Hfd|Hfd].
  - destruct (do_epoll_ctl_run EPOLL_CTL_DEL (pfd_fd f) (mk_epoll_event 0 (item_addr p i)) w) as (w1 & Hrun & Hc & Hk & E1 & E2 & E3).
    assert (forall fd a, registered (w_kern w1) fd = Some a -> registered (w_kern w) fd = Some a /\ fd <> pfd_fd f) as Hreg.
    { intros fd a Ha. rewrite Hk in Ha. destruct (decide (fd = pfd_fd f)) as [->|Hne]; [by rewrite ctl_del_same in Ha|].
      by rewrite ctl_del_other in Ha. }
    assert (MemInv w1 ep live det L) as I1.
    { eapply (mem_kern w); [done..| |exact I]. intros fd a Ha. apply I. by apply Hreg. }
    destruct (IH w1 ep live det L p (S i) I1) as (w2 & Hrun2 & Hc2 & I2 & F1 & F2 & F3 & Hreg2).
    exists w2. rewrite (bind_Ok _ _ w tt w1) by (by rewrite (bind_Ok _ _ _ _ _ Hrun)).
    split_and!; [done|by etrans|done|congruence..|]. intros fd a Ha. destruct (Hreg2 _ _ Ha) as [H1 H2].
    destruct (Hreg _ _ H1) as [H3 H4]. split; [done|]. csimpl. rewrite filter_cons_True by done. set_solver.
  - destruct (IH w ep live det L p (S i) I) as (w2 & Hrun2 & Hc2 & I2 & F1 & F2 & F3 & Hreg2).
    exists w2. rewrite (bind_Ok _ _ w tt w) by done. split_and!; [done..|].
    intros fd a Ha. csimpl. rewrite filter_cons_False by lia. by apply Hreg2.
Qed.

(** * Clean-up *)

Lemma wheel_delete_detached h timer L x :
  Wheel h timer L -> ~ linked L x -> Wheel (h <| lh_items := delete x (lh_items h) |>) timer L.
Proof using.
  intros W Hx. eapply wheel_queue_transfer; [exact W|by apply queue_of_spec|apply rep_delete_detached; [apply W|done]|done|done|].
  intros y it' _ Hit'. simpl in Hit'. apply lookup_delete_Some in Hit' as [_ Hit']. eauto.
Qed.

Lemma delete_block_wheel n : forall base h timer L,
  Wheel h timer L -> (forall k, base <= k < base + Z.of_nat n -> ~ linked L k) ->
  Wheel (h <| lh_items := delete_block n base (lh_items h) |>) timer L.
Proof using.
  induction n as [|n IH]; intros base h timer L W Hk; [by destruct h|]. cbn [delete_block].
  assert (Wheel (h <| lh_items := delete base (lh_items h) |>) timer L) as W1
    by (apply wheel_delete_detached; [done|apply Hk; lia]).
  exact (IH (base + 1) _ timer L W1 ltac:(intros k Hr; apply Hk; lia)).
Qed.

(** Freeing the unlinked block [p] when no registration points into it. *)
Lemma free_arg_mem w ep live L p c fds :
  MemInv w ep live (Some p) L -> live !! p = Some (c, fds) ->
  (forall fd a, registered (w_kern w) fd = Some a -> forall i, (i < length fds)%nat -> a <> item_addr p i) ->
  exists w', free_arg p (length fds) w = Ok (tt, w') /\ ctl_eq w w' /\ MemInv w' ep (delete p live) None L.
Proof using.
  intros I Hp Hreg. unfold free_arg. step. erewrite (on_heap_run (modify _)) by apply modify_run.
  eexists. split; [done|]. split; [by repeat split|].
  assert (forall q c0 f0 a, live !! q = Some (c0, f0) -> q <> p -> q <= a <= q + Z.of_nat (length f0) ->
    ~ (p <= a <= p + Z.of_nat (length fds))) as Hout.
  { intros q c0 f0 a Hq Hne Ha Hr. by apply Hne, (block_unique w ep live (Some p) L I q c0 f0 p c fds a). }
  set (m := lh_items (w_heap w)).
  assert (forall a, ~ (p <= a <= p + Z.of_nat (length fds)) ->
    delete p (delete_block (length fds) (p + 1) m) !! a = m !! a) as Hm.
  { intros a Ha. rewrite lookup_delete_ne, lookup_delete_block, decide_False by lia. done. }
  pose proof I as [I1 I2 I3 I4 I5 I6 I7 I8 I9 I10 I11]. split; [|done..| | | | |]; cbn [w_heap w_kern w_polls w_pitems set_field].
  - assert (~ linked L p) as Hun by (rewrite I8; by intros [_ []]).
    refine (wheel_delete_detached _ _ _ _ (delete_block_wheel (length fds) (p + 1) _ _ _ I1 _) Hun).
    intros k Hk. replace k with (item_addr p (Z.to_nat (k - p - 1))) by (unfold item_addr; lia).
    eapply (element_unlinked w ep live (Some p) L I); [exact Hp|lia].
  - intros q c0 f0 [Hne Hq]%lookup_delete_Some. destruct (I7 _ _ _ Hq) as ((pc & Hpc & Hlen) & (it & Hit & Hprops) & Hitems). split_and!.
    + exists pc. simpl. by rewrite lookup_delete_ne.
    + exists it. simpl. fold m. rewrite Hm by (eapply Hout; [done|done|lia]). done.
    + intros i Hi. simpl. fold m. rewrite Hm; [by apply Hitems|]. eapply Hout; [done|done|unfold item_addr; lia].
  - intros x. rewrite I8, lookup_delete_is_Some. split; [|intros [[? ?] _]; split; [done|congruence]].
    intros [Hx Hne]. split; [|done]. split; [congruence|done].
  - intros q1 c1 f1 q2 c2 f2 [_ H1]%lookup_delete_Some [_ H2]%lookup_delete_Some. by eapply I9.
  - intros fd a Ha. destruct (I10 _ _ Ha) as (Hfd & q & c0 & f0 & i & f & Hq & -> & Hf & Hfdf & (it & Hit & Hprops) & (pi & Hpi & Hpi')).
    assert (q <> p) as Hne.
    { intros ->. rewrite Hp in Hq. injection Hq as <- <-. apply lookup_lt_Some in Hf. by eapply Hreg. }
    pose proof (lookup_lt_Some _ _ _ Hf).
    assert (~ (p <= item_addr q i <= p + Z.of_nat (length fds))) as Ho by (eapply Hout; [done|done|unfold item_addr; lia]).
    split; [done|]. exists q, c0, f0, i, f. split_and!; [by rewrite lookup_delete_ne|done|done|done| |].
    + exists it. split; [|done]. simpl. fold m. by rewrite Hm.
    + exists pi. split; [|done]. simpl. rewrite lookup_delete_block, decide_False by lia. done.
  - intros q pc Hq Hpc Hne. simpl in Hpc. apply lookup_delete_is_Some in Hq as [Hqp Hq]. apply lookup_delete_Some in Hpc as [_ Hpc].
    right. destruct (I11 q pc Hq Hpc Hne) as [[=]|?]; [congruence|done].
Qed.

(** A registration of a descriptor that is not one of [p]'s points elsewhere. *)
Lemma reg_elsewhere w ep live det L p c fds fd a :
  MemInv w ep live det L -> live !! p = Some (c, fds) -> registered (w_kern w) fd = Some a ->
  fd ∉ filter (fun d => -1 < d) (pfd_fd <$> fds) -> forall i, (i < length fds)%nat -> a <> item_addr p i.
Proof using.
  intros I Hp Ha Hfd i Hi ->. destruct (mi_reg _ _ _ _ _ I _ _ Ha) as (Hlt & q & c0 & f0 & j & f & Hq & Heq & Hf & Hff & _).
  assert (p = q) as <-.
  { apply lookup_lt_Some in Hf. eapply (block_unique w ep live det L I p c fds q c0 f0 (item_addr p i)); [done..| |].
    - unfold item_addr. lia.
    - rewrite Heq. unfold item_addr. lia. }
  rewrite Hp in Hq. injection Hq as <- <-. apply Hfd, list_elem_of_filter. split; [done|].
  apply list_elem_of_fmap. exists f. split; [done|]. by eapply list_elem_of_lookup_2.
Qed.

(** [poll_inner] after its switch. *)
Lemma poll_inner_leave_mem w ep live L p c fds :
  MemInv w ep live (Some p) L -> live !! p = Some (c, fds) ->
  exists pc w', poll_inner_leave p fds w =
      Ok ((pc_raise_cnt pc, zip_with (fun f g => f <| pfd_revents := pfd_revents g |>) fds (pc_fds pc)), w') /\
    w_polls w !! p = Some pc /\ length (pc_fds pc) = length fds /\
    ctl_eq w w' /\ MemInv w' ep (delete p live) None L.
Proof using.
  intros I Hp. destruct (mi_live _ _ _ _ _ I _ _ _ Hp) as ((pc & Hpc & Hlen) & (it & Hit & _) & _).
  assert (~ linked L p) as Hun by (rewrite (mi_linked _ _ _ _ _ I); by intros [_ []]).
  pose proof (unlinked_parent w ep live (Some p) L I _ _ Hit Hun) as Hpar.
  unfold poll_inner_leave. erewrite bind_Ok by (apply on_heap_read; by eapply remove_from_link_detached_noop).
  destruct (del_epoll_all_mem fds w ep live (Some p) L p 0 I) as (w1 & Hrun & Hc & I1 & E1 & E2 & E3 & Hreg).
  rewrite (bind_Ok _ _ _ _ _ Hrun). rewrite <- E2 in Hpc. step.
  destruct (free_arg_mem w1 ep live L p c fds I1 Hp) as (w2 & Hfree & Hc2 & I2).
  { intros fd a Ha. eapply (reg_elsewhere w1 ep live (Some p) L p c fds fd a I1 Hp Ha). by apply (Hreg fd a). }
  rewrite (bind_Ok _ _ _ _ _ Hfree). rewrite E2 in Hpc. exists pc, w2. split_and!; [done..|by etrans|done].
Qed.

(** Taking the first item of the active list. *)
Lemma pop_active w ep live L x xs :
  MemInv w ep live None L -> L !! ep_active_list ep = Some (x :: xs) ->
  exists h c fds, popHead (ep_active_list ep) (w_heap w) = Ok (tt, h) /\ live !! x = Some (c, fds) /\
    (exists it, lh_items h !! x = Some it /\ ti_process it = Some process_poll_event_ptr /\ ti_coroutine it = Some c) /\
    MemInv (w <| w_heap := h |>) ep live (Some x) (<[ep_active_list ep := xs]> L).
Proof using.
  intros I Ha. pose proof (mi_wheel _ _ _ _ _ I) as W. destruct (mi_active _ _ _ _ _ I) as [Hoff _].
  destruct (popHead_rep _ _ (wh_rep _ _ _ W) _ _ Ha) as (h & Hrun & R' & Hp). simpl in R'.
  assert (linked L x) as Hx by (exists (ep_active_list ep), (x :: xs); split; [done|set_solver]).
  apply (mi_linked _ _ _ _ _ I) in Hx as [[[c fds] Hx] _].
  destruct (mi_live _ _ _ _ _ I _ _ _ Hx) as (_ & (it & Hit & _ & H2 & H3) & _).
  destruct (same_payload_fwd _ _ _ _ Hp Hit) as (it' & Hit' & He).
  exists h, c, fds. split_and!; [done|done| |].
  { exists it'. rewrite <- H2, <- H3. split_and!; [done|exact (f_equal ti_process He)|exact (f_equal ti_coroutine He)]. }
  destruct (wheel_off_insert _ _ _ _ _ _ xs W (queue_of_spec _ _ _ W) Hoff (mk_is_Some _ _ Ha) R' Hp) as [W' _].
  replace ep with (ep <| ep_timer := ep_timer ep |>) at 1 by (by destruct ep).
  eapply mem_lists; [exact I|by apply same_payload_core|eauto|done|done|exact W'|done|done|apply I| | | | |].
  - rewrite lookup_insert_eq. eauto.
  - rewrite lookup_insert_ne by apply I. apply I.
  - intros l zs Hl Ho Hne. rewrite lookup_insert_ne in Hl by done. by eapply (mi_others _ _ _ _ _ I).
  - intros y. rewrite (linked_tail _ _ _ _ _ _ (wh_rep _ _ _ W) Ha), (mi_linked _ _ _ _ _ I).
    split; [intros [[? _] ?]; split; congruence|intros [? ?]; split; [done|congruence]].
  - intros r pr Hr Hpr Hne. destruct (mi_raised _ _ _ _ _ I r pr Hr Hpr Hne) as [?|(ys & Hys & Hin)]; [done|].
    rewrite Ha in Hys. injection Hys as <-. apply elem_of_cons in Hin as [->|Hin]; [by left|right]. exists xs. by rewrite lookup_insert_eq.
Qed.

(** * Arming the timer *)

(** A raw ADD that fails leaves every registration as it was. *)
Lemma add_epoll_fail c p i f w ret w' :
  add_epoll c p i f w = Ok (Some ret, w') -> ret < 0 ->
  forall fd, registered (w_kern w') fd = registered (w_kern w) fd.
Proof using.
  unfold add_epoll. intros H Hret fd. apply bind_inv in H as ([] & w1 & H1 & H).
  assert (w_kern w1 = w_kern w) as <- by (unfold on_heap in H1; destruct (upd_item _ _ _) as [[]|]; by simplify_eq).
  destruct (-1 <? pfd_fd f).
  2: { apply bind_inv in H as ([] & w2 & H2 & H3). discriminate H3. }
  apply bind_inv in H as ([] & w2 & [= <-] & H). apply bind_inv in H as (r & w3 & H3 & [= <- <-]).
  match type of H3 with do_epoll_ctl _ _ ?ev ?x = _ => destruct (do_epoll_ctl_run EPOLL_CTL_ADD (pfd_fd f) ev x) as (w4 & Hrun & _ & Hk & _) end.
  rewrite Hrun in H3. injection H3 as Hr <-. rewrite Hk.
  destruct (decide (fd = pfd_fd f)) as [->|Hne]; [|by rewrite ctl_add_other].
  apply ctl_add_fail. by rewrite Hr.
Qed.

Lemma add_epoll_all_fallback c p fb fds w w' :
  add_epoll_all c p fb 0 fds w = Ok (true, w') -> (fb = true -> length fds = 1%nat) ->
  forall fd, registered (w_kern w') fd = registered (w_kern w) fd.
Proof using.
  intros H Hfb. destruct fds as [|f fds]; [discriminate H|]. cbn [add_epoll_all] in H.
  apply bind_inv in H as (r & w1 & H1 & H). apply bind_inv in H as (err & w2 & [= <- <-] & H).
  destruct fb; cbn [andb] in H.
  - specialize (Hfb eq_refl). destruct fds; [|discriminate Hfb]. destruct r as [ret|]; [|discriminate H].
    destruct (Z.ltb_spec ret 0) as [Hneg|]; [|discriminate H].
    assert (w1 = w') as <- by (destruct (w_errno w1 =? EPERM); [by injection H|discriminate H]).
    by eapply add_epoll_fail.
  - exfalso. clear H1 Hfb. revert w1 H. generalize 1%nat. clear f.
    induction fds as [|f fds IH]; intros i w1 H; [discriminate H|]. cbn [add_epoll_all] in H.
    apply bind_inv in H as (r2 & w3 & _ & H). apply bind_inv in H as (e2 & w4 & _ & H). cbn [andb] in H. by eapply IH.
Qed.

(** The deadline of a wait of [tmo] ms. *)
Lemma deadline_value t tmo :
  2 ^ 31 <= t < 2 ^ 62 -> - 2 ^ 31 <= tmo <= kMaxTimeoutMs -> to_ullong (t + to_ullong tmo) = t + tmo.
Proof using.
  unfold kMaxTimeoutMs. intros Ht Htmo. unfold wrap_u. rewrite Zplus_mod_idemp_r. apply Z.mod_small. lia.
Qed.

(** Changing the deadline of an unlinked context. *)
Lemma replace_item_mem w ep live L p c fds it it' :
  MemInv w ep live (Some p) L -> live !! p = Some (c, fds) -> lh_items (w_heap w) !! p = Some it ->
  ti_parent it' = None -> ti_prepare it' = ti_prepare it -> ti_process it' = ti_process it ->
  ti_coroutine it' = ti_coroutine it ->
  MemInv (w <| w_heap := (w_heap w) <| lh_items := <[p := it']> (lh_items (w_heap w)) |> |>) ep live (Some p) L.
Proof using.
  intros I Hp Hit Hpar E1 E2 E3.
  assert (~ linked L p) as Hun by (rewrite (mi_linked _ _ _ _ _ I); by intros [_ []]).
  assert (forall q c0 f0 i, live !! q = Some (c0, f0) -> (i < length f0)%nat -> p <> item_addr q i) as Hne.
  { intros q c0 f0 i Hq Hi Heq. assert (q = p) as ->; [|unfold item_addr in Heq; lia].
    eapply (block_unique w ep live (Some p) L I q c0 f0 p c fds p); [done..| |]; [|lia]. unfold item_addr in Heq. lia. }
  pose proof I as [I1 I2 I3 I4 I5 I6 I7 I8 I9 I10 I11]. split; [|done..| |done|done| |done]; cbn [w_heap w_kern set_field].
  - by apply wheel_insert_detached.
  - intros q c0 f0 Hq. destruct (I7 _ _ _ Hq) as (Hpc & (it1 & Hit1 & Hprops) & Hitems). split_and!; [done| |].
    + simpl. destruct (decide (p = q)) as [<-|]; [|rewrite lookup_insert_ne by done; eauto].
      exists it'. rewrite lookup_insert_eq. rewrite Hit in Hit1. injection Hit1 as <-. split; [done|]. by rewrite E1, E2, E3.
    + intros i Hi. simpl. rewrite lookup_insert_ne by (by eapply Hne). auto.
  - intros fd a Ha. destruct (I10 _ _ Ha) as (Hfd & q & c0 & f0 & i & f & Hq & -> & Hf & Hfdf & Hits & Hpi).
    split; [done|]. exists q, c0, f0, i, f. split_and!; [done..| |done].
    simpl. rewrite lookup_insert_ne; [done|]. eapply Hne; [exact Hq|by eapply lookup_lt_Some].
Qed.

(** Setting the deadline and adding the item to the wheel: accepted, or
    refused with nothing changed but the deadline. *)
Lemma arm_mem w ep live L p c fds now tmo pc :
  MemInv w ep live (Some p) L -> live !! p = Some (c, fds) -> w_polls w !! p = Some pc -> pc_allEventDetatch pc = 0 ->
  clock_ok ep now -> - 2 ^ 31 <= tmo <= kMaxTimeoutMs ->
  exists h1 ret h2,
    upd_item p (fun x => x <| ti_expire := to_ullong (GetTickMS now + to_ullong tmo) |>) (w_heap w) = Ok (tt, h1) /\
    add_timeout (ep_timer ep) p (GetTickMS now) h1 = Ok ((ret, ep_timer ep), h2) /\
    (ret = 0 -> exists L', MemInv (w <| w_heap := h1 |> <| w_heap := h2 |>) ep live None L' /\
       L' !! ep_active_list ep = L !! ep_active_list ep /\
       exists it, lh_items h2 !! p = Some it /\ ti_expire it = GetTickMS now + tmo) /\
    (ret <> 0 -> MemInv (w <| w_heap := h1 |> <| w_heap := h2 |>) ep live (Some p) L).
Proof using.
  intros I Hp Hpc0 Hflag (Hbig & Hclk & Hgap) Htmo. set (t := GetTickMS now) in *. rewrite deadline_value by lia.
  destruct (mi_live _ _ _ _ _ I _ _ _ Hp) as (_ & (it & Hit & Hprops) & _).
  assert (~ linked L p) as Hun by (rewrite (mi_linked _ _ _ _ _ I); by intros [_ []]).
  pose proof (unlinked_parent w ep live (Some p) L I _ _ Hit Hun) as Hpar.
  pose proof (mi_wheel _ _ _ _ _ I) as W. pose proof (wh_start _ _ _ W) as Hst.
  set (it1 := it <| ti_expire := t + tmo |>). set (h1 := (w_heap w) <| lh_items := <[p := it1]> (lh_items (w_heap w)) |>).
  assert (Wheel h1 (ep_timer ep) L) as W1 by (by apply wheel_insert_detached).
  assert (lh_items h1 !! p = Some it1) as Hit1 by apply lookup_insert_eq.
  assert (MemInv (w <| w_heap := h1 |>) ep live (Some p) L) as I1 by (by eapply replace_item_mem).
  assert ((t < et_start (ep_timer ep) \/ t + tmo < t \/ (et_start (ep_timer ep) <= t /\ et_size (ep_timer ep) <= t + tmo - et_start (ep_timer ep) < 2 ^ 31)) \/
    (et_start (ep_timer ep) <= t <= t + tmo /\ t + tmo - et_start (ep_timer ep) < et_size (ep_timer ep))) as [Hrej|[Hin Hfar]].
  { unfold kMaxTimeoutMs in *. lia. }
  - exists h1, (-1), h1. split_and!; [by apply upd_item_run|eapply add_timeout_rejects; [lia|exact Hit1|exact Hrej]|done|].
    intros _. by eapply mem_ext; [..|exact I1].
  - destruct (add_timeout_refines h1 _ L _ p it1 t W1 (queue_of_spec _ _ _ W1) Hit1 Hpar) as (h2 & L' & Hrun & W2 & HQ2 & Hoff & Hp2);
      [exact Hin|exact Hfar|].
    exists h1, 0, h2. split_and!; [by apply upd_item_run|done| |done]. intros _. exists L'. split; [|split; [by apply Hoff; apply I|]].
    + replace ep with (ep <| ep_timer := ep_timer ep |>) at 1 by (by destruct ep).
      eapply mem_lists; [exact I1|by apply same_payload_core|eauto|done|done|exact W2|done|done|apply I| | | | |].
      * rewrite Hoff by apply I. apply I.
      * rewrite Hoff by apply I. apply I.
      * intros l zs Hl Ho. rewrite Hoff in Hl by done. by apply (mi_others _ _ _ _ _ I).
      * intros x. rewrite (linked_split _ _ _ _ x W2 HQ2), lookup_insert_is_Some.
        pose proof (linked_split _ _ _ _ x W1 (queue_of_spec _ _ _ W1)) as Hx. rewrite (mi_linked _ _ _ _ _ I) in Hx.
        assert ((exists l xs, off_wheel (ep_timer ep) l /\ L' !! l = Some xs /\ x ∈ xs) <->
                (exists l xs, off_wheel (ep_timer ep) l /\ L !! l = Some xs /\ x ∈ xs)) as ->.
        { split; intros (l & xs & Ho & Hl & Hxl); exists l, xs; [rewrite Hoff in Hl by done|rewrite Hoff by done]; done. }
        destruct (decide (p = x)) as [<-|Hne]; [split; [eauto|by intros _; left; left]|]. split.
        -- intros [[?|[_ ?]]|?]; [congruence|split; [apply Hx; by left|done]|split; [apply Hx; by right|done]].
        -- intros [Hlx _]. assert (Some p <> Some x) as Hd by congruence. destruct (proj1 Hx (conj Hlx Hd)) as [?|?]; [by left; right|by right].
      * intros r pr Hr Hpr Hne. right. simpl in Hpr. destruct (decide (r = p)) as [->|Hrp]; [congruence|].
        rewrite Hoff by apply I. destruct (mi_raised _ _ _ _ _ I r pr Hr Hpr Hne) as [?|?]; [congruence|done].
    + destruct (same_payload_fwd _ _ _ _ Hp2 Hit1) as (it2 & ? & E). exists it2. split; [done|].
      by rewrite (payload_expire _ _ E).
Qed.
End mem.
