(* ===== verification/CtlSteps.v ===== *)
(** The operations on tasks and their pool as transitions of the abstract
    scheduler: resuming a task, yielding, [new_task], the loop of
    [task_main], each under the control invariant of [CtlInv]. *)

From stdpp Require Import gmap list.
From S2P Require Import Prelude TimerList TimerWheel Context Events Thread ThreadSpec Sched Coroutine TaskPool CtlInv Poll MemInv.

(** What the operations of this file leave alone. *)
Definition mem_same {K} (w w' : world K) : Prop :=
  w_heap w' = w_heap w /\ w_polls w' = w_polls w /\ w_pitems w' = w_pitems w /\ w_kern w' = w_kern w.

#[export] Instance mem_same_preorder K : PreOrder (@mem_same K).
Proof. split; [done|]. intros w1 w2 w3 (?&?&?&?) (?&?&?&?). unfold mem_same. split_and!; congruence. Qed.

(** * Representation lemmas *)

Lemma s_push_dom t p u k s :
  t ∈ dom (s_stat s) -> (forall c, head (s_stack s) = Some c -> c ∈ dom (s_stat s)) ->
  dom (s_stat (s_push t p u k s)) = dom (s_stat s).
Proof using.
  intros Ht Hc. unfold s_push. cbn [s_stat]. rewrite dom_insert_L.
  destruct (s_stack s) as [|c r]; [set_solver|]. specialize (Hc c eq_refl). rewrite dom_insert_L. set_solver.
Qed.

Lemma s_pop_dom st s :
  (forall c, c ∈ s_stack s -> c ∈ dom (s_stat s)) -> dom (s_stat (s_pop st s)) = dom (s_stat s).
Proof using.
  intros Hc. unfold s_pop. destruct (s_stack s) as [|t r]; [done|]. cbn [s_stat]. rewrite dom_insert_L.
  assert (t ∈ dom (s_stat s)) by (apply Hc; by left).
  destruct r as [|c r]; [set_solver|]. assert (c ∈ dom (s_stat s)) by (apply Hc; right; by left).
  rewrite dom_insert_L. set_solver.
Qed.

Lemma stacked_dom s t : sched_ok s -> t ∈ s_stack s -> t ∈ dom (s_stat s).
Proof using. intros OK Ht. apply elem_of_dom. destruct (stacked_stat s OK t Ht) as [->|[u ->]]; eauto. Qed.

Section lemmas.
Context (th : thread) (TH : thread_ok th).

Lemma co_of_eq t c : th_co th !! t = Some c -> co_of th t = c.
Proof using. intros H. unfold co_of. by rewrite H. Qed.

Lemma task_ok_frame tasks tasks' cos cos' p p' t st :
  st <> T_run -> tasks' !! t = tasks !! t -> (forall c, th_co th !! t = Some c -> cos' !! c = cos !! c) ->
  task_ok tasks cos th p t st -> task_ok tasks' cos' th p' t st.
Proof using.
  intros Hst Ht Hc (c & tk & rc & H1 & H2 & H3 & H4 & H5). exists c, tk, rc.
  split_and!; [done|by rewrite Ht|by rewrite Hc|done|by destruct st].
Qed.

Lemma chain_ext tasks tasks' l :
  (forall t, t ∈ l -> tk_next <$> tasks' !! t = tk_next <$> tasks !! t) -> chain tasks l -> chain tasks' l.
Proof using.
  induction l as [|t l IH]; intros Ht; [done|]. intros [(tk & H1 & H2) H3]. split.
  - specialize (Ht t ltac:(by left)). rewrite H1 in Ht. apply fmap_Some in Ht as (tk' & -> & ?). exists tk'. split; [done|congruence].
  - apply IH; [|done]. intros x Hx. apply Ht. by right.
Qed.

Lemma co_of_inj t1 t2 : is_Some (th_co th !! t1) -> is_Some (th_co th !! t2) -> co_of th t1 = co_of th t2 -> t1 = t2.
Proof using TH.
  intros [c1 H1] [c2 H2]. rewrite (co_of_eq _ _ H1), (co_of_eq _ _ H2). intros ->. by apply (to_inj _ TH _ _ c2).
Qed.

Lemma co_of_main t : is_Some (th_co th !! t) -> co_of th t <> th_main th.
Proof using TH. intros [c H]. rewrite (co_of_eq _ _ H). intros ->. by apply (to_main _ TH t). Qed.
End lemmas.

(** * Resuming a task and yielding *)

Section steps.
Context {K : Type} (th : thread) (TH : thread_ok th).
Implicit Types w : world K.

Lemma base_is_task w ep s t : CtlBase w th ep s -> is_Some (s_stat s !! t) -> is_Some (th_co th !! t).
Proof using. intros B. rewrite <- !elem_of_dom. by rewrite (cb_dom _ _ _ _ B). Qed.

Lemma stacked_task w ep s t : CtlBase w th ep s -> t ∈ s_stack s -> is_Some (th_co th !! t).
Proof using.
  intros B Ht. apply (base_is_task _ _ _ _ B), elem_of_dom, stacked_dom; [apply (cb_sched _ _ _ _ B)|done].
Qed.

Lemma base_ext w w' ep s :
  CtlBase w th ep s -> w_pid w' = w_pid w -> w_env w' = w_env w -> w_cos w' !! th_main th = w_cos w !! th_main th ->
  CtlBase w' th ep s.
Proof using.
  intros [H1 H2 H3 H4 H5] Hp He Hc. split; [unfold in_gEnv; by rewrite Hp|by rewrite He|by rewrite Hc|done|done].
Qed.

(** The coroutine on top of the stack. *)
Lemma top_lookup w ep s (X : Z -> Prop) :
  CtlBase w th ep s ->
  (forall x st, X x -> s_stat s !! x = Some st -> exists p, task_ok (w_tasks w) (w_cos w) th p x st) ->
  (forall t, head (s_stack s) = Some t -> X t) ->
  is_Some (w_cos w !! top_co th (s_stack s)).
Proof using.
  intros B HT HX. pose proof (so_head _ (cb_sched _ _ _ _ B)) as Hh.
  destruct (cb_main _ _ _ _ B) as (rm & Hm & _). destruct (s_stack s) as [|t r]; simpl; [eauto|].
  destruct (HT t T_run) as (p & c & tk & rc & H1 & _ & H3 & _); [by apply HX|by apply Hh|].
  rewrite (co_of_eq _ _ _ H1). eauto.
Qed.

(** The switch from the running coroutine: the status of the tasks that are
    not on top. *)
Lemma switched_tasks w s t x st rc k p' e m :
  (forall c, head (s_stack s) = Some c -> is_Some (th_co th !! c)) ->
  x <> t -> head (s_stack s) <> Some x -> st <> T_run ->
  (forall p, task_ok (w_tasks w) (w_cos w) th p x st ->
     task_ok (w_tasks (switched w e (top_co th (s_stack s)) rc k m)) (w_cos (switched w e (top_co th (s_stack s)) rc k m)) th p' x st).
Proof using TH.
  intros Hc Hne Hh Hst p Hok. apply (task_ok_frame _ (w_tasks w) _ (w_cos w) _ p); [done|done| |done].
  intros c Hx. unfold switched. cbn [w_cos]. apply lookup_insert_ne. intros Htop.
  destruct (s_stack s) as [|y r]; simpl in Htop; [by apply (to_main _ TH x); rewrite Htop|].
  apply Hh. simpl. f_equal. apply (co_of_inj th TH); [by apply Hc|eauto|]. rewrite Htop. symmetry. by apply co_of_eq.
Qed.

Lemma push_run w ep s t c tk rp st0 p u k kk :
  CtlBase w th ep s ->
  (forall x st, x <> t -> s_stat s !! x = Some st -> task_ok (w_tasks w) (w_cos w) th (s_pc s) x st) ->
  (exists pool, w_pools w !! th_pool th = Some pool /\ PoolInv (w_tasks w) pool th (s_push t p u k s)) ->
  s_stat s !! t = Some st0 -> (st0 = T_free \/ exists q fds v, st0 = T_wait q fds v) ->
  th_co th !! t = Some c -> w_tasks w !! t = Some tk -> w_cos w !! c = Some rp -> task_static th t c tk rp ->
  run_phase p tk rp -> resume_mode (co_kont rp) = mode_of p ->
  (p = PC_start \/ exists q fds v, p = PC_ret q fds v /\ task_ctx v) ->
  Z.of_nat (length (s_stack s)) + 1 < kMaxCallStack ->
  (s_stack s <> [] -> s_pc s = PC_user u /\ task_ctx u /\ kk = K_user u) ->
  (s_stack s = [] -> main_kont k /\ kk = k) ->
  exists w', coroutine_resume c kk w = Ok (tt, w') /\ CtlInv w' th ep (s_push t p u k s) /\ mem_same w w' /\
    w_tasks w' = w_tasks w /\ w_cos w' !! c = Some rp.
Proof using TH.
  intros B HT HP Ht Hst0 Hco Htk Hrp Hstat Hph Hmode Hp Hdepth Hne Hnil.
  pose proof (cb_sched _ _ _ _ B) as OK. pose proof (off_stack _ OK _ _ Ht Hst0) as Hoff.
  destruct (cb_env _ _ _ _ B) as (e & He & Hse & Hpool & Hep). destruct (cb_main _ _ _ _ B) as (rm & Hrm & _).
  assert (forall x, head (s_stack s) = Some x -> x <> t) as Hht.
  { intros x Hx ->. apply Hoff. destruct (s_stack s); [done|]. injection Hx as ->. by left. }
  assert (forall x, head (s_stack s) = Some x -> is_Some (th_co th !! x)) as Hhc.
  { intros x Hx. apply (stacked_task w ep s); [done|]. destruct (s_stack s); [done|]. injection Hx as ->. by left. }
  destruct (top_lookup w ep s (fun x => x <> t) B) as [rc Hrc]; [eauto|done|].
  assert (top_co th (s_stack s) <> c) as Hnc.
  { destruct (s_stack s) as [|y r]; simpl.
    - intros Hm. apply (to_main _ TH t). by rewrite Hm.
    - intros Hy. apply (Hht y eq_refl). apply (co_of_inj th TH); [by apply Hhc|eauto|].
      rewrite Hy. symmetry. by apply co_of_eq. }
  rewrite stack_cos_top in Hse.
  assert (length (under th (s_stack s)) = length (s_stack s)) as Hul.
  { destruct (s_stack s); [done|]. apply stack_cos_length. }
  destruct (coroutine_resume_run w e _ _ c rc rp kk (cb_pid _ _ _ _ B) He Hse ltac:(lia) Hrc Hrp Hnc (ts_state _ _ _ _ _ Hstat))
    as (e' & Hrun & Hse' & Hpool' & Hep' & _).
  eexists. split; [exact Hrun|]. split; [|do 2 (split; [done|]); by apply lookup_insert_Some; right].
  assert (sched_ok (s_push t p u k s)) as OK'.
  { apply s_push_ok with st0; [done..| |]; intros H; [by apply Hne|by apply Hnil]. }
  split.
  - split; [apply (cb_pid _ _ _ _ B)| | | |done].
    + exists e'. split_and!; [done| |congruence|congruence]. cbn [s_push s_stack].
      rewrite stack_cos_push, stack_cos_top, <- app_assoc, (co_of_eq _ _ _ Hco). exact Hse'.
    + unfold switched, s_push. cbn [w_cos s_stack s_main]. destruct (s_stack s) as [|y r] eqn:E; simpl.
      * rewrite lookup_insert_eq. eexists. split; [done|]. intros _. by destruct (Hnil eq_refl) as [_ ->].
      * rewrite lookup_insert_ne by (apply (co_of_main th TH); by apply Hhc). exists rm. split; [done|]. intros _.
        destruct (cb_main _ _ _ _ B) as (rm' & Hrm' & Hk). rewrite E in Hk. rewrite Hrm in Hrm'. injection Hrm' as <-. by apply Hk.
    + rewrite s_push_dom; [apply (cb_dom _ _ _ _ B)|apply elem_of_dom; eauto|].
      intros x Hx. apply stacked_dom; [done|]. destruct (s_stack s); [done|]. injection Hx as ->. by left.
  - intros x st Hx. unfold s_push in Hx. cbn [s_stat] in Hx. cbn [s_push s_pc].
    apply lookup_insert_Some in Hx as [[<- <-]|[Hxt Hx]].
    { exists c, tk, rp. split_and!; [done|done| |done|done]. unfold switched. cbn. by rewrite lookup_insert_ne. }
    assert (s_stat s !! x = Some st -> head (s_stack s) <> Some x ->
      task_ok (w_tasks w) (<[top_co th (s_stack s) := rc <| co_kont := kk |>]> (w_cos w)) th p x st) as Hother.
    { intros Hx' Hhx. refine (switched_tasks w s t x st rc kk p e' M_dead Hhc _ Hhx _ _ (HT x st _ Hx')); [done| |done].
      intros ->. apply Hhx. apply (so_stat _ OK _ _ Hx'). }
    destruct (s_stack s) as [|y r] eqn:E; [by apply Hother|].
    apply lookup_insert_Some in Hx as [[<- <-]|[Hyx Hx]]; [|apply Hother; [done|by intros [= ->]]].
    destruct (HT y T_run) as (cy & tky & rcy & H1 & H2 & H3 & [] & H5); [by apply Hht|by apply (so_head _ OK); rewrite E|].
    destruct (Hne ltac:(done)) as (Hpc & Hu & ->). rewrite Hpc in H5. simpl in H5.
    pose proof (co_of_eq _ _ _ H1) as Hcy. simpl in Hrc. simpl. rewrite Hcy in Hrc |- *. rewrite H3 in Hrc. injection Hrc as <-.
    exists cy, tky, (rcy <| co_kont := K_user u |>). split_and!; [done|done|by rewrite lookup_insert_eq|by split|done].
  - done.
  - done.
Qed.

(** The task on top, suspended at [k], gives way to its caller. *)
Lemma pop_run w ep s t r c tk rc st k :
  CtlBase w th ep s -> s_stack s = t :: r ->
  (forall x st, x <> t -> s_stat s !! x = Some st -> task_ok (w_tasks w) (w_cos w) th (s_pc s) x st) ->
  (exists pool, w_pools w !! th_pool th = Some pool /\ PoolInv (w_tasks w) pool th (s_pop st s)) ->
  th_co th !! t = Some c -> w_tasks w !! t = Some tk -> w_cos w !! c = Some rc -> task_static th t c tk rc ->
  (st = T_free /\ tk_state tk = TASK_WAITING /\ k = K_task_wait \/
   exists q fds v, st = T_wait q fds v /\ task_ctx v /\ tk_state tk = TASK_RUNNING /\ k = K_poll q fds v) ->
  exists w', yield_env k w = Ok (tt, w') /\ CtlInv w' th ep (s_pop st s) /\ mem_same w w' /\ w_tasks w' = w_tasks w.
Proof using TH.
  intros B Hst HT HP Hco Htk Hrc Hstat Hk. pose proof (cb_sched _ _ _ _ B) as OK.
  destruct (cb_env _ _ _ _ B) as (e & He & Hse & Hpool & Hep). destruct (cb_main _ _ _ _ B) as (rm & Hrm & Hmk).
  assert (sched_ok (s_pop st s)) as OK'.
  { apply s_pop_ok; [done|by rewrite Hst|]. destruct Hk as [(?&_)|(q & fds & v & -> & ? & _)]; [by left|right; eauto 10]. }
  pose proof (so_stack _ OK) as Hnd. rewrite Hst in Hse, Hnd, Hmk. apply NoDup_cons in Hnd as [Htr Hnd].
  specialize (Hmk ltac:(done)).
  assert (forall x, x ∈ r -> x <> t /\ is_Some (th_co th !! x)) as Hin.
  { intros x Hx. split; [by intros ->|]. apply (stacked_task w ep s _ B). rewrite Hst. by right. }
  assert (forall x, head r = Some x -> x ∈ r) as Hhr.
  { intros x Hx. destruct r; [done|]. injection Hx as ->. by left. }
  assert (forall x, head r = Some x -> exists u cx tkx rcx, s_stat s !! x = Some (T_susp u) /\
    th_co th !! x = Some cx /\ w_tasks w !! x = Some tkx /\ w_cos w !! cx = Some rcx /\ task_static th x cx tkx rcx /\
    tk_state tkx = TASK_RUNNING /\ co_kont rcx = K_user u) as Hcaller.
  { intros x Hx%Hhr. destruct (so_tail _ OK x) as [u Hu]; [by rewrite Hst|].
    destruct (HT x _ ltac:(by apply Hin) Hu) as (cx & tkx & rcx & ? & ? & ? & ? & ? & ?). by exists u, cx, tkx, rcx. }
  assert (exists rp, w_cos w !! top_co th r = Some rp /\ top_co th r <> c /\
    resume_mode (co_kont rp) = mode_of (s_pc (s_pop st s))) as (rp & Hrp & Hnc & Hmode).
  { pose proof (so_main _ OK ltac:(by rewrite Hst)) as Hmain.
    destruct r as [|y r']; simpl.
    - exists rm. split; [done|]. split; [intros Hm; apply (to_main _ TH t); by rewrite Hm|].
      unfold s_pop. rewrite Hst. cbn [s_pc]. rewrite Hmk. by destruct Hmain as [-> | ->].
    - destruct (Hcaller y eq_refl) as (u & cy & tky & rcy & Hsy & Hcy & _ & Hrcy & _ & _ & Hky).
      exists rcy. rewrite (co_of_eq _ _ _ Hcy). split; [done|]. split.
      + intros ->. destruct (Hin y ltac:(by left)) as [Hyt _]. apply Hyt. by apply (to_inj _ TH _ _ c).
      + unfold s_pop. rewrite Hst, Hsy, Hky. done. }
  rewrite stack_cos_push, (stack_cos_top th r), (co_of_eq _ _ _ Hco), <- app_assoc in Hse. simpl in Hse.
  assert (length (under th r) = length r) as Hul by (destruct r; [done|apply stack_cos_length]).
  assert (Z.of_nat (length (under th r)) + 2 <= kMaxCallStack) as Hdepth.
  { destruct Hse as [Hlen _ Hs]. specialize (Hs (S (length (under th r))) c).
    rewrite lookup_app_r in Hs by lia. replace (S _ - _)%nat with 1%nat in Hs by lia.
    specialize (Hs eq_refl). apply lookup_lt_Some in Hs. rewrite Hlen in Hs. unfold kMaxCallStack in *. lia. }
  destruct (yield_env_run w e _ _ c rc rp k (cb_pid _ _ _ _ B) He Hse Hdepth Hrc Hrp ltac:(done))
    as (e' & Hrun & Hse' & Hpool' & Hep' & _).
  eexists. split; [exact Hrun|]. split; [|done].
  assert (s_stack (s_pop st s) = r /\ s_main (s_pop st s) = s_main s) as [Hr Hmn].
  { unfold s_pop. by rewrite Hst. }
  split.
  - split; [apply (cb_pid _ _ _ _ B)| | | |done].
    + exists e'. rewrite Hr, stack_cos_top. split_and!; [done|done|congruence|congruence].
    + rewrite Hr, Hmn. exists rm. unfold switched. cbn. split; [|done].
      rewrite lookup_insert_ne; [done|]. intros Hm. apply (to_main _ TH t). by rewrite Hco, Hm.
    + rewrite s_pop_dom; [apply (cb_dom _ _ _ _ B)|]. intros x Hx. by apply stacked_dom.
  - intros x stx Hx. unfold s_pop in Hx. rewrite Hst in Hx. cbn [s_stat] in Hx. unfold switched. cbn.
    apply lookup_insert_Some in Hx as [[<- <-]|[Hxt Hx]].
    { exists c, tk, (rc <| co_kont := k |>). split_and!; [done|done|by rewrite lookup_insert_eq|by destruct Hstat|].
      destruct Hk as [(-> & ? & ->)|(q & fds & v & -> & _ & ? & ->)]; by split. }
    assert (forall y cy, y <> t -> th_co th !! y = Some cy -> <[c:=rc <| co_kont := k |>]> (w_cos w) !! cy = w_cos w !! cy) as Hfr.
    { intros y cy Hy Hcy. apply lookup_insert_ne. intros <-. apply Hy. by apply (to_inj _ TH _ _ c). }
    assert (s_stat s !! x = Some stx -> head r <> Some x ->
      task_ok (w_tasks w) (<[c := rc <| co_kont := k |>]> (w_cos w)) th (s_pc (s_pop st s)) x stx) as Hother.
    { intros Hx' Hhx. apply (task_ok_frame th (w_tasks w) _ (w_cos w) _ (s_pc s)); [|done|by eauto|by apply HT].
      intros ->. pose proof (so_stat _ OK _ _ Hx') as Hh. simpl in Hh. rewrite Hst in Hh. simpl in Hh. congruence. }
    destruct r as [|y r'] eqn:E; [by apply Hother|].
    apply lookup_insert_Some in Hx as [[<- <-]|[Hyx Hx]]; [|apply Hother; [done|by intros [= ->]]].
    destruct (Hcaller y eq_refl) as (u & cy & tky & rcy & Hsy & Hcy & Htky & Hrcy & Hsta & Hsty & Hky).
    exists cy, tky, rcy. split_and!; [done|done| |done|].
    + rewrite (Hfr y) by done. done.
    + unfold s_pop. rewrite Hst, Hsy. done.
  - done.
  - done.
Qed.

(** * [new_task] *)

Lemma get_now_run w e ep :
  in_gEnv w -> w_env w = Some e -> env_epoll e = Some ep -> get_now w = Ok (ep_now ep, w).
Proof using.
  intros Hp He Hep. unfold get_now. rewrite (bind_Ok _ _ _ _ _ (get_curr_thread_env_run _ Hp)), He.
  step. step. done.
Qed.

Lemma filter_off (t : Z) (l : list Z) : t ∉ l -> filter (.≠ t) l = l.
Proof using.
  induction l as [|x l IH]; [done|]. intros [Hx Hl]%not_elem_of_cons.
  rewrite filter_cons_True by (intros ->; done). by rewrite IH.
Qed.

(** The task record as [new_task] leaves it. *)
Definition started_task (attr : coroutine_task_attr_t) (now : Z) (tk tk' : task_t) : Prop :=
  tk_state tk' = TASK_RUNNING /\ tk_arg tk' = attr_arg attr /\ tk_attr tk' = attr /\
  tk_leftmsec tk' = attr_max_timeout_ms attr /\ tk_timeout tk' = 0 /\ tk_last tk' = now /\
  tk_coroutine tk' = tk_coroutine tk /\ tk_pool tk' = tk_pool tk.

Lemma new_task_ctl w ep s attr u f :
  CtlInv w th ep s -> s_pc s = PC_user u -> attr_fun attr = Some (F_user f) ->
  Z.of_nat (length (s_stack s)) + 1 < kMaxCallStack ->
  match s_free s with
  | [] => new_task (th_pool th) attr u w = Ok (-1, w)
  | t :: _ => exists w' tk', new_task (th_pool th) attr u w = Ok (0, w') /\
      CtlInv w' th ep (s_push t PC_start u (K_user u) s) /\ mem_same w w' /\
      w_tasks w' !! t = Some tk' /\ tk_arg tk' = attr_arg attr /\ tk_attr tk' = attr /\ tk_timeout tk' = 0 /\
      tk_leftmsec tk' = attr_max_timeout_ms attr /\ tk_last tk' = ep_now ep /\
      exists c rc', tk_coroutine tk' = Some c /\ w_cos w' !! c = Some rc' /\ co_fun rc' = attr_fun attr
  end.
Proof using TH.
  intros [B HT (pool & Hpl & [Hfree Hsize Hwork Hchain Htsk]) Hm] Hpc Hfun Hdepth. unfold new_task.
  pose proof (cb_sched _ _ _ _ B) as OK.
  assert (cfree s = s_free s) as Hcf by (unfold cfree; by rewrite Hpc). rewrite Hcf, Hpc in *. simpl in Hwork.
  step. destruct (s_free s) as [|t fr] eqn:Efr.
  { rewrite (proj2 (Z.eqb_eq _ _)) by (simpl in Hwork; lia). done. }
  rewrite (proj2 (Z.eqb_neq _ _)) by (simpl in Hwork; lia). rewrite Hfree. cbn [head].
  pose proof (so_frees _ OK t ltac:(rewrite Efr; by left)) as Ht.
  destruct (HT t _ Ht) as (c & tk & rc & Hco & Htk & Hrc & Hsta & Hst & Hk).
  pose proof (ts_coroutine _ _ _ _ _ Hsta) as Htc.
  destruct (cb_env _ _ _ _ B) as (e & He & Hse & Hepool & Hep).
  destruct Hchain as [(tk0 & Htk0 & Hnext) Hchain]. rewrite Htk in Htk0. injection Htk0 as <-.
  step. step. step. step. step. step. step. step. step.
  erewrite bind_Ok by (eapply get_now_run; [exact (cb_pid _ _ _ _ B)|exact He|exact Hep]).
  step. step.
  match goal with |- context [(coroutine_resume c _ ≫= _) ?w0] => set (w1 := w0) end.
  set (rc1 := rc <| co_fun := attr_fun attr |>).
  assert (exists tk1, w_tasks w1 = <[t := tk1]> (w_tasks w) /\ started_task attr (ep_now ep) tk tk1) as (tk1 & Htasks & Hstd).
  { eexists. split; [unfold w1; cbn; by rewrite !insert_insert_eq|done]. }
  assert (w_cos w1 = <[c := rc1]> (w_cos w)) as Hcos by done.
  assert (w_pools w1 = <[th_pool th := pool <| tp_free := tk_next tk |>]> (w_pools w)) as Hpools by done.
  assert (w_pid w1 = w_pid w /\ w_env w1 = w_env w /\ mem_same w w1) as (Hp1 & Henv1 & Hmem1) by done.
  clearbody w1.
  assert (t ∉ s_stack s) as Hoff by (apply (off_stack _ OK _ _ Ht); by left).
  assert (NoDup (t :: fr)) as Hnd by (rewrite <- Efr; apply (so_free _ OK)).
  apply NoDup_cons in Hnd as [Htfr Hnd].
  assert (cfree (s_push t PC_start u (K_user u) s) = fr) as Hcf'.
  { unfold cfree, s_push. cbn. rewrite Efr. rewrite filter_cons_False by (intros H; by apply H). by apply filter_off. }
  destruct Hstd as (Hs1 & Hs2 & Hs3 & Hs4 & Hs5 & Hs6 & Hs7 & Hs8).
  assert (forall x cx, x <> t -> th_co th !! x = Some cx -> w_cos w1 !! cx = w_cos w !! cx) as Hcosf.
  { intros x cx Hx Hcx. rewrite Hcos. apply lookup_insert_ne. intros ->. apply Hx. by apply (to_inj _ TH _ _ cx). }
  destruct (push_run w1 ep s t c tk1 rc1 T_free PC_start u (K_user u) (K_user u)) as (w2 & Hrun & Hci & Hmem2 & Htk2 & Hrc2);
    try done.
  - apply (base_ext w); [done..|]. rewrite Hcos. apply lookup_insert_ne.
    intros ->. by apply (to_main _ TH t).
  - intros x st Hx Hst'. specialize (HT x st Hst'). rewrite <- Hpc in HT.
    destruct HT as (cx & tkx & rcx & ? & ? & ? & ? & ?). exists cx, tkx, rcx. rewrite Htasks, lookup_insert_ne by done.
    split_and!; [done|done|by rewrite (Hcosf x)|done|done].
  - exists (pool <| tp_free := tk_next tk |>). rewrite Hpools, lookup_insert_eq. split; [done|].
    split; rewrite ?Hcf'; [by cbn|done|cbn in *; lia| |done].
    apply (chain_ext (w_tasks w)); [|done]. intros x Hx. rewrite Htasks, lookup_insert_ne; [done|]. by intros ->.
  - by left.
  - by rewrite Htasks, lookup_insert_eq.
  - by rewrite Hcos, lookup_insert_eq.
  - destruct Hsta. split; try done; congruence.
  - split; [done|]. by exists f.
  - unfold rc1. simpl. by rewrite Hk.
  - by left.
  - intros Hne. split_and!; [done| |done]. pose proof (so_pc _ OK) as Hok. rewrite Hpc in Hok. by destruct (s_stack s).
  - intros Hnil. split; [|done]. pose proof (so_pc _ OK) as Hok. rewrite Hpc, Hnil in Hok. simpl in Hok. subst u. by left.
  - exists w2, tk1. rewrite (bind_Ok _ _ _ _ _ Hrun), Htk2, Htasks, lookup_insert_eq.
    split_and!; try done; [by transitivity w1|]. exists c, rc1. split; [congruence|done].
Qed.

(** * The loop of [task_main] *)

(** The running task changes its own records and goes on at [p]. *)
Lemma goto_ctl w w' ep s t r c tk rc p :
  CtlInv w th ep s -> s_stack s = t :: r -> pc_ok (t :: r) p ->
  w_pid w' = w_pid w -> w_env w' = w_env w -> w_mode w' = mode_of p ->
  (forall x, x <> t -> w_tasks w' !! x = w_tasks w !! x) -> (forall x, x <> c -> w_cos w' !! x = w_cos w !! x) ->
  th_co th !! t = Some c -> w_tasks w' !! t = Some tk -> w_cos w' !! c = Some rc -> task_static th t c tk rc ->
  run_phase p tk rc ->
  (exists pool, w_pools w' !! th_pool th = Some pool /\ PoolInv (w_tasks w') pool th (s_goto p s)) ->
  CtlInv w' th ep (s_goto p s).
Proof using TH.
  intros [B HT _ _] Hst Hp Hpid Henv Hmode Htf Hcf Hco Htk Hrc Hsta Hph Hpool. split; [| |done|done].
  - destruct (base_ext w w' ep s B) as [H1 H2 H3 H4 H5]; [done|done| |].
    { apply Hcf. intros Hm. apply (to_main _ TH t). by rewrite Hm. }
    split; [done..|]. apply s_goto_ok; [done|by rewrite Hst].
  - intros x st Hx. cbn [s_goto s_stat s_pc] in *. destruct (decide (x = t)) as [->|Hxt].
    { pose proof (so_head _ (cb_sched _ _ _ _ B) t ltac:(by rewrite Hst)) as Ht. rewrite Hx in Ht. injection Ht as ->.
      by exists c, tk, rc. }
    apply (task_ok_frame th (w_tasks w) _ (w_cos w) _ (s_pc s)); [|by apply Htf| |by apply HT].
    + intros ->. pose proof (so_stat _ (cb_sched _ _ _ _ B) _ _ Hx) as Hh. simpl in Hh. rewrite Hst in Hh. simpl in Hh. congruence.
    + intros cx Hcx. apply Hcf. intros ->. apply Hxt. by apply (to_inj _ TH _ _ c).
Qed.

(** What the code finds out about the running task. *)
Lemma running_task w ep s t r :
  CtlInv w th ep s -> s_stack s = t :: r ->
  exists c tk rc, th_co th !! t = Some c /\ w_tasks w !! t = Some tk /\ w_cos w !! c = Some rc /\
    task_static th t c tk rc /\ run_phase (s_pc s) tk rc /\
    coroutine_self w = Ok (Some c, w) /\ self_task w = Ok (t, w).
Proof using.
  intros [B HT _ _] Hst. pose proof (so_head _ (cb_sched _ _ _ _ B) t ltac:(by rewrite Hst)) as Ht.
  destruct (HT t _ Ht) as (c & tk & rc & Hco & Htk & Hrc & Hsta & Hph).
  destruct (cb_env _ _ _ _ B) as (e & He & Hse & _). rewrite Hst, stack_cos_push, (co_of_eq _ _ _ Hco) in Hse.
  pose proof (coroutine_self_run w e _ c (cb_pid _ _ _ _ B) He Hse) as Hself.
  exists c, tk, rc. split_and!; [done..|]. unfold self_task. rewrite (bind_Ok _ _ _ _ _ Hself). step. step.
  by rewrite (ts_arg _ _ _ _ _ Hsta).
Qed.

Lemma free_size w ep s : CtlBase w th ep s -> (length (s_free s) <= size (th_co th))%nat.
Proof using.
  intros B. pose proof (cb_sched _ _ _ _ B) as OK.
  rewrite <- (size_list_to_set (C := gset Z) (s_free s) (so_free _ OK)), <- (size_dom (D := gset Z) (th_co th)).
  apply subseteq_size. rewrite <- (cb_dom _ _ _ _ B). intros t Ht%elem_of_list_to_set.
  apply elem_of_dom. rewrite (so_frees _ OK t Ht). eauto.
Qed.

Lemma task_main_loop_start w ep s t r :
  CtlInv w th ep s -> s_pc s = PC_start -> s_stack s = t :: r ->
  exists w', task_main_loop w = Ok (tt, w') /\ CtlInv w' th ep (s_goto (PC_user U_fun) s) /\ mem_same w w' /\
    w_tasks w' = w_tasks w /\ w_cos w' = w_cos w.
Proof using TH.
  intros I Hpc Hst. destruct (running_task w ep s t r I Hst) as (c & tk & rc & Hco & Htk & Hrc & Hsta & Hph & _ & Hself).
  destruct (ci_pool _ _ _ _ I) as (pool & Hpl & [Hfree Hsize Hwork Hchain Htsk]).
  rewrite Hpc in Hph. destruct Hph as [Hrun [f Hf]]. unfold task_main_loop.
  pose proof (ts_pool _ _ _ _ _ Hsta) as Htp. pose proof (ts_coroutine _ _ _ _ _ Hsta) as Htc.
  rewrite (bind_Ok _ _ _ _ _ Hself). step. rewrite Hrun. step. step. step. step. step.
  eexists. split; [done|]. split; [|by split].
  eapply goto_ctl; [exact I|exact Hst|by left|done|done|done|done|done|exact Hco|exact Htk|exact Hrc|done|done|].
  eexists. split; [apply lookup_insert_eq|].
  pose proof (to_size _ TH). pose proof (free_size w ep s (ci_base _ _ _ _ I)).
  unfold cfree in *. rewrite Hpc in *. split; cbn -[Z.add Z.sub]; [done|done| |done|done].
  simpl in Hwork. rewrite to_int_small; lia.
Qed.

Lemma s_pop_pc s t r st :
  sched_ok s -> s_stack s = t :: r -> s_pc (s_pop st s) = PC_process \/ exists u, s_pc (s_pop st s) = PC_user u.
Proof using.
  intros OK Hst. unfold s_pop. rewrite Hst. cbn [s_pc]. destruct r as [|c r].
  - destruct (so_main _ OK) as [-> | ->]; [by rewrite Hst|right; eauto|by left].
  - destruct (so_tail _ OK c) as [u ->]; [rewrite Hst; by left|]. right. eauto.
Qed.

Lemma task_main_loop_idle w ep s t r :
  CtlInv w th ep s -> s_pc s = PC_idle -> s_stack s = t :: r ->
  exists w', task_main_loop w = Ok (tt, w') /\ CtlInv w' th ep (s_pop T_free s) /\ mem_same w w'.
Proof using TH.
  intros I Hpc Hst. destruct (running_task w ep s t r I Hst) as (c & tk & rc & Hco & Htk & Hrc & Hsta & Hph & _ & Hself).
  destruct (ci_pool _ _ _ _ I) as (pool & Hpl & HP). rewrite Hpc in Hph. simpl in Hph.
  destruct I as [B HT _ _]. destruct (cb_env _ _ _ _ B) as (e & He & _).
  destruct (pop_run w ep s t r c tk rc T_free K_task_wait) as (w' & Hrun & Hci & Hmem & _);
    [exact B|exact Hst|intros x st _; apply HT| |done|done|done|done|by left|].
  - exists pool. split; [done|]. destruct HP as [Hfree Hsize Hwork Hchain Htsk].
    assert (cfree (s_pop T_free s) = cfree s) as Hcf.
    { unfold cfree. rewrite Hpc, Hst. destruct (s_pop_pc s t r T_free) as [-> |[u ->]]; [apply (cb_sched _ _ _ _ B)|done|..];
        unfold s_pop; by rewrite Hst. }
    split; rewrite ?Hcf; [done|done| |done|done]. rewrite Hwork, Hpc.
    destruct (s_pop_pc s t r T_free) as [-> |[u ->]]; [apply (cb_sched _ _ _ _ B)|done..].
  - exists w'. split; [|done]. unfold task_main_loop. rewrite (bind_Ok _ _ _ _ _ Hself). step. rewrite Hph.
    unfold coroutine_yield_context. rewrite (bind_Ok _ _ _ _ _ (get_curr_thread_env_run _ (cb_pid _ _ _ _ B))), He.
    step. done.
Qed.

(** In user code every task off the free list is counted in [working]. *)
Lemma user_pool tasks pool s u :
  s_pc s = PC_user u -> PoolInv tasks pool th s ->
  tp_free pool = head (s_free s) /\ chain tasks (s_free s) /\ tp_size pool = Z.of_nat (size (th_co th)) /\
  tp_working pool = Z.of_nat (size (th_co th)) - Z.of_nat (length (s_free s)) /\
  (forall t, t ∈ tp_tasks pool <-> is_Some (th_co th !! t)).
Proof using.
  intros Hpc [H1 H2 H3 H4 H5]. assert (cfree s = s_free s) as Hcf by (unfold cfree; by rewrite Hpc).
  rewrite Hcf, Hpc in *. simpl in H3. split_and!; [done|done|done|lia|done].
Qed.

Lemma task_main_release_ctl w ep s t r u :
  CtlInv w th ep s -> s_pc s = PC_user u -> s_stack s = t :: r ->
  exists w', task_main_release w = Ok (tt, w') /\ CtlInv w' th ep (s_goto PC_idle s) /\ mem_same w w'.
Proof using TH.
  intros I Hpc Hst. destruct (running_task w ep s t r I Hst) as (c & tk & rc & Hco & Htk & Hrc & Hsta & _ & _ & Hself).
  destruct (ci_pool _ _ _ _ I) as (pool & Hpl & HP). destruct (user_pool _ _ _ _ Hpc HP) as (Hfree & Hchain & Hsize & Hwork & Htsk).
  pose proof (ts_pool _ _ _ _ _ Hsta) as Htp. pose proof (ts_coroutine _ _ _ _ _ Hsta) as Htc.
  unfold task_main_release. rewrite (bind_Ok _ _ _ _ _ Hself). step. rewrite Htp. step. step. step. step. step. step.
  rewrite Htc. step. step. step. eexists. split; [done|]. split; [|done].
  pose proof (to_size _ TH). pose proof (free_size w ep s (ci_base _ _ _ _ I)).
  assert (t ∉ s_free s) as Htf.
  { intros Ht. apply (free_off_stack _ (cb_sched _ _ _ _ (ci_base _ _ _ _ I)) _ Ht). rewrite Hst. by left. }
  eapply (goto_ctl w _ ep s t r c); [exact I|exact Hst|done|done|done|done| | |exact Hco| | |destruct Hsta| |].
  - intros x Hx. cbn. by rewrite !lookup_insert_ne.
  - intros x Hx. cbn. by rewrite lookup_insert_ne.
  - cbn. apply lookup_insert_eq.
  - cbn. apply lookup_insert_eq.
  - by split.
  - done.
  - eexists. cbn. rewrite !insert_insert_eq. split; [apply lookup_insert_eq|].
    unfold cfree. split; cbn -[Z.add Z.sub Z.of_nat]; rewrite ?Hst; cbn -[Z.add Z.sub Z.of_nat]; [done|done| | |done].
    + rewrite to_int_small; lia.
    + split; [eexists; by rewrite lookup_insert_eq|]. apply (chain_ext (w_tasks w)); [|done].
      intros x Hx. rewrite lookup_insert_ne; [done|]. by intros ->.
Qed.

Lemma sched_goto_same s : s_goto (s_pc s) s = s.
Proof using. by destruct s. Qed.

Lemma task_main_after_fun_ctl w ep s t r u :
  CtlInv w th ep s -> s_pc s = PC_user u -> s_stack s = t :: r ->
  exists w' p, task_main_after_fun w = Ok (tt, w') /\ CtlInv w' th ep (s_goto p s) /\ mem_same w w' /\
    p = match w_tasks w !! t with
        | Some tk => match attr_timeout (tk_attr tk) with
                     | Some _ => if tk_timeout tk =? 0 then PC_idle else PC_user U_timeout
                     | None => PC_idle
                     end
        | None => PC_idle
        end.
Proof using TH.
  intros I Hpc Hst. destruct (running_task w ep s t r I Hst) as (c & tk & rc & Hco & Htk & Hrc & Hsta & Hph & _ & Hself).
  destruct (task_main_release_ctl w ep s t r u I Hpc Hst) as (w' & Hrel & HI' & Hmem').
  unfold task_main_after_fun. rewrite (bind_Ok _ _ _ _ _ Hself). step. rewrite Htk.
  destruct (attr_timeout (tk_attr tk)); [|by exists w', PC_idle].
  destruct (tk_timeout tk =? 0); simpl; [by exists w', PC_idle|].
  eexists _, _. split; [done|]. split; [|done].
  eapply (goto_ctl w _ ep s t r c); [exact I|exact Hst|by right|done..|exact Hco|exact Htk|exact Hrc|done| |].
  - rewrite Hpc in Hph. done.
  - destruct (ci_pool _ _ _ _ I) as (pool & Hpl & [H1 H2 H3 H4 H5]). exists pool. split; [done|].
    unfold cfree in *. rewrite Hpc in *. by split.
Qed.

(** * [fix_coroutine_timeout] *)

Lemma fix_timeout_ctl w ep s t r u c timeout :
  CtlInv w th ep s -> s_pc s = PC_user u -> s_stack s = t :: r -> th_co th !! t = Some c -> - 2 ^ 31 <= timeout < 2 ^ 31 ->
  exists tmo ist w', fix_coroutine_timeout c timeout w = Ok ((tmo, ist), w') /\ CtlInv w' th ep s /\ mem_same w w' /\
    (ist = 1 \/ ist = 0 /\ - 2 ^ 31 <= tmo <= kMaxTimeoutMs).
Proof using TH.
  intros I Hpc Hst Hco Hint. destruct (running_task w ep s t r I Hst) as (c' & tk & rc & Hco' & Htk & Hrc & Hsta & Hph & _ & _).
  rewrite Hco in Hco'. injection Hco' as <-. pose proof (ci_base _ _ _ _ I) as B.
  destruct (cb_env _ _ _ _ B) as (e & He & _ & _ & Hep). pose proof (ts_task _ _ _ _ _ Hsta) as Htask.
  unfold fix_coroutine_timeout, kMaxTimeoutMs. step. step. step.
  destruct (attr_max_timeout_ms (tk_attr tk) =? -1).
  { eexists _, _, w. split; [done|]. split_and!; [done|done|]. right. split; [done|].
    destruct (Z.eqb_spec timeout (-1)), (Z.ltb_spec 10 timeout); simpl; lia. }
  destruct (negb (tk_timeout tk =? 0)); [exists 0, 1, w; split_and!; [done..|by left]|].
  rewrite (bind_Ok _ _ _ _ _ (get_now_run w e ep (cb_pid _ _ _ _ B) He Hep)).
  set (left := to_int (tk_leftmsec tk - to_int (to_ullong (ep_now ep - tk_last tk)))).
  step. step.
  assert (forall tk' w', w_tasks w' = <[t := tk']> (w_tasks w) -> w_cos w' = w_cos w -> w_pools w' = w_pools w ->
    w_pid w' = w_pid w -> w_env w' = w_env w -> w_mode w' = w_mode w ->
    tk_coroutine tk' = tk_coroutine tk -> tk_pool tk' = tk_pool tk -> tk_state tk' = tk_state tk -> tk_next tk' = tk_next tk ->
    CtlInv w' th ep s) as Hupd.
  { intros tk' w' H1 H2 H3 H4 H5 H6 H7 H8 H9 H10. rewrite <- (sched_goto_same s).
    eapply (goto_ctl w _ ep s t r c); [exact I|exact Hst|rewrite <- Hst; apply (so_pc _ (cb_sched _ _ _ _ B))|done|done| | | |exact Hco| | | | |].
    - rewrite H6. apply (ci_mode _ _ _ _ I).
    - intros x Hx. by rewrite H1, lookup_insert_ne.
    - intros x Hx. by rewrite H2.
    - by rewrite H1, lookup_insert_eq.
    - by rewrite H2.
    - destruct Hsta. split; congruence.
    - rewrite Hpc in *. simpl in *. congruence.
    - rewrite sched_goto_same, H3. destruct (ci_pool _ _ _ _ I) as (pool & Hpl & [Q1 Q2 Q3 Q4 Q5]). exists pool. split; [done|].
      split; [done..| |done]. apply (chain_ext (w_tasks w)); [|done]. intros x Hx. rewrite H1.
      destruct (decide (x = t)) as [->|Hne]; [|by rewrite lookup_insert_ne]. rewrite lookup_insert_eq, Htk. simpl. congruence. }
  destruct (Z.leb_spec left 0) as [Hl|Hl].
  - step. eexists 0, 1, _. split; [done|]. split_and!; [|done|by left].
    eapply Hupd; [cbn; rewrite !insert_insert_eq; done|done..].
  - eexists _, _, _. split; [done|]. split_and!; [|done|].
    + eapply Hupd; [cbn; rewrite !insert_insert_eq; done|done..].
    + right. split; [done|].
      destruct (Z.eqb_spec timeout (-1)); [|destruct (Z.ltb_spec left timeout)];
      match goal with |- context [(?x =? -1) || (10 <? ?x)] => destruct (Z.eqb_spec x (-1)), (Z.ltb_spec 10 x); simpl; lia end.
Qed.

(** * Transport *)

Lemma ctl_inv_eq w w' ep s : CtlInv w th ep s -> ctl_eq w w' -> CtlInv w' th ep s.
Proof using.
  intros [[B1 B2 B3 B4 B5] HT HP Hm] (H1 & H2 & H3 & H4 & H5 & H6 & H7 & H8).
  split; [split; [unfold in_gEnv in *; congruence|..]|..]; rewrite ?H2, ?H4, ?H5, ?H6, ?H8; done.
Qed.

(** The epoll context changes; main, alone on the stack, moves to [p]. *)
Lemma ctl_inv_main w w' e ep ep' s p :
  CtlInv w th ep s -> w_env w = Some e -> s_stack s = [] -> pc_ok [] p ->
  ctl_eq (w <| w_env := Some (e <| env_epoll := Some ep' |>) |> <| w_mode := mode_of p |>) w' ->
  CtlInv w' th ep' (s_goto p s).
Proof using.
  intros [[B1 B2 B3 B4 B5] HT (pool & Hpl & [Q1 Q2 Q3 Q4 Q5]) Hm] He Hst Hp Heq.
  apply (ctl_inv_eq (w <| w_env := Some (e <| env_epoll := Some ep' |>) |> <| w_mode := mode_of p |>)); [|done].
  destruct B2 as (e0 & He0 & [] & Hepool & Hep). rewrite He in He0. injection He0 as <-.
  pose proof (so_pc _ B5) as Hpc. rewrite Hst in Hpc.
  assert (cfree s = s_free s /\ cfree (s_goto p s) = s_free s) as [Hc1 Hc2].
  { unfold cfree. cbn [s_goto s_stack s_pc s_free]. rewrite Hst. by destruct (s_pc s), p. }
  assert (starting (s_pc s) = 0 /\ starting p = 0) as [Hs1 Hs2] by (by destruct (s_pc s), p).
  split.
  - split; [done| |done|done|by apply s_goto_ok; [|rewrite Hst]].
    eexists. split; [done|]. by split_and!; [split|..].
  - intros t st Ht. cbn. apply (task_ok_frame th (w_tasks w) _ (w_cos w) _ (s_pc s)); [|done|done|by apply HT].
    intros ->. pose proof (so_stat _ B5 _ _ Ht) as Hh. simpl in Hh. rewrite Hst in Hh. done.
  - exists pool. split; [done|]. split; rewrite ?Hc2; rewrite Hc1 in *; [done|done| |done|done].
    rewrite Hs1 in Q3. cbn [s_goto s_pc]. rewrite Hs2. done.
  - done.
Qed.
End steps.
