(* ===== verification/System.v ===== *)
(** One thread of libcr as a whole: its steps, and the theorem that they
    simulate the abstract scheduler of [Sched] while every data structure
    keeps its invariant. *)

From stdpp Require Import gmap list.
From S2P Require Import Prelude TimerList TimerListSpec ListProgram TimerWheel TimerWheelSpec TimerFrame Context Events.
From S2P Require Import Thread ThreadSpec Sched Coroutine TaskPool CtlInv Poll MemInv MemPoll CtlSteps.

Section system.
Context {K : Type} `{!EpollKernel K}.
Implicit Types w : world K.

(** * [poll_inner] up to the switch *)

Lemma env_epoll_id (e : env_t) ep : env_epoll e = Some ep -> e <| env_epoll := Some (ep <| ep_timer := ep_timer ep |>) |> = e.
Proof using. intros H. destruct e. simpl in H. subst. by destruct ep. Qed.

(** Taking the registrations back does not look at the objects of the call. *)
Definition drop_arg (p : Z) (n : nat) (w : world K) : world K :=
  let w1 := w <| w_polls := delete p (w_polls w) |> <| w_pitems := delete_block n (p + 1) (w_pitems w) |> in
  w1 <| w_heap := (w_heap w) <| lh_items := delete p (delete_block n (p + 1) (lh_items (w_heap w))) |> |>.

Lemma free_arg_run p n w : free_arg p n w = Ok (tt, drop_arg p n w).
Proof using. done. Qed.

Lemma del_after_free p n fds : forall i w w',
  del_epoll_all p i fds w = Ok (tt, w') -> del_epoll_all p i fds (drop_arg p n w) = Ok (tt, drop_arg p n w').
Proof using.
  induction fds as [|f fds IH]; intros i w w'; cbn [del_epoll_all]; [by intros [= <-]|].
  intros H. apply bind_inv in H as ([] & w1 & H1 & H2).
  erewrite bind_Ok; [by apply IH, H2|]. destruct (-1 <? pfd_fd f); [|by injection H1 as <-].
  apply bind_inv in H1 as (r & w2 & H1 & H3). injection H3 as <-. erewrite bind_Ok; [done|].
  revert H1. unfold do_epoll_ctl. mrun. unfold drop_arg. simpl. destruct (epoll_ctl _ _ _ _) as [[ret err] k].
  destruct (ret <? 0); by intros [= <- <-].
Qed.

Lemma poll_enter_cases w w1 e ep live L c fds timeout tmo pf now u :
  in_gEnv w1 -> coroutine_self w = Ok (Some c, w) -> fix_coroutine_timeout c timeout w = Ok ((tmo, 0), w1) ->
  w_env w1 = Some e -> env_epoll e = Some ep -> MemInv w1 ep live None L ->
  clock_ok ep now -> - 2 ^ 31 <= tmo <= kMaxTimeoutMs ->
  (exists ret fds' w' L', poll_inner_enter fds timeout pf now u w = Ok (PollReturn ret fds', w') /\
     ctl_eq w1 w' /\ MemInv w' ep live None L' /\ L' = L) \/
  (exists p w' L', poll_inner_enter fds timeout pf now u w = (yield_env (K_poll p fds u);; mret PollBlocked) w' /\
     live !! p = None /\ ctl_eq w1 w' /\ MemInv w' ep (<[p := (c, fds)]> live) None L' /\
     L' !! ep_active_list ep = L !! ep_active_list ep /\ (exists pc, w_polls w' !! p = Some pc /\ pc_raise_cnt pc = 0) /\
     exists it, lh_items (w_heap w') !! p = Some it /\ ti_expire it <= GetTickMS now + kMaxTimeoutMs).
Proof using.
  intros Hpid Hself Hfix He Hep I Hclk Htmo. unfold poll_inner_enter.
  rewrite (bind_Ok _ _ _ _ _ Hself). step. rewrite (bind_Ok _ _ _ _ _ Hfix). cbn [Z.eqb Pos.eqb].
  set (tmo1 := if (tmo =? -1) || (kMaxTimeoutMs <? tmo) then kMaxTimeoutMs else tmo).
  assert (- 2 ^ 31 <= tmo1 <= kMaxTimeoutMs) as Htmo1.
  { unfold tmo1, kMaxTimeoutMs in *. destruct (Z.eqb_spec tmo (-1)), (Z.ltb_spec 10 tmo); simpl; lia. }
  destruct (alloc_arg_mem w1 ep live L c fds I) as (p & w2 & Halloc & Hpl & C2 & K2 & I2 & pc & Hpc & Hflag & Hcnt).
  rewrite (bind_Ok _ _ _ _ _ Halloc). set (live2 := <[p := (c, fds)]> live) in *.
  assert (live2 !! p = Some (c, fds)) as Hp2 by apply lookup_insert_eq.
  assert (delete p live2 = live) as Hdel by (by apply delete_insert_id).
  set (fb := bool_decide (length fds = 1%nat /\ is_Some pf)).
  destruct (add_epoll_all_mem w2 ep live2 L p c fds fb fds 0 [] I2 Hp2 eq_refl eq_refl) as (r & w3 & Hadd & C3 & I3 & P3).
  rewrite (bind_Ok _ _ _ _ _ Hadd). destruct r.
  - left. assert (fb = true) as Hfb.
    { destruct fb eqn:E; [done|]. clear -Hadd. exfalso. revert Hadd. generalize 0%nat w2.
      induction fds as [|f fds IH]; intros i w0; simpl; [done|].
      intros H. apply bind_inv in H as (r & w' & _ & H). apply bind_inv in H as (? & ? & _ & H). by apply IH in H. }
    apply bool_decide_eq_true in Hfb as [Hn [[ret fds'] Hpf]].
    destruct (free_arg_mem w3 ep live2 L p c fds I3 Hp2) as (w4 & Hfree & C4 & I4).
    { intros fd a Ha i Hi ->. rewrite (add_epoll_all_fallback _ _ _ _ _ _ Hadd ltac:(done)), K2 in Ha.
      destruct (mi_reg _ _ _ _ _ I _ _ Ha) as (_ & q & c0 & f0 & i0 & f & Hq & Heq & Hf & _).
      apply lookup_lt_Some in Hf.
      assert (q = p) as ->; [|congruence].
      apply (block_unique w3 ep live2 (Some p) L I3 q c0 f0 p c fds (item_addr p i)); [|done| |].
      - unfold live2. rewrite lookup_insert_ne; [done|]. intros <-. congruence.
      - rewrite Heq. unfold item_addr. lia.
      - unfold item_addr. lia. }
    rewrite (bind_Ok _ _ _ _ _ Hfree), Hpf. step. rewrite Hdel in I4.
    eexists ret, fds', w4, L. split; [done|]. split; [|by split]. by transitivity w2; [|transitivity w3].
  - destruct (arm_mem w3 ep live2 L p c fds now tmo1 pc I3 Hp2 ltac:(by rewrite P3) Hflag Hclk Htmo1) as (h1 & ret & h2 & Hupd & Hat & Hok & Hbad).
    erewrite bind_Ok by (apply on_heap_run; exact Hupd). set (w4 := w3 <| w_heap := h1 |>).
    assert (w_env w4 = Some e) as He4.
    { change (w_env w3 = Some e). destruct C3 as (_ & -> & _). by destruct C2 as (_ & -> & _). }
    erewrite bind_Ok by (eapply get_epoll_run; [exact He4|exact Hep]).
    erewrite bind_Ok by (apply (on_heap_run _ w4); exact Hat). cbv beta iota. set (w5 := w4 <| w_heap := h2 |>).
    erewrite bind_Ok by (eapply (upd_epoll_run w5); [exact He4|exact Hep]). cbv beta. rewrite (env_epoll_id _ _ Hep).
    set (w6 := w5 <| w_env := Some e |>).
    assert (ctl_eq w1 w6) as C6.
    { assert (ctl_eq w1 w3) as C13 by (by transitivity w2). transitivity w3; [done|].
      unfold ctl_eq. split_and!; done. }
    destruct (Z.eqb_spec ret 0) as [Hz|Hz]; simpl.
    + right. destruct (Hok Hz) as (L' & I6 & Hact & it & Hit & Hexp). exists p, w6, L'. split; [|split_and!; [done|done| |done|exists pc; by rewrite <- P3 in Hpc|exists it; split; [done|lia]]].
      * assert (in_gEnv w6) as Hp6 by (unfold in_gEnv in *; by destruct C6 as (-> & _)).
        rewrite (bind_Ok _ _ _ _ _ (get_curr_thread_env_run _ Hp6)). simpl. step. done.
      * by eapply mem_ext; [..|exact I6].
    + left. specialize (Hbad Hz). step. set (w7 := w6 <| w_errno := EINVAL |>).
      assert (MemInv w7 ep live2 (Some p) L) as I7 by (by eapply mem_ext; [..|exact Hbad]).
      destruct (del_epoll_all_mem fds w7 ep live2 (Some p) L p 0 I7) as (w8 & Hdelall & C8 & I8 & _ & _ & _ & Hreg).
      destruct (free_arg_mem w8 ep live2 L p c fds I8 Hp2) as (w9 & Hfree & C9 & I9).
      { intros fd a Ha. destruct (Hreg _ _ Ha). eapply (reg_elsewhere w7); [exact I7|exact Hp2|done|done]. }
      rewrite (bind_Ok _ _ _ _ _ (free_arg_run p (length fds) w7)).
      rewrite (bind_Ok _ _ _ _ _ (del_after_free p (length fds) fds 0 w7 w8 Hdelall)).
      rewrite free_arg_run in Hfree. injection Hfree as Hfree. rewrite Hfree. rewrite Hdel in I9.
      eexists _, _, w9, L. split; [done|]. split; [|by split].
      transitivity w6; [done|]. transitivity w7; [done|]. by transitivity w8.
Qed.

(** * Steps *)

(** What makes the thread go on: the library's own code, a call or a return
    of user code, or the kernel's answer to [epoll_wait]. *)
Inductive action :=
  | A_run
  | A_new_task (epfd : Z) (now : timeval) (attr : coroutine_task_attr_t)
  | A_poll (fds : list pollfd) (timeout : Z) (pollfunc : option (Z * list pollfd)) (now : timeval)
  | A_return
  | A_eventloop (epfd : Z) (now0 now : timeval)
  | A_events (events : list epoll_event) (now : timeval).

Definition step_thread (a : action) : M (world K) unit :=
  m ← gets w_mode;
  match m, a with
  | M_task_loop, A_run => task_main_loop
  | M_poll_ret p fds u, A_run => poll_inner_leave p fds;; set_mode (M_user u)
  | M_process, A_run => eventloop_process
  | M_loop_wait, A_events events now => eventloop_wait events now
  | M_user u, A_new_task epfd now attr => coroutine_new_task epfd now attr u;; mret tt
  | M_user u, A_poll fds timeout pollfunc now => poll_inner_enter fds timeout pollfunc now u;; mret tt
  | M_user U_fun, A_return => task_main_after_fun
  | M_user U_timeout, A_return => task_main_release
  | M_user U_main, A_eventloop epfd now0 now => eventloop_start epfd now0 now
  | _, _ => fail BadPointer
  end.

(** What is asked of user code and of the environment: a task has a function
    of the user and is created while fewer than 128 coroutines are on the
    call stack, tasks (not main) poll, with an [int] timeout, the time
    is between 2^31 and 2^62 milliseconds after 1970 and less than 24 days
    after the wheel last moved, and the kernel reports registered
    descriptors. *)
Definition allowed (a : action) w : Prop :=
  exists e ep, w_env w = Some e /\ env_epoll e = Some ep /\
  match w_mode w, a with
  | M_task_loop, A_run | M_poll_ret _ _ _, A_run | M_process, A_run => True
  | M_loop_wait, A_events events now =>
      Forall (fun ev => exists fd, registered (w_kern w) fd = Some (ev_ptr ev)) events /\ clock_ok ep now
  | M_user u, A_new_task _ _ attr =>
      (exists f, attr_fun attr = Some (F_user f)) /\ env_callstacksize e < kMaxCallStack
  | M_user u, A_poll fds timeout _ now => u <> U_main /\ - 2 ^ 31 <= timeout < 2 ^ 31 /\ clock_ok ep now
  | M_user U_fun, A_return | M_user U_timeout, A_return | M_user U_main, A_eventloop _ _ _ => True
  | _, _ => False
  end.

(** * The abstract transitions

    Next to the scheduler's state, [xs] is the queue of the contexts the
    process loop has still to resume: the active list. *)

Inductive sched_step (s : sched) (xs : list Z) : action -> sched -> list Z -> Prop :=
  | ss_start t r : s_pc s = PC_start -> s_stack s = t :: r -> sched_step s xs A_run (s_goto (PC_user U_fun) s) xs
  | ss_idle t r : s_pc s = PC_idle -> s_stack s = t :: r -> sched_step s xs A_run (s_pop T_free s) xs
  | ss_poll_return q fds u : s_pc s = PC_ret q fds u -> sched_step s xs A_run (s_goto (PC_user u) s) xs
  | ss_wake t q fds u xs' : s_pc s = PC_process -> xs = q :: xs' -> s_stat s !! t = Some (T_wait q fds u) ->
      sched_step s xs A_run (s_push t (PC_ret q fds u) U_main K_process s) xs'
  | ss_all_done : s_pc s = PC_process -> xs = [] -> sched_step s xs A_run (s_goto PC_events s) []
  | ss_events events now xs' : s_pc s = PC_events -> NoDup xs' ->
      (forall q, q ∈ xs' -> exists t fds u, s_stat s !! t = Some (T_wait q fds u)) ->
      sched_step s xs (A_events events now) (s_goto PC_process s) xs'
  | ss_no_task u epfd now attr : s_pc s = PC_user u -> s_free s = [] -> sched_step s xs (A_new_task epfd now attr) s xs
  | ss_new_task u t fr epfd now attr : s_pc s = PC_user u -> s_free s = t :: fr ->
      sched_step s xs (A_new_task epfd now attr) (s_push t PC_start u (K_user u) s) xs
  | ss_poll_now u fds timeout pollfunc now : s_pc s = PC_user u -> sched_step s xs (A_poll fds timeout pollfunc now) s xs
  | ss_poll_block u q fds timeout pollfunc now : s_pc s = PC_user u -> s_stack s <> [] ->
      sched_step s xs (A_poll fds timeout pollfunc now) (s_pop (T_wait q fds u) s) xs
  | ss_return u : s_pc s = PC_user u -> task_ctx u -> sched_step s xs A_return (s_goto PC_idle s) xs
  | ss_return_timeout : s_pc s = PC_user U_fun -> sched_step s xs A_return (s_goto (PC_user U_timeout) s) xs
  | ss_eventloop epfd now0 now : s_pc s = PC_user U_main ->
      sched_step s xs (A_eventloop epfd now0 now) (s_goto PC_events s) xs.

(** * The simulation relation *)

(** [t] owns the poll context [q]: it waits there, or has just been resumed
    there. *)
Definition owns (s : sched) (t q : Z) (fds : list pollfd) : Prop :=
  (exists u, s_stat s !! t = Some (T_wait q fds u)) \/
  (exists u, s_pc s = PC_ret q fds u /\ head (s_stack s) = Some t).

Definition detached (s : sched) : option Z := match s_pc s with PC_ret q _ _ => Some q | _ => None end.

(** The live contexts are those that tasks own. *)
Definition waiting (th : thread) (s : sched) (live : gmap Z (Z * list pollfd)) : Prop :=
  forall q c fds, live !! q = Some (c, fds) <-> exists t, th_co th !! t = Some c /\ owns s t q fds.

Definition Rel (th : thread) w (s : sched) (xs : list Z) : Prop :=
  exists ep live L, CtlInv w th ep s /\ MemInv w ep live (detached s) L /\ waiting th s live /\
    L !! ep_active_list ep = Some xs.

Lemma waiting_same th s s' live : (forall t q fds, owns s' t q fds <-> owns s t q fds) -> waiting th s live -> waiting th s' live.
Proof using.
  intros H W q c fds. rewrite (W q c fds). split; intros (t & Ht & Ho); exists t; (split; [done|]); by apply H.
Qed.

(** Not in [poll_inner], only the waiting tasks own contexts. *)
Lemma owns_wait s t q fds : detached s = None -> owns s t q fds <-> exists u, s_stat s !! t = Some (T_wait q fds u).
Proof using.
  intros Hd. split; [|by left]. intros [?|(u & Hpc & _)]; [done|]. unfold detached in Hd. by rewrite Hpc in Hd.
Qed.

Lemma wait_push s t p u k x q fds v st0 :
  sched_ok s -> s_stat s !! t = Some st0 -> t ∉ s_stack s ->
  s_stat (s_push t p u k s) !! x = Some (T_wait q fds v) <-> x <> t /\ s_stat s !! x = Some (T_wait q fds v).
Proof using.
  intros OK Ht Hoff. unfold s_push. cbn [s_stat]. rewrite lookup_insert_Some.
  pose proof (so_head _ OK) as Hh. destruct (s_stack s) as [|y r].
  - split; [intros [[_ ?]|[? ?]]; [done|by split]|intros [? ?]; right; by split].
  - rewrite lookup_insert_Some. split.
    + intros [[_ ?]|[? [[_ ?]|[? ?]]]]; [done..|by split].
    + intros [Hxt Hx]. right. split; [done|]. right. split; [|done]. intros <-. rewrite Hh in Hx by done. done.
Qed.

Lemma wait_pop s st t r x q fds v :
  sched_ok s -> s_stack s = t :: r ->
  s_stat (s_pop st s) !! x = Some (T_wait q fds v) <->
    x = t /\ st = T_wait q fds v \/ s_stat s !! x = Some (T_wait q fds v).
Proof using.
  intros OK Hst. pose proof (so_head _ OK t ltac:(by rewrite Hst)) as Hh. pose proof (so_tail _ OK) as Htl.
  unfold s_pop. rewrite Hst in *. cbn [s_stat]. rewrite lookup_insert_Some.
  assert (forall m : gmap Z tstat, (forall y v', m !! y = Some (T_wait q fds v') <-> s_stat s !! y = Some (T_wait q fds v')) ->
    (t = x /\ st = T_wait q fds v \/ t <> x /\ m !! x = Some (T_wait q fds v)) <->
    (x = t /\ st = T_wait q fds v \/ s_stat s !! x = Some (T_wait q fds v))) as Hgen.
  { intros m Hm. rewrite Hm. split.
    - intros [[<- ?]|[? ?]]; [by left|by right].
    - intros [[-> ?]|Hx]; [by left|]. right. split; [|done]. intros <-. congruence. }
  destruct r as [|y r]; apply Hgen; [done|]. intros z v'. rewrite lookup_insert_Some. split.
  - intros [[_ ?]|[_ ?]]; done.
  - intros Hz. right. split; [|done]. intros <-. destruct (Htl y ltac:(by left)) as [u Hu]. congruence.
Qed.

(** * One step *)

Section step.
Context (th : thread) (TH : thread_ok th).

Lemma rel_same w w' ep live L s s' xs :
  CtlInv w' th ep s' -> mem_same w w' -> MemInv w ep live (detached s) L -> detached s' = detached s ->
  waiting th s' live -> L !! ep_active_list ep = Some xs -> Rel th w' s' xs.
Proof using.
  intros HC (H1 & H2 & H3 & H4) HM Hd HW Hxs. exists ep, live, L. rewrite Hd. split_and!; [done| |done|done]. by eapply mem_ext.
Qed.

(** Only the running task moves. *)
Lemma owns_goto s p t q fds : detached s = None -> detached (s_goto p s) = None -> owns (s_goto p s) t q fds <-> owns s t q fds.
Proof using. intros H1 H2. by rewrite !owns_wait. Qed.

Definition steps_to (a : action) w (s : sched) (xs : list Z) : Prop :=
  exists w' s' xs', step_thread a w = Ok (tt, w') /\ sched_step s xs a s' xs' /\ Rel th w' s' xs'.

Lemma stack_cons s : pc_ok (s_stack s) (s_pc s) -> (forall u, s_pc s <> PC_user u) -> s_pc s <> PC_process ->
  s_pc s <> PC_events -> exists t r, s_stack s = t :: r.
Proof using. destruct (s_stack s), (s_pc s); simpl; try done; eauto. intros _ H. by destruct (H u). Qed.

Lemma step_task_loop w s xs : Rel th w s xs -> w_mode w = M_task_loop -> steps_to A_run w s xs.
Proof using TH.
  intros (ep & live & L & HC & HM & HW & Hxs) Hm. pose proof (ci_base _ _ _ _ HC) as B. pose proof (cb_sched _ _ _ _ B) as OK.
  pose proof (ci_mode _ _ _ _ HC) as Hmode. rewrite Hm in Hmode.
  destruct (stack_cons s (so_pc _ OK)) as (t & r & Hst); [by intros u Hu; rewrite Hu in Hmode|by intros Hu; rewrite Hu in Hmode..|].
  unfold steps_to, step_thread. setoid_rewrite (bind_Ok _ _ _ _ _ (gets_run w_mode w)). rewrite Hm.
  destruct (s_pc s) eqn:Hpc; try discriminate Hmode.
  - destruct (task_main_loop_start th TH w ep s t r HC Hpc Hst) as (w' & Hrun & HC' & Hmem & _).
    exists w', (s_goto (PC_user U_fun) s), xs. split; [done|]. split; [by eapply ss_start|].
    assert (detached s = None) as Hd by (unfold detached; by rewrite Hpc).
    eapply rel_same; [done|done|done|by rewrite Hd| |done]. eapply waiting_same; [|done]. intros. by apply owns_goto.
  - destruct (task_main_loop_idle th TH w ep s t r HC Hpc Hst) as (w' & Hrun & HC' & Hmem).
    exists w', (s_pop T_free s), xs. split; [done|]. split; [by eapply ss_idle|].
    assert (detached s = None) as Hd by (unfold detached; by rewrite Hpc).
    assert (detached (s_pop T_free s) = None) as Hd'.
    { unfold detached. by destruct (s_pop_pc s t r T_free OK Hst) as [-> |[u ->]]. }
    eapply rel_same; [done|done|done|by rewrite Hd| |done]. eapply waiting_same; [|done].
    intros x q fds. rewrite !owns_wait by done. setoid_rewrite (wait_pop s T_free t r x q fds _ OK Hst).
    split; [intros (u & [[_ ?]|?]); [done|eauto]|intros (u & ?); eauto].
Qed.

Lemma step_poll_return w s xs p fds u : Rel th w s xs -> w_mode w = M_poll_ret p fds u -> steps_to A_run w s xs.
Proof using TH.
  intros (ep & live & L & HC & HM & HW & Hxs) Hm. pose proof (ci_base _ _ _ _ HC) as B. pose proof (cb_sched _ _ _ _ B) as OK.
  pose proof (ci_mode _ _ _ _ HC) as Hmode. rewrite Hm in Hmode.
  destruct (stack_cons s (so_pc _ OK)) as (t & r & Hst); [by intros v Hv; rewrite Hv in Hmode|by intros Hv; rewrite Hv in Hmode..|].
  unfold steps_to, step_thread. setoid_rewrite (bind_Ok _ _ _ _ _ (gets_run w_mode w)). rewrite Hm.
  destruct (s_pc s) eqn:Hpc; try discriminate Hmode. injection Hmode as <- <- <-.
  assert (detached s = Some p) as Hd by (unfold detached; by rewrite Hpc). rewrite Hd in HM.
  destruct (running_task th w ep s t r HC Hst) as (c & tk & rc & Hco & Htk & Hrc & Hsta & Hph & _).
  assert (live !! p = Some (c, fds)) as Hlive.
  { apply HW. exists t. split; [done|]. right. exists u. by rewrite Hst. }
  destruct (poll_inner_leave_mem w ep live L p c fds HM Hlive) as (pc & w1 & Hrun & _ & _ & C1 & M1).
  rewrite (bind_Ok _ _ _ _ _ Hrun).
  exists (w1 <| w_mode := M_user u |>), (s_goto (PC_user u) s), xs. split; [done|]. split; [by eapply ss_poll_return|].
  exists ep, (delete p live), L. split_and!.
  - pose proof (ctl_inv_eq th _ _ _ _ HC C1) as HC1. pose proof (so_pc _ OK) as Hok. rewrite Hst, Hpc in Hok.
    destruct C1 as (Q1 & Q2 & Q3 & Q4 & Q5 & Q6 & Q7 & Q8).
    eapply (goto_ctl th TH w1 _ ep s t r c tk rc); [done|done|done|done|done|done|done|done|done| | |done| |]; cbn; rewrite ?Q4, ?Q5, ?Q6;
      [done|done|by rewrite Hpc in Hph|].
    destruct (ci_pool _ _ _ _ HC1) as (pool & Hpl & [P1 P2 P3 P4 P5]). rewrite Q5, Q6 in *. exists pool. split; [done|].
    unfold cfree in *. rewrite Hpc in *. by split.
  - by eapply mem_ext; [..|exact M1].
  - intros q c' fds'. rewrite lookup_delete_Some, (HW q c' fds'). split.
    + intros [Hne (x & Hx & Ho)]. exists x. split; [done|]. left.
      destruct Ho as [[v Hv]|(v & Hv & _)]; [by exists v|]. congruence.
    + intros (x & Hx & [[v Hv]|(v & Hv & _)]); [|done]. cbn [s_goto s_stat] in Hv. split; [|exists x; split; [done|left; eauto]].
      intros ->. assert (live !! q = Some (c', fds')) as Hq by (apply HW; exists x; split; [done|left; eauto]).
      assert (x = t) as -> by (apply (to_inj _ TH _ _ c); congruence).
      rewrite (so_head _ OK) in Hv by (by rewrite Hst). done.
  - done.
Qed.

(** A step of main, alone on the stack. *)
Lemma main_alone s : pc_ok (s_stack s) (s_pc s) ->
  (s_pc s = PC_process \/ s_pc s = PC_events \/ s_pc s = PC_user U_main) -> s_stack s = [].
Proof using.
  intros Hok Hpc. destruct (s_stack s); [done|].
  destruct Hpc as [Hq|[Hq|Hq]]; rewrite Hq in Hok; simpl in Hok; try done. by destruct Hok.
Qed.

Lemma goto_main w w' e ep ep' live L s p xs :
  CtlInv w th ep s -> w_env w = Some e -> s_stack s = [] -> pc_ok [] p -> detached s = None ->
  ctl_eq (w <| w_env := Some (e <| env_epoll := Some ep' |>) |> <| w_mode := mode_of p |>) w' ->
  MemInv w' ep' live None L -> waiting th s live -> L !! ep_active_list ep' = Some xs -> Rel th w' (s_goto p s) xs.
Proof using.
  intros HC He Hst Hp Hd Heq HM HW Hxs. exists ep', live, L.
  assert (detached (s_goto p s) = None) as Hd' by (unfold detached; by destruct p).
  split_and!; [by eapply ctl_inv_main|by rewrite Hd'| |done]. eapply waiting_same; [|done]. intros. by apply owns_goto.
Qed.

Lemma step_process w s xs : Rel th w s xs -> w_mode w = M_process -> steps_to A_run w s xs.
Proof using TH.
  intros (ep & live & L & HC & HM & HW & Hxs) Hm. pose proof (ci_base _ _ _ _ HC) as B. pose proof (cb_sched _ _ _ _ B) as OK.
  pose proof (ci_mode _ _ _ _ HC) as Hmode. rewrite Hm in Hmode.
  assert (s_pc s = PC_process) as Hpc by (by destruct (s_pc s)).
  pose proof (main_alone s (so_pc _ OK) ltac:(by left)) as Hst.
  assert (detached s = None) as Hd by (unfold detached; by rewrite Hpc). rewrite Hd in HM.
  destruct (cb_env _ _ _ _ B) as (e & He & Hse & _ & Hep). rewrite Hst in Hse.
  unfold steps_to, step_thread. setoid_rewrite (bind_Ok _ _ _ _ _ (gets_run w_mode w)). rewrite Hm.
  unfold eventloop_process. setoid_rewrite (bind_Ok _ _ _ _ _ (get_epoll_run _ _ _ He Hep)).
  pose proof (rep_list _ _ (wh_rep _ _ _ (mi_wheel _ _ _ _ _ HM)) _ _ Hxs) as Hl.
  setoid_rewrite (bind_Ok _ _ _ _ _ (on_heap_read _ w _ (get_list_run _ _ _ Hl))).
  destruct xs as [|x xs]; simpl.
  - exists (w <| w_mode := M_loop_wait |>), (s_goto PC_events s), []. split; [done|]. split; [by apply ss_all_done|].
    eapply (goto_main w _ e ep ep live L); [done..| | |done|done].
    + unfold ctl_eq. split_and!; try done. cbn. rewrite He. f_equal. symmetry. destruct e; simpl in *. by rewrite Hep.
    + by eapply mem_ext; [..|exact HM].
  - destruct (pop_active w ep live L x xs HM Hxs) as (h & c & fds & Hpop & Hlive & (it & Hit & Hproc & Hitco) & HM').
    setoid_rewrite (bind_Ok _ _ _ _ _ (on_heap_run _ w _ _ Hpop)). set (w1 := w <| w_heap := h |>) in *.
    setoid_rewrite (bind_Ok _ _ _ _ _ (on_heap_read _ w1 _ (get_item_run _ _ _ Hit))). rewrite Hproc.
    unfold process_poll_event. rewrite Hitco. cbn [deref].
    apply HW in Hlive as (t & Hco & Ho). apply (owns_wait s t x fds Hd) in Ho as [u Hu].
    destruct (ci_tasks _ _ _ _ HC t _ Hu) as (c' & tk & rp & Hco' & Htk & Hrp & Hsta & Hrun & Hk). simplify_eq.
    destruct (push_run th TH w1 ep s t c tk rp (T_wait x fds u) (PC_ret x fds u) U_main K_process K_process)
      as (w2 & Hres & HC2 & Hmem2 & _); try done.
    + apply (base_ext th w); done.
    + intros y st _ Hy. apply (ci_tasks _ _ _ _ HC y st Hy).
    + destruct (ci_pool _ _ _ _ HC) as (pool & Hpl & [P1 P2 P3 P4 P5]). exists pool. split; [done|].
      assert (cfree (s_push t (PC_ret x fds u) U_main K_process s) = cfree s) as Hcf.
      { unfold cfree. rewrite Hpc. cbn [s_push s_pc s_free]. apply filter_off. intros Htf.
        rewrite (so_frees _ OK _ Htf) in Hu. done. }
      split; rewrite ?Hcf; [done|done| |done|done]. by rewrite P3, Hpc.
    + right. eauto.
    + simpl. by rewrite Hk.
    + right. exists x, fds, u. split; [done|]. apply (so_stat _ OK _ _ Hu).
    + rewrite Hst. simpl. unfold kMaxCallStack. lia.
    + intros Hq. by split; [right|].
    + exists w2, (s_push t (PC_ret x fds u) U_main K_process s), xs. split; [exact Hres|]. split; [by eapply ss_wake|].
      exists ep, live, (<[ep_active_list ep := xs]> L). split_and!; [done| | |apply lookup_insert_eq].
      * destruct Hmem2 as (M1 & M2 & M3 & M4). by eapply mem_ext; [..|exact HM'].
      * eapply waiting_same; [|exact HW]. intros y q fds'. rewrite (owns_wait s) by done. split.
        -- intros [[v Hv]|(v & [= <- <- <-] & Hh)].
           ++ apply (wait_push _ _ _ _ _ _ _ _ _ _ OK Hu) in Hv as [_ Hv]; [eauto|by rewrite Hst; apply not_elem_of_nil].
           ++ cbn in Hh. injection Hh as <-. eauto.
        -- intros [v Hv]. destruct (decide (y = t)) as [->|Hyt].
           ++ right. exists v. rewrite Hu in Hv. injection Hv as <- <- <-. done.
           ++ left. exists v. apply (wait_push _ _ _ _ _ _ _ _ _ _ OK Hu); [by rewrite Hst; apply not_elem_of_nil|done].
Qed.

Lemma step_events w s xs e ep events now :
  Rel th w s xs -> w_mode w = M_loop_wait -> w_env w = Some e -> env_epoll e = Some ep ->
  Forall (fun ev => exists fd, registered (w_kern w) fd = Some (ev_ptr ev)) events -> clock_ok ep now ->
  steps_to (A_events events now) w s xs.
Proof using TH.
  intros (ep0 & live & L & HC & HM & HW & Hxs) Hm He Hep Hev Hclk. pose proof (ci_base _ _ _ _ HC) as B.
  pose proof (cb_sched _ _ _ _ B) as OK. pose proof (ci_mode _ _ _ _ HC) as Hmode. rewrite Hm in Hmode.
  assert (s_pc s = PC_events) as Hpc by (by destruct (s_pc s)).
  pose proof (main_alone s (so_pc _ OK) ltac:(by right; left)) as Hst.
  assert (detached s = None) as Hd by (unfold detached; by rewrite Hpc). rewrite Hd in HM.
  destruct (cb_env _ _ _ _ B) as (e0 & He0 & _ & _ & Hep0). rewrite He in He0. injection He0 as <-. rewrite Hep in Hep0. injection Hep0 as <-.
  destruct (eventloop_wait_mem w e ep live L events now He Hep HM Hev Hclk)
    as (w' & ep' & L' & xs' & Hrun & Heq & HM' & _ & Hxs' & _).
  unfold steps_to, step_thread. setoid_rewrite (bind_Ok _ _ _ _ _ (gets_run w_mode w)). rewrite Hm.
  exists w', (s_goto PC_process s), xs'. split; [done|]. split; [|by eapply (goto_main w w' e ep ep')].
  apply ss_events; [done| |].
  - apply (rep_dll _ _ (wh_rep _ _ _ (mi_wheel _ _ _ _ _ HM')) _ _ Hxs').
  - intros q Hq. assert (linked L' q) as [[[c fds] Hl] _]%(mi_linked _ _ _ _ _ HM') by (by exists (ep_active_list ep'), xs').
    apply HW in Hl as (t & _ & Ho). apply (owns_wait s t q fds Hd) in Ho as [u Hu]. by exists t, fds, u.
Qed.

Lemma detached_user s u : s_pc s = PC_user u -> detached s = None.
Proof using. intros H. unfold detached. by rewrite H. Qed.

Lemma step_user_new w u epfd now attr : w_mode w = M_user u ->
  step_thread (A_new_task epfd now attr) w = (coroutine_new_task epfd now attr u;; mret tt) w.
Proof using. intros Hm. unfold step_thread. rewrite (bind_Ok _ _ _ _ _ (gets_run w_mode w)), Hm. by destruct u. Qed.

Lemma step_user_poll w u fds timeout pf now : w_mode w = M_user u ->
  step_thread (A_poll fds timeout pf now) w = (poll_inner_enter fds timeout pf now u;; mret tt) w.
Proof using. intros Hm. unfold step_thread. rewrite (bind_Ok _ _ _ _ _ (gets_run w_mode w)), Hm. by destruct u. Qed.

Lemma step_new_task w s xs u e epfd now attr f :
  Rel th w s xs -> w_mode w = M_user u -> w_env w = Some e -> attr_fun attr = Some (F_user f) ->
  env_callstacksize e < kMaxCallStack -> steps_to (A_new_task epfd now attr) w s xs.
Proof using TH.
  intros (ep & live & L & HC & HM & HW & Hxs) Hm He Hf Hdepth. pose proof (ci_base _ _ _ _ HC) as B.
  pose proof (cb_sched _ _ _ _ B) as OK. pose proof (ci_mode _ _ _ _ HC) as Hmode. rewrite Hm in Hmode.
  assert (s_pc s = PC_user u) as Hpc by (destruct (s_pc s); try discriminate; simpl in Hmode; congruence).
  destruct (cb_env _ _ _ _ B) as (e0 & He0 & [_ Hsz _] & Hpool & Hep). rewrite He in He0. injection He0 as <-.
  rewrite stack_cos_length in Hsz.
  unfold steps_to. rewrite (step_user_new w u epfd now attr Hm).
  unfold coroutine_new_task.
  assert ((env ← get_curr_thread_env;
    (match env with Some _ => mret tt | None => do_init_curr_thread_env epfd now end);;
    env ← get_curr_thread_env; e ← deref env; p ← deref (env_pool e); new_task p attr u) w = new_task (th_pool th) attr u w) as Hred.
  { rewrite (bind_Ok _ _ _ _ _ (get_curr_thread_env_run _ (cb_pid _ _ _ _ B))), He. step.
    rewrite (bind_Ok _ _ _ _ _ (get_curr_thread_env_run _ (cb_pid _ _ _ _ B))), He. step. step. done. }
  pose proof (new_task_ctl th TH w ep s attr u f HC Hpc Hf ltac:(lia)) as Hnew.
  destruct (s_free s) as [|t fr] eqn:Efr.
  - exists w, s, xs. split; [|split; [by eapply ss_no_task|by exists ep, live, L]].
    erewrite bind_Ok by (rewrite Hred; exact Hnew). done.
  - destruct Hnew as (w' & tk' & Hrun & HC' & Hmem & _).
    exists w', (s_push t PC_start u (K_user u) s), xs. split.
    { erewrite bind_Ok by (rewrite Hred; exact Hrun). done. }
    split; [by eapply ss_new_task|].
    pose proof (so_frees _ OK t ltac:(rewrite Efr; by left)) as Ht.
    assert (t ∉ s_stack s) as Hoff by (apply (off_stack _ OK _ _ Ht); by left).
    eapply rel_same; [done|done|done|by rewrite (detached_user _ _ Hpc)| |done].
    eapply waiting_same; [|exact HW]. intros y q fds. rewrite !owns_wait by (done || by eapply detached_user).
    setoid_rewrite (wait_push _ _ _ _ _ _ _ _ _ _ OK Ht Hoff). split; [intros (v & _ & Hv); eauto|].
    intros [v Hv]. exists v. split; [|done]. intros ->. congruence.
Qed.

(** [poll_inner] either returns, or blocks in a new context that has counted
    no event. *)
Lemma poll_result w s xs u e ep fds timeout pf now :
  Rel th w s xs -> w_mode w = M_user u -> w_env w = Some e -> env_epoll e = Some ep ->
  u <> U_main -> - 2 ^ 31 <= timeout < 2 ^ 31 -> clock_ok ep now ->
  (exists ret fds' w', poll_inner_enter fds timeout pf now u w = Ok (PollReturn ret fds', w') /\ Rel th w' s xs) \/
  (exists q w' pc, poll_inner_enter fds timeout pf now u w = Ok (PollBlocked, w') /\
     Rel th w' (s_pop (T_wait q fds u) s) xs /\ (w_polls w' !! q = Some pc /\ pc_raise_cnt pc = 0) /\
     exists it, lh_items (w_heap w') !! q = Some it /\ ti_expire it <= GetTickMS now + kMaxTimeoutMs).
Proof using TH.
  intros (ep0 & live & L & HC & HM & HW & Hxs) Hm He Hep Hu Hint Hclk. pose proof (ci_base _ _ _ _ HC) as B.
  pose proof (cb_sched _ _ _ _ B) as OK. pose proof (ci_mode _ _ _ _ HC) as Hmode. rewrite Hm in Hmode.
  assert (s_pc s = PC_user u) as Hpc by (destruct (s_pc s); try discriminate; simpl in Hmode; congruence).
  destruct (cb_env _ _ _ _ B) as (e0 & He0 & _ & _ & Hep0). rewrite He in He0. injection He0 as <-.
  rewrite Hep in Hep0. injection Hep0 as <-.
  pose proof (detached_user _ _ Hpc) as Hd. rewrite Hd in HM.
  destruct (s_stack s) as [|t r] eqn:Hst.
  { pose proof (so_pc _ OK) as Hok. rewrite Hst, Hpc in Hok. done. }
  assert (task_ctx u) as Hctx by (pose proof (so_pc _ OK) as Hok; by rewrite Hst, Hpc in Hok).
  destruct (running_task th w ep s t r HC Hst) as (c & tk & rc & Hco & _ & _ & _ & _ & Hself & _).
  destruct (fix_timeout_ctl th TH w ep s t r u c timeout HC Hpc Hst Hco Hint)
    as (tmo & ist & w1 & Hfix & HC1 & Hmem1 & Hist).
  assert (exists e1, w_env w1 = Some e1 /\ env_epoll e1 = Some ep) as (e1 & He1 & Hep1).
  { destruct (cb_env _ _ _ _ (ci_base _ _ _ _ HC1)) as (e1 & ? & _ & _ & ?). by exists e1. }
  assert (MemInv w1 ep live None L) as HM1 by (destruct Hmem1 as (?&?&?&?); by eapply mem_ext; [..|exact HM]).
  destruct Hist as [-> |[-> Htmo]].
  { left. exists (-1), fds, w1. unfold poll_inner_enter. rewrite (bind_Ok _ _ _ _ _ Hself). step.
    rewrite (bind_Ok _ _ _ _ _ Hfix). split; [done|]. exists ep, live, L. by rewrite Hd. }
  destruct (poll_enter_cases w w1 e1 ep live L c fds timeout tmo pf now u (cb_pid _ _ _ _ (ci_base _ _ _ _ HC1)) Hself Hfix
    He1 Hep1 HM1 Hclk Htmo) as [(ret & fds' & w2 & L' & Hrun & Heq & HM2 & ->)|(q & w2 & L' & Hrun & Hq & Heq & HM2 & Hact & (pc & Hpcq & Hcnt) & it & Hit & Hexp)].
  - left. exists ret, fds', w2. split; [done|]. exists ep, live, L. rewrite Hd. split_and!; [by eapply ctl_inv_eq|done|done|done].
  - right. pose proof (ctl_inv_eq th _ _ _ _ HC1 Heq) as HC2.
    destruct (running_task th w2 ep s t r HC2 Hst) as (c2 & tk2 & rc2 & Hco2 & Htk2 & Hrc2 & Hsta2 & Hph2 & _).
    rewrite Hco in Hco2. injection Hco2 as <-. rewrite Hpc in Hph2.
    destruct (pop_run th TH w2 ep s t r c tk2 rc2 (T_wait q fds u) (K_poll q fds u)) as (w3 & Hy & HC3 & Hmem3 & _);
      [apply HC2|exact Hst|intros x st _; apply HC2| |done|done|done|done|right; by exists q, fds, u|].
    { destruct (ci_pool _ _ _ _ HC2) as (pool & Hpl & HP). destruct (user_pool th _ _ _ _ Hpc HP) as (P1 & P2 & P3 & P4 & P5).
      exists pool. split; [done|].
      assert (s_free (s_pop (T_wait q fds u) s) = s_free s) as Hfr by (unfold s_pop; by rewrite Hst).
      destruct (s_pop_pc s t r (T_wait q fds u) OK Hst) as [Hp'|[v Hp']];
        split; unfold cfree; rewrite ?Hp', ?Hfr; simpl; done || lia. }
    exists q, w3, pc. split; [by rewrite Hrun, (bind_Ok _ _ _ _ _ Hy)|].
    destruct Hmem3 as (Hh3 & Hp3 & Hmem3). split; [|split; [by rewrite Hp3|exists it; by rewrite Hh3]].
    assert (detached (s_pop (T_wait q fds u) s) = None) as Hd3.
    { unfold detached. by destruct (s_pop_pc s t r (T_wait q fds u) OK Hst) as [-> |[v ->]]. }
    exists ep, (<[q := (c, fds)]> live), L'. rewrite Hd3.
    split_and!; [done|destruct Hmem3 as (?&?); by eapply mem_ext; [..|exact HM2]| |by rewrite Hact].
    intros q' c' fds'. rewrite lookup_insert_Some, (HW q' c' fds').
    setoid_rewrite (owns_wait _ _ _ _ Hd3). setoid_rewrite (owns_wait _ _ _ _ Hd).
    setoid_rewrite (wait_pop s _ t r _ _ _ _ OK Hst). split.
    + intros [[<- [= <- <-]]|[Hne (x & Hx & v & Hv)]].
      * exists t. split; [done|]. exists u. left. done.
      * exists x. split; [done|]. exists v. by right.
    + intros (x & Hx & v & [[-> [= <- <- <-]]|Hv]); [left; split; congruence|].
      right. split; [|eauto]. intros <-.
      assert (live !! q = Some (c', fds')) as Hl by (apply HW; exists x; split; [done|left; eauto]). congruence.
Qed.

Lemma step_poll w s xs u e ep fds timeout pf now :
  Rel th w s xs -> w_mode w = M_user u -> w_env w = Some e -> env_epoll e = Some ep ->
  u <> U_main -> - 2 ^ 31 <= timeout < 2 ^ 31 -> clock_ok ep now -> steps_to (A_poll fds timeout pf now) w s xs.
Proof using TH.
  intros HR Hm He Hep Hu Hint Hclk. pose proof HR as (ep0 & live & L & HC & _).
  pose proof (cb_sched _ _ _ _ (ci_base _ _ _ _ HC)) as OK. pose proof (ci_mode _ _ _ _ HC) as Hmode. rewrite Hm in Hmode.
  assert (s_pc s = PC_user u) as Hpc by (destruct (s_pc s); try discriminate; simpl in Hmode; congruence).
  unfold steps_to. rewrite (step_user_poll w u fds timeout pf now Hm).
  destruct (poll_result w s xs u e ep fds timeout pf now HR Hm He Hep Hu Hint Hclk)
    as [(ret & fds' & w' & Hrun & HR')|(q & w' & pc & Hrun & HR' & _)]; rewrite (bind_Ok _ _ _ _ _ Hrun).
  - exists w', s, xs. split; [done|]. split; [by eapply ss_poll_now|done].
  - exists w', (s_pop (T_wait q fds u) s), xs. split; [done|]. split; [|done]. eapply ss_poll_block; [done|].
    pose proof (so_pc _ OK) as Hok. rewrite Hpc in Hok. destruct (s_stack s); [by simpl in Hok; subst|done].
Qed.

Lemma step_return w s xs u : Rel th w s xs -> w_mode w = M_user u -> u = U_fun \/ u = U_timeout -> steps_to A_return w s xs.
Proof using TH.
  intros (ep & live & L & HC & HM & HW & Hxs) Hm Hu. pose proof (ci_base _ _ _ _ HC) as B.
  pose proof (cb_sched _ _ _ _ B) as OK. pose proof (ci_mode _ _ _ _ HC) as Hmode. rewrite Hm in Hmode.
  assert (s_pc s = PC_user u) as Hpc by (destruct (s_pc s); try discriminate; simpl in Hmode; congruence).
  pose proof (detached_user _ _ Hpc) as Hd. rewrite Hd in HM.
  destruct (s_stack s) as [|t r] eqn:Hst.
  { pose proof (so_pc _ OK) as Hok. rewrite Hst, Hpc in Hok. simpl in Hok. subst. by destruct Hu. }
  assert (forall w' p, (p = PC_idle \/ p = PC_user U_timeout) -> CtlInv w' th ep (s_goto p s) -> mem_same w w' ->
    Rel th w' (s_goto p s) xs) as Hrel.
  { intros w' p Hp HC' Hmem. assert (detached (s_goto p s) = None) as Hd' by (by destruct Hp as [-> | ->]).
    eapply rel_same; [done|done|by rewrite Hd|by rewrite Hd| |done]. eapply waiting_same; [|done]. intros. by apply owns_goto. }
  unfold steps_to, step_thread. setoid_rewrite (bind_Ok _ _ _ _ _ (gets_run w_mode w)). rewrite Hm.
  destruct Hu as [-> | ->].
  - destruct (task_main_after_fun_ctl th TH w ep s t r _ HC Hpc Hst) as (w' & p & Hrun & HC' & Hmem & Hp).
    assert (p = PC_idle \/ p = PC_user U_timeout) as Hp2.
    { destruct (w_tasks w !! t) as [tk|]; [|by left]. destruct (attr_timeout (tk_attr tk)); [|by left].
      destruct (tk_timeout tk =? 0); [by left|by right]. }
    exists w', (s_goto p s), xs. split; [done|]. split; [|by apply Hrel].
    destruct Hp2 as [-> | ->]; [by eapply ss_return; [|left]|by apply ss_return_timeout].
  - destruct (task_main_release_ctl th TH w ep s t r _ HC Hpc Hst) as (w' & Hrun & HC' & Hmem).
    exists w', (s_goto PC_idle s), xs. split; [done|]. split; [by eapply ss_return; [|right]|apply Hrel; [by left|done|done]].
Qed.

Lemma mem_result w ep live det L r : MemInv w ep live det L -> MemInv w (ep <| ep_result := r |>) live det L.
Proof using. by intros []. Qed.

Lemma step_eventloop w s xs epfd now0 now : Rel th w s xs -> w_mode w = M_user U_main -> steps_to (A_eventloop epfd now0 now) w s xs.
Proof using TH.
  intros (ep & live & L & HC & HM & HW & Hxs) Hm. pose proof (ci_base _ _ _ _ HC) as B.
  pose proof (cb_sched _ _ _ _ B) as OK. pose proof (ci_mode _ _ _ _ HC) as Hmode. rewrite Hm in Hmode.
  assert (s_pc s = PC_user U_main) as Hpc by (destruct (s_pc s); try discriminate; simpl in Hmode; congruence).
  pose proof (main_alone s (so_pc _ OK) ltac:(by right; right)) as Hst.
  pose proof (detached_user _ _ Hpc) as Hd. rewrite Hd in HM.
  destruct (cb_env _ _ _ _ B) as (e & He & _ & _ & Hep).
  unfold steps_to, step_thread. setoid_rewrite (bind_Ok _ _ _ _ _ (gets_run w_mode w)). rewrite Hm.
  unfold eventloop_start. setoid_rewrite (bind_Ok _ _ _ _ _ (get_curr_thread_env_run _ (cb_pid _ _ _ _ B))). rewrite He.
  setoid_rewrite (bind_Ok _ _ _ tt w); [|done].
  set (ep1 := ep <| ep_now := GetTickMS now |>). set (w1 := w <| w_env := Some (e <| env_epoll := Some ep1 |>) |>).
  setoid_rewrite (bind_Ok _ _ _ tt w1); [|by eapply upd_epoll_run].
  setoid_rewrite (bind_Ok _ _ _ ep1 w1); [|by eapply get_epoll_run].
  assert (exists ep2, (ep2 = ep1 \/ ep2 = ep1 <| ep_result := Some (alloc_epoll_result (ep_size ep1)) |>) /\ (match ep_result ep1 with
    | None => upd_epoll (fun e => e <| ep_result := Some (alloc_epoll_result (ep_size e)) |>) | Some _ => mret tt end) w1 =
      Ok (tt, w <| w_env := Some (e <| env_epoll := Some ep2 |>) |>)) as (ep2 & Hep2 & Hrun).
  { destruct (ep_result ep1); [exists ep1; split; [by left|done]|]. eexists. split; [by right|].
    erewrite upd_epoll_run by done. done. }
  setoid_rewrite (bind_Ok _ _ _ _ _ Hrun). eexists _, (s_goto PC_events s), xs. split; [done|]. split; [by apply ss_eventloop|].
  eapply (goto_main w _ e ep ep2 live L); [done..| |done|by destruct Hep2 as [-> | ->]].
  eapply mem_ext; [..|destruct Hep2 as [-> | ->]; [apply mem_now; exact HM|apply mem_result, mem_now; exact HM]]; done.
Qed.

Lemma allowed_steps w s xs a : Rel th w s xs -> allowed a w -> steps_to a w s xs.
Proof using TH.
  intros HR (e & ep & He & Hep & Ha). destruct (w_mode w) eqn:Hm; destruct a; try done.
  - by apply step_task_loop.
  - by destruct u.
  - assert ((exists f, attr_fun attr = Some (F_user f)) /\ env_callstacksize e < kMaxCallStack) as [[f Hf] Hd] by by destruct u.
    by eapply step_new_task.
  - assert (u <> U_main /\ - 2 ^ 31 <= timeout < 2 ^ 31 /\ clock_ok ep now) as (? & ? & ?) by by destruct u.
    by eapply step_poll.
  - eapply step_return; [done..|]. destruct u; [done|by left|by right|done].
  - assert (u = U_main) as -> by by destruct u. by apply step_eventloop.
  - by destruct u.
  - by eapply step_poll_return.
  - by apply step_process.
  - destruct Ha. by eapply step_events.
Qed.
End step.
End system.
