(* ===== verification/Frames.v ===== *)
(** What the code of a thread leaves alone, for any relation on its states
    that allows what all of that code does: a [Frame].  The lemmas say, access
    by access and function by function, that the code stays in such a
    relation; the next files instantiate them with the specific data, the
    deadlines, and the attributes and flags of tasks. *)

From stdpp Require Import gmap list.
From S2P Require Import Prelude TimerList TimerListSpec ListProgram TimerWheel TimerWheelSpec TimerFrame Context Events.
From S2P Require Import Thread ThreadSpec Sched Coroutine TaskPool CtlInv Poll MemInv MemPoll CtlSteps System.

(** * The heap *)

(** The item at [x] is still there, with its deadline. *)
Definition due_heap (x : Z) (h h' : lheap) : Prop :=
  forall it, lh_items h !! x = Some it -> exists it', lh_items h' !! x = Some it' /\ ti_expire it' = ti_expire it.

#[export] Instance due_heap_preorder x : PreOrder (due_heap x).
Proof.
  split; [by intros h it H; exists it|]. intros h1 h2 h3 H1 H2 it (it2 & Hit2 & E2)%H1.
  destruct (H2 it2 Hit2) as (it3 & Hit3 & E3). exists it3. split; [done|congruence].
Qed.

Section heap.
Context (x : Z).
Notation still := (always (due_heap x)).

Lemma due_get_item y : still (get_item y).
Proof. intros h. unfold wp, get_item. by destruct (lh_items h !! y). Qed.
Lemma due_get_list l : still (get_list l).
Proof. intros h. unfold wp, get_list. by destruct (lh_lists h !! l). Qed.
Lemma due_upd_list l f : still (upd_list l f).
Proof. intros h. unfold wp, upd_list. destruct (lh_lists h !! l); [|done]. by intros it H; exists it. Qed.
Lemma due_upd_item y f : y <> x \/ (forall it, ti_expire (f it) = ti_expire it) -> still (upd_item y f).
Proof.
  intros Hf h. unfold wp, upd_item. destruct (lh_items h !! y) as [v|] eqn:Hy; [|done]. intros it Hx. cbn.
  destruct (decide (y = x)) as [->|Hne]; [|exists it; by rewrite lookup_insert_ne].
  destruct Hf as [?|Hf]; [done|]. exists (f v). rewrite lookup_insert_eq, Hf. split; [done|congruence].
Qed.

#[local] Hint Resolve due_get_item due_get_list due_upd_list : always.
#[local] Hint Extern 2 (still (upd_item _ _)) => apply due_upd_item; by right : always.

Lemma due_remove y : still (remove_from_link y).
Proof. unfold remove_from_link. always_auto. Qed.
Lemma due_add_tail l y : still (add_tail l y).
Proof. unfold add_tail. always_auto. Qed.
Lemma due_popHead l : still (popHead l).
Proof. unfold popHead. always_auto. Qed.
Lemma due_walk f n : (forall it, ti_expire (f it) = ti_expire it) -> forall i, still (walk n f i).
Proof.
  intros Hf. induction n as [|n IH]; intros [y|]; cbn [walk]; try by auto with always.
  apply always_bind; [apply _|by apply due_upd_item; right|]. intros _. always_auto.
Qed.
Lemma due_walk_all f i : (forall it, ti_expire (f it) = ti_expire it) -> still (walk_all f i).
Proof. intros Hf. unfold walk_all. apply always_bind; [apply _|auto with always|]. intros h. by apply due_walk. Qed.
Lemma due_set_parent l i : still (walk_all (set_parent l) i).
Proof. by apply due_walk_all. Qed.
Lemma due_set_timed_out i : still (walk_all set_timed_out i).
Proof. by apply due_walk_all. Qed.
#[local] Hint Resolve due_add_tail due_set_parent : always.
Lemma due_join l o : still (join l o).
Proof. unfold join. always_auto. Qed.
#[local] Hint Resolve due_join : always.
Lemma due_take_slots n timer r : forall i, still (take_slots n i timer r).
Proof. induction n as [|n IH]; intros i; cbn [take_slots]; unfold rem_size, slot_addr; always_auto. Qed.
#[local] Hint Resolve due_take_slots : always.
Lemma due_takeAll timer now r : still (takeAllTimeout timer now r).
Proof. unfold takeAllTimeout. always_auto. Qed.
Lemma due_add_timeout timer i now : still (add_timeout timer i now).
Proof. unfold add_timeout, rem_size, slot_addr. always_auto. Qed.
Lemma due_calloc n : still (calloc_lists n).
Proof. intros h it H. by exists it. Qed.
#[local] Hint Resolve due_calloc : always.
Lemma due_alloc_timer n now : still (alloc_timer n now).
Proof. unfold alloc_timer. always_auto. Qed.
End heap.

#[export] Hint Resolve due_get_item due_get_list due_upd_list due_remove due_add_tail due_popHead due_set_timed_out due_join
  due_takeAll due_add_timeout due_calloc due_alloc_timer : always.
#[export] Hint Extern 2 (always (due_heap _) (upd_item _ _)) => apply due_upd_item; by right : always.

(** * Frames *)

(** A relation that allows any change outside coroutines, tasks, poll contexts
    and the list heap; of coroutines, all but the specific data; of tasks, all
    but the attributes and the time-out flag; of the heap, all but the
    deadlines of some items. *)
Class Frame {K} (R : world K -> world K -> Prop) := {
  fr_pre :: PreOrder R;
  fr_kept : Z -> Prop;
  fr_due : forall w w' x, R w w' -> fr_kept x -> due_heap x (w_heap w) (w_heap w');
  fr_other : forall w w', w_cos w' = w_cos w -> w_heap w' = w_heap w -> w_tasks w' = w_tasks w -> w_polls w' = w_polls w -> R w w';
  fr_co : forall w c v v', w_cos w !! c = Some v -> co_spec v' = co_spec v -> R w (w <| w_cos := <[c := v']> (w_cos w) |>);
  fr_new_co : forall w c, w_cos w !! c = None -> R w (w <| w_cos := <[c := zero_coroutine]> (w_cos w) |>);
  fr_task : forall w t v v', w_tasks w !! t = Some v -> tk_attr v' = tk_attr v -> tk_timeout v' = tk_timeout v ->
    R w (w <| w_tasks := <[t := v']> (w_tasks w) |>);
  fr_heap : forall w h, (forall x, fr_kept x -> due_heap x (w_heap w) h) -> R w (w <| w_heap := h |>)
}.

(** One that does not look at tasks and poll contexts. *)
Class FrameAny {K} (R : world K -> world K -> Prop) := {
  fa_frame :: Frame R;
  fa_tasks : forall w m, R w (w <| w_tasks := m |>);
  fa_polls : forall w m, R w (w <| w_polls := m |>)
}.

#[export] Hint Extern 0 (Frame _) => typeclasses eauto : always.
#[export] Hint Extern 0 (FrameAny _) => typeclasses eauto : always.

Section frame.
Context {K : Type} (R : world K -> world K -> Prop) `{!Frame R}.
Implicit Types w : world K.
Notation still := (always R).

Lemma fr_same w w' : w_cos w' = w_cos w -> w_heap w' = w_heap w -> w_tasks w' = w_tasks w -> w_polls w' = w_polls w -> R w w'.
Proof using All. apply fr_other. Qed.

(** ** The accesses *)

Lemma fr_get_co c : still (get_co c).
Proof using All. intros w. unfold wp, get_co. by destruct (w_cos w !! c). Qed.
Lemma fr_upd_co c f : (forall x, co_spec (f x) = co_spec x) -> still (upd_co c f).
Proof using All. intros Hf w. unfold wp, upd_co. destruct (w_cos w !! c) eqn:Hc; [by eapply fr_co|done]. Qed.
Lemma fr_get_task t : still (get_task t).
Proof using All. intros w. unfold wp, get_task. by destruct (w_tasks w !! t). Qed.
Lemma fr_upd_task t f : (forall x, tk_attr (f x) = tk_attr x /\ tk_timeout (f x) = tk_timeout x) -> still (upd_task t f).
Proof using All.
  intros Hf w. unfold wp, upd_task. destruct (w_tasks w !! t) as [x|] eqn:Ht; [|done]. eapply fr_task; [exact Ht|apply Hf..].
Qed.
Lemma fr_get_pool q : still (get_pool q).
Proof using All. intros w. unfold wp, get_pool. by destruct (w_pools w !! q). Qed.
Lemma fr_upd_pool q f : still (upd_pool q f).
Proof using All. intros w. unfold wp, upd_pool. destruct (w_pools w !! q); [by apply fr_other|done]. Qed.
Lemma fr_get_poll q : still (get_poll q).
Proof using All. intros w. unfold wp, get_poll. by destruct (w_polls w !! q). Qed.
Lemma fr_get_pitem q : still (get_pitem q).
Proof using All. intros w. unfold wp, get_pitem. by destruct (w_pitems w !! q). Qed.
Lemma fr_get_env : still get_env.
Proof using All. intros w. unfold wp, get_env. by destruct (w_env w). Qed.
Lemma fr_upd_env f : still (upd_env f).
Proof using All. intros w. unfold wp, upd_env. destruct (w_env w); [by apply fr_other|done]. Qed.
Lemma fr_on_heap A (m : M lheap A) : (forall x, fr_kept x -> always (due_heap x) m) -> still (on_heap m).
Proof using All.
  intros H w. unfold wp, on_heap. destruct (m (w_heap w)) as [[a h]|e] eqn:Hm; [|done]. apply fr_heap. intros x Hx.
  exact (wp_Ok m _ any_error _ _ _ (H x Hx (w_heap w)) Hm).
Qed.
Lemma fr_set_mode m : still (set_mode m).
Proof using All. apply always_modify. intros w. by apply fr_other. Qed.
End frame.

#[export] Hint Resolve fr_get_co fr_get_task fr_get_pool fr_upd_pool fr_get_poll fr_get_pitem fr_get_env fr_upd_env fr_set_mode : always.
#[export] Hint Extern 2 (always _ (upd_co _ _)) => refine (fr_upd_co _ _ _ _); by intros : always.
#[export] Hint Extern 2 (always _ (upd_task _ _)) => refine (fr_upd_task _ _ _ _); by intros : always.
#[export] Hint Extern 2 (always _ (on_heap _)) => refine (fr_on_heap _ _ _ _); intros ? Hkept;
  solve [eauto 2 with always | destruct Hkept] : always.
#[export] Hint Extern 2 (always _ (modify _)) => apply always_modify; intros; refine (fr_same _ _ _ _ _ _ _); done : always.

Section code.
Context {K : Type} `{!EpollKernel K} (R : world K -> world K -> Prop) `{!Frame R}.
Implicit Types w : world K.
Notation still := (always R).

(** ** Coroutines *)

Lemma fr_env : still get_curr_thread_env.
Proof using Frame0. unfold get_curr_thread_env. always_auto. Qed.
Lemma fr_epoll : still get_epoll.
Proof using Frame0. unfold get_epoll. always_auto. Qed.
#[local] Hint Resolve fr_env fr_epoll : always.
Lemma fr_upd_epoll f : still (upd_epoll f).
Proof using Frame0. unfold upd_epoll. always_auto. Qed.
Lemma fr_self : still coroutine_self.
Proof using Frame0. unfold coroutine_self, curr_coroutine. always_auto. Qed.
Lemma fr_swap c d k : still (coroutine_swap c d k).
Proof using Frame0. unfold coroutine_swap, context_swap. always_auto. Qed.
#[local] Hint Resolve fr_upd_epoll fr_self fr_swap : always.
Lemma fr_yield k : still (yield_env k).
Proof using Frame0. unfold yield_env. always_auto. Qed.
Lemma fr_resume c k : still (coroutine_resume c k).
Proof using Frame0. unfold coroutine_resume. always_auto. Qed.
Lemma fr_self_task : still self_task.
Proof using Frame0. unfold self_task. always_auto. Qed.
#[local] Hint Resolve fr_yield fr_resume fr_self_task : always.

(** A new coroutine starts without data. *)
Lemma fr_create_env f arg : still (create_env f arg).
Proof using Frame0.
  intros w. unfold create_env. wstep. unfold wp at 1, gets at 1. wstep. unfold wp at 1, gets at 1. do 2 wstep.
  set (c := fresh_addr (w_cos w)). match goal with |- wp _ _ _ ?x => set (w1 := x) end.
  assert (R w w1) as H1.
  { apply fr_new_co. unfold c. destruct (w_cos w !! fresh_addr (w_cos w)) eqn:E; [|done].
    pose proof (proj2 (fresh_addr_spec (w_cos w)) _ ltac:(by rewrite E)). lia. }
  match goal with |- wp ?m _ _ _ => assert (still m) as Hm by (unfold alloc_stack; always_auto) end.
  refine (wp_mono _ _ _ _ _ _ (Hm w1) _ (fun e H => H)). intros a w2 H2. by transitivity w1.
Qed.
#[local] Hint Resolve fr_create_env : always.

Lemma fr_main_tail c : still (coroutine_main_tail c).
Proof using Frame0. unfold coroutine_main_tail. always_auto. Qed.
#[local] Hint Resolve fr_main_tail : always.
Lemma fr_coroutine_main : still coroutine_main.
Proof using Frame0. unfold coroutine_main. always_auto. Qed.
Lemma fr_coroutine_new fn arg : still (coroutine_new (fail NullDeref) fn arg).
Proof using Frame0. unfold coroutine_new. always_auto. Qed.
Lemma fr_init_env epfd now : still (init_curr_thread_env epfd now).
Proof using Frame0. unfold init_curr_thread_env, alloc_epoll. always_auto. Qed.

(** ** Tasks *)

Lemma fr_task_main_loop : still task_main_loop.
Proof using Frame0. unfold task_main_loop, coroutine_yield_context. always_auto. Qed.
Lemma fr_task_main_release : still task_main_release.
Proof using Frame0. unfold task_main_release. always_auto. Qed.
#[local] Hint Resolve fr_task_main_release : always.
Lemma fr_task_main_after_fun : still task_main_after_fun.
Proof using Frame0. unfold task_main_after_fun. always_auto. Qed.
Lemma fr_get_now : still get_now.
Proof using Frame0. unfold get_now. always_auto. Qed.
Lemma fr_store_task cap q i t : still (store_task cap q i t).
Proof using Frame0. unfold store_task. always_auto. Qed.

(** ** Polls and the event loop *)

Lemma fr_eventloop_process : still eventloop_process.
Proof using Frame0. unfold eventloop_process, process_poll_event. always_auto. Qed.
Lemma fr_ctl op fd ev : still (do_epoll_ctl op fd ev).
Proof using All.
  unfold do_epoll_ctl. apply always_bind; [apply _|auto with always|]. intros k. destruct (epoll_ctl k op fd ev) as [[ret err] k'].
  always_auto.
Qed.
#[local] Hint Resolve fr_ctl : always.
Lemma fr_del_all q fds : forall i, still (del_epoll_all q i fds).
Proof using All. induction fds as [|f fds IH]; intros i; cbn [del_epoll_all]; always_auto. Qed.
Lemma fr_add_all c q fb fds : forall i, still (add_epoll_all c q fb i fds).
Proof using All. induction fds as [|f fds IH]; intros i; cbn [add_epoll_all]; unfold add_epoll; always_auto. Qed.
End code.

#[export] Hint Resolve fr_env fr_epoll fr_upd_epoll fr_self fr_swap fr_yield fr_resume fr_self_task fr_create_env fr_main_tail
  fr_coroutine_main fr_coroutine_new fr_init_env fr_task_main_loop fr_task_main_release fr_task_main_after_fun fr_get_now fr_store_task
  fr_eventloop_process fr_ctl fr_del_all fr_add_all : always.

(** * Frames that do not look at tasks *)

Section any.
Context {K : Type} `{!EpollKernel K} (R : world K -> world K -> Prop) `{!FrameAny R}.
Implicit Types w : world K.
Notation MW := (M (world K)).
Notation still := (always R).

Lemma fa_upd_task t f : still (upd_task t f).
Proof using FrameAny0. intros w. unfold wp, upd_task. destruct (w_tasks w !! t); [apply fa_tasks|done]. Qed.
Lemma fa_upd_poll q f : still (upd_poll q f).
Proof using FrameAny0. intros w. unfold wp, upd_poll. destruct (w_polls w !! q); [apply fa_polls|done]. Qed.
#[local] Hint Resolve fa_upd_task fa_upd_poll : always.

Lemma fa_create_task cap p i : still (create_task cap p i).
Proof using FrameAny0.
  unfold create_task. apply always_bind; [apply _|auto with always|]. intros t.
  apply always_bind; [apply _|apply always_modify; intros w; apply fa_tasks|]. intros _. always_auto.
Qed.
#[local] Hint Resolve fa_create_task : always.
Lemma fa_create_tasks n cap p : forall i, still (create_tasks n cap p i).
Proof using FrameAny0. induction n as [|n IH]; intros i; cbn [create_tasks]; always_auto. Qed.
#[local] Hint Resolve fa_create_tasks : always.
Lemma fa_do_init cap epfd now : still (do_init_with cap epfd now).
Proof using FrameAny0. unfold do_init_with, create_pool. always_auto. Qed.
#[local] Hint Resolve fa_do_init : always.
Lemma fa_new_task epfd now attr u : still (coroutine_new_task epfd now attr u).
Proof using FrameAny0. unfold coroutine_new_task, do_init_curr_thread_env, new_task. always_auto. Qed.
Lemma fa_fix co timeout : still (fix_coroutine_timeout co timeout).
Proof using FrameAny0. unfold fix_coroutine_timeout. always_auto. Qed.
Lemma fa_prepare active evs : still (prepare_all active evs).
Proof using FrameAny0. induction evs as [|ev evs IH]; cbn [prepare_all]; unfold prepare_one, prepare_poll_event; always_auto. Qed.
#[local] Hint Resolve fa_prepare : always.
Lemma fa_eventloop_wait events now : still (eventloop_wait events now).
Proof using FrameAny0. unfold eventloop_wait. always_auto. Qed.
Lemma fa_eventloop_start epfd now0 now : still (eventloop_start epfd now0 now).
Proof using FrameAny0. unfold eventloop_start, do_init_curr_thread_env. always_auto. Qed.
#[local] Hint Resolve fa_new_task fa_eventloop_wait fa_eventloop_start : always.

(** ** The objects of a call of [poll_inner] *)

(** Outside the block of a call. *)
Definition outside (q : Z) (n : nat) : Prop := forall x, fr_kept x -> x < q \/ q + Z.of_nat n < x.

Lemma fa_free_arg q n : outside q n -> still (free_arg q n).
Proof using FrameAny0.
  intros Hx. unfold free_arg. apply always_bind; [apply _| |].
  - apply always_modify. intros w. transitivity (w <| w_polls := delete q (w_polls w) |>); [apply fa_polls|by refine (fr_same _ _ _ _ _ _ _)].
  - intros _. refine (fr_on_heap _ _ _ _). intros x Hk. apply always_modify. intros h it Hit. exists it. cbn. split; [|done].
    specialize (Hx x Hk). rewrite lookup_delete_ne by lia. rewrite lookup_delete_block. by rewrite decide_False by lia.
Qed.

Lemma fa_leave q fds : outside q (length fds) -> still (poll_inner_leave q fds).
Proof using All. intros Hx. pose proof (fa_free_arg _ _ Hx). unfold poll_inner_leave. always_auto. Qed.

(** All items whose deadline is kept are there. *)
Definition present w : Prop := forall x, fr_kept x -> is_Some (lh_items (w_heap w) !! x).

(** First code that keeps the items, then code that relies on it. *)
Lemma fa_then {A B} (m : MW A) (k : A -> MW B) w :
  present w -> still m -> (forall a w1, present w1 -> wp (k a) (fun _ => R w1) any_error w1) ->
  wp (m ≫= k) (fun _ => R w) any_error w.
Proof using FrameAny0.
  intros Hx Hm Hk. wstep. refine (wp_mono _ _ _ _ _ _ (Hm w) _ (fun e H => H)). intros a w1 H1.
  assert (present w1) as Hx1.
  { intros x Hkx. destruct (Hx x Hkx) as [it Hit]. destruct (fr_due _ _ x H1 Hkx it Hit) as (it1 & Hit1 & _). by eexists. }
  refine (wp_mono _ _ _ _ _ _ (Hk a w1 Hx1) _ (fun e H => H)). intros b w2 H2. by transitivity w1.
Qed.

(** The objects of a new call are elsewhere. *)
Lemma alloc_due c n w p w1 : alloc_arg c n w = Ok (p, w1) -> present w -> (forall x, fr_kept x -> x < p) /\ R w w1.
Proof using FrameAny0.
  unfold alloc_arg. set (q := fresh_addr (lh_items (w_heap w))). intros [= <- <-] Hx.
  assert (forall x, fr_kept x -> x < q) as Hlt by (intros x Hk; by apply (fresh_addr_spec (lh_items (w_heap w))), Hx).
  split; [done|]. etrans; [apply (fa_polls w)|]. etrans; [apply (fr_heap (w <| w_polls := _ |>))|by refine (fr_same _ _ _ _ _ _ _)].
  intros x Hk it Hit. exists it. split; [|done]. specialize (Hlt x Hk). cbn.
  rewrite lookup_insert_ne by lia. rewrite lookup_insert_block. by rewrite decide_False by lia.
Qed.

Lemma fa_enter fds timeout pf now u w :
  present w -> wp (poll_inner_enter fds timeout pf now u) (fun _ => R w) any_error w.
Proof using All.
  intros Hx. unfold poll_inner_enter. apply fa_then; [done|auto with always|]. clear Hx w. intros self w Hx.
  apply fa_then; [done|auto with always|]. clear Hx w. intros co w Hx.
  apply fa_then; [done|apply fa_fix|]. clear Hx w. intros [tmo ist] w Hx. case_match; [apply wp_ret; reflexivity|].
  wstep. unfold wp at 1. destruct (alloc_arg co (length fds) w) as [[p w1]|] eqn:Ha; [|done].
  destruct (alloc_due _ _ _ _ _ Ha Hx) as [Hlt H1].
  match goal with |- wp ?m _ _ _ => cut (still m) end.
  { intros Hm. refine (wp_mono _ _ _ _ _ _ (Hm w1) _ (fun e H => H)). intros out w' H'. by transitivity w1. }
  assert (still (free_arg p (length fds))) as Hfree by (apply fa_free_arg; intros x Hk; left; by apply Hlt).
  assert (forall f, still (on_heap (upd_item p f))) as Hupd.
  { intros f. refine (fr_on_heap _ _ _ _). intros x Hk. apply due_upd_item. left. specialize (Hlt x Hk). lia. }
  always_auto.
Qed.

(** ** A step of the thread *)

Lemma fa_step a w w' :
  present w -> (forall q fds u, w_mode w = M_poll_ret q fds u -> outside q (length fds)) ->
  step_thread a w = Ok (tt, w') -> R w w'.
Proof using All.
  intros Hx Hfree Hrun. refine (wp_Ok _ (fun _ => R w) any_error _ _ _ _ Hrun). unfold step_thread.
  apply wp_bind. change (wp (gets w_mode) ?Q ?E w) with (Q (w_mode w) w). cbv beta.
  assert (forall A (m : MW A), still m -> wp m (fun _ => R w) any_error w) as Hs by auto.
  assert (forall fds timeout pf now u, wp (poll_inner_enter fds timeout pf now u;; mret tt) (fun _ => R w) any_error w) as Hp.
  { intros fds timeout pf now u. wstep.
    refine (wp_mono _ _ _ _ _ _ (fa_enter fds timeout pf now u w Hx) _ (fun e H => H)). intros _ w1 H1. by apply wp_ret. }
  destruct (w_mode w) as [| |u|q fds u| | | |] eqn:Hm, a; try (by apply wp_fail); try destruct u; try (by apply wp_fail); try apply Hp;
    apply Hs; try (apply always_bind; [apply _|apply fa_leave; by eapply Hfree|intros ?]); always_auto.
Qed.
End any.
