(* ===== verification/Boot.v ===== *)
(** Starting a thread: [do_init_curr_thread_env] builds a state that
    represents a scheduler with all its tasks free. *)

From stdpp Require Import gmap list.
From S2P Require Import Prelude TimerList TimerListSpec TimerWheel TimerWheelSpec TimerFrame Context Events.
From S2P Require Import Thread ThreadSpec Sched Coroutine TaskPool CtlInv Poll MemInv MemPoll CtlSteps System.

(** * The lists and the wheel *)

Lemma rep_empty : Rep (mk_lheap ∅ ∅) ∅.
Proof. split; simpl; [by rewrite !dom_empty_L|intros l xs; by rewrite lookup_empty|intros x it l; by rewrite lookup_empty]. Qed.

(** One more empty list, off the wheel. *)
Lemma wheel_alloc_list h timer L :
  Wheel h timer L ->
  exists h' a, calloc_lists 1 h = Ok (a, h') /\ Wheel h' timer (<[a := []]> L) /\ off_wheel timer a /\ L !! a = None /\
    lh_items h' = lh_items h.
Proof.
  intros W. set (a := fresh_addr (lh_lists h)). destruct (fresh_addr_spec (lh_lists h)) as [_ Hf]. fold a in Hf.
  assert (forall l, is_Some (L !! l) -> l < a) as Hold.
  { intros l Hl. apply Hf. rewrite <- elem_of_dom, (rep_dom _ _ (wh_rep _ _ _ W)). by apply elem_of_dom. }
  assert (L !! a = None) as Ha by (destruct (L !! a) eqn:E; [assert (a < a) by (apply Hold; eauto); lia|done]).
  pose proof (wh_shape _ _ _ W) as [S1 S2 S3].
  assert (forall i, 0 <= i < et_size timer -> et_items timer + i <> a) as Hnw.
  { intros i Hi Heq. specialize (S3 i Hi). rewrite Heq, Ha in S3. by destruct S3. }
  eexists _, a. split; [done|]. split_and!; [| |done|done].
  - split; [| |apply W|].
    + apply (rep_alloc_block h L 1 a (wh_rep _ _ _ W)). intros k Hk. by replace k with a by lia.
    + split; [done..|]. intros i Hi. rewrite lookup_insert_ne by (by apply not_eq_sym, Hnw). by apply S3.
    + intros j x it Hj. unfold bucket. rewrite lookup_insert_ne; [by apply (wh_expire _ _ _ W)|].
      intros Heq. unfold slot in Heq. eapply Hnw; [|symmetry; exact Heq]. apply Z.mod_pos_bound. lia.
  - intros Hr. apply (Hnw (a - et_items timer)); lia.
Qed.

Section boot.
Context {K : Type} `{!EpollKernel K}.
Implicit Types w : world K.

Lemma alloc_epoll_run w size epfd now :
  w_heap w = mk_lheap ∅ ∅ -> 0 < GetTickMS now < 2 ^ 62 ->
  exists ep h L, alloc_epoll size epfd now w = Ok (ep, w <| w_heap := h |>) /\
    (forall w', w_heap w' = h -> (forall fd, registered (w_kern w') fd = None) -> MemInv w' ep ∅ None L) /\
    L !! ep_active_list ep = Some [].
Proof using.
  intros Hh Hnow. unfold alloc_epoll.
  destruct (alloc_timer_wheel (mk_lheap ∅ ∅) ∅ 60000 now rep_empty ltac:(lia) ltac:(lia))
    as (h1 & timer & L1 & Hrun1 & W1 & Q1 & Hsz & Hst & _ & Hold & Hidx & Hit1).
  erewrite bind_Ok by (apply on_heap_run; rewrite Hh; exact Hrun1). set (w1 := w <| w_heap := h1 |>).
  destruct (wheel_alloc_list h1 timer L1 W1) as (h2 & a & Hrun2 & W2 & Ha & Hna & Hit2).
  erewrite bind_Ok by (apply (on_heap_run _ w1); exact Hrun2). set (w2 := w1 <| w_heap := h2 |>).
  destruct (wheel_alloc_list h2 timer _ W2) as (h3 & b & Hrun3 & W3 & Hb & Hnb & Hit3).
  erewrite bind_Ok by (apply (on_heap_run _ w2); exact Hrun3).
  assert (b <> a) as Hab by (intros ->; rewrite lookup_insert_eq in Hnb; done).
  assert (forall l xs, <[b := []]> (<[a := []]> L1) !! l = Some xs -> off_wheel timer l -> xs = []) as Hoffs.
  { intros l xs Hl Ho. apply lookup_insert_Some in Hl as [[_ <-]|[_ Hl]]; [done|].
    apply lookup_insert_Some in Hl as [[_ <-]|[_ Hl]]; [done|]. by apply Hold in Hl. }
  eexists _, h3, _. split; [done|]. split; [|simpl; by rewrite lookup_insert_ne, lookup_insert_eq]. intros w' Hw' Hreg.
  split; simpl; rewrite ?Hw'; [exact W3|lia|split; [done|]|split; [done|apply lookup_insert_eq]|done| | | | | |].
  - rewrite lookup_insert_ne, lookup_insert_eq by done. eauto.
  - intros l xs Hl Ho _. by eapply Hoffs.
  - intros q c fds. by rewrite lookup_empty.
  - intros x. rewrite lookup_empty. split; [|by intros [[] _]]. intros Hx. exfalso.
    apply (linked_split _ _ _ _ x W3 (queue_of_spec _ _ _ W3)) in Hx as [[e He]|(l & xs & Ho & Hl & Hx)].
    + apply (queue_lookup _ _ _ W3 _ _ _ (queue_of_spec _ _ _ W3)) in He as (j & Hj & Hx & _).
      pose proof (slot_range _ _ (wh_shape _ _ _ W3) j) as Hsr.
      assert (bucket L1 timer j = bucket (<[b := []]> (<[a := []]> L1)) timer j) as Hbk.
      { assert (b <> slot timer j) as Hbs by (intros Heq; apply Hb; rewrite Heq; exact Hsr).
        assert (a <> slot timer j) as Has by (intros Heq; apply Ha; rewrite Heq; exact Hsr).
        unfold bucket. by rewrite (lookup_insert_ne _ b), (lookup_insert_ne _ a). }
      rewrite <- Hbk in Hx.
      assert (is_Some ((∅ : gmap Z Z) !! x)) as [? Hq]; [|by rewrite lookup_empty in Hq].
      exists (et_start timer + j). apply (queue_lookup _ _ _ W1 _ _ _ Q1). by exists j.
    + rewrite (Hoffs _ _ Hl Ho) in Hx. by apply elem_of_nil in Hx.
  - intros q1 c1 f1 q2 c2 f2. by rewrite lookup_empty.
  - intros fd x. by rewrite Hreg.
  - intros q pc. rewrite lookup_empty. by intros [].
Qed.

(** * Coroutines and the environment *)

(** Everything but the coroutines, the environment and the mode. *)
Definition data_eq w w' : Prop :=
  w_pid w' = w_pid w /\ w_options w' = w_options w /\ w_tasks w' = w_tasks w /\ w_pools w' = w_pools w /\
  w_heap w' = w_heap w /\ w_polls w' = w_polls w /\ w_pitems w' = w_pitems w /\ w_kern w' = w_kern w.

Lemma create_env_run w f arg :
  exists w' rc, create_env f arg w = Ok (fresh_addr (w_cos w), w') /\ data_eq w w' /\ w_env w' = w_env w /\
    w_mode w' = w_mode w /\ w_cos w' = <[fresh_addr (w_cos w) := rc]> (w_cos w) /\
    co_fun rc = f /\ co_arg rc = arg /\ co_state rc = INIT /\ co_main rc = 0.
Proof using.
  unfold create_env. step. step. step. step. unfold alloc_stack. rewrite bind_assoc. step. rewrite bind_assoc. step. step.
  step. step. step. step. eexists _, _. split; [reflexivity|]. split; [done|]. split; [done|]. split; [done|]. split.
  - cbn. rewrite !insert_insert_eq. reflexivity.
  - done.
Qed.

Lemma init_env_run w epfd now :
  in_gEnv w -> w_cos w = ∅ -> w_heap w = mk_lheap ∅ ∅ -> 0 < GetTickMS now < 2 ^ 62 ->
  (forall fd, registered (w_kern w) fd = None) ->
  exists w' e ep main rm L, init_curr_thread_env epfd now w = Ok (tt, w') /\
    w_env w' = Some e /\ stack_env e [main] /\ env_epoll e = Some ep /\ w_cos w' = {[ main := rm ]} /\
    w_pid w' = w_pid w /\ w_options w' = w_options w /\ w_tasks w' = w_tasks w /\ w_pools w' = w_pools w /\
    MemInv w' ep ∅ None L /\ L !! ep_active_list ep = Some [].
Proof using.
  intros Hpid Hcos Hheap Hnow Hreg. unfold init_curr_thread_env. step. rewrite bool_decide_eq_true_2 by done. step.
  set (e0 := mk_env _ _ _ _ _ _ _ _). set (w1 := w <| w_env := Some e0 |>).
  destruct (create_env_run w1 None VNull) as (w2 & rc & Hrun & (D1 & D2 & D3 & D4 & D5 & D6 & D7 & D8) & Henv & Hm & Hco & _).
  rewrite (bind_Ok _ _ _ _ _ Hrun). set (main := fresh_addr (w_cos w1)) in *.
  change (w_env w2 = Some e0) in Henv. change (w_cos w1) with (w_cos w) in Hco. rewrite Hcos in Hco.
  erewrite bind_Ok by (apply upd_co_run; rewrite Hco; apply lookup_insert_eq). cbv beta.
  step. step. erewrite bind_Ok by (apply array_set_run; simpl; lia). step.
  match goal with |- context [(_ ≫= _) ?w0] => set (w3 := w0) end.
  destruct (alloc_epoll_run w3 10240 epfd now) as (ep & h & L & Hep & HM & Hst); [change (w_heap w2 = mk_lheap ∅ ∅); rewrite D5; exact Hheap|done|].
  rewrite (bind_Ok _ _ _ _ _ Hep). erewrite upd_env_run by done.
  eexists _, _, ep, main, _, L. split; [done|]. split; [done|]. split.
  { split; cbn; [done|done|]. intros i c Hi. apply list_lookup_singleton_Some in Hi as [-> <-]. done. }
  split; [done|]. split; [cbn; rewrite Hco; rewrite !insert_insert_eq; apply insert_empty|].
  split_and!; [done..| |done]. apply HM; [done|]. intros fd. change (registered (w_kern w2) fd = None). rewrite D8. apply Hreg.
Qed.

(** * The pool *)

(** What does not matter to the creation of tasks. *)
Definition pool_eq w w' : Prop := w_pid w' = w_pid w /\ w_options w' = w_options w /\ mem_same w w'.

(** [create_task] makes a task that waits in [task_main], and puts it on the
    free list. *)
Lemma create_task_run w e main rm p pool cap i :
  in_gEnv w -> w_env w = Some e -> stack_env e [main] -> w_cos w !! main = Some rm -> w_pools w !! p = Some pool ->
  0 <= i < cap ->
  let t := fresh_addr (w_tasks w) in let c := fresh_addr (w_cos w) in
  exists w' e' tk rc rm', create_task cap p i w = Ok (tt, w') /\ pool_eq w w' /\
    w_env w' = Some e' /\ stack_env e' [main] /\ env_eq e e' /\
    w_tasks w' = <[t := tk]> (w_tasks w) /\ w_cos w' = <[main := rm']> (<[c := rc]> (w_cos w)) /\
    w_pools w' = <[p := pool <| tp_tasks ::= fun l => l ++ [t] |> <| tp_free := Some t |>]> (w_pools w) /\
    tk_next tk = tp_free pool /\ tk_state tk = TASK_WAITING /\ co_kont rc = K_task_wait /\
    tk_coroutine tk = Some c /\ tk_pool tk = Some p /\ co_arg rc = VTask t /\ co_task rc = Some t /\ co_state rc = RUNNING /\ co_main rc = 0.
Proof using.
  intros Hpid He Hse Hmain Hpl Hi t c.
  assert (main <> c) as Hmc.
  { destruct (fresh_addr_spec (w_cos w)) as [_ Hf]. intros ->. assert (c < c); [apply Hf; eauto|lia]. }
  unfold create_task. step. fold t. step. unfold store_task. rewrite bool_decide_eq_true_2 by done. step. step.
  unfold coroutine_new. rewrite bind_assoc.
  match goal with |- context [(_ ≫= _) ?w0] => set (w1 := w0) end.
  rewrite (bind_Ok _ _ _ _ _ (get_curr_thread_env_run w1 Hpid)). change (w_env w1) with (w_env w). rewrite He.
  destruct (create_env_run w1 (Some F_task_main) (VTask t)) as (w2 & rc0 & Hrun & (D1 & D2 & D3 & D4 & D5 & D6 & D7 & D8) & Henv & Hm & Hco & F1 & F2 & F3 & F4).
  rewrite (bind_Ok _ _ _ _ _ Hrun). change (fresh_addr (w_cos w1)) with c in *. change (w_cos w1) with (w_cos w) in Hco.
  clear Hrun.
  assert (w_tasks w2 = <[t := zero_task <| tk_pool := Some p |>]> (w_tasks w)) as Htk2 by (rewrite D3; cbn; by rewrite insert_insert_eq).
  assert (w_pools w2 = <[p := pool <| tp_tasks ::= fun l => l ++ [t] |>]> (w_pools w)) as Hpl2 by (by rewrite D4).
  assert (w_env w2 = Some e) as He2 by (rewrite Henv; exact He).
  assert (pool_eq w w2) as HP2 by (unfold pool_eq, mem_same; split_and!; assumption).
  clear D1 D2 D3 D4 D5 D6 D7 D8 Henv Hm. clearbody w1. clear w1.
  erewrite bind_Ok by (apply upd_co_run; rewrite Hco; apply lookup_insert_eq). cbv beta.
  erewrite bind_Ok by (apply upd_task_run; cbn; rewrite Htk2; apply lookup_insert_eq). cbv beta.
  erewrite bind_Ok by (apply get_pool_run; cbn; rewrite Hpl2; apply lookup_insert_eq). cbv beta.
  step. step.
  erewrite bind_Ok by (apply upd_pool_run; cbn; rewrite Hpl2; apply lookup_insert_eq). cbv beta.
  match goal with |- context [(_ ≫= _) ?w0] => set (w3 := w0) end.
  set (rc1 := rc0 <| co_task := Some t |>).
  assert (w_cos w3 = <[c := rc1]> (w_cos w)) as Hco3 by (unfold w3; cbn; rewrite Hco; by rewrite insert_insert_eq).
  assert (exists tk, w_tasks w3 = <[t := tk]> (w_tasks w) /\ tk_next tk = tp_free pool /\ tk_state tk = TASK_WAITING /\
    tk_coroutine tk = Some c /\ tk_pool tk = Some p) as (tk & Htk3 & T1 & T2 & T3 & T4).
  { eexists. split; [unfold w3; cbn; rewrite Htk2, !insert_insert_eq; done|done]. }
  assert (w_pools w3 = <[p := pool <| tp_tasks ::= fun l => l ++ [t] |> <| tp_free := Some t |>]> (w_pools w)) as Hpl3
    by (unfold w3; cbn; by rewrite Hpl2, insert_insert_eq).
  assert (pool_eq w w3 /\ w_env w3 = Some e) as [HP3 He3] by (split; [exact HP2|exact He2]).
  clearbody w3. clear Htk2 Hpl2 He2 HP2 Hco w2.
  assert (w_cos w3 !! c = Some rc1) as Hc3 by (rewrite Hco3; apply lookup_insert_eq).
  assert (w_cos w3 !! main = Some rm) as Hm3 by (by rewrite Hco3, lookup_insert_ne).
  assert (in_gEnv w3) as Hpid3 by (unfold in_gEnv in *; by destruct HP3 as (-> & _)).
  destruct (coroutine_start_run w3 e [] main c rm rc1 K_create Hpid3 He3 Hse ltac:(done) Hm3 Hc3 Hmc) as (e4 & Hstart & Hse4 & Heq4).
  { change (co_state rc1) with (co_state rc0). by rewrite F3. }
  rewrite (bind_Ok _ _ _ _ _ Hstart). clear Hstart.
  set (w4 := switched _ e4 main rm K_create M_entry). set (rc4 := entered w3 c rc1).
  assert (w_cos w4 = <[main := rm <| co_kont := K_create |>]> (<[c := rc4]> (w_cos w))) as Hco4
    by (unfold w4, switched; cbn; by rewrite Hco3, insert_insert_eq).
  assert (w_cos w4 !! c = Some rc4) as Hc4 by (by rewrite Hco4, lookup_insert_ne, lookup_insert_eq).
  pose proof (coroutine_self_run w4 e4 [main] c Hpid3 eq_refl Hse4) as Hself4.
  unfold coroutine_main. rewrite bind_assoc, (bind_Ok _ _ _ _ _ Hself4), bind_assoc. step. rewrite bind_assoc. step.
  change (co_fun rc4) with (co_fun rc0). rewrite F1. step. set (w5 := w4 <| w_mode := M_task_loop |>).
  unfold task_main_loop, self_task. rewrite bind_assoc, (bind_Ok _ _ _ _ _ (coroutine_self_run w5 e4 [main] c Hpid3 eq_refl Hse4)), bind_assoc.
  step. rewrite bind_assoc. step. change (co_arg rc4) with (co_arg rc0). rewrite F2. step.
  erewrite bind_Ok by (apply get_task_run; change (w_tasks w5) with (w_tasks w3); rewrite Htk3; apply lookup_insert_eq).
  cbv beta. rewrite T2. unfold coroutine_yield_context. rewrite (bind_Ok _ _ _ _ _ (get_curr_thread_env_run w5 Hpid3)).
  change (w_env w5) with (Some e4). step.
  destruct (yield_env_run w5 e4 [] main c rc4 (rm <| co_kont := K_create |>) K_task_wait Hpid3 eq_refl Hse4 ltac:(done) Hc4)
    as (e6 & Hyield & Hse6 & Heq6); [change (w_cos w5) with (w_cos w4); rewrite Hco4; apply lookup_insert_eq|by apply not_eq_sym|].
  rewrite Hyield.
  eexists _, e6, tk, (rc4 <| co_kont := K_task_wait |>), (rm <| co_kont := K_create |>).
  split; [done|]. split_and!; try done.
  - destruct Heq4 as (?&?&?&?), Heq6 as (?&?&?&?). unfold env_eq. split_and!; congruence.
  - unfold switched. cbn. rewrite Hco3, insert_insert_eq. rewrite (insert_insert_ne _ c main) by (by apply not_eq_sym).
    by rewrite insert_insert_eq.
Qed.

(** The pool under construction: [th_co th] holds the tasks made so far, all
    free. *)
Record Built w (th : thread) (e0 : env_t) (free : list Z) : Prop := {
  bu_pid : in_gEnv w;
  bu_env : exists e, w_env w = Some e /\ stack_env e [th_main th] /\ env_eq e0 e;
  bu_main : is_Some (w_cos w !! th_main th);
  bu_inj : forall t1 t2 c, th_co th !! t1 = Some c -> th_co th !! t2 = Some c -> t1 = t2;
  bu_tasks : forall t c, th_co th !! t = Some c -> c <> th_main th /\
    exists tk rc, w_tasks w !! t = Some tk /\ w_cos w !! c = Some rc /\ task_static th t c tk rc /\
      task_phase PC_events T_free tk rc;
  bu_nodup : NoDup free;
  bu_free : forall t, t ∈ free <-> is_Some (th_co th !! t);
  bu_pool : exists pool, w_pools w !! th_pool th = Some pool /\ tp_free pool = head free /\ tp_working pool = 0 /\
    tp_tasks pool = reverse free;
  bu_chain : chain (w_tasks w) free
}.

Definition add_task (th : thread) (t c : Z) : thread := mk_thread (th_main th) (th_pool th) (<[t := c]> (th_co th)).

Lemma create_task_built w th e0 free cap i :
  Built w th e0 free -> 0 <= i < cap ->
  exists w' t c, create_task cap (th_pool th) i w = Ok (tt, w') /\ pool_eq w w' /\ t ∉ free /\
    Built w' (add_task th t c) e0 (t :: free).
Proof using.
  intros [B1 (e & He & Hse & Heq) [rm Hrm] B4 B5 B6 B7 (pool & Hpl & P1 & P2 & P3) B9] Hi.
  destruct (create_task_run w e (th_main th) rm (th_pool th) pool cap i B1 He Hse Hrm Hpl Hi)
    as (w' & e' & tk & rc & rm' & Hrun & HP & He' & Hse' & Heq' & Htk' & Hco' & Hpl' & T1 & T2 & T3 & T4 & T5 & T6 & T7 & T8 & T9).
  set (t := fresh_addr (w_tasks w)) in *. set (c := fresh_addr (w_cos w)) in *.
  assert (forall x, is_Some (w_tasks w !! x) -> x <> t) as Hft.
  { intros x Hx ->. apply (fresh_addr_spec (w_tasks w)) in Hx. fold t in Hx. lia. }
  assert (forall x, is_Some (w_cos w !! x) -> x <> c) as Hfc.
  { intros x Hx ->. apply (fresh_addr_spec (w_cos w)) in Hx. fold c in Hx. lia. }
  assert (forall x y, th_co th !! x = Some y -> x <> t /\ y <> c) as Hold.
  { intros x y Hx. destruct (B5 _ _ Hx) as (_ & tk0 & rc0 & H1 & H2 & _). split; [apply Hft|apply Hfc]; eauto. }
  assert (t ∉ free) as Htf by (intros Ht; apply B7 in Ht as [y Hy]; by destruct (Hold _ _ Hy)).
  assert (th_main th <> c) as Hmc by (apply Hfc; eauto).
  exists w', t, c. split; [exact Hrun|]. split; [done|]. split; [done|]. split; simpl.
  - unfold in_gEnv in *. by destruct HP as (-> & _).
  - exists e'. split_and!; [done|done|]. destruct Heq as (?&?&?&?), Heq' as (?&?&?&?). unfold env_eq. split_and!; congruence.
  - rewrite Hco', lookup_insert_eq. eauto.
  - intros t1 t2 y. rewrite !lookup_insert_Some.
    intros [[<- <-]|[_ H1]] [[<- Hy]|[_ H2]]; [done|by destruct (Hold _ _ H2)|subst; by destruct (Hold _ _ H1)|by eapply B4].
  - intros x y. rewrite lookup_insert_Some. intros [[<- <-]|[_ Hx]].
    + split; [by apply not_eq_sym|]. exists tk, rc.
      rewrite Htk', Hco', lookup_insert_eq, lookup_insert_ne, lookup_insert_eq by done.
      split; [done|]. split; [done|]. split; by split.
    + destruct (Hold _ _ Hx) as [Hxt Hyc]. destruct (B5 _ _ Hx) as (Hym & tk0 & rc0 & H1 & H2 & [S1 S2 S3 S4 S5 S6] & H4).
      split; [done|]. exists tk0, rc0. rewrite Htk', Hco', !lookup_insert_ne by (by apply not_eq_sym).
      split; [done|]. split; [done|]. split; [by split|done].
  - by constructor.
  - intros x. rewrite elem_of_cons, lookup_insert_is_Some, B7. split.
    + intros [->|Hx]; [by left|]. right. split; [|done]. intros <-. destruct Hx as [y Hy]. by destruct (Hold _ _ Hy).
    + intros [->|[_ Hx]]; [by left|by right].
  - eexists. rewrite Hpl', lookup_insert_eq. split; [done|]. simpl. split_and!; [done|done|]. rewrite P3. by rewrite reverse_cons.
  - split; [exists tk; rewrite Htk', lookup_insert_eq; by rewrite T1|]. apply (chain_ext (w_tasks w)); [|done].
    intros x Hx. rewrite Htk', lookup_insert_ne; [done|]. by intros <-.
Qed.

Lemma create_tasks_built cap n : forall w th e0 free i,
  Built w th e0 free -> 0 <= i -> i + Z.of_nat n <= cap ->
  exists w' co free', create_tasks n cap (th_pool th) i w = Ok (tt, w') /\ pool_eq w w' /\
    length free' = (length free + n)%nat /\ Built w' (mk_thread (th_main th) (th_pool th) co) e0 free'.
Proof using.
  induction n as [|n IH]; intros w th e0 free i B Hi Hc.
  - exists w, (th_co th), free. split; [done|]. split; [done|]. split; [lia|]. by destruct th.
  - destruct (create_task_built w th e0 free cap i B ltac:(lia)) as (w1 & t & c & Hrun & HP & _ & B1).
    destruct (IH w1 (add_task th t c) e0 (t :: free) (i + 1) B1 ltac:(lia) ltac:(lia)) as (w2 & co & free' & Hrun2 & HP2 & Hlen & B2).
    exists w2, co, free'. split; [simpl; by rewrite (bind_Ok _ _ _ _ _ Hrun)|]. simpl in Hlen. split_and!; [|lia|done].
    destruct HP as (?&?&?), HP2 as (?&?&?). split_and!; [congruence..|by transitivity w1].
Qed.

(** * The whole initialisation *)

(** A thread before its first call, with the clock at [now]. *)
Record blank w (now : timeval) : Prop := {
  bl_pid : in_gEnv w;
  bl_cos : w_cos w = ∅;
  bl_tasks : w_tasks w = ∅;
  bl_heap : w_heap w = mk_lheap ∅ ∅;
  bl_reg : forall fd, registered (w_kern w) fd = None;
  bl_mode : w_mode w = M_user U_main;
  bl_now : 0 < GetTickMS now < 2 ^ 62
}.

(** Main runs, all tasks are free. *)
Definition boot_sched (co : gmap Z Z) (free : list Z) : sched :=
  mk_sched (PC_user U_main) [] (K_user U_main) free ((fun _ => T_free) <$> co).

Lemma boot_sched_ok co free :
  NoDup free -> (forall t, t ∈ free <-> is_Some (co !! t)) -> sched_ok (boot_sched co free).
Proof using.
  intros Hnd Hf. split; cbn.
  - constructor.
  - done.
  - intros t st Ht. rewrite lookup_fmap in Ht. apply fmap_Some in Ht as (c & Hc & ->). simpl. apply Hf. eauto.
  - done.
  - intros t Ht. by apply elem_of_nil in Ht.
  - intros t Ht. rewrite lookup_fmap. apply Hf in Ht as [c ->]. done.
  - done.
  - done.
Qed.

Lemma boot_rel w cap epfd now :
  blank w now -> 0 <= opt_task_per_thread (w_options w) <= cap -> opt_task_per_thread (w_options w) < 2 ^ 31 ->
  exists w' th free, do_init_with cap epfd now w = Ok (tt, w') /\ thread_ok th /\
    Z.of_nat (length free) = opt_task_per_thread (w_options w) /\ Rel th w' (boot_sched (th_co th) free) [].
Proof using.
  intros [Hpid Hcos _ Hheap Hreg Hmode Hnow] Hn Hmax. unfold do_init_with. step.
  destruct (init_env_run w epfd now Hpid Hcos Hheap Hnow Hreg)
    as (w1 & e1 & ep & main & rm & L & Hrun1 & He1 & Hse1 & Hep & Hco1 & Hpid1 & Hopt1 & Htk1 & Hpl1 & HM & Hact).
  rewrite (bind_Ok _ _ _ _ _ Hrun1). step. rewrite Hopt1. set (n := opt_task_per_thread (w_options w)) in *.
  unfold create_pool. rewrite bind_assoc. step. rewrite bind_assoc. step. set (p := fresh_addr (w_pools w1)).
  set (w2 := w1 <| w_pools := _ |>).
  assert (Built w2 (mk_thread main p ∅) e1 []) as B.
  { split; simpl.
    - unfold in_gEnv in *. simpl. lia.
    - exists e1. by split_and!.
    - exists rm. rewrite Hco1. apply lookup_insert_eq.
    - intros t1 t2 c. by rewrite lookup_empty.
    - intros t c. by rewrite lookup_empty.
    - constructor.
    - intros t. rewrite lookup_empty. split; [by intros ?%elem_of_nil|by intros []].
    - eexists. split; [apply lookup_insert_eq|]. done.
    - done. }
  destruct (create_tasks_built cap (Z.to_nat n) w2 _ e1 [] 0 B ltac:(lia) ltac:(lia))
    as (w3 & co & free & Hrun3 & (Q1 & Q2 & Q3 & Q4 & Q5 & Q6) & Hlen & B3). cbn [th_main th_pool] in *.
  rewrite bind_assoc, (bind_Ok _ _ _ _ _ Hrun3).
  destruct B3 as [C1 (e3 & He3 & Hse3 & Heq3) [rm3 Hrm3] C4 C5 C6 C7 (pool & Hpl3 & P1 & P2 & P3) C9]. cbn [th_main th_pool th_co] in *.
  rewrite bind_assoc. step. step. step. rewrite Hmode.
  set (th := mk_thread main p co).
  assert (size co = length free) as Hsize.
  { rewrite <- (size_list_to_set (C := gset Z) free C6), <- (size_dom (D := gset Z) co). f_equal.
    apply set_eq. intros t. by rewrite elem_of_dom, elem_of_list_to_set, C7. }
  assert (thread_ok th) as TH.
  { split; [exact C4| |change (Z.of_nat (size co) < 2 ^ 31); rewrite Hsize, Hlen; simpl; lia]. intros t Ht. by destruct (C5 _ _ Ht). }
  eexists _, th, free. split; [done|]. split; [done|]. split; [simpl in Hlen; lia|].
  destruct Heq3 as (E1 & E2 & E3 & E4).
  exists ep, ∅, L. split_and!.
  - split; [split|..].
    + exact C1.
    + eexists. split; [done|]. split_and!; [by destruct Hse3|done|]. cbn. congruence.
    + exists rm3. split; [done|]. done.
    + cbn. by rewrite dom_fmap_L.
    + by apply boot_sched_ok.
    + intros t st Ht. cbn in Ht. rewrite lookup_fmap in Ht. apply fmap_Some in Ht as (c & Hc & ->).
      destruct (C5 _ _ Hc) as (_ & tk & rc & H1 & H2 & H3 & H4). exists c, tk, rc. done.
    + eexists. split; [apply lookup_insert_eq|]. split; cbn; [done|simpl in Hlen; lia| |done|]; [rewrite P2; lia|].
      intros t. by rewrite P3, elem_of_reverse.
    + done.
  - eapply mem_ext; [..|exact HM]; done.
  - intros q c fds. rewrite lookup_empty. split; [done|]. intros (t & _ & [[u Hu]|(u & Hu & _)]); [|done].
    cbn in Hu. rewrite lookup_fmap in Hu. by apply fmap_Some in Hu as (? & ? & ?).
  - done.
Qed.
End boot.
