(* ===== verification/ThreadProps.v ===== *)
(** What the simulation of [System] says of a thread of libcr: every step is
    one of the abstract scheduler, no run fails, what the kernel points to is
    alive, the pool's counters are right, and waiting tasks are woken. *)

From stdpp Require Import gmap list.
From S2P Require Import Prelude TimerList TimerListSpec ListProgram TimerWheel TimerWheelSpec TimerFrame Context Events.
From S2P Require Import Thread ThreadSpec Sched Coroutine TaskPool CtlInv Poll MemInv MemPoll CtlSteps System Boot.

(** * The queue of the process loop *)

(** There is something to process only while main is in the process loop, or
    below it. *)
Definition loop_inv (s : sched) (xs : list Z) : Prop :=
  xs = [] \/ s_pc s = PC_process \/ (s_stack s <> [] /\ s_main s = K_process).

Lemma pop_loop_inv st s xs : s_stack s <> [] -> loop_inv s xs -> s_pc s <> PC_process -> loop_inv (s_pop st s) xs.
Proof.
  intros Hst [?|[?|[_ Hm]]] Hpc; [by left|done|]. right. unfold s_pop. destruct (s_stack s) as [|t [|c r]]; [done| |].
  - left. cbn. by rewrite Hm.
  - right. by split.
Qed.

Lemma goto_loop_inv p s xs : loop_inv s xs -> s_pc s <> PC_process -> loop_inv (s_goto p s) xs.
Proof. intros [?|[?|?]] Hpc; [by left|done|by right; right]. Qed.

Lemma step_loop_inv s xs a s' xs' : sched_ok s -> sched_step s xs a s' xs' -> loop_inv s xs -> loop_inv s' xs'.
Proof.
  intros OK Hs H. pose proof (so_pc _ OK) as Hpc.
  destruct Hs; try (apply goto_loop_inv; [done|congruence]); try (apply pop_loop_inv; congruence || done).
  - right. right. unfold s_push. cbn. split; [done|]. rewrite H0 in Hpc. by destruct (s_stack s).
  - by left.
  - by right; left.
  - destruct H as [?|[?|[Hne Hm]]]; [by left|congruence|]. right. right. unfold s_push. cbn. split; [done|].
    by destruct (s_stack s).
Qed.

(** A context of the queue stays there until its task is resumed. *)
Lemma queued_step s xs a s' xs' t q fds u :
  sched_ok s -> sched_step s xs a s' xs' -> loop_inv s xs -> q ∈ xs -> s_stat s !! t = Some (T_wait q fds u) ->
  (forall t0 fds0 u0, s_stat s !! t0 = Some (T_wait q fds0 u0) -> t0 = t) ->
  (q ∈ xs' /\ s_stat s' !! t = Some (T_wait q fds u)) \/ s_pc s' = PC_ret q fds u.
Proof.
  intros OK Hs Hli Hq Ht Huniq. pose proof (so_pc _ OK) as Hpc.
  assert (t ∉ s_stack s) as Hoff by (apply (off_stack _ OK _ _ Ht); eauto).
  assert (forall t1 st1 p v k, s_stat s !! t1 = Some st1 -> t1 ∉ s_stack s -> t1 <> t ->
    s_stat (s_push t1 p v k s) !! t = Some (T_wait q fds u)) as Hpush.
  { intros t1 st1 p v k H1 H2 Hne. apply (wait_push _ _ _ _ _ _ _ _ _ _ OK H1 H2). by split; [apply not_eq_sym|]. }
  destruct Hs as [| | |t1 q1 fds1 u1 xs1 Hp -> Hw| | | |v t1 fr ? ? ? Hp Hfr|v fds1|v q1 fds1| | |]; try (left; by split).
  - left. split; [done|]. apply (wait_pop _ _ _ _ _ _ _ _ OK H0). by right.
  - apply elem_of_cons in Hq as [->|Hq].
    + assert (t1 = t) as -> by eauto. rewrite Ht in Hw. injection Hw as <- <-. by right.
    + destruct (decide (t1 = t)) as [->|Hne]; [rewrite Ht in Hw; injection Hw as <- <- <-; by right|].
      left. split; [done|]. eapply Hpush; [exact Hw| |done]. apply (off_stack _ OK _ _ Hw). eauto.
  - subst. by apply elem_of_nil in Hq.
  - destruct Hli as [->|[?|[? _]]]; [by apply elem_of_nil in Hq|congruence|]. destruct (s_stack s); [done|]. by rewrite H in Hpc.
  - left. split; [done|]. assert (t1 ∈ s_free s) as Hf by (rewrite Hfr; by left). pose proof (so_frees _ OK _ Hf) as Hst1.
    eapply Hpush; [exact Hst1|by apply (free_off_stack _ OK)|]. intros ->. congruence.
  - left. split; [done|]. destruct (s_stack s) as [|t1 r] eqn:E; [done|]. apply (wait_pop _ _ t1 r _ _ _ _ OK E). by right.
Qed.

Section props.
Context {K : Type} `{!EpollKernel K}.
Implicit Types w : world K.

(** * Runs *)

(** The world represents [s] with the queue [xs]. *)
Record Inv (th : thread) w (s : sched) (xs : list Z) : Prop := {
  in_thread : thread_ok th;
  in_rel : Rel th w s xs;
  in_loop : loop_inv s xs
}.

Fixpoint run_thread (acts : list action) : M (world K) unit :=
  match acts with
  | [] => mret tt
  | a :: acts' => step_thread a;; run_thread acts'
  end.

Fixpoint allowed_run (acts : list action) w : Prop :=
  match acts with
  | [] => True
  | a :: acts' => allowed a w /\ forall w', step_thread a w = Ok (tt, w') -> allowed_run acts' w'
  end.

(** Runs in sequence. *)
Lemma run_thread_app acts1 acts2 w w1 : run_thread acts1 w = Ok (tt, w1) -> run_thread (acts1 ++ acts2) w = run_thread acts2 w1.
Proof using.
  revert w. induction acts1 as [|a acts1 IH]; intros w; simpl; [by intros [= ->]|].
  intros H. apply bind_inv in H as ([] & w2 & Ha & H). rewrite (bind_Ok _ _ _ _ _ Ha). by apply IH.
Qed.

Lemma allowed_run_app acts1 acts2 w w1 :
  allowed_run acts1 w -> run_thread acts1 w = Ok (tt, w1) -> allowed_run acts2 w1 -> allowed_run (acts1 ++ acts2) w.
Proof using.
  revert w. induction acts1 as [|a acts1 IH]; intros w; simpl; [by intros _ [= ->]|].
  intros [Ha Hrest] H H2. apply bind_inv in H as ([] & w2 & Hs & H). split; [done|]. intros w' Hw'.
  rewrite Hs in Hw'. injection Hw' as <-. apply IH; [by apply Hrest|done|done].
Qed.

Inductive sched_run (s : sched) (xs : list Z) : list action -> sched -> list Z -> Prop :=
  | sr_nil : sched_run s xs [] s xs
  | sr_cons a acts s1 xs1 s2 xs2 :
      sched_step s xs a s1 xs1 -> sched_run s1 xs1 acts s2 xs2 -> sched_run s xs (a :: acts) s2 xs2.

Lemma inv_sched th w s xs : Inv th w s xs -> sched_ok s.
Proof using. intros [_ (ep & live & L & HC & _) _]. apply HC. Qed.

Lemma inv_mode th w s xs : Inv th w s xs -> w_mode w = mode_of (s_pc s).
Proof using. intros [_ (ep & live & L & HC & _) _]. apply HC. Qed.

Lemma inv_step th w s xs a :
  Inv th w s xs -> allowed a w ->
  exists w' s' xs', step_thread a w = Ok (tt, w') /\ sched_step s xs a s' xs' /\ Inv th w' s' xs'.
Proof using.
  intros I Ha. pose proof (inv_sched _ _ _ _ I) as OK. destruct I as [TH HR HL].
  destruct (allowed_steps th TH w s xs a HR Ha) as (w' & s' & xs' & Hrun & Hs & HR').
  exists w', s', xs'. split; [done|]. split; [done|]. split; [done|done|by eapply step_loop_inv].
Qed.

Lemma inv_run th acts : forall w s xs,
  Inv th w s xs -> allowed_run acts w ->
  exists w' s' xs', run_thread acts w = Ok (tt, w') /\ sched_run s xs acts s' xs' /\ Inv th w' s' xs'.
Proof using.
  induction acts as [|a acts IH]; intros w s xs I Ha.
  - exists w, s, xs. split; [done|]. split; [constructor|done].
  - destruct Ha as [Ha Hrest]. destruct (inv_step th w s xs a I Ha) as (w1 & s1 & xs1 & Hrun1 & Hs1 & I1).
    destruct (IH w1 s1 xs1 I1 (Hrest _ Hrun1)) as (w2 & s2 & xs2 & Hrun2 & Hs2 & I2).
    exists w2, s2, xs2. split; [simpl; by rewrite (bind_Ok _ _ _ _ _ Hrun1)|]. split; [by econstructor|done].
Qed.

(** A thread that has been initialised. *)
Lemma boot_inv w cap epfd now :
  blank w now -> 0 <= opt_task_per_thread (w_options w) <= cap -> opt_task_per_thread (w_options w) < 2 ^ 31 ->
  exists w' th free, do_init_with cap epfd now w = Ok (tt, w') /\
    Z.of_nat (length free) = opt_task_per_thread (w_options w) /\ Inv th w' (boot_sched (th_co th) free) [].
Proof using.
  intros Hb Hn Hmax. destruct (boot_rel w cap epfd now Hb Hn Hmax) as (w' & th & free & Hrun & TH & Hlen & HR).
  exists w', th, free. split; [done|]. split; [done|]. split; [done|done|by left].
Qed.

Lemma inv_waits_unique th w s xs t1 t2 q fds1 u1 fds2 u2 :
  Inv th w s xs -> s_stat s !! t1 = Some (T_wait q fds1 u1) -> s_stat s !! t2 = Some (T_wait q fds2 u2) -> t1 = t2.
Proof using.
  intros [TH (ep & live & L & HC & HM & HW & _) _] H1 H2.
  destruct (base_is_task th w ep s t1 (ci_base _ _ _ _ HC) ltac:(eauto)) as [c1 Hc1].
  destruct (base_is_task th w ep s t2 (ci_base _ _ _ _ HC) ltac:(eauto)) as [c2 Hc2].
  assert (live !! q = Some (c1, fds1)) as E1 by (apply HW; exists t1; split; [done|left; eauto]).
  assert (live !! q = Some (c2, fds2)) as E2 by (apply HW; exists t2; split; [done|left; eauto]).
  rewrite E1 in E2. injection E2 as <- <-. by apply (to_inj _ TH _ _ c1).
Qed.

(** A queued context stays queued, or its task is resumed. *)
Lemma queued_run th acts : forall w s xs w' t q fds u,
  Inv th w s xs -> allowed_run acts w -> q ∈ xs -> s_stat s !! t = Some (T_wait q fds u) ->
  run_thread acts w = Ok (tt, w') ->
  (exists acts1 acts2 w1, acts = acts1 ++ acts2 /\ run_thread acts1 w = Ok (tt, w1) /\ w_mode w1 = M_poll_ret q fds u) \/
  exists s' xs', Inv th w' s' xs' /\ q ∈ xs'.
Proof using.
  induction acts as [|a acts IH]; intros w s xs w' t q fds u I Hal Hq Ht Hrun.
  - right. simpl in Hrun. injection Hrun as <-. by exists s, xs.
  - destruct Hal as [Ha Hrest]. destruct (inv_step th w s xs a I Ha) as (w1 & s1 & xs1 & Hrun1 & Hs1 & I1).
    simpl in Hrun. rewrite (bind_Ok _ _ _ _ _ Hrun1) in Hrun.
    destruct (queued_step s xs a s1 xs1 t q fds u (inv_sched _ _ _ _ I) Hs1 (in_loop _ _ _ _ I) Hq Ht) as [[Hq1 Ht1]|Hpc].
    { intros t0 fds0 u0 Ht0. by eapply (inv_waits_unique th w s xs). }
    + destruct (IH w1 s1 xs1 w' t q fds u I1 (Hrest _ Hrun1) Hq1 Ht1 Hrun) as [(acts1 & acts2 & w2 & -> & Hr & Hm)|Hr]; [left|by right].
      exists (a :: acts1), acts2, w2. split; [done|]. split; [|done]. simpl. by rewrite (bind_Ok _ _ _ _ _ Hrun1).
    + left. exists [a], acts, w1. split; [done|]. split; [simpl; by rewrite (bind_Ok _ _ _ _ _ Hrun1)|].
      rewrite (inv_mode _ _ _ _ I1), Hpc. done.
Qed.

(** By the next [epoll_wait], its task has been resumed. *)
Lemma queued_returns th acts w s xs w' t q fds u :
  Inv th w s xs -> allowed_run acts w -> q ∈ xs -> s_stat s !! t = Some (T_wait q fds u) ->
  run_thread acts w = Ok (tt, w') -> w_mode w' = M_loop_wait ->
  exists acts1 acts2 w1, acts = acts1 ++ acts2 /\ run_thread acts1 w = Ok (tt, w1) /\ w_mode w1 = M_poll_ret q fds u.
Proof using.
  intros I Hal Hq Ht Hrun Hm. destruct (queued_run th acts w s xs w' t q fds u I Hal Hq Ht Hrun) as [?|(s2 & xs2 & I2 & Hq2)]; [done|].
  exfalso. pose proof (inv_mode _ _ _ _ I2) as Hmode. rewrite Hm in Hmode.
  destruct (in_loop _ _ _ _ I2) as [->|[Hproc|[Hne _]]]; [by apply elem_of_nil in Hq2|by rewrite Hproc in Hmode|].
  apply Hne. apply (main_alone s2 (so_pc _ (inv_sched _ _ _ _ I2))). right. left. by destruct (s_pc s2).
Qed.

(** What [eventloop_wait] queues. *)
Lemma events_queue th w s xs w' events now t q fds u e ep :
  Inv th w s xs -> w_mode w = M_loop_wait -> w_env w = Some e -> env_epoll e = Some ep ->
  Forall (fun ev => exists fd, registered (w_kern w) fd = Some (ev_ptr ev)) events -> clock_ok ep now ->
  s_stat s !! t = Some (T_wait q fds u) ->
  (exists it, lh_items (w_heap w) !! q = Some it /\ ti_expire it <= GetTickMS now /\ et_start (ep_timer ep) <= GetTickMS now) \/
  (exists ev i, ev ∈ events /\ ev_ptr ev = item_addr q i /\ (i < length fds)%nat) ->
  step_thread (A_events events now) w = Ok (tt, w') ->
  exists s' xs', Inv th w' s' xs' /\ q ∈ xs' /\ s_stat s' !! t = Some (T_wait q fds u).
Proof using.
  intros I Hm He Hep Hev Hclk Ht Hwhy Hrun. pose proof (inv_sched _ _ _ _ I) as OK. pose proof (inv_mode _ _ _ _ I) as Hmode.
  destruct I as [TH (ep0 & live & L & HC & HM & HW & Hxs) HL]. rewrite Hm in Hmode.
  assert (s_pc s = PC_events) as Hpc by (by destruct (s_pc s)).
  pose proof (main_alone s (so_pc _ OK) ltac:(by right; left)) as Hst.
  assert (detached s = None) as Hd by (unfold detached; by rewrite Hpc). rewrite Hd in HM.
  destruct (cb_env _ _ _ _ (ci_base _ _ _ _ HC)) as (e0 & He0 & _ & _ & Hep0). rewrite He in He0. injection He0 as <-.
  rewrite Hep in Hep0. injection Hep0 as <-.
  destruct (base_is_task th w ep s t (ci_base _ _ _ _ HC) ltac:(eauto)) as [c Hc].
  assert (live !! q = Some (c, fds)) as Hlive by (apply HW; exists t; split; [done|left; eauto]).
  destruct (eventloop_wait_mem w e ep live L events now He Hep HM Hev Hclk)
    as (w1 & ep' & L' & xs' & Hrun1 & Heq & HM' & _ & Hxs' & Hexp & Hevs).
  assert (w1 = w') as ->.
  { unfold step_thread in Hrun. rewrite (bind_Ok _ _ _ _ _ (gets_run w_mode w)), Hm, Hrun1 in Hrun. by injection Hrun. }
  exists (s_goto PC_process s), xs'. split; [split; [done| |by right; left]|split; [|done]].
  - by eapply (goto_main th w w' e ep ep').
  - destruct Hwhy as [(it & Hit & H1 & H2)|(ev & i & Hin & Hptr & Hi)]; [by eapply Hexp|].
    destruct (Hevs ev Hin) as (q2 & c2 & fds2 & i2 & Hq2 & Hptr2 & Hi2 & Hin2).
    assert (q2 = q) as ->; [|done].
    eapply (block_unique w ep live None L HM q2 c2 fds2 q c fds (ev_ptr ev)); [done..| |]; unfold item_addr in *; lia.
Qed.

(** * Reachable states *)

(** From the initialisation, with at most as many tasks as the task array
    has room for, by allowed steps. *)
Inductive Reach : world K -> Prop :=
  | reach_boot w0 cap epfd now w :
      blank w0 now -> 0 <= opt_task_per_thread (w_options w0) <= cap -> opt_task_per_thread (w_options w0) < 2 ^ 31 ->
      do_init_with cap epfd now w0 = Ok (tt, w) -> Reach w
  | reach_step w a w' : Reach w -> allowed a w -> step_thread a w = Ok (tt, w') -> Reach w'.

Lemma reach_inv w : Reach w -> exists th s xs, Inv th w s xs.
Proof using.
  induction 1 as [w0 cap epfd now w Hb Hn Hmax Hrun|w a w' _ (th & s & xs & I) Ha Hrun].
  - destruct (boot_inv w0 cap epfd now Hb Hn Hmax) as (w1 & th & free & Hrun1 & _ & I).
    rewrite Hrun in Hrun1. injection Hrun1 as <-. by exists th, (boot_sched (th_co th) free), [].
  - destruct (inv_step th w s xs a I Ha) as (w1 & s1 & xs1 & Hrun1 & _ & I1).
    rewrite Hrun in Hrun1. injection Hrun1 as <-. by exists th, s1, xs1.
Qed.

(** Which task a coroutine in [poll_inner] belongs to. *)
Lemma inv_owner th w s xs q c fds :
  Inv th w s xs -> (exists t, th_co th !! t = Some c /\ owns s t q fds) ->
  exists rc u, w_cos w !! c = Some rc /\ (co_kont rc = K_poll q fds u \/ w_mode w = M_poll_ret q fds u).
Proof using.
  intros I (t & Hc & Ho). pose proof (inv_sched _ _ _ _ I) as OK. pose proof (inv_mode _ _ _ _ I) as Hm.
  destruct I as [TH (ep & live & L & HC & _) _].
  destruct Ho as [[u Hu]|(u & Hpc & Hh)].
  - destruct (ci_tasks _ _ _ _ HC t _ Hu) as (c' & tk & rc & Hc' & _ & Hrc & _ & _ & Hk).
    rewrite Hc in Hc'. injection Hc' as <-. exists rc, u. by split; [|left].
  - destruct (ci_tasks _ _ _ _ HC t _ (so_head _ OK t Hh)) as (c' & tk & rc & Hc' & _ & Hrc & _).
    rewrite Hc in Hc'. injection Hc' as <-. exists rc, u. split; [done|right]. by rewrite Hm, Hpc.
Qed.

(** In the process loop's absence, a coroutine that will continue in
    [poll_inner] belongs to a waiting task. *)
Lemma inv_waiting th w s xs t c rc q fds u :
  Inv th w s xs -> w_mode w = M_loop_wait -> th_co th !! t = Some c -> w_cos w !! c = Some rc -> co_kont rc = K_poll q fds u ->
  s_stat s !! t = Some (T_wait q fds u).
Proof using.
  intros I Hm Hc Hrc Hk. pose proof (inv_sched _ _ _ _ I) as OK. pose proof (inv_mode _ _ _ _ I) as Hmode.
  destruct I as [TH (ep & live & L & HC & _) _]. rewrite Hm in Hmode.
  assert (s_pc s = PC_events) as Hpc by (by destruct (s_pc s)).
  pose proof (main_alone s (so_pc _ OK) ltac:(by right; left)) as Hst.
  assert (is_Some (s_stat s !! t)) as [st Hst'] by (apply elem_of_dom; rewrite (cb_dom _ _ _ _ (ci_base _ _ _ _ HC)); apply elem_of_dom; eauto).
  destruct (ci_tasks _ _ _ _ HC t st Hst') as (c' & tk & rc' & Hc' & _ & Hrc' & _ & Hph).
  rewrite Hc in Hc'. injection Hc' as <-. rewrite Hrc in Hrc'. injection Hrc' as <-.
  destruct st as [|v|q' fds' v|]; simpl in Hph.
  - pose proof (so_stat _ OK _ _ Hst') as Hh. simpl in Hh. by rewrite Hst in Hh.
  - destruct Hph. congruence.
  - destruct Hph. congruence.
  - destruct Hph. congruence.
Qed.

(** The tasks of the array are the thread's. *)
Lemma inv_task_co th w s xs e p pool t tk c :
  Inv th w s xs -> w_env w = Some e -> env_pool e = Some p -> w_pools w !! p = Some pool -> t ∈ tp_tasks pool ->
  w_tasks w !! t = Some tk -> tk_coroutine tk = Some c -> th_co th !! t = Some c.
Proof using.
  intros [TH (ep & live & L & HC & _) _] He Hp Hpl Ht Htk Hc. pose proof (ci_base _ _ _ _ HC) as B.
  destruct (cb_env _ _ _ _ B) as (e0 & He0 & _ & Hp0 & _). destruct (ci_pool _ _ _ _ HC) as (pool0 & Hpl0 & HP).
  assert (e0 = e) as -> by congruence. assert (th_pool th = p) as <- by congruence. assert (pool0 = pool) as -> by congruence.
  apply (pi_tasks _ _ _ _ HP) in Ht.
  assert (is_Some (s_stat s !! t)) as [st Hst] by (apply elem_of_dom; rewrite (cb_dom _ _ _ _ B); by apply elem_of_dom).
  destruct (ci_tasks _ _ _ _ HC t st Hst) as (c' & tk' & rc & Hc' & Htk' & _ & Hsta & _).
  rewrite Htk in Htk'. injection Htk' as <-. pose proof (ts_coroutine _ _ _ _ _ Hsta). congruence.
Qed.

(** * The properties *)

(** C1. Every step of a thread is a step of the abstract scheduler: under the
    invariant, an allowed step of the code (a call of [coroutine_new_task],
    [coroutine_poll], [coroutine_eventloop], the return of a task's function,
    the code between two switches, or an answer of [epoll_wait]) succeeds, and
    the state it leaves represents the state the scheduler goes to. *)
Theorem thread_simulates_scheduler th w s xs a :
  Inv th w s xs -> allowed a w ->
  exists w' s' xs', step_thread a w = Ok (tt, w') /\ sched_step s xs a s' xs' /\ Inv th w' s' xs'.
Proof using. apply inv_step. Qed.

(** C2. A thread never goes wrong: after [do_init_curr_thread_env] with at
    most as many tasks as the task array has room for, in every state reached
    by allowed steps, an allowed step runs without a bad pointer, an access
    out of bounds, a division by zero or an exhausted loop. *)
Theorem thread_never_fails w a : Reach w -> allowed a w -> exists w', step_thread a w = Ok (tt, w').
Proof using.
  intros HR Ha. destruct (reach_inv w HR) as (th & s & xs & I).
  destruct (inv_step th w s xs a I Ha) as (w' & s' & xs' & Hrun & _). by exists w'.
Qed.

(** C7. The kernel never holds a dangling pointer: in a reachable state, the
    pointer registered with epoll for a descriptor is the address of an
    initialised item of a poll context that exists, at the index where the
    descriptor is, and the context belongs to a coroutine that is inside
    [poll_inner] with it. *)
Theorem registrations_are_live w fd a :
  Reach w -> registered (w_kern w) fd = Some a ->
  exists q i pc it pi c rc fds u f,
    a = item_addr q i /\ w_polls w !! q = Some pc /\ length (pc_fds pc) = length fds /\
    lh_items (w_heap w) !! a = Some it /\ ti_prepare it = Some prepare_poll_event_ptr /\ ti_arg it = Some a /\
    w_pitems w !! a = Some pi /\ pi_self pi = i /\ pi_poll pi = q /\ fds !! i = Some f /\ pfd_fd f = fd /\
    w_cos w !! c = Some rc /\ (co_kont rc = K_poll q fds u \/ w_mode w = M_poll_ret q fds u).
Proof using.
  intros HR Hreg. destruct (reach_inv w HR) as (th & s & xs & I). pose proof (in_rel _ _ _ _ I) as (ep & live & L & HC & HM & HW & _).
  destruct (mi_reg _ _ _ _ _ HM _ _ Hreg) as (_ & q & c & fds & i & f & Hq & -> & Hf & Hfd & (it & Hit & H1 & H2) & (pi & Hpi & H3 & H4)).
  destruct (mi_live _ _ _ _ _ HM _ _ _ Hq) as ((pc & Hpc & Hlen) & _).
  destruct (inv_owner th w s xs q c fds I) as (rc & u & Hrc & Hu); [by apply HW|].
  by exists q, i, pc, it, pi, c, rc, fds, u, f.
Qed.

(** C8. The pool's books are right: in a reachable state in which user code
    runs, the list from [tp_free] is a proper list of distinct tasks that wait
    in [task_main] for work, and [tp_working] counts the others. *)
Theorem pool_accounting w u :
  Reach w -> w_mode w = M_user u ->
  exists e p pool free, w_env w = Some e /\ env_pool e = Some p /\ w_pools w !! p = Some pool /\
    tp_free pool = head free /\ NoDup free /\
    (forall t, t ∈ free -> exists tk c rc, w_tasks w !! t = Some tk /\ tk_state tk = TASK_WAITING /\ tk_coroutine tk = Some c /\
       w_cos w !! c = Some rc /\ co_kont rc = K_task_wait) /\
    (forall i t, free !! i = Some t -> exists tk, w_tasks w !! t = Some tk /\ tk_next tk = free !! S i) /\
    tp_working pool = tp_size pool - Z.of_nat (length free) /\ 0 <= tp_working pool.
Proof using.
  intros HR Hm. destruct (reach_inv w HR) as (th & s & xs & I). pose proof (inv_sched _ _ _ _ I) as OK.
  pose proof (inv_mode _ _ _ _ I) as Hmode. destruct I as [TH (ep & live & L & HC & _) _]. rewrite Hm in Hmode.
  assert (s_pc s = PC_user u) as Hpc by (destruct (s_pc s); try discriminate; simpl in Hmode; congruence).
  destruct (cb_env _ _ _ _ (ci_base _ _ _ _ HC)) as (e & He & _ & Hp & _).
  destruct (ci_pool _ _ _ _ HC) as (pool & Hpl & HP). destruct (user_pool th _ _ _ _ Hpc HP) as (H1 & H2 & H3 & H4 & H5).
  pose proof (free_size th w ep s (ci_base _ _ _ _ HC)) as Hsize.
  exists e, (th_pool th), pool, (s_free s). split_and!; [done..|apply OK| | |lia|lia].
  - intros t Ht. destruct (ci_tasks _ _ _ _ HC t _ (so_frees _ OK t Ht)) as (c & tk & rc & _ & Htk & Hrc & Hsta & Hst & Hk).
    exists tk, c, rc. pose proof (ts_coroutine _ _ _ _ _ Hsta). done.
  - clear -H2. revert H2. induction (s_free s) as [|t l IH]; intros Hch i x Hi; [done|]. destruct Hch as [(tk & Htk & Hn) Hch].
    destruct i as [|i]; simpl in *; [injection Hi as <-; exists tk; split; [done|by destruct l]|by apply IH].
Qed.

(** C4. A waiting task is woken: when [epoll_wait] has returned an event of one
    of its descriptors, or its deadline has come, the task is switched in,
    inside [poll_inner], before the event loop calls [epoll_wait] again. *)
Theorem waiters_are_woken w events now acts w' e ep p pool t tk c rc q fds u :
  Reach w -> w_mode w = M_loop_wait -> w_env w = Some e -> env_epoll e = Some ep ->
  env_pool e = Some p -> w_pools w !! p = Some pool -> t ∈ tp_tasks pool ->
  w_tasks w !! t = Some tk -> tk_coroutine tk = Some c -> w_cos w !! c = Some rc -> co_kont rc = K_poll q fds u ->
  (exists it, lh_items (w_heap w) !! q = Some it /\ ti_expire it <= GetTickMS now /\ et_start (ep_timer ep) <= GetTickMS now) \/
  (exists ev i, ev ∈ events /\ ev_ptr ev = item_addr q i /\ (i < length fds)%nat) ->
  allowed_run (A_events events now :: acts) w -> run_thread (A_events events now :: acts) w = Ok (tt, w') ->
  w_mode w' = M_loop_wait ->
  exists acts1 acts2 w1, acts = acts1 ++ acts2 /\ run_thread (A_events events now :: acts1) w = Ok (tt, w1) /\
    w_mode w1 = M_poll_ret q fds u.
Proof using.
  intros HR Hm He Hep Hp Hpl Htp Htk Htc Hrc Hk Hwhy [Ha Hrest] Hrun Hm'. destruct (reach_inv w HR) as (th & s & xs & I).
  pose proof (inv_task_co th w s xs e p pool t tk c I He Hp Hpl Htp Htk Htc) as Hc.
  pose proof (inv_waiting th w s xs t c rc q fds u I Hm Hc Hrc Hk) as Ht.
  destruct (inv_step th w s xs _ I Ha) as (w1 & _ & _ & Hrun1 & _).
  simpl in Hrun. rewrite (bind_Ok _ _ _ _ _ Hrun1) in Hrun.
  assert (Forall (fun ev => exists fd, registered (w_kern w) fd = Some (ev_ptr ev)) events /\ clock_ok ep now) as [Hev Hclk].
  { destruct Ha as (e1 & ep1 & He1 & Hep1 & Ha). rewrite Hm in Ha. congruence || (rewrite He in He1; injection He1 as <-; rewrite Hep in Hep1; by injection Hep1 as <-). }
  destruct (events_queue th w s xs w1 events now t q fds u e ep I Hm He Hep Hev Hclk Ht Hwhy Hrun1) as (s1 & xs1 & I1 & Hq1 & Ht1).
  destruct (queued_returns th acts w1 s1 xs1 w' t q fds u I1 (Hrest _ Hrun1) Hq1 Ht1 Hrun Hm') as (acts1 & acts2 & w2 & -> & Hr & Hm2).
  exists acts1, acts2, w2. split; [done|]. split; [|done]. simpl. by rewrite (bind_Ok _ _ _ _ _ Hrun1).
Qed.
End props.

(** * A concrete thread *)

Definition allowed_b (a : action) (w : world (gmap Z Z)) : bool :=
  match w_env w with
  | None => false
  | Some e =>
    match env_epoll e with
    | None => false
    | Some ep =>
      let clock now := bool_decide (2 ^ 31 <= GetTickMS now /\ GetTickMS now < 2 ^ 62 /\
                                    GetTickMS now - et_start (ep_timer ep) < 2 ^ 31 - 11) in
      match w_mode w, a with
      | M_task_loop, A_run | M_poll_ret _ _ _, A_run | M_process, A_run => true
      | M_loop_wait, A_events events now =>
          forallb (fun ev => existsb (fun p => p.2 =? ev_ptr ev) (map_to_list (w_kern w))) events && clock now
      | M_user _, A_new_task _ _ attr =>
          match attr_fun attr with Some (F_user _) => env_callstacksize e <? kMaxCallStack | _ => false end
      | M_user u, A_poll _ timeout _ now =>
          match u with U_main => false | _ => bool_decide (- 2 ^ 31 <= timeout < 2 ^ 31) && clock now end
      | M_user U_fun, A_return | M_user U_timeout, A_return | M_user U_main, A_eventloop _ _ _ => true
      | _, _ => false
      end
    end
  end.

Lemma allowed_b_sound a w : allowed_b a w = true -> allowed a w.
Proof.
  unfold allowed_b, allowed. destruct (w_env w) as [e|] eqn:He; [|done]. destruct (env_epoll e) as [ep|] eqn:Hep; [|done].
  intros H. exists e, ep. split; [done|]. split; [done|].
  destruct (w_mode w) as [| |u| | | | |]; destruct a; try done; try (by destruct u).
  - assert (match attr_fun attr with Some (F_user _) => env_callstacksize e <? kMaxCallStack | _ => false end = true) as H'
      by by destruct u.
    destruct (attr_fun attr) as [[|f]|]; try done. apply Z.ltb_lt in H'. destruct u; (split; [by exists f|done]).
  - destruct u; try done; apply andb_prop in H as [H1%bool_decide_eq_true H2%bool_decide_eq_true]; done.
  - apply andb_prop in H as [H1 H2%bool_decide_eq_true]. split; [|done].
    apply Forall_forall. intros ev Hin. rewrite forallb_forall in H1. specialize (H1 ev (proj1 (list_elem_of_In _ _) Hin)).
    apply existsb_exists in H1 as ([fd a] & Hin' & Heq). simpl in Heq. apply Z.eqb_eq in Heq as <-.
    exists fd. by apply elem_of_map_to_list, list_elem_of_In.
Qed.

Fixpoint check_run (acts : list action) (w : world (gmap Z Z)) : option (world (gmap Z Z)) :=
  match acts with
  | [] => Some w
  | a :: acts' =>
      if allowed_b a w then
        match step_thread a w with Ok (_, w') => check_run acts' w' | Fail _ => None end
      else None
  end.

Lemma check_run_sound acts : forall w w', check_run acts w = Some w' -> allowed_run acts w /\ run_thread acts w = Ok (tt, w').
Proof.
  induction acts as [|a acts IH]; intros w w'; simpl; [by intros [= ->]|].
  destruct (allowed_b a w) eqn:Ha; [|done]. destruct (step_thread a w) as [[[] w1]|] eqn:Hs; [|done].
  intros H. destruct (IH _ _ H) as [H1 H2]. split; [split; [by apply allowed_b_sound|]|by rewrite (bind_Ok _ _ _ _ _ Hs)].
  by intros w2 [= <-].
Qed.

Lemma run_reach {K} `{!EpollKernel K} acts : forall (w w' : world K),
  Reach w -> allowed_run acts w -> run_thread acts w = Ok (tt, w') -> Reach w'.
Proof.
  induction acts as [|a acts IH]; intros w w' HR Ha Hrun; simpl in *; [by injection Hrun as <-|].
  destruct Ha as [Ha Hrest]. apply bind_inv in Hrun as ([] & w1 & Hs & Hrun).
  eapply IH; [by eapply reach_step|by apply Hrest|done].
Qed.

(** A pool of one task; the clock starts at 10^12 milliseconds, in September
    2001. *)
Definition demo_time (ms : Z) : timeval := mk_timeval (1000000000 + ms / 1000) (ms `mod` 1000 * 1000).

Definition demo_blank : world (gmap Z Z) :=
  mk_world 0 None (mk_options 131072 1) ∅ ∅ ∅ (mk_lheap ∅ ∅) ∅ ∅ 0 4096 100 (M_user U_main) ∅.

Definition demo_boot : world (gmap Z Z) :=
  match do_init_curr_thread_env 3 (demo_time 0) demo_blank with Ok (_, w) => w | Fail _ => demo_blank end.

(** The task polls descriptor 5; then main enters the event loop. *)
Definition demo_acts : list action :=
  [ A_new_task 3 (demo_time 0) (mk_attr 1 (-1) (VUser 9) (Some (F_user 7)) None); A_run;
    A_poll [mk_pollfd 5 1 0] 1000 None (demo_time 1); A_eventloop 3 (demo_time 0) (demo_time 2) ].

Definition demo_wait : world (gmap Z Z) := default demo_blank (check_run demo_acts demo_boot).

(** The poll times out, the task ends, main is back at [epoll_wait]. *)
Definition demo_rest : list action := [A_run; A_run; A_return; A_run; A_run].

Lemma demo_blank_ok : blank demo_blank (demo_time 0).
Proof. split; [done|done|done|done|intros fd; apply lookup_empty|done|by vm_compute]. Qed.

Lemma demo_boot_run : do_init_with 1 3 (demo_time 0) demo_blank = Ok (tt, demo_boot).
Proof.
  destruct (boot_inv demo_blank 1 3 (demo_time 0) demo_blank_ok) as (w & th & free & Hrun & _); [done|done|].
  unfold demo_boot, do_init_curr_thread_env. by rewrite Hrun.
Qed.

Lemma demo_boot_reach : Reach demo_boot.
Proof. by apply (reach_boot demo_blank 1 3 (demo_time 0) demo_boot demo_blank_ok); [| |exact demo_boot_run]. Qed.

Lemma demo_check acts w :
  check_run acts demo_boot = Some w -> Reach w.
Proof. intros H. destruct (check_run_sound _ _ _ H). by apply (run_reach acts demo_boot); [exact demo_boot_reach|..]. Qed.

Lemma demo_wait_run : check_run demo_acts demo_boot = Some demo_wait.
Proof.
  unfold demo_wait. assert ((if check_run demo_acts demo_boot then true else false) = true) as H by by vm_compute.
  by destruct (check_run demo_acts demo_boot).
Qed.

Definition demo_end : world (gmap Z Z) := default demo_blank (check_run (A_events [] (demo_time 20) :: demo_rest) demo_wait).

Lemma demo_end_run : check_run (A_events [] (demo_time 20) :: demo_rest) demo_wait = Some demo_end.
Proof.
  unfold demo_end. assert ((if check_run (A_events [] (demo_time 20) :: demo_rest) demo_wait then true else false) = true) as H by by vm_compute.
  by destruct (check_run (A_events [] (demo_time 20) :: demo_rest) demo_wait).
Qed.

Definition demo_env : env_t := default (mk_env [] 0 None None None VNull None None) (w_env demo_wait).
Definition demo_ep : epoll_context_t :=
  default (mk_epoll_context 0 0 0 (mk_epoll_timer 0 0 0 0) 0 0 None) (env_epoll demo_env).
Definition demo_task : task_t := default zero_task (w_tasks demo_wait !! 1).
Definition demo_co : coroutine_t := default zero_coroutine (w_cos demo_wait !! 2).

Lemma thread_never_fails_witness :
  Reach demo_boot /\ exists w', step_thread (A_eventloop 3 (demo_time 0) (demo_time 2)) demo_boot = Ok (tt, w').
Proof.
  split; [exact demo_boot_reach|].
  apply (thread_never_fails demo_boot); [exact demo_boot_reach|apply allowed_b_sound; by vm_compute].
Defined.

Lemma thread_simulates_scheduler_witness :
  exists th w s xs, Inv th w s xs /\ exists w' s' xs',
    step_thread (A_eventloop 3 (demo_time 0) (demo_time 2)) w = Ok (tt, w') /\
    sched_step s xs (A_eventloop 3 (demo_time 0) (demo_time 2)) s' xs' /\ Inv th w' s' xs'.
Proof.
  destruct (reach_inv demo_boot demo_boot_reach) as (th & s & xs & I). exists th, demo_boot, s, xs. split; [exact I|].
  apply (thread_simulates_scheduler th demo_boot s xs); [exact I|apply allowed_b_sound; by vm_compute].
Defined.

Lemma registrations_are_live_witness :
  exists q i pc it pi c rc fds u f,
    2 = item_addr q i /\ w_polls demo_wait !! q = Some pc /\ length (pc_fds pc) = length fds /\
    lh_items (w_heap demo_wait) !! 2 = Some it /\ ti_prepare it = Some prepare_poll_event_ptr /\ ti_arg it = Some 2 /\
    w_pitems demo_wait !! 2 = Some pi /\ pi_self pi = i /\ pi_poll pi = q /\ fds !! i = Some f /\ pfd_fd f = 5 /\
    w_cos demo_wait !! c = Some rc /\ (co_kont rc = K_poll q fds u \/ w_mode demo_wait = M_poll_ret q fds u).
Proof. apply (registrations_are_live demo_wait 5 2); [exact (demo_check _ _ demo_wait_run)|by vm_compute]. Defined.

Lemma pool_accounting_witness :
  exists e p pool free, w_env demo_boot = Some e /\ env_pool e = Some p /\ w_pools demo_boot !! p = Some pool /\
    tp_free pool = head free /\ NoDup free /\
    (forall t, t ∈ free -> exists tk c rc, w_tasks demo_boot !! t = Some tk /\ tk_state tk = TASK_WAITING /\ tk_coroutine tk = Some c /\
       w_cos demo_boot !! c = Some rc /\ co_kont rc = K_task_wait) /\
    (forall i t, free !! i = Some t -> exists tk, w_tasks demo_boot !! t = Some tk /\ tk_next tk = free !! S i) /\
    tp_working pool = tp_size pool - Z.of_nat (length free) /\ 0 <= tp_working pool.
Proof. apply (pool_accounting demo_boot U_main); [exact demo_boot_reach|by vm_compute]. Defined.

Lemma waiters_are_woken_witness :
  exists acts1 acts2 w1, demo_rest = acts1 ++ acts2 /\
    run_thread (A_events [] (demo_time 20) :: acts1) demo_wait = Ok (tt, w1) /\
    w_mode w1 = M_poll_ret 1 [mk_pollfd 5 1 0] U_fun.
Proof.
  apply (waiters_are_woken demo_wait [] (demo_time 20) demo_rest demo_end demo_env demo_ep 1 (mk_taskpool [1] None 1 1)
    1 demo_task 2 demo_co 1 [mk_pollfd 5 1 0] U_fun).
  - exact (demo_check _ _ demo_wait_run).
  - by vm_compute.
  - by vm_compute.
  - by vm_compute.
  - by vm_compute.
  - by vm_compute.
  - by left.
  - by vm_compute.
  - by vm_compute.
  - by vm_compute.
  - by vm_compute.
  - left. exists (default zero_item (lh_items (w_heap demo_wait) !! 1)). split; [by vm_compute|]. split; by vm_compute.
  - exact (proj1 (check_run_sound _ _ _ demo_end_run)).
  - exact (proj2 (check_run_sound _ _ _ demo_end_run)).
  - by vm_compute.
Defined.
