(* ===== verification/PollFrames.v ===== *)
(** What the code of a thread leaves alone: the attributes and the time-out
    flag of tasks, and poll contexts.  Code that runs on behalf of other
    tasks keeps both, the event loop counts events, [new_task] and
    [fix_coroutine_timeout] change one task. *)

From stdpp Require Import gmap list.
From S2P Require Import Prelude TimerList TimerListSpec ListProgram TimerWheel TimerWheelSpec TimerFrame Context Events.
From S2P Require Import Thread ThreadSpec Sched Coroutine TaskPool CtlInv Poll MemInv MemPoll CtlSteps System Frames.

Section frames.
Context {K : Type} `{!EpollKernel K}.
Implicit Types w : world K.
Notation MW := (M (world K)).

(** What is followed of a task: its attributes and its timeout flag. *)
Definition told w (t : Z) : option (coroutine_task_attr_t * Z) := (fun x => (tk_attr x, tk_timeout x)) <$> w_tasks w !! t.

(** Tasks keep what is followed; poll contexts stay as they are, but for the
    one at [p], if any. *)
Record keeps (p : option Z) w w' : Prop := {
  ke_told : forall t, told w' t = told w t;
  ke_polls : forall q, p <> Some q -> w_polls w' !! q = w_polls w !! q
}.

#[export] Instance keeps_preorder p : PreOrder (keeps p).
Proof using.
  split; [by intros w|]. intros w1 w2 w3 [T1 P1] [T2 P2]. split; [intros t; by rewrite T2|intros q Hq; by rewrite P2, P1].
Qed.

Lemma keeps_same p w w' : w_tasks w' = w_tasks w -> w_polls w' = w_polls w -> keeps p w w'.
Proof using. intros H1 H2. split; [intros t; unfold told; by rewrite H1|intros q _; by rewrite H2]. Qed.

Lemma keeps_any p w w' : keeps None w w' -> keeps p w w'.
Proof using. intros [T P]. split; [done|]. intros q _. by apply P. Qed.

Lemma told_upd w t x f t' : w_tasks w !! t = Some x ->
  told (w <| w_tasks := <[t := f x]> (w_tasks w) |>) t' = if decide (t = t') then Some (tk_attr (f x), tk_timeout (f x)) else told w t'.
Proof using. intros Hx. unfold told. simpl. rewrite lookup_insert. by case_decide. Qed.

#[export] Program Instance keeps_frame p : Frame (keeps p) := {| fr_kept y := False |}.
Next Obligation. done. Qed.
Next Obligation. intros p w w' _ _ Ht Hp. by apply keeps_same. Qed.
Next Obligation. intros. by apply keeps_same. Qed.
Next Obligation. intros. by apply keeps_same. Qed.
Next Obligation.
  intros p w t v v' Hv Ha Hf. split; [|done]. intros t'. rewrite (told_upd w t v (fun _ => v') t' Hv).
  case_decide as Ht; [subst t'|done]. rewrite Ha, Hf. unfold told. by rewrite Hv.
Qed.
Next Obligation. intros. by apply keeps_same. Qed.

(** * The second half of [poll_inner] *)

Lemma keeps_free_arg q n : always (keeps (Some q)) (free_arg q n).
Proof using.
  unfold free_arg. apply always_bind; [apply _| |].
  - apply always_modify. intros w. split; [done|]. intros q' Hq. simpl. apply lookup_delete_ne. congruence.
  - intros _. by refine (fr_on_heap _ _ _ _).
Qed.
#[local] Hint Resolve keeps_free_arg : always.

Lemma keeps_leave q fds : always (keeps (Some q)) (poll_inner_leave q fds).
Proof using. unfold poll_inner_leave. always_auto. Qed.

(** * Counting events *)

(** Tasks keep what is followed, and the context at [q] counts at most [n]
    more events. *)
Record raised (q n : Z) w w' : Prop := {
  ra_told : forall t, told w' t = told w t;
  ra_cnt : forall pc, w_polls w !! q = Some pc -> 0 <= pc_raise_cnt pc -> pc_raise_cnt pc + n < 2 ^ 31 ->
    exists pc', w_polls w' !! q = Some pc' /\ pc_raise_cnt pc <= pc_raise_cnt pc' <= pc_raise_cnt pc + n
}.

Lemma keeps_raised p q w w' : p <> Some q -> keeps p w w' -> raised q 0 w w'.
Proof using. intros Hp [T P]. split; [done|]. intros pc Hpc H0 _. exists pc. rewrite P by done. split; [done|lia]. Qed.

Lemma raised_mono q n n' w w' : n <= n' -> raised q n w w' -> raised q n' w w'.
Proof using.
  intros Hn [T C]. split; [done|]. intros pc Hpc H0 Hlt. destruct (C pc Hpc H0) as (pc' & Hpc' & Hr); [lia|].
  exists pc'. split; [done|lia].
Qed.

Lemma raised_trans q n1 n2 w1 w2 w3 : 0 <= n1 -> 0 <= n2 -> raised q n1 w1 w2 -> raised q n2 w2 w3 -> raised q (n1 + n2) w1 w3.
Proof using.
  intros H1 H2 [T1 C1] [T2 C2]. split; [intros t; by rewrite T2|]. intros pc Hpc H0 Hlt.
  destruct (C1 pc Hpc H0) as (pc1 & Hpc1 & Hr1); [lia|]. destruct (C2 pc1 Hpc1) as (pc2 & Hpc2 & Hr2); [lia|lia|].
  exists pc2. split; [done|lia].
Qed.

Lemma raised_bind q n1 n2 {A B} (m : MW A) (k : A -> MW B) : 0 <= n1 -> 0 <= n2 ->
  always (raised q n1) m -> (forall a, always (raised q n2) (k a)) -> always (raised q (n1 + n2)) (m ≫= k).
Proof using.
  intros H1 H2 Hm Hk w. wstep. refine (wp_mono _ _ _ _ _ _ (Hm w) _ (fun e H => H)). intros a w1 Hw1.
  refine (wp_mono _ _ _ _ _ _ (Hk a w1) _ (fun e H => H)). intros b w2. by apply raised_trans.
Qed.

Lemma raised_keeps q {A} (m : MW A) : always (keeps None) m -> always (raised q 0) m.
Proof using. intros H. apply (always_mono _ _ _ H). intros w w'. by apply keeps_raised. Qed.

Lemma raised_upd q n p f : 0 <= n ->
  (forall x, 0 <= pc_raise_cnt x -> pc_raise_cnt x + n < 2 ^ 31 -> pc_raise_cnt x <= pc_raise_cnt (f x) <= pc_raise_cnt x + n) ->
  always (raised q n) (upd_poll p f).
Proof using.
  intros Hn Hf w. unfold wp, upd_poll. destruct (w_polls w !! p) as [x|] eqn:Hx; [|done]. split; [done|].
  intros pc Hpc H0 Hlt. simpl. rewrite lookup_insert. case_decide as Hpq; [subst p|exists pc; split; [done|lia]].
  rewrite Hx in Hpc. injection Hpc as <-. eauto.
Qed.

(** After a part that keeps all contexts. *)
Lemma raised_after q n {A B} (m : MW A) (k : A -> MW B) : 0 <= n ->
  always (keeps None) m -> (forall a, always (raised q n) (k a)) -> always (raised q n) (m ≫= k).
Proof using. intros Hn Hm Hk. apply (raised_bind q 0 n); [done|done| |done]. by apply raised_keeps. Qed.

Lemma raised_before q n {A B} (m : MW A) (k : A -> MW B) : 0 <= n ->
  always (raised q n) m -> (forall a, always (raised q 0) (k a)) -> always (raised q n) (m ≫= k).
Proof using. intros Hn Hm Hk. replace n with (n + 0) by lia. by apply raised_bind. Qed.

Lemma prepare_raised q item ev active : always (raised q 1) (prepare_poll_event item ev active).
Proof using.
  unfold prepare_poll_event. do 4 (apply raised_after; [done|always_auto|intros ?]).
  apply (raised_bind q 0 1); [done|done| |intros _].
  { apply raised_upd; [done|]. intros x ? ?. simpl. lia. }
  apply raised_before; [done| |intros _].
  { apply raised_upd; [done|]. intros x ? ?. simpl. rewrite to_int_small; lia. }
  case_match; [|apply raised_keeps; always_auto].
  apply (raised_before q 0); [done|apply raised_upd; [done|]; intros x ? ?; simpl; lia|].
  intros _. apply raised_keeps. always_auto.
Qed.

Lemma prepare_all_raised q active evs : always (raised q (Z.of_nat (length evs))) (prepare_all active evs).
Proof using.
  induction evs as [|ev evs IH]; cbn [prepare_all length]; [apply raised_keeps; always_auto|].
  rewrite Nat2Z.inj_succ, <- Z.add_1_l. apply raised_bind; [done|lia| |done].
  unfold prepare_one. apply raised_after; [done|always_auto|]. intros item. case_match.
  - case_match. apply prepare_raised.
  - eapply always_mono; [apply (raised_keeps q); always_auto|]. intros w w'. by apply raised_mono.
Qed.

Lemma events_raised q events now : always (raised q (Z.of_nat (length events))) (eventloop_wait events now).
Proof using.
  unfold eventloop_wait. do 2 (apply raised_after; [lia|always_auto|intros ?]).
  apply raised_before; [lia|apply prepare_all_raised|]. intros _. apply raised_keeps. always_auto.
Qed.

(** * Code that changes one task *)

Lemma wp_and {A} (m : MW A) (Q1 Q2 : A -> world K -> Prop) E w : wp m Q1 E w -> wp m Q2 E w -> wp m (fun a w' => Q1 a w' /\ Q2 a w') E w.
Proof using. unfold wp. destruct (m w) as [[a w']|e]; [by split|done]. Qed.

(** All tasks but [t] keep what is followed, all contexts but the one at [p]
    stay. *)
Record spares (t : Z) (p : option Z) w w' : Prop := {
  sp_told : forall t', t' <> t -> told w' t' = told w t';
  sp_polls : forall q, p <> Some q -> w_polls w' !! q = w_polls w !! q
}.

#[export] Instance spares_preorder t p : PreOrder (spares t p).
Proof using.
  split; [by intros w|]. intros w1 w2 w3 [T1 P1] [T2 P2].
  split; [intros t' Ht; by rewrite T2, T1|intros q Hq; by rewrite P2, P1].
Qed.

Lemma keeps_spares t p w w' : keeps p w w' -> spares t p w w'.
Proof using. by intros [T P]. Qed.

Lemma spares_any t p w w' : spares t None w w' -> spares t p w w'.
Proof using. intros [T P]. split; [done|]. intros q _. by apply P. Qed.

Lemma spares_upd_task t f : always (spares t None) (upd_task t f).
Proof using.
  intros w. unfold wp, upd_task. destruct (w_tasks w !! t) as [x|] eqn:Hx; [|done]. split; [|done].
  intros t' Ht. rewrite told_upd by done. by rewrite decide_False by (by apply not_eq_sym).
Qed.

(** The task [t] has not timed out. *)
Definition flag_zero w (t : Z) : Prop := forall x, told w t = Some x -> x.2 = 0.

(** Once clear, the flag stays clear. *)
Definition keeps_zero (t : Z) w w' : Prop := flag_zero w t -> flag_zero w' t.

#[export] Instance keeps_zero_preorder t : PreOrder (keeps_zero t).
Proof using. split; [by intros w H|]. intros w1 w2 w3 H1 H2 H. by apply H2, H1. Qed.

Lemma keeps_keeps_zero t p w w' : keeps p w w' -> keeps_zero t w w'.
Proof using. intros [T _] H x. rewrite T. apply H. Qed.

Lemma set_attr_keeps_zero t a : always (keeps_zero t) (upd_task t (fun x => x <| tk_attr := a |>)).
Proof using.
  intros w. unfold wp, upd_task. destruct (w_tasks w !! t) as [x|] eqn:Hx; [|done]. intros H y.
  rewrite told_upd, decide_True by done. intros [= <-]. simpl. specialize (H (tk_attr x, tk_timeout x)). unfold told in H.
  rewrite Hx in H. by apply H.
Qed.

Lemma clear_flag t w : wp (upd_task t (fun x => x <| tk_timeout := 0 |>)) (fun _ w' => flag_zero w' t) any_error w.
Proof using.
  unfold wp, upd_task. destruct (w_tasks w !! t) as [x|] eqn:Hx; [|done]. intros y.
  rewrite told_upd, decide_True by done. by intros [= <-].
Qed.

(** From the clearing of the flag on, in [new_task]. *)
Lemma clear_then {A} t w (k : unit -> MW A) : (forall x, always (keeps_zero t) (k x)) ->
  wp (upd_task t (fun x => x <| tk_timeout := 0 |>) ≫= k) (fun _ w' => flag_zero w' t) any_error w.
Proof using.
  intros Hk. wstep. refine (wp_mono _ _ _ _ _ _ (clear_flag t w) _ (fun e H => H)). intros [] w1 H1.
  refine (wp_mono _ _ _ _ _ _ (Hk tt w1) _ (fun e H => H)). auto.
Qed.

Lemma zero_keeps {A} t (m : MW A) : always (keeps None) m -> always (keeps_zero t) m.
Proof using. intros H. apply (always_mono _ _ _ H). intros w w'. apply keeps_keeps_zero. Qed.

Lemma wp_skip {A B} (m : MW A) (k : A -> MW B) (Q : B -> world K -> Prop) w :
  (forall a w1, wp (k a) Q any_error w1) -> wp (m ≫= k) Q any_error w.
Proof using. intros Hk. wstep. unfold wp at 1. destruct (m w) as [[a w1]|e]; [apply Hk|done]. Qed.

(** A new task starts with its time-out flag clear; no other task changes. *)
Lemma new_task_told p attr u w :
  wp (new_task p attr u) (fun _ w' =>
    keeps None w w' \/ exists pool t, w_pools w !! p = Some pool /\ tp_free pool = Some t /\ spares t None w w' /\ flag_zero w' t)
    any_error w.
Proof using.
  unfold new_task. wstep. unfold wp at 1, get_pool. destruct (w_pools w !! p) as [pool|]; [|done].
  case_match; [left; reflexivity|]. destruct (tp_free pool) as [t|] eqn:Hfree; [|left; reflexivity].
  match goal with |- wp ?m _ _ _ => cut (always (spares t None) m /\ wp m (fun _ w' => flag_zero w' t) any_error w) end.
  { intros [H1 H2]. refine (wp_mono _ _ _ _ _ _ (wp_and _ _ _ _ _ (H1 w) H2) _ (fun e H => H)).
    intros a w' [Hs Hz]. right. by exists pool, t. }
  assert (forall A (m : MW A), always (keeps None) m -> always (spares t None) m) as Hk.
  { intros A m Hm. apply (always_mono _ _ _ Hm). intros ? ?. apply keeps_spares. }
  split.
  - repeat first [apply spares_upd_task | apply Hk; by eauto 3 with always | apply always_bind; [apply _| |intros ?]].
  - do 8 (apply wp_skip; intros ? ?). apply clear_then. intros _.
    repeat first [apply set_attr_keeps_zero | apply zero_keeps; by eauto 3 with always | apply always_bind; [apply _| |intros ?]].
Qed.

Lemma get_now_state w n w' : get_now w = Ok (n, w') -> w' = w.
Proof using.
  unfold get_now, get_curr_thread_env. mrun. case_bool_decide; [|done]. destruct (w_env w) as [e|]; [|done].
  destruct (env_epoll e); [|done]. by intros [= _ <-].
Qed.

(** [fix_coroutine_timeout] keeps the attributes; it says that the task has
    timed out exactly when the flag of a task with a time limit is set. *)
Definition limited (a : coroutine_task_attr_t) : bool := negb (attr_max_timeout_ms a =? -1).

Lemma fix_told w c rc t tk timeout :
  w_cos w !! c = Some rc -> co_task rc = Some t -> w_tasks w !! t = Some tk ->
  wp (fix_coroutine_timeout c timeout) (fun r w1 => exists tk1, w1 = w <| w_tasks := <[t := tk1]> (w_tasks w) |> /\
    tk_attr tk1 = tk_attr tk /\ (limited (tk_attr tk) = false -> tk_timeout tk1 = tk_timeout tk) /\
    (r.2 = 1 \/ r.2 = 0 /\ (limited (tk_attr tk) = true -> tk_timeout tk1 = 0))) any_error w.
Proof using.
  intros Hrc Ht Htk. unfold fix_coroutine_timeout, limited.
  assert (w = w <| w_tasks := <[t := tk]> (w_tasks w) |>) as Hsame by (rewrite insert_id by done; by destruct w).
  unfold wp. step. step. step.
  destruct (Z.eqb_spec (attr_max_timeout_ms (tk_attr tk)) (-1)) as [Hm|Hm]; [exists tk; split_and!; [done..|by right]|].
  destruct (Z.eqb_spec (tk_timeout tk) 0) as [Hz|Hz]; simpl; [|exists tk; split_and!; [done..|by left]].
  destruct (get_now w) as [[n w1]|] eqn:Hnow; [|unfold mbind, M_bind; by rewrite Hnow].
  rewrite (bind_Ok _ _ _ _ _ Hnow). apply get_now_state in Hnow as ->.
  set (left := to_int _). step. step. destruct (left <=? 0).
  - step. simpl. rewrite !insert_insert_eq. eexists. split; [done|]. split_and!; [done|done|by left].
  - simpl. rewrite !insert_insert_eq. eexists. split; [done|]. split_and!; [done|done|by right].
Qed.

Lemma alloc_arg_keeps c n w p w' :
  alloc_arg c n w = Ok (p, w') -> p = fresh_addr (lh_items (w_heap w)) /\ keeps (Some p) w w'.
Proof using.
  unfold alloc_arg. set (q := fresh_addr _). intros [= <- <-]. split; [done|]. split; [done|].
  intros q' Hq. simpl. apply lookup_insert_ne. congruence.
Qed.

(** What the first half of [poll_inner] does to tasks and contexts, and what
    it returns if it does not block. *)
Lemma enter_told w c rc t tk fds timeout pf now u :
  coroutine_self w = Ok (Some c, w) -> w_cos w !! c = Some rc -> co_task rc = Some t -> w_tasks w !! t = Some tk ->
  wp (poll_inner_enter fds timeout pf now u) (fun out w' => spares t (Some (fresh_addr (lh_items (w_heap w)))) w w' /\
    exists flag, told w' t = Some (tk_attr tk, flag) /\ (limited (tk_attr tk) = false -> flag = tk_timeout tk) /\
    ((exists fds', out = PollReturn (-1) fds' /\ fds' = fds) \/
     ((exists r fds', out = PollReturn r fds' /\ pf = Some (r, fds')) \/ out = PollBlocked) /\
     (limited (tk_attr tk) = true -> flag = 0))) any_error w.
Proof using.
  intros Hself Hrc Ht Htk. unfold poll_inner_enter. wstep. unfold wp at 1. rewrite Hself. do 3 wstep.
  refine (wp_mono _ _ _ _ _ _ (fix_told w c rc t tk timeout Hrc Ht Htk) _ (fun e H => H)).
  intros [tmo ist] w1 (tk1 & Hw1 & Ha & Hlim & Hist). cbn [snd] in Hist.
  assert (told w1 t = Some (tk_attr tk, tk_timeout tk1)) as Ht1.
  { unfold told. rewrite Hw1. simpl. by rewrite lookup_insert_eq, <- Ha. }
  assert (spares t None w w1) as S1.
  { rewrite Hw1. split; [|done]. intros t' Hne. unfold told. simpl. by rewrite lookup_insert_ne by (by apply not_eq_sym). }
  assert (lh_items (w_heap w) = lh_items (w_heap w1)) as -> by (by rewrite Hw1).
  set (p := fresh_addr (lh_items (w_heap w1))).
  destruct Hist as [-> |[-> Hz]]; cbn [Z.eqb Pos.eqb].
  { split; [by apply spares_any|]. exists (tk_timeout tk1). split_and!; [done..|]. left. by exists fds. }
  match goal with |- wp ?m _ _ _ => cut (wp m (fun out w' => keeps (Some p) w1 w' /\
    match out with PollReturn r fds' => r = -1 /\ fds' = fds \/ pf = Some (r, fds') | PollBlocked => True end) any_error w1) end.
  { intros H. refine (wp_mono _ _ _ _ _ _ H _ (fun e H => H)). intros out w' [HK Hout].
    split; [transitivity w1; [by apply spares_any|by apply keeps_spares]|].
    exists (tk_timeout tk1). rewrite (ke_told _ _ _ HK). split_and!; [done..|]. destruct out as [r fds'|].
    - destruct Hout as [[-> ->]| ->]; [left; by exists fds|right]. split; [|done]. left. by exists r, fds'.
    - right. split; [by right|done]. }
  apply wp_and.
  - wstep. unfold wp at 1. destruct (alloc_arg c (length fds) w1) as [[p' w2]|] eqn:Halloc; [|done].
    apply alloc_arg_keeps in Halloc as [-> HK]. fold p in HK |- *.
    match goal with |- wp ?m _ _ _ => cut (always (keeps (Some p)) m) end.
    { intros H. refine (wp_mono _ _ _ _ _ _ (H w2) _ (fun e H => H)). intros out w' H'. by transitivity w2. }
    always_auto.
  - apply wp_skip. intros p' w2. apply wp_skip. intros fb w3. destruct fb.
    + apply wp_skip. intros _ w4. destruct pf as [[r fds']|]; [|done]. do 3 wstep. by right.
    + do 2 (apply wp_skip; intros ? ?). apply wp_skip. intros [ret timer] ?. apply wp_skip. intros _ ?.
      destruct (negb (ret =? 0)); repeat (apply wp_skip; intros ? ?); [by left|done].
Qed.

(** A task without a time limit never times out. *)
Definition flags_ok w : Prop := forall t a f, told w t = Some (a, f) -> limited a = false -> f = 0.
Definition keeps_flags w w' : Prop := flags_ok w -> flags_ok w'.

#[export] Instance keeps_flags_preorder : PreOrder keeps_flags.
Proof using. split; [by intros w H|]. intros w1 w2 w3 H1 H2 H. by apply H2, H1. Qed.

Lemma keeps_keeps_flags p w w' : keeps p w w' -> keeps_flags w w'.
Proof using. intros [T _] H t a f. rewrite T. apply H. Qed.

Lemma flags_keeps {A} (m : MW A) : always (keeps None) m -> always keeps_flags m.
Proof using. intros H. apply (always_mono _ _ _ H). intros w w'. apply keeps_keeps_flags. Qed.

Lemma flags_create_task cap p i : always keeps_flags (create_task cap p i).
Proof using.
  unfold create_task. apply always_bind; [apply _|apply flags_keeps; by eauto 3 with always|intros t].
  apply always_bind; [apply _| |intros _; apply flags_keeps; always_auto].
  apply always_modify. intros w H t' a f. unfold told. simpl. rewrite lookup_insert. case_decide; [by intros [= <- <-]|apply H].
Qed.

Lemma flags_create_tasks n cap p : forall i, always keeps_flags (create_tasks n cap p i).
Proof using.
  induction n as [|n IH]; intros i; cbn [create_tasks]; [apply flags_keeps; always_auto|].
  apply always_bind; [apply _|apply flags_create_task|done].
Qed.

(** The initialisation of a thread leaves all flags clear. *)
Lemma flags_init cap epfd now : always keeps_flags (do_init_with cap epfd now).
Proof using.
  unfold do_init_with, create_pool. apply always_bind; [apply _|apply flags_keeps; by eauto 3 with always|intros m].
  do 2 (apply always_bind; [apply _|apply flags_keeps; by eauto 3 with always|intros ?]).
  apply always_bind; [apply _| |intros ?; apply flags_keeps; always_auto].
  do 2 (apply always_bind; [apply _|apply flags_keeps; by eauto 3 with always|intros ?]).
  apply always_bind; [apply _|apply flags_create_tasks|intros ?; apply flags_keeps; always_auto].
Qed.

(** What the second half of [poll_inner] returns. *)
Lemma leave_result q fds w r fds' w' :
  poll_inner_leave q fds w = Ok ((r, fds'), w') ->
  exists pc, w_polls w !! q = Some pc /\ r = pc_raise_cnt pc /\
    fds' = zip_with (fun f g => f <| pfd_revents := pfd_revents g |>) fds (pc_fds pc).
Proof using.
  unfold poll_inner_leave. intros ([] & w1 & H1 & H)%bind_inv. apply bind_inv in H as ([] & w2 & H2 & H).
  apply bind_inv in H as (pc & w3 & H3 & H). apply bind_inv in H as ([] & w4 & _ & H). injection H as <- <- _.
  assert (w_polls w2 !! q = w_polls w !! q) as Hq.
  { rewrite (ke_polls _ _ _ (wp_Ok _ _ any_error _ _ _ (fr_del_all (keeps None) q fds 0 w1) H2)) by done.
    by rewrite (ke_polls _ _ _ (wp_Ok _ _ any_error _ _ _ (fr_on_heap (keeps None) _ (remove_from_link q) (fun x _ => due_remove x q) w) H1)). }
  unfold get_poll in H3. rewrite Hq in H3. destruct (w_polls w !! q) as [pc'|]; [|done]. injection H3 as <- _. by exists pc'.
Qed.
End frames.
