(* ===== verification/PollReturn.v ===== *)
(** What a coroutine finds when [poll_inner] returns to it: the code that ran
    while it waited, the library's and that of the other coroutines, has left
    its task's attributes and time-out flag alone, and its poll context has
    only counted the events reported.  This is the contract that the hooked
    system calls assume of [poll_inner] ([HooksSpec.PollContract]), which
    [ThreadHooks] proves of a thread with it. *)

From stdpp Require Import gmap list.
From S2P Require Import Prelude TimerList TimerListSpec ListProgram TimerWheel TimerWheelSpec TimerFrame Context Events.
From S2P Require Import Thread ThreadSpec Sched Coroutine TaskPool CtlInv Poll MemInv MemPoll CtlSteps.
From S2P Require Import Frames PollFrames System Boot ThreadProps.

Section effects.
Context {K : Type} `{!EpollKernel K}.
Implicit Types w : world K.

Lemma fresh_unused {A} (m : gmap Z A) : m !! fresh_addr m = None.
Proof using.
  destruct (m !! fresh_addr m) eqn:E; [|done]. pose proof (proj2 (fresh_addr_spec m) _ ltac:(by rewrite E)). lia.
Qed.

(** Events that [epoll_wait] reports in an action. *)
Definition events_of (a : action) : Z := match a with A_events events _ => Z.of_nat (length events) | _ => 0 end.

(** What an action may do to tasks and poll contexts. *)
Inductive effect (s : sched) (a : action) w w' : Prop :=
  | eff_keeps : keeps None w w' -> effect s a w w'
  | eff_leave q fds u : s_pc s = PC_ret q fds u -> keeps (Some q) w w' -> effect s a w w'
  | eff_events : (forall q, raised q (events_of a) w w') -> effect s a w w'
  | eff_task t p : (forall q fds u, s_stat s !! t <> Some (T_wait q fds u)) ->
      lh_items (w_heap w) !! p = None -> spares t (Some p) w w' ->
      (forall x f, told w' t = Some (x, f) -> limited x = false -> f = 0 \/ told w t = Some (x, f)) -> effect s a w w'.

Section step.
Context (th : thread) (TH : thread_ok th).

Lemma keeps_effect s a w w' {A} (m : M (world K) A) x : always (keeps None) m -> m w = Ok (x, w') -> effect s a w w'.
Proof using. intros Hm Hr. apply eff_keeps. exact (wp_Ok m _ any_error w x w' (Hm w) Hr). Qed.

Lemma drop_result {A} (m : M (world K) A) w w' : (m;; mret tt) w = Ok (tt, w') -> exists x, m w = Ok (x, w').
Proof using. intros (x & w1 & H & H')%bind_inv. injection H' as <-. by exists x. Qed.

Lemma new_task_effect w s xs u epfd now attr r w' :
  Rel th w s xs -> s_pc s = PC_user u -> coroutine_new_task epfd now attr u w = Ok (r, w') ->
  effect s (A_new_task epfd now attr) w w'.
Proof using TH.
  intros (ep & live & L & HC & HM & HW & Hxs) Hpc. pose proof (ci_base _ _ _ _ HC) as B.
  pose proof (cb_sched _ _ _ _ B) as OK. destruct (cb_env _ _ _ _ B) as (e & He & _ & Hpool & _).
  unfold coroutine_new_task. rewrite (bind_Ok _ _ _ _ _ (get_curr_thread_env_run _ (cb_pid _ _ _ _ B))), He.
  step. rewrite (bind_Ok _ _ _ _ _ (get_curr_thread_env_run _ (cb_pid _ _ _ _ B))), He. step. step.
  intros Hrun. destruct (ci_pool _ _ _ _ HC) as (pool & Hpl & HP). destruct (user_pool th _ _ _ _ Hpc HP) as (Hfree & _).
  destruct (wp_Ok _ _ _ _ _ _ (new_task_told (th_pool th) attr u w) Hrun) as [HK|(pool' & t & Hpl' & Ht & HS & HZ)]; [by apply eff_keeps|].
  rewrite Hpl in Hpl'. injection Hpl' as <-. rewrite Hfree in Ht. destruct (s_free s) as [|t' fr] eqn:Hfr; [done|]. injection Ht as ->.
  apply (eff_task _ _ _ _ t (fresh_addr (lh_items (w_heap w)))).
  - intros q fds v. rewrite (so_frees _ OK t); [done|]. rewrite Hfr. by left.
  - apply fresh_unused.
  - by apply spares_any.
  - intros x f Hx _. left. by apply (HZ (x, f)).
Qed.

(** The running task's objects, as [enter_told] wants them. *)
Lemma running_objects w s xs u t r :
  Rel th w s xs -> s_pc s = PC_user u -> s_stack s = t :: r ->
  exists c rc tk, coroutine_self w = Ok (Some c, w) /\ self_task w = Ok (t, w) /\ th_co th !! t = Some c /\
    w_cos w !! c = Some rc /\ co_task rc = Some t /\ w_tasks w !! t = Some tk /\ tk_coroutine tk = Some c.
Proof using.
  intros (ep & live & L & HC & _) Hpc Hst.
  destruct (running_task th w ep s t r HC Hst) as (c & tk & rc & Hco & Htk & Hrc & Hsta & _ & Hself & Hst').
  exists c, rc, tk. by rewrite (ts_task _ _ _ _ _ Hsta), (ts_coroutine _ _ _ _ _ Hsta).
Qed.

Lemma poll_effect w s xs u fds timeout pf now out w' :
  Rel th w s xs -> s_pc s = PC_user u -> u <> U_main ->
  poll_inner_enter fds timeout pf now u w = Ok (out, w') -> effect s (A_poll fds timeout pf now) w w'.
Proof using.
  intros HR Hpc Hu Hrun. pose proof HR as (ep & live & L & HC & _).
  pose proof (cb_sched _ _ _ _ (ci_base _ _ _ _ HC)) as OK. pose proof (so_pc _ OK) as Hok. rewrite Hpc in Hok.
  destruct (s_stack s) as [|t r] eqn:Hst; [by simpl in Hok|].
  destruct (running_objects w s xs u t r HR Hpc Hst) as (c & rc & tk & Hself & _ & _ & Hrc & Ht & Htk & _).
  destruct (wp_Ok _ _ _ _ _ _ (enter_told w c rc t tk fds timeout pf now u Hself Hrc Ht Htk) Hrun) as (HS & flag & Hflag & Hlim & _).
  apply (eff_task _ _ _ _ t (fresh_addr (lh_items (w_heap w)))); [| |done|].
  - intros q fds' v. by rewrite (so_head _ OK t) by (by rewrite Hst).
  - apply fresh_unused.
  - intros x f. rewrite Hflag. intros [= <- <-] Hl. right. unfold told. rewrite Htk. simpl. by rewrite Hlim.
Qed.

Lemma step_effect w s xs a w' :
  Rel th w s xs -> allowed a w -> step_thread a w = Ok (tt, w') -> effect s a w w'.
Proof using TH.
  intros HR Ha Hrun. pose proof HR as (ep & live & L & HC & _). pose proof (ci_mode _ _ _ _ HC) as Hmode.
  destruct Ha as (e & ep' & He & Hep & Ha). revert Hrun. unfold step_thread. rewrite (bind_Ok _ _ _ _ _ (gets_run w_mode w)).
  destruct (w_mode w) as [| |u|q fds u| | | |] eqn:Hm; destruct a; try done; try (by destruct u).
  - eapply keeps_effect; refine (fr_task_main_loop _).
  - intros Hrun. assert ((coroutine_new_task epfd now attr u;; mret tt) w = Ok (tt, w')) as (r & H)%drop_result by by destruct u.
    eapply new_task_effect; [done| |exact H].
    destruct (s_pc s); try discriminate; simpl in Hmode; congruence.
  - assert (u <> U_main /\ - 2 ^ 31 <= timeout < 2 ^ 31 /\ clock_ok ep' now) as (Hu & _) by by destruct u.
    intros Hrun. assert ((poll_inner_enter fds timeout pollfunc now u;; mret tt) w = Ok (tt, w')) as (r & H)%drop_result by by destruct u.
    eapply poll_effect; [done| |done|exact H]. destruct (s_pc s); try discriminate; simpl in Hmode; congruence.
  - destruct u; try done; eapply keeps_effect; [refine (fr_task_main_after_fun _)|refine (fr_task_main_release _)].
  - destruct u; try done. unfold eventloop_start.
    rewrite (bind_Ok _ _ _ _ _ (get_curr_thread_env_run _ (cb_pid _ _ _ _ (ci_base _ _ _ _ HC)))), He.
    apply keeps_effect. always_auto.
  - intros (r & w1 & H1 & H2)%bind_inv. apply (eff_leave _ _ _ _ q fds u).
    + destruct (s_pc s); try discriminate; simpl in Hmode; congruence.
    + injection H2 as <-. transitivity w1; [|by apply keeps_same].
      exact (wp_Ok _ _ any_error _ _ _ (keeps_leave q fds w) H1).
  - eapply keeps_effect; refine (fr_eventloop_process _).
  - intros H. apply eff_events. intros q. exact (wp_Ok _ _ any_error _ _ _ (events_raised q events now w) H).
Qed.
End step.

(** * A waiting task *)

(** A context has one owner. *)
Lemma inv_owner_unique th w s xs t1 t2 q fds1 fds2 :
  Inv th w s xs -> owns s t1 q fds1 -> owns s t2 q fds2 -> t1 = t2.
Proof using.
  intros I H1 H2. pose proof (inv_sched _ _ _ _ I) as OK. destruct I as [TH (ep & live & L & HC & HM & HW & _) _].
  assert (forall t fds, owns s t q fds -> exists c, th_co th !! t = Some c /\ live !! q = Some (c, fds)) as Hown.
  { intros t fds Ho. assert (is_Some (s_stat s !! t)) as Hs.
    { destruct Ho as [[u Hu]|(u & _ & Hh)]; [eauto|]. rewrite (so_head _ OK t Hh). eauto. }
    destruct (base_is_task th w ep s t (ci_base _ _ _ _ HC) Hs) as [c Hc]. exists c. split; [done|]. apply HW. by exists t. }
  destruct (Hown _ _ H1) as (c1 & Hc1 & E1), (Hown _ _ H2) as (c2 & Hc2 & E2).
  rewrite E1 in E2. injection E2 as <- <-. by apply (to_inj _ TH _ _ c1).
Qed.

Lemma waits_not_returning th w s xs t q fds u fds' u' :
  Inv th w s xs -> s_stat s !! t = Some (T_wait q fds u) -> s_pc s <> PC_ret q fds' u'.
Proof using.
  intros I Ht Hpc. pose proof (inv_sched _ _ _ _ I) as OK. pose proof (so_pc _ OK) as Hok. rewrite Hpc in Hok.
  destruct (s_stack s) as [|t' r] eqn:Hst; [by destruct Hok|].
  assert (t' = t) as ->.
  { apply (inv_owner_unique th w s xs t' t q fds' fds I); [right; exists u'; by rewrite Hst|left; eauto]. }
  pose proof (so_head _ OK t ltac:(by rewrite Hst)). congruence.
Qed.

(** A step of another task keeps what a waiting task will find. *)
Lemma waiting_kept th w s xs a w' t q fds u :
  Inv th w s xs -> allowed a w -> step_thread a w = Ok (tt, w') -> s_stat s !! t = Some (T_wait q fds u) ->
  told w' t = told w t /\
  forall pc, w_polls w !! q = Some pc -> 0 <= pc_raise_cnt pc -> pc_raise_cnt pc + events_of a < 2 ^ 31 ->
    exists pc', w_polls w' !! q = Some pc' /\ pc_raise_cnt pc <= pc_raise_cnt pc' <= pc_raise_cnt pc + events_of a.
Proof using.
  intros I Ha Hrun Ht. pose proof I as [TH HR _].
  assert (0 <= events_of a) as Hn by (unfold events_of; case_match; lia).
  assert (forall p, p <> Some q -> keeps p w w' -> raised q (events_of a) w w') as Hkeep.
  { intros p Hp HK. apply (raised_mono q 0); [done|by eapply keeps_raised]. }
  destruct (step_effect th TH w s xs a w' HR Ha Hrun) as [HK|q' fds' u' Hpc HK|HE|t0 p Hnot Hp [HT HP] _].
  - destruct (Hkeep None) as [H1 H2]; [done..|]. by split.
  - destruct (Hkeep (Some q')) as [H1 H2]; [intros [= ->]; by eapply waits_not_returning|done|by split].
  - destruct (HE q) as [H1 H2]. by split.
  - split; [apply HT; intros ->; by eapply Hnot|]. intros pc Hpc H0 _. exists pc. rewrite HP; [split; [done|lia]|].
    intros [= ->]. destruct HR as (ep & live & L & HC & HM & HW & _).
    destruct (base_is_task th w ep s t (ci_base _ _ _ _ HC) ltac:(eauto)) as [c Hc].
    assert (live !! q = Some (c, fds)) as Hl by (apply HW; exists t; split; [done|left; eauto]).
    destruct (mi_live _ _ _ _ _ HM _ _ _ Hl) as (_ & (it & Hit & _) & _). congruence.
Qed.

(** It goes on waiting, or is switched in. *)
Lemma waiting_step s xs a s' xs' t q fds u :
  sched_ok s -> sched_step s xs a s' xs' -> s_stat s !! t = Some (T_wait q fds u) ->
  s_stat s' !! t = Some (T_wait q fds u) \/ (s_pc s' = PC_ret q fds u /\ head (s_stack s') = Some t).
Proof using.
  intros OK Hs Ht. assert (t ∉ s_stack s) as Hoff by (apply (off_stack _ OK _ _ Ht); eauto).
  assert (forall t1 st1 p v k, s_stat s !! t1 = Some st1 -> t1 ∉ s_stack s -> t1 <> t ->
    s_stat (s_push t1 p v k s) !! t = Some (T_wait q fds u)) as Hpush.
  { intros t1 st1 p v k H1 H2 Hne. apply (wait_push _ _ _ _ _ _ _ _ _ _ OK H1 H2). by split; [apply not_eq_sym|]. }
  destruct Hs as [| | |t1 q1 fds1 u1 xs1 Hp -> Hw| | | |v t1 fr ? ? ? Hp Hfr|v fds1|v q1 fds1| | |]; try (by left).
  - left. apply (wait_pop _ _ _ _ _ _ _ _ OK H0). by right.
  - destruct (decide (t1 = t)) as [->|Hne].
    + rewrite Ht in Hw. injection Hw as <- <- <-. by right.
    + left. eapply Hpush; [exact Hw| |done]. apply (off_stack _ OK _ _ Hw). eauto.
  - left. assert (t1 ∈ s_free s) as Hf by (rewrite Hfr; by left). pose proof (so_frees _ OK _ Hf) as Hst1.
    eapply Hpush; [exact Hst1|by apply (free_off_stack _ OK)|]. intros ->. congruence.
  - left. destruct (s_stack s) as [|t1 r] eqn:E; [done|]. apply (wait_pop _ _ t1 r _ _ _ _ OK E). by right.
Qed.

(** [q] is not returned to before the end of the run. *)
Fixpoint waits_through (q : Z) (acts : list action) w : Prop :=
  match acts with
  | [] => True
  | a :: acts' =>
      (forall fds u, w_mode w <> M_poll_ret q fds u) /\ forall w', step_thread a w = Ok (tt, w') -> waits_through q acts' w'
  end.

Definition reported (acts : list action) : Z := foldr (fun a n => events_of a + n) 0 acts.

Lemma reported_nonneg acts : 0 <= reported acts.
Proof using. induction acts as [|a acts IH]; simpl; [done|]. assert (0 <= events_of a) by (unfold events_of; case_match; lia). lia. Qed.

(** What is found on return. *)
Lemma wait_run th acts : forall w s xs w' t q fds u pc,
  Inv th w s xs -> s_stat s !! t = Some (T_wait q fds u) -> allowed_run acts w -> waits_through q acts w ->
  run_thread acts w = Ok (tt, w') -> w_mode w' = M_poll_ret q fds u ->
  w_polls w !! q = Some pc -> 0 <= pc_raise_cnt pc -> pc_raise_cnt pc + reported acts < 2 ^ 31 ->
  exists s' xs' pc', Inv th w' s' xs' /\ s_pc s' = PC_ret q fds u /\ head (s_stack s') = Some t /\ told w' t = told w t /\
    w_polls w' !! q = Some pc' /\ pc_raise_cnt pc <= pc_raise_cnt pc' <= pc_raise_cnt pc + reported acts.
Proof using.
  induction acts as [|a acts IH]; intros w s xs w' t q fds u pc I Ht Hal Hw Hrun Hm Hpc H0 Hlt; simpl in *.
  - injection Hrun as <-. exfalso. eapply (waits_not_returning th w s xs t q fds u fds u I Ht).
    pose proof (inv_mode _ _ _ _ I) as Hmode. rewrite Hm in Hmode. destruct (s_pc s); try discriminate; simpl in Hmode; congruence.
  - destruct Hal as [Ha Hal], Hw as [_ Hw]. apply bind_inv in Hrun as ([] & w1 & Hs & Hrun).
    destruct (inv_step th w s xs a I Ha) as (w1' & s1 & xs1 & Hs' & Hstep & I1). rewrite Hs in Hs'. injection Hs' as <-.
    pose proof (reported_nonneg acts) as Hn.
    destruct (waiting_kept th w s xs a w1 t q fds u I Ha Hs Ht) as [HT HC]. destruct (HC pc Hpc H0) as (pc1 & Hpc1 & Hc1); [lia|].
    destruct (waiting_step s xs a s1 xs1 t q fds u (inv_sched _ _ _ _ I) Hstep Ht) as [Ht1|[Hpc' Hh]].
    + destruct (IH w1 s1 xs1 w' t q fds u pc1 I1 Ht1 (Hal _ Hs) (Hw _ Hs) Hrun Hm Hpc1) as (s' & xs' & pc' & ?&?&?& HT' &?&?);
        [lia|lia|]. exists s', xs', pc'. split_and!; [done|done|done|by rewrite HT'|done|lia|lia].
    + destruct acts as [|b acts].
      * simpl in Hrun. injection Hrun as <-. exists s1, xs1, pc1. split_and!; [done..|lia|simpl; lia].
      * exfalso. destruct (Hw _ Hs) as [Hne _]. apply (Hne fds u). by rewrite (inv_mode _ _ _ _ I1), Hpc'.
Qed.

(** * Reachable states *)

Lemma effect_flags s a w w' : effect s a w w' -> flags_ok w -> flags_ok w'.
Proof using.
  intros [HK|q fds u _ HK|HE|t p _ _ [HT _] Ht] H; [by eapply keeps_keeps_flags..| |].
  - intros t x f. rewrite (ra_told _ _ _ _ (HE 0)). apply H.
  - intros t' x f Hx Hl. destruct (decide (t' = t)) as [->|Hne]; [|rewrite HT in Hx by done; by apply (H t' x)].
    destruct (Ht x f Hx Hl) as [?|Hx']; [done|by apply (H t x)].
Qed.

Lemma reach_flags w : Reach w -> flags_ok w.
Proof using.
  induction 1 as [w0 cap epfd now w Hb Hn Hmax Hrun|w a w' HR IH Ha Hrun].
  - apply (wp_Ok _ _ any_error _ _ _ (flags_init cap epfd now w0) Hrun). intros t x f. unfold told.
    by rewrite (bl_tasks _ _ Hb), lookup_empty.
  - destruct (reach_inv w HR) as (th & s & xs & [TH HRel _]). by eapply effect_flags; [eapply step_effect|].
Qed.

Lemma told_task w t x f : told w t = Some (x, f) -> exists tk, w_tasks w !! t = Some tk /\ tk_attr tk = x /\ tk_timeout tk = f.
Proof using. unfold told. intros (tk & Htk & [= -> ->])%fmap_Some. by exists tk. Qed.

(** The descriptors and the events asked for. *)
Definition asked (f : pollfd) : Z * Z := (pfd_fd f, pfd_events f).

Lemma asked_leave fds l : length l = length fds ->
  asked <$> zip_with (fun f g => f <| pfd_revents := pfd_revents g |>) fds l = asked <$> fds.
Proof using.
  revert l. induction fds as [|f fds IH]; intros [|g l]; simpl; try done. intros [= Hl]. f_equal. by apply IH.
Qed.

(** Who calls [poll_inner]. *)
Lemma poll_caller w u t tk c fds timeout pf now :
  Reach w -> w_mode w = M_user u -> self_task w = Ok (t, w) -> w_tasks w !! t = Some tk -> tk_coroutine tk = Some c ->
  allowed (A_poll fds timeout pf now) w ->
  exists th s xs r rc, Inv th w s xs /\ s_pc s = PC_user u /\ s_stack s = t :: r /\ th_co th !! t = Some c /\
    coroutine_self w = Ok (Some c, w) /\ w_cos w !! c = Some rc /\ co_task rc = Some t.
Proof using.
  intros HR Hm Hself Htk Htc Ha. destruct (reach_inv w HR) as (th & s & xs & I). pose proof I as [TH HRel HL].
  pose proof (inv_sched _ _ _ _ I) as OK. pose proof (inv_mode _ _ _ _ I) as Hmode. rewrite Hm in Hmode.
  assert (s_pc s = PC_user u) as Hpc by (destruct (s_pc s); try discriminate; simpl in Hmode; congruence).
  assert (u <> U_main) as Hu.
  { destruct Ha as (e & ep & _ & _ & Ha). rewrite Hm in Ha. by destruct u; try done; destruct Ha. }
  pose proof (so_pc _ OK) as Hok. rewrite Hpc in Hok. destruct (s_stack s) as [|t' r] eqn:Hst; [by simpl in Hok|].
  destruct (running_objects th w s xs u t' r HRel Hpc Hst) as (c' & rc & tk' & Hco & Hself' & Hth & Hrc & Hrt & Htk' & Htc').
  rewrite Hself in Hself'. injection Hself' as <-. rewrite Htk in Htk'. injection Htk' as <-.
  rewrite Htc in Htc'. injection Htc' as <-. by exists th, s, xs, r, rc.
Qed.

(** A call that blocks leaves its task waiting, at a context without events
    and with an item due within [kMaxTimeoutMs]. *)
Lemma poll_waits th w s xs u t r c fds timeout pf now w1 :
  Inv th w s xs -> s_pc s = PC_user u -> s_stack s = t :: r -> th_co th !! t = Some c ->
  allowed (A_poll fds timeout pf now) w -> poll_inner_enter fds timeout pf now u w = Ok (PollBlocked, w1) ->
  exists s1 q rc pc it, Inv th w1 s1 xs /\ s_stat s1 !! t = Some (T_wait q fds u) /\
    w_cos w1 !! c = Some rc /\ co_kont rc = K_poll q fds u /\ w_polls w1 !! q = Some pc /\ pc_raise_cnt pc = 0 /\
    lh_items (w_heap w1) !! q = Some it /\ ti_expire it <= GetTickMS now + kMaxTimeoutMs.
Proof using.
  intros I Hpc Hst Hc Ha Hrun. pose proof (inv_sched _ _ _ _ I) as OK. pose proof (inv_mode _ _ _ _ I) as Hm.
  rewrite Hpc in Hm. cbn [mode_of] in Hm. destruct I as [TH HR HL]. destruct Ha as (e & ep & He & Hep & Ha). rewrite Hm in Ha.
  assert (u <> U_main /\ - 2 ^ 31 <= timeout < 2 ^ 31 /\ clock_ok ep now) as (Hu & Hint & Hclk) by by destruct u.
  destruct (poll_result th TH w s xs u e ep fds timeout pf now HR Hm He Hep Hu Hint Hclk)
    as [(ret & fds' & w' & Hrun' & _)|(q & w' & pc & Hrun' & HR' & (Hp & Hcnt) & it & Hit & Hexp)]; rewrite Hrun in Hrun'; [done|].
  injection Hrun' as <-.
  assert (s_stat (s_pop (T_wait q fds u) s) !! t = Some (T_wait q fds u)) as Ht.
  { apply (wait_pop s _ t r _ _ _ _ OK Hst). by left. }
  pose proof HR' as (ep1 & live & L & HC & _). destruct (ci_tasks _ _ _ _ HC t _ Ht) as (c' & tk & rc & Hc' & _ & Hrc & _ & _ & Hk).
  rewrite Hc in Hc'. injection Hc' as <-. exists (s_pop (T_wait q fds u) s), q, rc, pc, it.
  split_and!; [split; [done|done|]|done..]. apply pop_loop_inv; [by rewrite Hst|done|by rewrite Hpc].
Qed.

(** The second half of [poll_inner], run by its task. *)
Lemma leave_told th w s xs t q fds u pc a :
  Inv th w s xs -> s_pc s = PC_ret q fds u -> head (s_stack s) = Some t -> w_polls w !! q = Some pc -> told w t = Some (a, 0) ->
  exists fds' w' tk, poll_inner_leave q fds w = Ok ((pc_raise_cnt pc, fds'), w') /\ asked <$> fds' = asked <$> fds /\
    w_tasks w' !! t = Some tk /\ tk_attr tk = a /\ tk_timeout tk = 0.
Proof using.
  intros I Hpc Hh Hp Ht. pose proof (inv_mode _ _ _ _ I) as Hm. pose proof (inv_sched _ _ _ _ I) as OK. rewrite Hpc in Hm.
  pose proof I as [TH (ep & live & L & HC & HM & HW & _) _].
  assert (allowed A_run w) as Ha.
  { destruct (cb_env _ _ _ _ (ci_base _ _ _ _ HC)) as (e & He & _ & _ & Hep). exists e, ep. by rewrite Hm. }
  destruct (inv_step th w s xs A_run I Ha) as (w1 & _ & _ & Hs & _). revert Hs. unfold step_thread.
  rewrite (bind_Ok _ _ _ _ _ (gets_run w_mode w)), Hm. cbn [mode_of].
  intros ([r fds'] & w' & Hleave & _)%bind_inv. destruct (leave_result _ _ _ _ _ _ Hleave) as (pc' & Hp' & -> & ->).
  rewrite Hp in Hp'. injection Hp' as <-.
  destruct (told_task w' t a 0) as (tk & Htk & Ha1 & Ha2).
  { rewrite (ke_told _ _ _ (wp_Ok _ _ any_error _ _ _ (keeps_leave q fds w) Hleave)). done. }
  eexists _, w', tk. split; [exact Hleave|]. split_and!; [|done..]. apply asked_leave.
  destruct (base_is_task th w ep s t (ci_base _ _ _ _ HC)) as [c Hc]; [rewrite (so_head _ OK t Hh); eauto|].
  assert (live !! q = Some (c, fds)) as Hl by (apply HW; exists t; split; [done|right; eauto]).
  destruct (mi_live _ _ _ _ _ HM _ _ _ Hl) as ((pc' & Hp' & Hlen) & _). congruence.
Qed.

(** [poll_inner] keeps what the hooked calls rely on.  Called by a task, it
    returns at once with -1, the descriptors as they were, or with what the
    system's poll returned; or it blocks.  A blocked call returns, when its
    coroutine is switched in for it, the number of events reported for it,
    at least 0 (and below 2^31 if fewer events are reported altogether), and the
    descriptors with only their [revents] changed; then, and when the system's
    poll was asked, the task has not timed out.  The attributes of the task
    never change. *)
Theorem poll_inner_contract w u t tk c fds timeout pf now out w1 :
  Reach w -> w_mode w = M_user u -> self_task w = Ok (t, w) -> w_tasks w !! t = Some tk -> tk_coroutine tk = Some c ->
  allowed (A_poll fds timeout pf now) w -> poll_inner_enter fds timeout pf now u w = Ok (out, w1) ->
  exists tk1, w_tasks w1 !! t = Some tk1 /\ tk_attr tk1 = tk_attr tk /\
  match out with
  | PollReturn r fds' => r = -1 /\ fds' = fds \/ pf = Some (r, fds') /\ tk_timeout tk1 = 0
  | PollBlocked => forall rc q acts w2,
      w_cos w1 !! c = Some rc -> co_kont rc = K_poll q fds u ->
      allowed_run acts w1 -> run_thread acts w1 = Ok (tt, w2) -> waits_through q acts w1 ->
      w_mode w2 = M_poll_ret q fds u -> reported acts < 2 ^ 31 ->
      exists r fds' w3 tk3, poll_inner_leave q fds w2 = Ok ((r, fds'), w3) /\ 0 <= r <= reported acts /\
        asked <$> fds' = asked <$> fds /\
        w_tasks w3 !! t = Some tk3 /\ tk_attr tk3 = tk_attr tk /\ tk_timeout tk3 = 0
  end.
Proof using.
  intros HR Hm Hself Htk Htc Ha Hrun.
  destruct (poll_caller w u t tk c fds timeout pf now HR Hm Hself Htk Htc Ha) as (th & s & xs & r & rc & I & Hpc & Hst & Hth & Hco & Hrc & Hrt).
  destruct (wp_Ok _ _ _ _ _ _ (enter_told w c rc t tk fds timeout pf now u Hco Hrc Hrt Htk) Hrun) as (_ & flag & Hflag & Hlim & Hout).
  assert (limited (tk_attr tk) = false -> flag = 0) as Hlim0.
  { intros Hl. rewrite (Hlim Hl). apply (reach_flags w HR t (tk_attr tk)); [|done]. unfold told. by rewrite Htk. }
  assert ((limited (tk_attr tk) = true -> flag = 0) -> flag = 0) as Hz by (destruct (limited (tk_attr tk)); auto).
  destruct (told_task _ _ _ _ Hflag) as (tk1 & Htk1 & Hattr & Htm). exists tk1. split; [done|]. split; [done|].
  destruct Hout as [(fds' & -> & ->)|[[(r' & fds' & -> & Hpf)| ->] Hz']]; [by left|right; split; [done|rewrite Htm; auto]|].
  intros rc1 q acts w2 Hrc1 Hk Hal Hrun2 Hw Hm2 Hlt.
  destruct (poll_waits th w s xs u t r c fds timeout pf now w1 I Hpc Hst Hth Ha Hrun)
    as (s1 & q' & rc' & pc & _ & I1 & Ht1 & Hrc' & Hk' & Hp1 & Hcnt & _).
  rewrite Hrc1 in Hrc'. injection Hrc' as <-. rewrite Hk in Hk'. injection Hk' as <-.
  destruct (wait_run th acts w1 s1 xs w2 t q fds u pc I1 Ht1 Hal Hw Hrun2 Hm2 Hp1) as (s2 & xs2 & pc2 & I2 & Hpc2 & Hh & Ht2 & Hp2 & Hr);
    [lia|lia|].
  rewrite Hflag, (Hz Hz') in Ht2.
  destruct (leave_told th w2 s2 xs2 t q fds u pc2 (tk_attr tk) I2 Hpc2 Hh Hp2 Ht2) as (fds' & w3 & tk3 & Hleave & Hask & Htk3 & Ha3 & Hf3).
  exists (pc_raise_cnt pc2), fds', w3, tk3. split_and!; [done|lia|lia|done..].
Qed.
End effects.

(** * The call of the concrete thread *)

Fixpoint waits_b (q : Z) (acts : list action) (w : world (gmap Z Z)) : bool :=
  match acts with
  | [] => true
  | a :: acts' =>
      match w_mode w with M_poll_ret q' _ _ => negb (q' =? q) | _ => true end &&
      match step_thread a w with Ok (_, w') => waits_b q acts' w' | Fail _ => true end
  end.

Lemma waits_b_sound q acts : forall w, waits_b q acts w = true -> waits_through q acts w.
Proof.
  induction acts as [|a acts IH]; intros w; simpl; [done|]. intros [H1 H2]%andb_prop. split.
  - intros fds u Hm. rewrite Hm, Z.eqb_refl in H1. done.
  - intros w' Hs. rewrite Hs in H2. by apply IH.
Qed.

(** The task of [ThreadProps.demo_acts] before it polls, and what happens until
    its poll times out. *)
Definition demo_poll : list pollfd := [mk_pollfd 5 1 0].
Definition demo_polling : world (gmap Z Z) := default demo_blank (check_run (take 2 demo_acts) demo_boot).
Definition demo_blocked : world (gmap Z Z) :=
  match poll_inner_enter demo_poll 1000 None (demo_time 1) U_fun demo_polling with Ok (_, w) => w | Fail _ => demo_blank end.
Definition demo_meanwhile : list action := [A_eventloop 3 (demo_time 0) (demo_time 2); A_events [] (demo_time 20); A_run].
Definition demo_returns : world (gmap Z Z) := default demo_blank (check_run demo_meanwhile demo_blocked).
Definition demo_polling_task : task_t := default zero_task (w_tasks demo_polling !! 1).
Definition demo_blocked_co : coroutine_t := default zero_coroutine (w_cos demo_blocked !! 2).

Lemma demo_polling_run : check_run (take 2 demo_acts) demo_boot = Some demo_polling.
Proof.
  unfold demo_polling. assert ((if check_run (take 2 demo_acts) demo_boot then true else false) = true) as H by by vm_compute.
  by destruct (check_run (take 2 demo_acts) demo_boot).
Qed.

Lemma self_task_state {K} (w : world K) t w' : self_task w = Ok (t, w') -> w' = w.
Proof.
  cut (always eq (self_task (K := K))). { intros H Hr. by rewrite (wp_Ok _ _ any_error _ _ _ (H w) Hr). }
  assert (forall c, always eq (get_co (K := K) c)) by (intros c w0; unfold wp, get_co; by destruct (w_cos w0 !! c)).
  unfold self_task, coroutine_self, curr_coroutine, get_curr_thread_env. always_auto.
Qed.

Lemma demo_self : self_task demo_polling = Ok (1, demo_polling).
Proof.
  assert ((match self_task demo_polling with Ok (t, _) => t | Fail _ => 0 end) = 1) as H by by vm_compute.
  destruct (self_task demo_polling) as [[t w]|] eqn:E; [|done]. apply self_task_state in E as ->. by subst.
Qed.

Lemma demo_blocks : poll_inner_enter demo_poll 1000 None (demo_time 1) U_fun demo_polling = Ok (PollBlocked, demo_blocked).
Proof.
  unfold demo_blocked.
  assert (match poll_inner_enter demo_poll 1000 None (demo_time 1) U_fun demo_polling with Ok (PollBlocked, _) => true | _ => false end = true)
    as H by by vm_compute.
  by destruct (poll_inner_enter _ _ _ _ _ _) as [[[] w]|].
Qed.

Lemma demo_returns_run : check_run demo_meanwhile demo_blocked = Some demo_returns.
Proof.
  unfold demo_returns. assert ((if check_run demo_meanwhile demo_blocked then true else false) = true) as H by by vm_compute.
  by destruct (check_run demo_meanwhile demo_blocked).
Qed.

Lemma poll_inner_contract_witness :
  exists r fds' w3 tk3, poll_inner_leave 1 demo_poll demo_returns = Ok ((r, fds'), w3) /\ 0 <= r <= 0 /\
    asked <$> fds' = asked <$> demo_poll /\
    w_tasks w3 !! 1 = Some tk3 /\ tk_attr tk3 = tk_attr demo_polling_task /\ tk_timeout tk3 = 0.
Proof.
  destruct (poll_inner_contract demo_polling U_fun 1 demo_polling_task 2 demo_poll 1000 None (demo_time 1) PollBlocked demo_blocked)
    as (tk1 & _ & _ & H).
  - exact (demo_check _ _ demo_polling_run).
  - by vm_compute.
  - exact demo_self.
  - by vm_compute.
  - by vm_compute.
  - apply allowed_b_sound. by vm_compute.
  - exact demo_blocks.
  - apply (H demo_blocked_co 1 demo_meanwhile demo_returns).
    + by vm_compute.
    + by vm_compute.
    + exact (proj1 (check_run_sound _ _ _ demo_returns_run)).
    + exact (proj2 (check_run_sound _ _ _ demo_returns_run)).
    + apply waits_b_sound. by vm_compute.
    + by vm_compute.
    + by vm_compute.
Defined.
