(* ===== verification/NewTask.v ===== *)
(** What [coroutine_new_task] promises its caller, and how long [poll_inner]
    waits: a new task runs before the call returns, on its own argument; and
    no wait is longer than [kMaxTimeoutMs]. *)

From stdpp Require Import gmap list.
From S2P Require Import Prelude TimerList TimerListSpec ListProgram TimerWheel TimerWheelSpec TimerFrame Context Events.
From S2P Require Import Thread ThreadSpec Sched Coroutine TaskPool CtlInv Poll MemInv MemPoll CtlSteps.
From S2P Require Import PollFrames System Boot ThreadProps PollReturn.

Section newtask.
Context {K : Type} `{!EpollKernel K}.
Implicit Types w : world K.

(** [coroutine_new_task] in a thread that is initialised. *)
Lemma new_task_call th w ep s epfd now attr u :
  CtlInv w th ep s -> coroutine_new_task epfd now attr u w = new_task (th_pool th) attr u w.
Proof using.
  intros HC. pose proof (ci_base _ _ _ _ HC) as B. destruct (cb_env _ _ _ _ B) as (e & He & _ & Hpool & _).
  unfold coroutine_new_task. rewrite (bind_Ok _ _ _ _ _ (get_curr_thread_env_run _ (cb_pid _ _ _ _ B))), He.
  step. rewrite (bind_Ok _ _ _ _ _ (get_curr_thread_env_run _ (cb_pid _ _ _ _ B))), He. by do 2 step.
Qed.

(** Without a free task, whatever the depth of the call stack. *)
Lemma new_task_none th w s xs u epfd now attr :
  Inv th w s xs -> s_pc s = PC_user u -> s_free s = [] -> coroutine_new_task epfd now attr u w = Ok (-1, w).
Proof using.
  intros [TH (ep & live & L & HC & _) _] Hpc Hfree. rewrite (new_task_call th w ep s _ _ _ _ HC).
  destruct (ci_pool _ _ _ _ HC) as (pool & Hpl & HP). destruct (user_pool th _ _ _ _ Hpc HP) as (_ & _ & Hsize & Hwork & _).
  unfold new_task. step. rewrite (proj2 (Z.eqb_eq _ _)); [done|]. rewrite Hwork, Hfree. simpl. lia.
Qed.

(** The argument of the running task. *)
Lemma running_arg th w ep s t r tk :
  CtlInv w th ep s -> s_stack s = t :: r -> w_tasks w !! t = Some tk ->
  self_task w = Ok (t, w) /\ coroutine_arg w = Ok (tk_arg tk, w).
Proof using.
  intros HC Hst Htk. destruct (running_task th w ep s t r HC Hst) as (c & tk' & rc & Hco & Htk' & Hrc & Hsta & _ & Hself & Hst').
  rewrite Htk in Htk'. injection Htk' as <-. split; [done|]. unfold coroutine_arg.
  rewrite (bind_Ok _ _ _ _ _ Hself). step. rewrite (ts_task _ _ _ _ _ Hsta). by step.
Qed.

(** A new task, from the call of [coroutine_new_task] to the call of its
    function. *)
Lemma new_task_started th w s xs u e epfd now attr t fr f :
  Inv th w s xs -> s_pc s = PC_user u -> w_env w = Some e -> env_callstacksize e < kMaxCallStack ->
  attr_fun attr = Some (F_user f) -> s_free s = t :: fr ->
  exists w1 w2 tk, coroutine_new_task epfd now attr u w = Ok (0, w1) /\ w_mode w1 = M_task_loop /\
    step_thread A_run w1 = Ok (tt, w2) /\ w_mode w2 = M_user U_fun /\
    self_task w2 = Ok (t, w2) /\ coroutine_arg w2 = Ok (attr_arg attr, w2) /\ task_function w2 = Ok (F_user f, w2) /\
    w_tasks w2 !! t = Some tk /\ tk_attr tk = attr /\ tk_timeout tk = 0.
Proof using.
  intros [TH (ep & live & L & HC & _) _] Hpc He Hd Hf Hfree.
  destruct (cb_env _ _ _ _ (ci_base _ _ _ _ HC)) as (e0 & He0 & [_ Hsz _] & _). rewrite stack_cos_length in Hsz.
  assert (e0 = e) as -> by congruence.
  pose proof (new_task_ctl th TH w ep s attr u f HC Hpc Hf ltac:(lia)) as Hnew. rewrite (new_task_call th w ep s _ _ _ _ HC).
  rewrite Hfree in Hnew. destruct Hnew as (w1 & tk & Hrun & HC1 & _ & Htk & Harg & Hattr & Hflag & _ & _ & c & rc & Htc & Hrc & Hfn).
  destruct (task_main_loop_start th TH w1 ep _ t (s_stack s) HC1) as (w2 & Hrun2 & HC2 & _ & Htasks & Hcos); [done|done|].
  exists w1, w2, tk. split; [done|]. pose proof (ci_mode _ _ _ _ HC1) as Hm1. cbn in Hm1.
  rewrite <- Htasks in Htk. rewrite <- Hcos in Hrc. destruct (running_arg th w2 ep _ t (s_stack s) tk HC2) as [Hself Harg2]; [done|done|].
  pose proof (ci_mode _ _ _ _ HC2) as Hm2. cbn in Hm2.
  split_and!; [done| |done|done|by rewrite Harg2, Harg| |done..].
  - unfold step_thread. rewrite (bind_Ok _ _ _ _ _ (gets_run w_mode w1)), Hm1. exact Hrun2.
  - unfold task_function. rewrite (bind_Ok _ _ _ _ _ Hself). step. rewrite Htc. step. step. by rewrite Hfn, Hf.
Qed.

(** C10. A new task starts at once.  When the pool has a free task, a call of
    [coroutine_new_task] switches to it, and the library's next step is the
    call of the task's function: it runs, as the task [t] at the head of the
    free list, the function that was passed, with the argument and the
    attributes that were passed and its time-out flag clear, before the caller
    goes on.  When the pool has none, the call returns -1 and changes
    nothing. *)
Theorem new_task_starts_at_once w u e p pool epfd now attr :
  Reach w -> w_mode w = M_user u -> allowed (A_new_task epfd now attr) w ->
  w_env w = Some e -> env_pool e = Some p -> w_pools w !! p = Some pool ->
  match tp_free pool with
  | None => coroutine_new_task epfd now attr u w = Ok (-1, w)
  | Some t => exists w1 w2 tk f, coroutine_new_task epfd now attr u w = Ok (0, w1) /\ w_mode w1 = M_task_loop /\
      step_thread A_run w1 = Ok (tt, w2) /\ w_mode w2 = M_user U_fun /\
      self_task w2 = Ok (t, w2) /\ attr_fun attr = Some f /\ task_function w2 = Ok (f, w2) /\
      coroutine_arg w2 = Ok (attr_arg attr, w2) /\
      w_tasks w2 !! t = Some tk /\ tk_attr tk = attr /\ tk_timeout tk = 0
  end.
Proof using.
  intros HR Hm Ha He Hp Hpl. destruct (reach_inv w HR) as (th & s & xs & I). pose proof (inv_mode _ _ _ _ I) as Hmode.
  rewrite Hm in Hmode. assert (s_pc s = PC_user u) as Hpc by (destruct (s_pc s); try discriminate; simpl in Hmode; congruence).
  assert ((exists f, attr_fun attr = Some (F_user f)) /\ env_callstacksize e < kMaxCallStack) as [[f Hf] Hd].
  { destruct Ha as (e1 & ep1 & He1 & _ & Ha). rewrite Hm in Ha. assert (e1 = e) as -> by congruence. by destruct u. }
  assert (tp_free pool = head (s_free s)) as ->.
  { destruct I as [_ (ep & live & L & HC & _) _]. destruct (cb_env _ _ _ _ (ci_base _ _ _ _ HC)) as (e0 & He0 & _ & Hp0 & _).
    destruct (ci_pool _ _ _ _ HC) as (pool0 & Hpl0 & HP).
    assert (e0 = e) as -> by congruence. assert (th_pool th = p) as <- by congruence. assert (pool0 = pool) as -> by congruence.
    by destruct (user_pool th _ _ _ _ Hpc HP) as (-> & _). }
  destruct (s_free s) as [|t fr] eqn:Hfree; [by eapply new_task_none|].
  destruct (new_task_started th w s xs u e epfd now attr t fr f I Hpc He Hd Hf Hfree) as (w1 & w2 & tk & H).
  exists w1, w2, tk, (F_user f). naive_solver.
Qed.

(** No wait is longer than 10 ms: whatever the timeout of the call, when
    [poll_inner] blocks, its item is in the wheel with a deadline at most
    [kMaxTimeoutMs] after the time of the call. *)
Theorem poll_waits_at_most_10ms w u t tk c fds timeout pf now w1 :
  Reach w -> w_mode w = M_user u -> self_task w = Ok (t, w) -> w_tasks w !! t = Some tk -> tk_coroutine tk = Some c ->
  allowed (A_poll fds timeout pf now) w -> poll_inner_enter fds timeout pf now u w = Ok (PollBlocked, w1) ->
  exists rc q it, w_cos w1 !! c = Some rc /\ co_kont rc = K_poll q fds u /\
    lh_items (w_heap w1) !! q = Some it /\ ti_expire it <= GetTickMS now + kMaxTimeoutMs.
Proof using.
  intros HR Hm Hself Htk Htc Ha Hrun.
  destruct (poll_caller w u t tk c fds timeout pf now HR Hm Hself Htk Htc Ha) as (th & s & xs & r & rc & I & Hpc & Hst & Hth & _).
  destruct (poll_waits th w s xs u t r c fds timeout pf now w1 I Hpc Hst Hth Ha Hrun)
    as (s1 & q & rc1 & pc & it & _ & _ & Hrc1 & Hk & _ & _ & Hit & Hexp).
  by exists rc1, q, it.
Qed.
End newtask.

(** The thread of [ThreadProps] creates its task, and the task polls. *)
Definition demo_main_env : env_t := default (mk_env [] 0 None None None VNull None None) (w_env demo_boot).
Definition demo_attr : coroutine_task_attr_t := mk_attr 1 (-1) (VUser 9) (Some (F_user 7)) None.

Lemma new_task_starts_at_once_witness :
  exists w1 w2 tk f, coroutine_new_task 3 (demo_time 0) demo_attr U_main demo_boot = Ok (0, w1) /\ w_mode w1 = M_task_loop /\
    step_thread A_run w1 = Ok (tt, w2) /\ w_mode w2 = M_user U_fun /\
    self_task w2 = Ok (1, w2) /\ Some (F_user 7) = Some f /\ task_function w2 = Ok (f, w2) /\ coroutine_arg w2 = Ok (VUser 9, w2) /\
    w_tasks w2 !! 1 = Some tk /\ tk_attr tk = demo_attr /\ tk_timeout tk = 0.
Proof.
  apply (new_task_starts_at_once demo_boot U_main demo_main_env 1 (mk_taskpool [1] (Some 1) 1 0) 3 (demo_time 0) demo_attr).
  - exact demo_boot_reach.
  - by vm_compute.
  - apply allowed_b_sound. by vm_compute.
  - by vm_compute.
  - by vm_compute.
  - by vm_compute.
Defined.

Lemma poll_waits_at_most_10ms_witness :
  exists rc q it, w_cos demo_blocked !! 2 = Some rc /\ co_kont rc = K_poll q demo_poll U_fun /\
    lh_items (w_heap demo_blocked) !! q = Some it /\ ti_expire it <= GetTickMS (demo_time 1) + kMaxTimeoutMs.
Proof.
  apply (poll_waits_at_most_10ms demo_polling U_fun 1 demo_polling_task 2 demo_poll 1000 None (demo_time 1) demo_blocked).
  - exact (demo_check _ _ demo_polling_run).
  - by vm_compute.
  - exact demo_self.
  - by vm_compute.
  - by vm_compute.
  - apply allowed_b_sound. by vm_compute.
  - exact demo_blocks.
Defined.
