(* ===== verification/SpecFrames.v ===== *)
(** What the code of a thread does to the coroutine-specific data: nothing.
    Only [coroutine_setspecific] writes to [spec]; creation, switches, tasks,
    polls and the event loop leave the array of every coroutine alone. *)

From stdpp Require Import gmap list.
From S2P Require Import Prelude TimerList TimerListSpec ListProgram TimerWheel TimerWheelSpec TimerFrame Context Events.
From S2P Require Import Thread ThreadSpec Sched Coroutine TaskPool CtlInv Poll MemInv MemPoll CtlSteps System Frames.

Section frames.
Context {K : Type} `{!EpollKernel K}.
Implicit Types w : world K.

(** The entries of the coroutine at [c] that are not NULL. *)
Definition spec_at w (c : Z) : gmap Z Z := match w_cos w !! c with Some rc => co_spec rc | None => ∅ end.

Definition same_spec w w' : Prop := forall c, spec_at w' c = spec_at w c.

#[export] Instance same_spec_preorder : PreOrder same_spec.
Proof using. split; [by intros w c|]. intros w1 w2 w3 H1 H2 c. by rewrite H2. Qed.

Lemma same_spec_cos w w' : w_cos w' = w_cos w -> same_spec w w'.
Proof using. intros H c. unfold spec_at. by rewrite H. Qed.

(** The coroutine at [c] is replaced by one with the same data. *)
Lemma same_spec_insert w w' c rc : w_cos w' = <[c := rc]> (w_cos w) -> co_spec rc = spec_at w c -> same_spec w w'.
Proof using.
  intros Hc Hs d. unfold spec_at in *. rewrite Hc, lookup_insert. case_decide as Hd; [|done]. by subst d.
Qed.

#[export] Program Instance same_spec_frame : FrameAny same_spec := {| fa_frame := {| fr_kept y := False |} |}.
Next Obligation. done. Qed.
Next Obligation. intros w w' Hc _ _ _. by apply same_spec_cos. Qed.
Next Obligation. intros w c v v' Hc Hs. eapply same_spec_insert; [done|]. unfold spec_at. by rewrite Hc. Qed.
Next Obligation. intros w c Hc. eapply same_spec_insert; [done|]. unfold spec_at. by rewrite Hc. Qed.
Next Obligation. intros. by apply same_spec_cos. Qed.
Next Obligation. intros. by apply same_spec_cos. Qed.
Next Obligation. intros. by apply same_spec_cos. Qed.
Next Obligation. intros. by apply same_spec_cos. Qed.

(** A step of the thread leaves all specific data alone. *)
Lemma step_same_spec a w w' : step_thread a w = Ok (tt, w') -> same_spec w w'.
Proof using. apply (fa_step same_spec a w w'); [by intros y []|by intros q fds u _ y []]. Qed.

Lemma init_same_spec cap epfd now w w' : do_init_with cap epfd now w = Ok (tt, w') -> same_spec w w'.
Proof using. exact (wp_Ok _ _ any_error _ _ _ (fa_do_init same_spec cap epfd now w)). Qed.
End frames.
