(* ===== verification/SpecData.v ===== *)
(** Coroutine-specific data as its users see it: [coroutine_getspecific] and
    [coroutine_setspecific] of the tasks of a thread, between arbitrary steps
    of the thread, refine one map from keys to values per task. *)

From stdpp Require Import gmap list.
From S2P Require Import Prelude TimerList TimerListSpec ListProgram TimerWheel TimerWheelSpec TimerFrame Context Events.
From S2P Require Import Thread ThreadSpec Sched Coroutine TaskPool CtlInv Poll MemInv MemPoll CtlSteps.
From S2P Require Import System Boot ThreadProps NewTask SpecFrames.

(** * The specification *)

(** What a task did, and what it was given. *)
Inductive data_op :=
  | D_set (key : Z) (value : option Z)
  | D_get (key : Z) (value : option Z).

(** The values are [m], by task and key; NULL is no value. *)
Fixpoint data_ok (m : gmap (Z * Z) Z) (obs : list (Z * data_op)) : bool :=
  match obs with
  | [] => true
  | (t, D_set key value) :: obs' => data_ok (partial_alter (fun _ => value) (t, key) m) obs'
  | (t, D_get key value) :: obs' => bool_decide (m !! (t, key) = value) && data_ok m obs'
  end.

Section data.
Context {K : Type} `{!EpollKernel K}.
Implicit Types w : world K.

(** * Executions *)

(** User code of the task [t] is running. *)
Definition runs_task w (t : Z) : Prop :=
  (exists u, w_mode w = M_user u /\ u <> U_main) /\ self_task w = Ok (t, w).

(** Steps of the thread, and between them the calls of tasks. *)
Inductive data_run : world K -> list (Z * data_op) -> world K -> Prop :=
  | dr_nil w : data_run w [] w
  | dr_step a w w1 obs w2 :
      allowed a w -> step_thread a w = Ok (tt, w1) -> data_run w1 obs w2 -> data_run w obs w2
  | dr_set t key value thread_ret ret w w1 obs w2 :
      runs_task w t -> 0 <= key < spec_len -> coroutine_setspecific key value thread_ret w = Ok (ret, w1) ->
      data_run w1 obs w2 -> data_run w ((t, D_set key value) :: obs) w2
  | dr_get t key value thread_value w w1 obs w2 :
      runs_task w t -> 0 <= key < spec_len -> coroutine_getspecific key thread_value w = Ok (value, w1) ->
      data_run w1 obs w2 -> data_run w ((t, D_get key value) :: obs) w2.

(** * One call *)

(** The data of the coroutine at [c] become [sp]. *)
Definition with_spec (c : Z) (rc : coroutine_t) (sp : gmap Z Z) w : world K :=
  w <| w_cos := <[c := rc <| co_spec := sp |>]> (w_cos w) |>.

Lemma spec_at_with w c rc sp d : spec_at (with_spec c rc sp w) d = if decide (c = d) then sp else spec_at w d.
Proof using. unfold spec_at, with_spec. cbn. rewrite lookup_insert. by case_decide. Qed.

(** The running task's coroutine. *)
Lemma runs_task_coroutine th w s xs t :
  Inv th w s xs -> runs_task w t ->
  exists c rc, th_co th !! t = Some c /\ coroutine_self w = Ok (Some c, w) /\ w_cos w !! c = Some rc /\ co_main rc = 0.
Proof using.
  intros I [(u & Hm & Hu) Hself]. pose proof (inv_sched _ _ _ _ I) as OK. pose proof (inv_mode _ _ _ _ I) as Hmode.
  destruct I as [_ (ep & live & L & HC & _) _]. rewrite Hm in Hmode. pose proof (so_pc _ OK) as Hok.
  assert (s_pc s = PC_user u) as Hpc by (destruct (s_pc s); try discriminate; simpl in Hmode; congruence). rewrite Hpc in Hok.
  destruct (s_stack s) as [|t' r] eqn:Hst; [by simpl in Hok|].
  destruct (running_task th w ep s t' r HC Hst) as (c & tk & rc & Hco & _ & Hrc & Hsta & _ & Hs & Hself').
  assert (t' = t) as -> by congruence. exists c, rc. by rewrite (ts_main _ _ _ _ _ Hsta).
Qed.

(** The running coroutine is a matter of the call stack. *)
Lemma self_ext w w' c :
  coroutine_self w = Ok (Some c, w) -> w_env w' = w_env w -> w_pid w' = w_pid w -> coroutine_self w' = Ok (Some c, w').
Proof using.
  intros H He Hp. revert H. unfold coroutine_self, get_curr_thread_env, curr_coroutine, array_get. mrun. rewrite He, Hp.
  case_bool_decide; [|done]. destruct (w_env w) as [e|]; [|done]. simpl. case_bool_decide; [|done].
  destruct (env_callstack e !! _) as [o|]; [|done]. simpl. congruence.
Qed.

Lemma getspecific_run w c rc key tv :
  coroutine_self w = Ok (Some c, w) -> w_cos w !! c = Some rc -> co_main rc = 0 ->
  coroutine_getspecific key tv w =
    if bool_decide (0 <= key < spec_len) then Ok (spec_at w c !! key, w) else Fail OutOfBounds.
Proof using.
  intros Hself Hc Hm. unfold coroutine_getspecific, get_curr_thread_coroutine. rewrite (bind_Ok _ _ _ _ _ Hself). step.
  rewrite Hm. cbn [Z.eqb negb]. unfold spec_at. rewrite Hc. by case_bool_decide.
Qed.

Lemma setspecific_run w c rc key v r :
  coroutine_self w = Ok (Some c, w) -> w_cos w !! c = Some rc -> co_main rc = 0 ->
  coroutine_setspecific key v r w =
    if bool_decide (0 <= key < spec_len)
    then Ok (0, with_spec c rc (partial_alter (fun _ => v) key (spec_at w c)) w) else Fail OutOfBounds.
Proof using.
  intros Hself Hc Hm. unfold coroutine_setspecific, get_curr_thread_coroutine. rewrite (bind_Ok _ _ _ _ _ Hself). step.
  rewrite Hm. cbn [Z.eqb negb]. case_bool_decide; [|done]. step. unfold spec_at, with_spec. by rewrite Hc.
Qed.

(** The thread does not care for the data of its coroutines. *)
Lemma inv_with_spec th w s xs c rc sp t :
  Inv th w s xs -> th_co th !! t = Some c -> w_cos w !! c = Some rc -> Inv th (with_spec c rc sp w) s xs.
Proof using.
  intros [TH (ep & live & L & HC & HM & HW & Hxs) HL] Ht Hc. split; [done| |done]. exists ep, live, L.
  split; [|split; [by apply (mem_ext w)|done]]. destruct HC as [[B1 B2 B3 B4 B5] HT HP Hmode].
  assert (c <> th_main th) as Hcm by (intros ->; by apply (to_main _ TH t)).
  split; [split; try done| |done|done].
  - destruct B3 as (rm & Hrm & Hk). exists rm. split; [|done]. cbn. by rewrite lookup_insert_ne.
  - intros t' st Hst. destruct (HT t' st Hst) as (c' & tk & rc' & H1 & H2 & H3 & [S1 S2 S3 S4 S5 S6] & H5).
    exists c', tk. destruct (decide (c = c')) as [<-|Hne].
    + rewrite Hc in H3. injection H3 as <-. eexists. split; [done|]. split; [done|]. split; [apply lookup_insert_eq|].
      split; [by split|]. by destruct st.
    + exists rc'. split_and!; [done|done|cbn; by rewrite lookup_insert_ne|by split|done].
Qed.

(** * The simulation *)

(** The data of the tasks' coroutines are [m]. *)
Definition holds_data (th : thread) w (m : gmap (Z * Z) Z) : Prop :=
  forall t c key, th_co th !! t = Some c -> m !! (t, key) = spec_at w c !! key.

Lemma holds_same th w w' m : same_spec w w' -> holds_data th w m -> holds_data th w' m.
Proof using. intros Hs HD t c key Hc. rewrite (HD t c key Hc). by rewrite (Hs c). Qed.

Lemma holds_set th w m t c rc key v :
  thread_ok th -> th_co th !! t = Some c -> holds_data th w m ->
  holds_data th (with_spec c rc (partial_alter (fun _ => v) key (spec_at w c)) w) (partial_alter (fun _ => v) (t, key) m).
Proof using.
  intros TH Ht HD t' c' key' Ht'. rewrite spec_at_with. destruct (decide (t' = t)) as [->|Hne].
  - assert (c' = c) as -> by congruence. rewrite decide_True by done. destruct (decide (key' = key)) as [->|Hk].
    + by rewrite !lookup_partial_alter_eq.
    + rewrite !lookup_partial_alter_ne by congruence. by apply HD.
  - rewrite lookup_partial_alter_ne by congruence. rewrite decide_False; [by apply HD|].
    intros <-. apply Hne. by apply (to_inj _ TH _ _ c).
Qed.

Lemma data_run_ok th w obs w' :
  data_run w obs w' -> forall s xs m, Inv th w s xs -> holds_data th w m ->
  data_ok m obs = true /\ exists s' xs', Inv th w' s' xs'.
Proof using.
  induction 1 as [w|a w w1 obs w2 Ha Hrun _ IH|t key v r ret w w1 obs w2 Hr Hk Hset _ IH|t key v tv w w1 obs w2 Hr Hk Hget _ IH];
    intros s xs m I HD.
  - split; [done|]. eauto.
  - destruct (inv_step th w s xs a I Ha) as (w1' & s1 & xs1 & Hrun' & _ & I1). rewrite Hrun in Hrun'. injection Hrun' as <-.
    apply (IH s1 xs1 m I1). by apply (holds_same th w), HD; apply (step_same_spec a).
  - destruct (runs_task_coroutine th w s xs t I Hr) as (c & rc & Hc & Hself & Hrc & Hmain).
    rewrite (setspecific_run w c rc key v r Hself Hrc Hmain), bool_decide_eq_true_2 in Hset by done. injection Hset as <- <-.
    cbn [data_ok]. apply (IH s xs); [by apply (inv_with_spec th w s xs c rc _ t)|]. apply holds_set; [apply I|done|done].
  - destruct (runs_task_coroutine th w s xs t I Hr) as (c & rc & Hc & Hself & Hrc & Hmain).
    rewrite (getspecific_run w c rc key tv Hself Hrc Hmain), bool_decide_eq_true_2 in Hget by done. injection Hget as <- <-.
    cbn [data_ok]. rewrite bool_decide_eq_true_2 by by apply HD. by apply (IH s xs).
Qed.

(** C9. Specific data are a map per task.  From the initialisation of the
    thread on, whatever its steps (waits, ends of tasks, new tasks, the event
    loop), [coroutine_getspecific] gives a task the value that the same task
    set last under this key, or NULL if it never set one: nothing is lost in a
    wait, and no task sees the data of another.  The task is that of the pool,
    so what a function has set is still there for the next function that runs
    as the same task.  The calls of a running task return for every key below
    1024, and leave the array [spec] for any other. *)
Theorem specific_data_per_task w0 cap epfd now w obs w' :
  blank w0 now -> 0 <= opt_task_per_thread (w_options w0) <= cap -> opt_task_per_thread (w_options w0) < 2 ^ 31 ->
  do_init_with cap epfd now w0 = Ok (tt, w) -> data_run w obs w' ->
  data_ok ∅ obs = true /\
  forall t key v tv r, runs_task w' t ->
    if bool_decide (0 <= key < spec_len)
    then (exists x, coroutine_getspecific key tv w' = Ok (x, w')) /\
         exists w1, coroutine_setspecific key v r w' = Ok (0, w1) /\ coroutine_getspecific key tv w1 = Ok (v, w1)
    else coroutine_getspecific key tv w' = Fail OutOfBounds /\ coroutine_setspecific key v r w' = Fail OutOfBounds.
Proof using.
  intros Hb Hn Hmax Hinit Hrun. destruct (boot_inv w0 cap epfd now Hb Hn Hmax) as (w1 & th & free & Hinit' & _ & I).
  rewrite Hinit in Hinit'. injection Hinit' as <-.
  assert (holds_data th w ∅) as HD.
  { intros t c key _. rewrite (init_same_spec _ _ _ _ _ Hinit c). unfold spec_at. by rewrite (bl_cos _ _ Hb), !lookup_empty. }
  destruct (data_run_ok th w obs w' Hrun _ _ ∅ I HD) as [Hok (s' & xs' & I')]. split; [done|].
  intros t key v tv r Hr. destruct (runs_task_coroutine th w' s' xs' t I' Hr) as (c & rc & Hc & Hself & Hrc & Hmain).
  rewrite (getspecific_run w' c rc key tv Hself Hrc Hmain), (setspecific_run w' c rc key v r Hself Hrc Hmain).
  case_bool_decide as Hk; [|done]. split; [by eexists|]. eexists. split; [done|].
  erewrite (getspecific_run _ c); [| |apply lookup_insert_eq|done].
  - rewrite bool_decide_eq_true_2, spec_at_with, decide_True, lookup_partial_alter_eq by done. done.
  - by apply (self_ext w').
Qed.
End data.

(** * An execution *)

(** What happens next: a step, or a call of the running task. *)
Inductive data_event := E_act (a : action) | E_set (key : Z) (value : option Z) | E_get (key : Z).

Definition user_of_task (m : mode) : bool :=
  match m with M_user U_main => false | M_user _ => true | _ => false end.

(** Run the events, with what is observed. *)
Fixpoint check_data (evs : list data_event) (w : world (gmap Z Z)) : option (list (Z * data_op) * world (gmap Z Z)) :=
  match evs with
  | [] => Some ([], w)
  | E_act a :: evs' =>
      if allowed_b a w then match step_thread a w with Ok (_, w1) => check_data evs' w1 | Fail _ => None end else None
  | E_set key value :: evs' =>
      if user_of_task (w_mode w) && bool_decide (0 <= key < spec_len) then
        match self_task w, coroutine_setspecific key value 0 w with
        | Ok (t, _), Ok (_, w1) => (fun x => ((t, D_set key value) :: x.1, x.2)) <$> check_data evs' w1
        | _, _ => None
        end
      else None
  | E_get key :: evs' =>
      if user_of_task (w_mode w) && bool_decide (0 <= key < spec_len) then
        match self_task w, coroutine_getspecific key None w with
        | Ok (t, _), Ok (value, w1) => (fun x => ((t, D_get key value) :: x.1, x.2)) <$> check_data evs' w1
        | _, _ => None
        end
      else None
  end.

(** Finding out the running task changes nothing. *)
Lemma self_task_same (w w' : world (gmap Z Z)) t : self_task w = Ok (t, w') -> w' = w.
Proof.
  intros H. assert (always (fun w1 w2 : world (gmap Z Z) => w2 = w1) self_task) as Ha.
  { assert (PreOrder (fun w1 w2 : world (gmap Z Z) => w2 = w1)) by (split; [by intros ?|by intros ? ? ? -> ->]).
    unfold self_task, coroutine_self, get_curr_thread_env, curr_coroutine. always_auto;
      intros w0; unfold wp, get_co; by destruct (w_cos w0 !! _). }
  exact (wp_Ok _ _ _ _ _ _ (Ha w) H).
Qed.

Lemma runs_task_b (w w1 : world (gmap Z Z)) t : user_of_task (w_mode w) = true -> self_task w = Ok (t, w1) -> runs_task w t.
Proof.
  intros Hm Hs. pose proof (self_task_same _ _ _ Hs) as ->. split; [|done].
  destruct (w_mode w) as [| |u|q fds u| | | |]; try done. exists u. split; [done|]. by intros ->.
Qed.

Lemma check_data_sound evs : forall w obs w', check_data evs w = Some (obs, w') -> data_run w obs w'.
Proof.
  induction evs as [|[a|key v|key] evs IH]; intros w obs w'; cbn [check_data].
  - intros [= <- <-]. constructor.
  - destruct (allowed_b a w) eqn:Ha; [|done]. destruct (step_thread a w) as [[[] w1]|] eqn:Hs; [|done].
    intros H. eapply dr_step; [by apply allowed_b_sound|done|by apply IH].
  - destruct (user_of_task (w_mode w)) eqn:Hm; [|done]. case_bool_decide as Hk; [|done]. simpl.
    destruct (self_task w) as [[t w0]|] eqn:Hs; [|done]. destruct (coroutine_setspecific key v 0 w) as [[r w1]|] eqn:Hset; [|done].
    intros ([obs1 w2] & H1 & H2)%fmap_Some. injection H2 as -> ->.
    eapply dr_set; [by eapply runs_task_b|done|done|by apply IH].
  - destruct (user_of_task (w_mode w)) eqn:Hm; [|done]. case_bool_decide as Hk; [|done]. simpl.
    destruct (self_task w) as [[t w0]|] eqn:Hs; [|done]. destruct (coroutine_getspecific key None w) as [[v w1]|] eqn:Hget; [|done].
    intros ([obs1 w2] & H1 & H2)%fmap_Some. injection H2 as -> ->.
    eapply dr_get; [by eapply runs_task_b|done|done|by apply IH].
Qed.

(** The task of the thread of [ThreadProps] sets key 7 and ends; the next
    function on it finds the value, waits, and finds it again. *)
Definition demo_data : list data_event :=
  let attr := mk_attr 1 (-1) (VUser 9) (Some (F_user 7)) None in
  [ E_act (A_new_task 3 (demo_time 0) attr); E_act A_run; E_get 7; E_set 7 (Some 42); E_act A_return; E_act A_run;
    E_act (A_new_task 3 (demo_time 0) attr); E_act A_run; E_get 7; E_act (A_poll [mk_pollfd 5 1 0] 1000 None (demo_time 1));
    E_act (A_eventloop 3 (demo_time 0) (demo_time 2)); E_act (A_events [] (demo_time 20)); E_act A_run; E_act A_run;
    E_get 7; E_get 8 ].

Definition demo_obs : list (Z * data_op) :=
  [ (1, D_get 7 None); (1, D_set 7 (Some 42)); (1, D_get 7 (Some 42)); (1, D_get 7 (Some 42)); (1, D_get 8 None) ].

#[export] Instance data_op_eq_dec : EqDecision data_op.
Proof. solve_decision. Defined.

Lemma demo_data_run : exists w', data_run demo_boot demo_obs w'.
Proof.
  assert (bool_decide (fst <$> check_data demo_data demo_boot = Some demo_obs) = true) as H by by vm_compute.
  apply bool_decide_eq_true in H. apply fmap_Some in H as ([obs w'] & H & ->). exists w'. by apply check_data_sound in H.
Qed.

Lemma specific_data_per_task_witness :
  exists w', data_run demo_boot demo_obs w' /\ data_ok ∅ demo_obs = true.
Proof.
  destruct demo_data_run as [w' H]. exists w'. split; [exact H|].
  apply (specific_data_per_task demo_blank 1 3 (demo_time 0) demo_boot demo_obs w' demo_blank_ok);
    [by vm_compute|by vm_compute|exact demo_boot_run|exact H].
Defined.
