(* ===== verification/NestProps.v ===== *)
(** The bounds of a thread's arrays: the call stack, which the tasks of the
    pool cannot fill, although [coroutine_resume] does not test its bound; and
    the array of the pool, which has room for one task. *)

From stdpp Require Import gmap list.
From S2P Require Import Prelude TimerList TimerListSpec ListProgram TimerWheel TimerWheelSpec TimerFrame Context Events.
From S2P Require Import Thread ThreadSpec Sched Coroutine TaskPool CtlInv Poll MemInv MemPoll CtlSteps.
From S2P Require Import PollFrames System Boot ThreadProps PollReturn NewTask.

Section nest.
Context {K : Type} `{!EpollKernel K}.
Implicit Types w : world K.

(** * The array of tasks *)

Lemma create_tasks_app n1 n2 cap p : forall i w,
  create_tasks (n1 + n2) cap p i w = (create_tasks n1 cap p i;; create_tasks n2 cap p (i + Z.of_nat n1)) w.
Proof using.
  induction n1 as [|n1 IH]; intros i w; cbn [Nat.add create_tasks].
  - rewrite (bind_Ok _ _ w tt w) by done. by rewrite Z.add_0_r.
  - rewrite bind_assoc. unfold mbind, M_bind. destruct (create_task cap p i w) as [[[] w1]|]; [|done].
    rewrite IH. unfold mbind, M_bind. destruct (create_tasks n1 cap p (i + 1) w1) as [[[] w2]|]; [|done]. f_equal. lia.
Qed.

(** A store behind the array of [cap] elements. *)
Lemma create_task_overflows cap p i w : cap <= i -> create_task cap p i w = Fail OutOfBounds.
Proof using.
  intros Hi. unfold create_task. step. step. unfold store_task. rewrite bool_decide_eq_false_2 by lia. done.
Qed.

Lemma init_overflows w cap epfd now :
  blank w now -> 0 <= cap < opt_task_per_thread (w_options w) -> do_init_with cap epfd now w = Fail OutOfBounds.
Proof using.
  intros [Hpid Hcos _ Hheap Hreg Hmode Hnow] Hn. unfold do_init_with. step.
  destruct (init_env_run w epfd now Hpid Hcos Hheap Hnow Hreg)
    as (w1 & e1 & ep & main & rm & L & Hrun1 & He1 & Hse1 & Hep & Hco1 & Hpid1 & Hopt1 & Htk1 & Hpl1 & HM & Hact).
  rewrite (bind_Ok _ _ _ _ _ Hrun1). step. rewrite Hopt1. set (n := opt_task_per_thread (w_options w)) in *.
  unfold create_pool. rewrite bind_assoc. step. rewrite bind_assoc. step. set (p := fresh_addr (w_pools w1)).
  set (w2 := w1 <| w_pools := _ |>).
  assert (Built w2 (mk_thread main p ∅) e1 []) as B.
  { split; simpl; try done.
    - unfold in_gEnv in *. simpl. lia.
    - exists e1. by split_and!.
    - exists rm. rewrite Hco1. apply lookup_insert_eq.
    - constructor.
    - intros t. rewrite lookup_empty. split; [by intros ?%elem_of_nil|by intros []].
    - eexists. split; [apply lookup_insert_eq|]. done. }
  destruct (create_tasks_built cap (Z.to_nat cap) w2 _ e1 [] 0 B ltac:(lia) ltac:(lia)) as (w3 & co & free & Hrun3 & _ & _ & B3).
  cbn [th_main th_pool] in *. replace (Z.to_nat n) with (Z.to_nat cap + S (Z.to_nat n - Z.to_nat cap - 1))%nat by lia.
  rewrite bind_assoc. unfold mbind, M_bind. rewrite create_tasks_app, (bind_Ok _ _ _ _ _ Hrun3). cbn [create_tasks].
  unfold mbind, M_bind. by rewrite create_task_overflows by lia.
Qed.

(** * The call stack *)

(** What is on the call stack: main, and above it coroutines of tasks of the
    pool that are not free, none twice. *)
Lemma stack_of_tasks th w ep s pool :
  thread_ok th -> CtlInv w th ep s -> PoolInv (w_tasks w) pool th s ->
  NoDup (stack_cos th (s_stack s)) /\ Z.of_nat (length (s_stack s)) + Z.of_nat (length (s_free s)) <= tp_size pool /\
  forall c, c ∈ co_of th <$> s_stack s -> exists t tk, t ∈ tp_tasks pool /\ w_tasks w !! t = Some tk /\ tk_coroutine tk = Some c.
Proof using.
  intros TH HC HP. pose proof (ci_base _ _ _ _ HC) as B. pose proof (cb_sched _ _ _ _ B) as OK.
  assert (forall t st, s_stat s !! t = Some st -> is_Some (th_co th !! t)) as Hdom.
  { intros t st Ht. apply elem_of_dom. rewrite <- (cb_dom _ _ _ _ B). by apply elem_of_dom_2 in Ht. }
  assert (forall t, t ∈ s_stack s -> exists st, s_stat s !! t = Some st /\ st <> T_free) as Hon.
  { intros t Ht. destruct (s_stack s) as [|t0 r] eqn:E; [by apply elem_of_nil in Ht|].
    apply elem_of_cons in Ht as [->|Ht]; [exists T_run; by rewrite (so_head _ OK t0) by (by rewrite E)|].
    destruct (so_tail _ OK t) as [u Hu]; [by rewrite E|]. by exists (T_susp u). }
  assert (forall t, t ∈ s_stack s -> th_co th !! t = Some (co_of th t)) as Hco.
  { intros t (st & Ht & _)%Hon. destruct (Hdom t st Ht) as [c Hc]. unfold co_of. by rewrite Hc. }
  split; [|split].
  - unfold stack_cos. constructor.
    + rewrite elem_of_reverse, list_elem_of_fmap. intros (t & Heq & Ht%Hco). rewrite <- Heq in Ht. by apply (to_main _ TH t).
    + rewrite reverse_Permutation. apply NoDup_fmap_2_strong; [|apply OK]. intros x y Hx%Hco Hy%Hco Heq. rewrite Heq in Hx. by apply (to_inj _ TH _ _ (co_of th y)).
  - rewrite (pi_size _ _ _ _ HP), <- Nat2Z.inj_add, <- length_app. apply Nat2Z.inj_le.
    rewrite <- size_dom, <- (size_list_to_set (C := gset Z) (s_stack s ++ s_free s)).
    + apply subseteq_size. intros t Ht. apply elem_of_list_to_set, elem_of_app in Ht as [Ht|Ht]; apply elem_of_dom.
      * rewrite (Hco t Ht). eauto.
      * by eapply Hdom, (so_frees _ OK).
    + apply NoDup_app. split; [apply OK|]. split; [|apply OK]. intros t (st & Ht & Hst)%Hon Hf. by rewrite (so_frees _ OK t Hf) in Ht; injection Ht as <-.
  - intros c (t & -> & Ht)%list_elem_of_fmap. destruct (Hon t Ht) as (st & Hst & _).
    destruct (ci_tasks _ _ _ _ HC t st Hst) as (c' & tk & rc & Hc & Htk & _ & Hsta & _).
    exists t, tk. split; [apply (pi_tasks _ _ _ _ HP); eauto|]. split; [done|]. rewrite (ts_coroutine _ _ _ _ _ Hsta).
    by rewrite Hco in Hc.
Qed.

(** The tasks of a thread that has been initialised are all free. *)
Lemma boot_tasks th w free xs : Inv th w (boot_sched (th_co th) free) xs -> (size (th_co th) <= length free)%nat.
Proof using.
  intros I. pose proof (inv_sched _ _ _ _ I) as OK. pose proof (so_stat _ OK) as Hst. rewrite <- size_dom.
  rewrite <- (size_list_to_set (C := gset Z) free) by apply (so_free _ OK).
  apply subseteq_size. intros t [c Hc]%elem_of_dom. apply elem_of_list_to_set, (Hst t T_free). simpl. by rewrite lookup_fmap, Hc.
Qed.

(** C11. The call stack has room.  It holds main and above it coroutines of
    the pool's tasks, none of them twice, so it is never deeper than the
    number of tasks and one; hence in a thread with fewer than 128 tasks any
    call of [coroutine_new_task] works, at any depth, although
    [coroutine_resume] does not test the bound of its array; and every thread
    that [do_init_curr_thread_env] manages to initialise is of this kind, it
    has at most one task. *)
Theorem call_stack_has_room w e p pool :
  Reach w -> w_env w = Some e -> env_pool e = Some p -> w_pools w !! p = Some pool ->
  (exists main cos, env_callstacksize e = Z.of_nat (length (main :: cos)) /\ NoDup (main :: cos) /\
     (forall i c, (main :: cos) !! i = Some c -> env_callstack e !! i = Some (Some c)) /\
     (forall c, c ∈ cos -> exists t tk, t ∈ tp_tasks pool /\ w_tasks w !! t = Some tk /\ tk_coroutine tk = Some c) /\
     env_callstacksize e <= 1 + tp_size pool) /\
  (forall u epfd now attr f, tp_size pool < kMaxCallStack -> w_mode w = M_user u -> attr_fun attr = Some (F_user f) ->
     exists w', step_thread (A_new_task epfd now attr) w = Ok (tt, w') /\ Reach w') /\
  (forall w0 epfd now w1 acts, blank w0 now -> 0 <= opt_task_per_thread (w_options w0) < 2 ^ 31 ->
     do_init_curr_thread_env epfd now w0 = Ok (tt, w1) -> allowed_run acts w1 -> run_thread acts w1 = Ok (tt, w) ->
     tp_size pool <= 1).
Proof using.
  intros HR He Hp Hpl. destruct (reach_inv w HR) as (th & s & xs & I). pose proof (inv_mode _ _ _ _ I) as Hmode.
  pose proof I as [TH (ep & live & L & HC & _) _]. destruct (cb_env _ _ _ _ (ci_base _ _ _ _ HC)) as (e0 & He0 & Hse & Hp0 & Hep).
  assert (e0 = e) as -> by congruence. destruct (ci_pool _ _ _ _ HC) as (pool0 & Hpl0 & HP).
  assert (th_pool th = p) as <- by congruence. assert (pool0 = pool) as -> by congruence.
  destruct (stack_of_tasks th w ep s pool TH HC HP) as (Hnd & Hle & Htk). pose proof (se_size _ _ Hse) as Hsz.
  split; [|split].
  - eexists _, _. split; [exact Hsz|]. split; [exact Hnd|]. split; [apply Hse|].
    split; [intros c Hc; rewrite elem_of_reverse in Hc; by apply Htk|]. rewrite Hsz, stack_cos_length. lia.
  - intros u epfd now attr f Hsmall Hm Hf. rewrite stack_cos_length in Hsz.
    destruct (decide (env_callstacksize e < kMaxCallStack)) as [Hroom|Hfull].
    + assert (allowed (A_new_task epfd now attr) w) as Ha by (exists e, ep; rewrite Hm; split; [done|]; split; [done|]; simpl; destruct u; split; eauto).
      destruct (inv_step th w s xs _ I Ha) as (w' & s' & xs' & Hrun & _). exists w'. split; [done|]. by eapply reach_step.
    + assert (s_free s = []) as Hfree by (apply length_zero_iff_nil; lia). exists w. split; [|done].
      rewrite Hm in Hmode. assert (s_pc s = PC_user u) as Hpc by (destruct (s_pc s); try discriminate; simpl in Hmode; congruence).
      rewrite (step_user_new w u) by done.
      by erewrite bind_Ok by exact (new_task_none th w s xs u epfd now attr I Hpc Hfree).
  - intros w0 epfd now w1 acts Hb Hn Hinit Hacts Hrun. unfold do_init_curr_thread_env in Hinit.
    destruct (decide (opt_task_per_thread (w_options w0) <= 1)) as [Hone|Hmany]; [|by rewrite (init_overflows w0 1 epfd now Hb) in Hinit by lia].
    destruct (boot_inv w0 1 epfd now Hb ltac:(lia) ltac:(lia)) as (w1' & th1 & free & Hinit' & Hlen & I1).
    rewrite Hinit in Hinit'. injection Hinit' as <-.
    destruct (inv_run th1 acts w1 _ _ I1 Hacts) as (w' & s1 & xs1 & Hrun' & _ & I2). rewrite Hrun in Hrun'. injection Hrun' as <-.
    destruct I2 as [_ (ep2 & live2 & L2 & HC2 & _) _]. destruct (cb_env _ _ _ _ (ci_base _ _ _ _ HC2)) as (e2 & He2 & _ & Hp2 & _).
    assert (e2 = e) as -> by congruence. destruct (ci_pool _ _ _ _ HC2) as (pool2 & Hpl2 & HP2).
    rewrite Hp in Hp2. injection Hp2 as Hp2. rewrite <- Hp2, Hpl in Hpl2. injection Hpl2 as <-.
    rewrite (pi_size _ _ _ _ HP2). pose proof (boot_tasks th1 w1 free [] I1). lia.
Qed.

(** C12. The array of the pool is too small.  Initialising a thread, as the
    first [coroutine_new_task] or [coroutine_eventloop] of a program does,
    works for a pool of one task; for every larger one, the default of 1000
    among them, the second task is stored behind the array [tasks]. *)
Theorem pool_array_overflows w epfd now attr :
  blank w now -> w_env w = None -> 0 <= opt_task_per_thread (w_options w) < 2 ^ 31 ->
  if bool_decide (opt_task_per_thread (w_options w) <= 1)
  then exists w', do_init_curr_thread_env epfd now w = Ok (tt, w') /\ Reach w'
  else do_init_curr_thread_env epfd now w = Fail OutOfBounds /\
       coroutine_new_task epfd now attr U_main w = Fail OutOfBounds /\
       forall now', eventloop_start epfd now now' w = Fail OutOfBounds.
Proof using.
  intros Hb He Hn. unfold do_init_curr_thread_env. case_bool_decide as Hle.
  - destruct (boot_inv w 1 epfd now Hb ltac:(lia) ltac:(lia)) as (w' & _ & _ & Hrun & _).
    exists w'. split; [done|]. apply (reach_boot w 1 epfd now w'); [done|lia|lia|done].
  - pose proof (init_overflows w 1 epfd now Hb ltac:(lia)) as Hrun. split; [done|].
    unfold coroutine_new_task, eventloop_start, do_init_curr_thread_env.
    rewrite (bind_Ok _ _ _ _ _ (get_curr_thread_env_run _ (bl_pid _ _ Hb))), He.
    split; [|intros now'; rewrite (bind_Ok _ _ _ _ _ (get_curr_thread_env_run _ (bl_pid _ _ Hb))), He];
      unfold mbind, M_bind; by rewrite Hrun.
Qed.
End nest.

(** A thread with the default number of tasks. *)
Definition nest_blank : world (gmap Z Z) := demo_blank <| w_options := mk_options 131072 1000 |>.

(** The task of [PollReturn] has been started: two coroutines are on the
    stack. *)
Definition demo_depth : env_t := default (mk_env [] 0 None None None VNull None None) (w_env demo_polling).

Lemma call_stack_has_room_witness :
  env_callstacksize demo_depth = 2 /\
  (exists (main : Z) cos, env_callstacksize demo_depth = Z.of_nat (length (main :: cos)) /\ NoDup (main :: cos)) /\
  (exists w', step_thread (A_new_task 3 (demo_time 1) demo_attr) demo_polling = Ok (tt, w') /\ Reach w').
Proof.
  split; [by vm_compute|].
  destruct (call_stack_has_room demo_polling demo_depth 1 (mk_taskpool [1] None 1 1)) as ((main & cos & Hsz & Hnd & _) & Hnew & _).
  - exact (demo_check _ _ demo_polling_run).
  - by vm_compute.
  - by vm_compute.
  - by vm_compute.
  - split; [exists main, cos; exact (conj Hsz Hnd)|].
    apply (Hnew U_fun 3 (demo_time 1) demo_attr 7); [reflexivity|by vm_compute|reflexivity].
Defined.

Lemma pool_array_overflows_witness :
  do_init_curr_thread_env 3 (demo_time 0) nest_blank = Fail OutOfBounds /\
  coroutine_new_task 3 (demo_time 0) demo_attr U_main nest_blank = Fail OutOfBounds /\
  forall now', eventloop_start 3 (demo_time 0) now' nest_blank = Fail OutOfBounds.
Proof.
  assert (blank nest_blank (demo_time 0)) as Hb by (destruct demo_blank_ok; by split).
  apply (pool_array_overflows nest_blank 3 (demo_time 0) demo_attr Hb); [reflexivity|cbn; lia].
Defined.
