(* ===== verification/DueFrames.v ===== *)
(** What the code of a thread does to the deadline of a timer item: nothing,
    once the item is armed.  Only [poll_inner] writes to [expire], of the item
    it has just allocated, and only its second half frees an item, its own. *)

From stdpp Require Import gmap list.
From S2P Require Import Prelude TimerList TimerListSpec ListProgram TimerWheel TimerWheelSpec TimerFrame Context Events.
From S2P Require Import Thread ThreadSpec Sched Coroutine TaskPool CtlInv Poll MemInv MemPoll CtlSteps System Frames.

Section due.
Context {K : Type} `{!EpollKernel K} (x : Z).
Implicit Types w : world K.

Definition due w w' : Prop := due_heap x (w_heap w) (w_heap w').

#[export] Instance due_preorder : PreOrder due.
Proof using. split; unfold due; [intros w; reflexivity|]. intros w1 w2 w3 H1 H2. by etrans. Qed.

Lemma due_heap_eq w w' : w_heap w' = w_heap w -> due w w'.
Proof using. unfold due. by intros ->. Qed.

#[export] Program Instance due_frame : FrameAny due := {| fa_frame := {| fr_kept y := y = x |} |}.
Next Obligation. by intros w w' y H ->. Qed.
Next Obligation. intros w w' _ Hh _ _. by apply due_heap_eq. Qed.
Next Obligation. intros. by apply due_heap_eq. Qed.
Next Obligation. intros. by apply due_heap_eq. Qed.
Next Obligation. intros. by apply due_heap_eq. Qed.
Next Obligation. intros w h H. by apply H. Qed.
Next Obligation. intros. by apply due_heap_eq. Qed.
Next Obligation. intros. by apply due_heap_eq. Qed.

(** A step keeps the deadline of an item that it does not free. *)
Lemma step_due a w w' :
  is_Some (lh_items (w_heap w) !! x) -> step_thread a w = Ok (tt, w') ->
  (forall q fds u, w_mode w = M_poll_ret q fds u -> x < q \/ q + Z.of_nat (length fds) < x) -> due w w'.
Proof using.
  intros Hx Hrun Hfree. apply (fa_step due a w w'); [by intros ? ->| |done]. intros q fds u Hm ? ->. by eapply Hfree.
Qed.
End due.
