(* ===== verification/WaitEnds.v ===== *)
(** Every wait ends: a blocked [poll_inner] returns by the first iteration of
    the event loop that begins 10 milliseconds or more after the call. *)

From stdpp Require Import gmap list.
From S2P Require Import Prelude TimerList TimerListSpec ListProgram TimerWheel TimerWheelSpec TimerFrame Context Events.
From S2P Require Import Thread ThreadSpec Sched Coroutine TaskPool CtlInv Poll MemInv MemPoll CtlSteps.
From S2P Require Import PollFrames System Boot ThreadProps PollReturn DueFrames NewTask.

Section waits.
Context {K : Type} `{!EpollKernel K}.
Implicit Types w : world K.

(** The context of a waiting task is live. *)
Lemma waiting_live th w s xs t q fds u :
  Inv th w s xs -> s_stat s !! t = Some (T_wait q fds u) ->
  exists ep live L c, MemInv w ep live (detached s) L /\ waiting th s live /\ th_co th !! t = Some c /\ live !! q = Some (c, fds).
Proof using.
  intros [_ (ep & live & L & HC & HM & HW & _) _] Ht.
  destruct (base_is_task th w ep s t (ci_base _ _ _ _ HC) ltac:(eauto)) as [c Hc].
  exists ep, live, L, c. split_and!; [done..|]. apply HW. exists t. split; [done|left; eauto].
Qed.

(** A step leaves the deadlines of waiting tasks. *)
Lemma waiting_due th w s xs a w' t q fds u :
  Inv th w s xs -> allowed a w -> step_thread a w = Ok (tt, w') -> s_stat s !! t = Some (T_wait q fds u) -> due q w w'.
Proof using.
  intros I Ha Hrun Ht. destruct (waiting_live th w s xs t q fds u I Ht) as (ep & live & L & c & HM & HW & Hc & Hl).
  destruct (mi_live _ _ _ _ _ HM _ _ _ Hl) as (_ & (it & Hit & _) & _).
  apply (step_due q a w w'); [by eexists|done|]. intros q' fds' u' Hm.
  pose proof (inv_sched _ _ _ _ I) as OK. pose proof (inv_mode _ _ _ _ I) as Hmode. rewrite Hm in Hmode.
  assert (s_pc s = PC_ret q' fds' u') as Hpc by (destruct (s_pc s); try discriminate; simpl in Hmode; congruence).
  assert (q <> q') as Hne by (intros ->; by apply (waits_not_returning th w s xs t q' fds u fds' u')).
  pose proof (so_pc _ OK) as Hok. rewrite Hpc in Hok. destruct (s_stack s) as [|t' r] eqn:Hst; [by destruct Hok|].
  assert (exists c', th_co th !! t' = Some c') as [c' Hc'].
  { destruct I as [_ (ep1 & live1 & L1 & HC & _) _]. apply (base_is_task th w ep1 s t' (ci_base _ _ _ _ HC)).
    rewrite (so_head _ OK t') by (by rewrite Hst). eauto. }
  assert (live !! q' = Some (c', fds')) as Hl' by (apply HW; exists t'; split; [done|right; exists u'; by rewrite Hst]).
  pose proof (mi_disj _ _ _ _ _ HM q' c' fds' q c fds Hl' Hl). lia.
Qed.

(** It goes on waiting, with its deadline, or is switched in. *)
Lemma wait_goes_on th acts : forall w s xs w' t q fds u it,
  Inv th w s xs -> s_stat s !! t = Some (T_wait q fds u) -> lh_items (w_heap w) !! q = Some it ->
  allowed_run acts w -> run_thread acts w = Ok (tt, w') ->
  (exists acts1 acts2 w1, acts = acts1 ++ acts2 /\ run_thread acts1 w = Ok (tt, w1) /\ w_mode w1 = M_poll_ret q fds u) \/
  exists s' xs' it', Inv th w' s' xs' /\ s_stat s' !! t = Some (T_wait q fds u) /\
    lh_items (w_heap w') !! q = Some it' /\ ti_expire it' = ti_expire it.
Proof using.
  induction acts as [|a acts IH]; intros w s xs w' t q fds u it I Ht Hit Hal Hrun.
  - right. injection Hrun as <-. by exists s, xs, it.
  - destruct Hal as [Ha Hrest]. destruct (inv_step th w s xs a I Ha) as (w1 & s1 & xs1 & Hs & Hstep & I1).
    simpl in Hrun. rewrite (bind_Ok _ _ _ _ _ Hs) in Hrun.
    destruct (waiting_due th w s xs a w1 t q fds u I Ha Hs Ht it Hit) as (it1 & Hit1 & E1).
    destruct (waiting_step s xs a s1 xs1 t q fds u (inv_sched _ _ _ _ I) Hstep Ht) as [Ht1|[Hpc _]].
    + destruct (IH w1 s1 xs1 w' t q fds u it1 I1 Ht1 Hit1 (Hrest _ Hs) Hrun) as [(acts1 & acts2 & w2 & -> & Hr & Hm)|(s' & xs' & it' & ?&?&?&?)].
      * left. exists (a :: acts1), acts2, w2. split; [done|]. split; [|done]. simpl. by rewrite (bind_Ok _ _ _ _ _ Hs).
      * right. exists s', xs', it'. split_and!; [done..|congruence].
    + left. exists [a], acts, w1. split; [done|]. split; [simpl; by rewrite (bind_Ok _ _ _ _ _ Hs)|].
      by rewrite (inv_mode _ _ _ _ I1), Hpc.
Qed.

(** An iteration of the loop after the deadline. *)
Lemma deadline_passed th w s xs events now acts w' t q fds u it e ep :
  Inv th w s xs -> w_mode w = M_loop_wait -> w_env w = Some e -> env_epoll e = Some ep ->
  s_stat s !! t = Some (T_wait q fds u) -> lh_items (w_heap w) !! q = Some it ->
  ti_expire it <= GetTickMS now -> et_start (ep_timer ep) <= GetTickMS now ->
  allowed_run (A_events events now :: acts) w -> run_thread (A_events events now :: acts) w = Ok (tt, w') -> w_mode w' = M_loop_wait ->
  exists acts1 acts2 w1, acts = acts1 ++ acts2 /\ run_thread (A_events events now :: acts1) w = Ok (tt, w1) /\ w_mode w1 = M_poll_ret q fds u.
Proof using.
  intros I Hm He Hep Ht Hit Hexp Hst [Ha Hrest] Hrun Hm'. destruct (inv_step th w s xs _ I Ha) as (w1 & _ & _ & Hrun1 & _).
  simpl in Hrun. rewrite (bind_Ok _ _ _ _ _ Hrun1) in Hrun.
  destruct Ha as (e1 & ep1 & He1 & Hep1 & Ha). rewrite Hm in Ha. assert (e1 = e) as -> by congruence. assert (ep1 = ep) as -> by congruence.
  destruct Ha as [Hev Hclk].
  destruct (events_queue th w s xs w1 events now t q fds u e ep I Hm He Hep Hev Hclk Ht) as (s1 & xs1 & I1 & Hq1 & Ht1);
    [left; by exists it|done|].
  destruct (queued_returns th acts w1 s1 xs1 w' t q fds u I1 (Hrest _ Hrun1) Hq1 Ht1 Hrun Hm') as (acts1 & acts2 & w2 & -> & Hr & Hm2).
  exists acts1, acts2, w2. split; [done|]. split; [|done]. simpl. by rewrite (bind_Ok _ _ _ _ _ Hrun1).
Qed.

(** C5. Every wait ends within 10 ms and an iteration of the loop, whatever the
    timeout of the call.  When [poll_inner] blocks, then in every execution in
    which [epoll_wait] later returns at a time at least [kMaxTimeoutMs] after
    the call (on a clock that is not behind the wheel), and main comes back to
    [epoll_wait] after it, the coroutine is switched in, inside this call, in
    between: the deadline of a waiting call is never lost or put off. *)
Theorem every_wait_ends w u t tk c fds timeout pf now w1 :
  Reach w -> w_mode w = M_user u -> self_task w = Ok (t, w) -> w_tasks w !! t = Some tk -> tk_coroutine tk = Some c ->
  allowed (A_poll fds timeout pf now) w -> poll_inner_enter fds timeout pf now u w = Ok (PollBlocked, w1) ->
  exists rc q, w_cos w1 !! c = Some rc /\ co_kont rc = K_poll q fds u /\
  forall acts events later acts' w2 e ep w3,
    allowed_run acts w1 -> run_thread acts w1 = Ok (tt, w2) -> w_env w2 = Some e -> env_epoll e = Some ep ->
    GetTickMS now + kMaxTimeoutMs <= GetTickMS later -> et_start (ep_timer ep) <= GetTickMS later ->
    allowed_run (A_events events later :: acts') w2 -> run_thread (A_events events later :: acts') w2 = Ok (tt, w3) ->
    w_mode w3 = M_loop_wait ->
    exists pre post w4, acts ++ A_events events later :: acts' = pre ++ post /\ run_thread pre w1 = Ok (tt, w4) /\
      w_mode w4 = M_poll_ret q fds u.
Proof using.
  intros HR Hm Hself Htk Htc Ha Hrun.
  destruct (poll_caller w u t tk c fds timeout pf now HR Hm Hself Htk Htc Ha) as (th & s & xs & r & rc & I & Hpc & Hst & Hth & _).
  destruct (poll_waits th w s xs u t r c fds timeout pf now w1 I Hpc Hst Hth Ha Hrun)
    as (s1 & q & rc1 & pc & it & I1 & Ht1 & Hrc1 & Hk & _ & _ & Hit & Hexp).
  exists rc1, q. split; [done|]. split; [done|]. intros acts events later acts' w2 e ep w3 Hal Hrun1 He Hep Hlate Hclock Hal2 Hrun2 Hm3.
  destruct (wait_goes_on th acts w1 s1 xs w2 t q fds u it I1 Ht1 Hit Hal Hrun1)
    as [(acts1 & acts2 & w4 & -> & Hr & Hm4)|(s2 & xs2 & it2 & I2 & Ht2 & Hit2 & E2)].
  - exists acts1, (acts2 ++ A_events events later :: acts'), w4. by rewrite <- app_assoc.
  - assert (w_mode w2 = M_loop_wait) as Hm2.
    { destruct Hal2 as [(e1 & ep1 & _ & _ & Ha2) _]. destruct (w_mode w2) as [| |[]| | | | |]; done. }
    destruct (deadline_passed th w2 s2 xs2 events later acts' w3 t q fds u it2 e ep I2 Hm2 He Hep Ht2 Hit2)
      as (acts1 & acts2 & w4 & -> & Hr & Hm4); [lia|done..|].
    exists (acts ++ A_events events later :: acts1), acts2, w4. split; [by rewrite <- app_assoc|]. split; [|done].
    by rewrite (run_thread_app _ _ _ _ Hrun1).
Qed.
End waits.

(** The task of [PollReturn] blocks, and main enters the loop; 19 ms after the
    call [epoll_wait] returns. *)
Definition demo_before : list action := [A_eventloop 3 (demo_time 0) (demo_time 2)].
Definition demo_after : list action := [A_run; A_run; A_return; A_run; A_run].
Definition demo_at_wait : world (gmap Z Z) := default demo_blank (check_run demo_before demo_blocked).
Definition demo_at_end : world (gmap Z Z) := default demo_blank (check_run (A_events [] (demo_time 20) :: demo_after) demo_at_wait).
Definition demo_wait_env : env_t := default (mk_env [] 0 None None None VNull None None) (w_env demo_at_wait).
Definition demo_wait_ep : epoll_context_t :=
  default (mk_epoll_context 0 0 0 (mk_epoll_timer 0 0 0 0) 0 0 None) (env_epoll demo_wait_env).

Lemma demo_at_wait_run : check_run demo_before demo_blocked = Some demo_at_wait.
Proof.
  unfold demo_at_wait. assert ((if check_run demo_before demo_blocked then true else false) = true) as H by by vm_compute.
  by destruct (check_run demo_before demo_blocked).
Qed.

Lemma demo_at_end_run : check_run (A_events [] (demo_time 20) :: demo_after) demo_at_wait = Some demo_at_end.
Proof.
  unfold demo_at_end. assert ((if check_run (A_events [] (demo_time 20) :: demo_after) demo_at_wait then true else false) = true) as H by by vm_compute.
  by destruct (check_run (A_events [] (demo_time 20) :: demo_after) demo_at_wait).
Qed.

Lemma every_wait_ends_witness :
  exists rc q pre post w4, w_cos demo_blocked !! 2 = Some rc /\ co_kont rc = K_poll q demo_poll U_fun /\
    demo_before ++ A_events [] (demo_time 20) :: demo_after = pre ++ post /\
    run_thread pre demo_blocked = Ok (tt, w4) /\ w_mode w4 = M_poll_ret q demo_poll U_fun.
Proof.
  destruct (every_wait_ends demo_polling U_fun 1 demo_polling_task 2 demo_poll 1000 None (demo_time 1) demo_blocked)
    as (rc & q & Hrc & Hk & H).
  - exact (demo_check _ _ demo_polling_run).
  - by vm_compute.
  - exact demo_self.
  - by vm_compute.
  - by vm_compute.
  - apply allowed_b_sound. by vm_compute.
  - exact demo_blocks.
  - destruct (H demo_before [] (demo_time 20) demo_after demo_at_wait demo_wait_env demo_wait_ep demo_at_end)
      as (pre & post & w4 & H1 & H2 & H3).
    + exact (proj1 (check_run_sound _ _ _ demo_at_wait_run)).
    + exact (proj2 (check_run_sound _ _ _ demo_at_wait_run)).
    + by vm_compute.
    + by vm_compute.
    + by vm_compute.
    + by vm_compute.
    + exact (proj1 (check_run_sound _ _ _ demo_at_end_run)).
    + exact (proj2 (check_run_sound _ _ _ demo_at_end_run)).
    + by vm_compute.
    + exists rc, q, pre, post, w4. split_and!; [exact Hrc|exact Hk|exact H1|exact H2|exact H3].
Defined.
