(* ===== verification/Hooks.v ===== *)
(** The hooked system calls (src/src/hook_sys_call.c): the table of sockets
    and the wrappers around the C library's functions.

    The C library and the kernel are a parameter: a state [S] with the raw
    calls of [HookSys].  So is what the wrappers ask of the coroutine layer:
    whether the running task has its calls hooked, whether it has timed out,
    and [poll_inner], seen from the coroutine that calls it. *)

From stdpp Require Import gmap list.
From S2P Require Import Prelude TimerWheel Events Thread.

(** * Constants (Linux, x86-64) *)

Definition EAGAIN : Z := 11.
Definition EWOULDBLOCK : Z := 11.
Definition EBADF : Z := 9.
Definition EINPROGRESS : Z := 115.
Definition O_NONBLOCK : Z := 2048.
Definition F_DUPFD : Z := 0.
Definition F_GETFD : Z := 1.
Definition F_SETFD : Z := 2.
Definition F_GETFL : Z := 3.
Definition F_SETFL : Z := 4.
Definition F_GETLK : Z := 5.
Definition F_SETLK : Z := 6.
Definition F_SETLKW : Z := 7.
Definition F_SETOWN : Z := 8.
Definition F_GETOWN : Z := 9.
Definition SOL_SOCKET : Z := 1.
Definition SO_RCVTIMEO : Z := 20.
Definition SO_SNDTIMEO : Z := 21.
(** [sizeof(struct sockaddr_in)] *)
Definition sizeof_sockaddr_in : Z := 16.
(** Number of elements of [gSocketFd]. *)
Definition gSocketFd_len : Z := 102400.

(** * System calls *)

Inductive syscall :=
  | SysSocket (domain type protocol : Z)
  | SysBind (fd family port : Z)               (* any address of the host *)
  | SysListen (fd backlog : Z)
  | SysAccept (fd : Z)
  | SysConnect (fd : Z) (address : list Z)
  | SysClose (fd : Z)
  | SysRead (fd nbyte : Z)
  | SysWrite (fd : Z) (data : list Z)
  | SysSend (fd : Z) (data : list Z) (flags : Z)
  | SysRecv (fd nbyte flags : Z)
  | SysPoll (fds : list pollfd) (timeout : Z)
  | SysSelect (nfds : Z) (sets : list (option (gset Z))) (timeout : option timeval)
  | SysFcntl (fd cmd : Z) (arg : option Z)
  | SysSetsockopt (fd level name : Z) (value : list Z) (tv : timeval)
  | SysSleep (seconds : Z)
  | SysUsleep (usec : Z)
  | SysNanosleep (sec nsec : Z).

(** Return value, [errno] when it is negative, and what is stored through
    pointer arguments. *)
Record sysret := mk_sysret {
  sr_ret : Z;
  sr_errno : Z;
  sr_bytes : list Z;
  sr_fds : list pollfd;
  sr_sets : list (gset Z)
}.

(** * The table of sockets *)

Record rpchook_t := mk_rpchook {
  rh_user_flag : Z;
  rh_dest : list Z;        (* the bytes of [dest] *)
  rh_domain : Z;
  rh_read_timeout : timeval;
  rh_write_timeout : timeval
}.
#[export] Instance eta_rpchook : Eta rpchook_t := fun r =>
  mk_rpchook (rh_user_flag r) (rh_dest r) (rh_domain r) (rh_read_timeout r) (rh_write_timeout r).

Record hooks (S : Type) := mk_hooks {
  hk_socks : gmap Z rpchook_t;     (* gSocketFd, the entries that are not NULL *)
  hk_errno : Z;
  hk_sys : S
}.
Arguments mk_hooks {S}.
Arguments hk_socks {S}. Arguments hk_errno {S}. Arguments hk_sys {S}.
#[export] Instance eta_hooks S : Eta (hooks S) := fun r => mk_hooks (hk_socks r) (hk_errno r) (hk_sys r).

(** * The layers below

    [poll_inner] suspends the caller; before it returns, other coroutines of
    the thread may have run any of the functions of this file, so the call
    maps the whole state of the hooks to a new one. *)
Class HookSys (S : Type) := {
  sys_call : syscall -> S -> sysret * S;
  (* is_enable_sys_hook(coroutine_self()) *)
  hook_enabled : S -> bool;
  (* coroutine_self()->task->timeout *)
  task_timed_out : S -> bool;
  (* poll_inner(get_epoll_context(), fds, nfds, timeout, pollfunc); the flag says that pollfunc is g_sys_poll *)
  poll_inner : list pollfd -> Z -> bool -> hooks S -> Z * list pollfd * hooks S
}.

Definition in_table (fd : Z) : bool := (-1 <? fd) && (fd <? gSocketFd_len).

(** [calloc] and the default timeouts. *)
Definition new_rpchook : rpchook_t :=
  mk_rpchook 0 (replicate 16 0) 0 (mk_timeval 0 1000) (mk_timeval 0 1000).

Section hooks.
Context {S : Type} `{!HookSys S}.

Definition get_by_fd (fd : Z) : M (hooks S) (option rpchook_t) :=
  if in_table fd then gets (fun h => hk_socks h !! fd) else mret None.

(** The address of the new entry, as its index, or NULL. *)
Definition alloc_by_fd (fd : Z) : M (hooks S) (option Z) :=
  if in_table fd then
    modify (fun h => h <| hk_socks := <[fd := new_rpchook]> (hk_socks h) |>);;
    mret (Some fd)
  else mret None.

Definition free_by_fd (fd : Z) : M (hooks S) unit :=
  if in_table fd then modify (fun h => h <| hk_socks := delete fd (hk_socks h) |>) else mret tt.

Definition upd_hook (fd : Z) (f : rpchook_t -> rpchook_t) : M (hooks S) unit :=
  modify (fun h => h <| hk_socks := alter f fd (hk_socks h) |>).

(** * Calls down *)

Definition g_sys (c : syscall) : M (hooks S) sysret :=
  h ← get;
  let '(r, s) := sys_call c (hk_sys h) in
  put (h <| hk_sys := s |> <| hk_errno := if sr_ret r <? 0 then sr_errno r else hk_errno h |>);;
  mret r.

Definition g_sys_ret (c : syscall) : M (hooks S) Z := r ← g_sys c; mret (sr_ret r).

Definition is_enable_sys_hook : M (hooks S) bool := gets (fun h => hook_enabled (hk_sys h)).
Definition timed_out : M (hooks S) bool := gets (fun h => task_timed_out (hk_sys h)).
Definition errno : M (hooks S) Z := gets hk_errno.
Definition set_errno (e : Z) : M (hooks S) unit := modify (fun h => h <| hk_errno := e |>).

Definition call_poll_inner (fds : list pollfd) (timeout : Z) (with_pollfunc : bool) :
    M (hooks S) (Z * list pollfd) :=
  h ← get;
  let '(r, fds', h') := poll_inner fds timeout with_pollfunc h in
  put h';;
  mret (r, fds').

(** * Wrappers *)

Definition poll (fds : list pollfd) (timeout : Z) : M (hooks S) (Z * list pollfd) :=
  en ← is_enable_sys_hook;
  if (en : bool) then call_poll_inner fds timeout true
  else r ← g_sys (SysPoll fds timeout); mret (sr_ret r, sr_fds r).

Definition __poll (fds : list pollfd) (timeout : Z) : M (hooks S) (Z * list pollfd) := poll fds timeout.

Definition fcntl (fildes cmd : Z) (param : Z) : M (hooks S) Z :=
  if fildes <? 0 then mret (-1)
  else
    lp ← get_by_fd fildes;
    if (cmd =? F_DUPFD) || (cmd =? F_SETFD) || (cmd =? F_SETOWN)
       || (cmd =? F_GETLK) || (cmd =? F_SETLK) || (cmd =? F_SETLKW)
    then g_sys_ret (SysFcntl fildes cmd (Some param))
    else if (cmd =? F_GETFD) || (cmd =? F_GETFL) || (cmd =? F_GETOWN)
    then g_sys_ret (SysFcntl fildes cmd None)
    else if cmd =? F_SETFL then
      en ← is_enable_sys_hook;
      let flag := if (en : bool) && bool_decide (is_Some lp) then Z.lor param O_NONBLOCK else param in
      ret ← g_sys_ret (SysFcntl fildes cmd (Some flag));
      (if (ret =? 0) && bool_decide (is_Some lp) then upd_hook fildes (fun x => x <| rh_user_flag := param |>)
       else mret tt);;
      mret ret
    else mret (-1).

Definition socket (domain type protocol : Z) : M (hooks S) Z :=
  en ← is_enable_sys_hook;
  fd ← g_sys_ret (SysSocket domain type protocol);
  if negb (en : bool) then mret fd
  else if fd <? 0 then mret fd
  else
    a ← alloc_by_fd fd;
    lp ← deref a;
    upd_hook lp (fun x => x <| rh_domain := domain |>);;
    fl ← fcntl fd F_GETFL 0;
    fcntl fd F_SETFL (Z.lor fl O_NONBLOCK);;
    mret fd.

Definition close (fd : Z) : M (hooks S) Z :=
  en ← is_enable_sys_hook;
  if negb (en : bool) then g_sys_ret (SysClose fd)
  else
    lp ← get_by_fd fd;
    (match lp with Some _ => free_by_fd fd | None => mret tt end);;
    g_sys_ret (SysClose fd).

(** The loop of [accept] while the descriptor it got is negative. *)
Fixpoint accept_loop (fuel : nat) (listen_fd fd : Z) : M (hooks S) (Z * bool) :=
  if fd <? 0 then
    match fuel with
    | O => fail OutOfFuel
    | Datatypes.S fuel' =>
        e ← errno;
        if (e =? EAGAIN) || (e =? EWOULDBLOCK) then
          '(n, _) ← call_poll_inner [mk_pollfd listen_fd (Z.lor POLLIN (Z.lor POLLERR POLLHUP)) 0] (-1) false;
          out ← timed_out;
          if (n <=? 0) && (out : bool) then
            close listen_fd;;
            set_errno EBADF;;
            mret (-1, false)
          else
            fd ← g_sys_ret (SysAccept listen_fd);
            accept_loop fuel' listen_fd fd
        else mret (fd, false)
    end
  else mret (fd, true).

Definition accept (fuel : nat) (listen_fd : Z) : M (hooks S) Z :=
  en ← is_enable_sys_hook;
  if negb (en : bool) then g_sys_ret (SysAccept listen_fd)
  else
    lp ← get_by_fd listen_fd;
    (match lp with
     | None =>
         alloc_by_fd listen_fd;;
         fl ← fcntl listen_fd F_GETFL 0;
         fcntl listen_fd F_SETFL (Z.lor fl O_NONBLOCK);;
         mret tt
     | Some _ => mret tt
     end);;
    fd ← g_sys_ret (SysAccept listen_fd);
    '(fd, ok) ← accept_loop fuel listen_fd fd;
    if negb ok then mret fd
    else
      lp ← alloc_by_fd fd;
      current_flags ← fcntl fd F_GETFL 0;
      let flag := Z.lor current_flags O_NONBLOCK in
      ret ← fcntl fd F_SETFL flag;
      (match lp with
       | Some l => if ret =? 0 then upd_hook l (fun x => x <| rh_user_flag := current_flags |>) else mret tt
       | None => mret tt
       end);;
      mret fd.

(** The waiting loop of [connect]: [n] more tries; the [revents] of the last
    one. *)
Fixpoint connect_wait (n : nat) (fd : Z) (revents : Z) : M (hooks S) Z :=
  match n with
  | O => mret revents
  | Datatypes.S n' =>
      '(pollret, fds) ← poll [mk_pollfd fd (Z.lor POLLOUT (Z.lor POLLERR POLLHUP)) 0] 10;
      let revents := match fds with f :: _ => pfd_revents f | [] => 0 end in
      if pollret =? 1 then mret revents else connect_wait n' fd revents
  end.

Definition connect (fd : Z) (address : list Z) : M (hooks S) Z :=
  en ← is_enable_sys_hook;
  ret ← g_sys_ret (SysConnect fd address);
  if negb (en : bool) then mret ret
  else
    lp ← get_by_fd fd;
    match lp with
    | None => mret ret
    | Some _ =>
        (if Z.of_nat (length address) <=? sizeof_sockaddr_in
         then upd_hook fd (fun x => x <| rh_dest ::= fun d => address ++ drop (length address) d |>)
         else mret tt);;
        e ← errno;
        if negb ((ret <? 0) && (e =? EINPROGRESS)) then mret ret
        else
          revents ← connect_wait 10 fd 0;
          if negb (Z.land revents POLLOUT =? 0) then set_errno 0;; mret 0
          else mret ret
    end.

(** 1 or -1. *)
Definition wait_io_ready (fd events timeout : Z) : M (hooks S) Z :=
  '(n, _) ← poll [mk_pollfd fd events 0] timeout;
  out ← timed_out;
  if (n =? 0) && (out : bool) then
    close fd;;
    set_errno EBADF;;
    mret (-1)
  else mret 1.

(** [tv_sec * 1000 + tv_usec / 1000], as an [int]. *)
Definition timeval_ms (tv : timeval) : Z := to_int (tv_sec tv * 1000 + Z.quot (tv_usec tv) 1000).

(** The loop of [read] and [recv]: [sys n] is the raw call for [n] bytes.
    Result: the variables [ready] and [n], and the bytes stored in [buf]. *)
Fixpoint read_loop (fuel : nat) (sys : Z -> syscall) (fd nbyte timeout : Z) : M (hooks S) (Z * Z * list Z) :=
  match fuel with
  | O => fail OutOfFuel
  | Datatypes.S fuel' =>
      ready ← wait_io_ready fd (Z.lor POLLIN (Z.lor POLLERR POLLHUP)) timeout;
      if ready <=? 0 then mret (ready, 0, [])
      else
        r ← g_sys (sys nbyte);
        let ret := sr_ret r in
        if ret <? 0 then
          e ← errno;
          if negb (e =? EAGAIN) && negb (e =? EWOULDBLOCK) then mret (ready, 0, [])
          else if 0 <? nbyte then read_loop fuel' sys fd nbyte timeout
          else mret (ready, 0, [])
        else if ret =? 0 then mret (ready, 0, [])
        else mret (ready, ret, sr_bytes r)
  end.

(** The common body of [read] and [recv]: return value and bytes stored. *)
Definition read_common (fuel : nat) (sys : Z -> syscall) (fd nbyte : Z) : M (hooks S) (Z * list Z) :=
  en ← is_enable_sys_hook;
  lp ← get_by_fd fd;
  match (if (en : bool) then lp else None) with
  | None => r ← g_sys (sys nbyte); mret (sr_ret r, sr_bytes r)
  | Some lp =>
      let timeout := timeval_ms (rh_read_timeout lp) in
      '(ready, n, data) ← read_loop fuel sys fd nbyte timeout;
      if (ready <=? 0) && (n =? 0) then mret (ready, []) else mret (n, data)
  end.

Definition read (fuel : nat) (fd nbyte : Z) : M (hooks S) (Z * list Z) :=
  read_common fuel (SysRead fd) fd nbyte.

Definition recv (fuel : nat) (sock length flags : Z) : M (hooks S) (Z * list Z) :=
  read_common fuel (fun n => SysRecv sock n flags) sock length.

(** The loop of [write] and [send]: [n] bytes of [buf] are out, [ret] is the
    last result. *)
Fixpoint write_loop (fuel : nat) (sys : list Z -> syscall) (fd timeout : Z) (buf : list Z) (n ret : Z) :
    M (hooks S) (Z * Z) :=
  if Z.of_nat (length buf) <=? n then mret (n, ret)
  else
    match fuel with
    | O => fail OutOfFuel
    | Datatypes.S fuel' =>
        ret ← wait_io_ready fd (Z.lor POLLOUT (Z.lor POLLERR POLLHUP)) timeout;
        if ret <=? 0 then mret (n, ret)
        else
          ret ← g_sys_ret (sys (drop (Z.to_nat n) buf));
          if ret <? 0 then
            e ← errno;
            if negb (e =? EAGAIN) && negb (e =? EWOULDBLOCK) then mret (n, ret)
            else write_loop fuel' sys fd timeout buf n ret
          else if ret =? 0 then mret (n, ret)
          else write_loop fuel' sys fd timeout buf (n + ret) ret
    end.

Definition write_common (fuel : nat) (sys : list Z -> syscall) (fd : Z) (buf : list Z) : M (hooks S) Z :=
  en ← is_enable_sys_hook;
  lp ← get_by_fd fd;
  match (if (en : bool) then lp else None) with
  | None => g_sys_ret (sys buf)
  | Some lp =>
      let timeout := timeval_ms (rh_write_timeout lp) in
      ret ← g_sys_ret (sys buf);
      if ret =? 0 then mret ret
      else
        let n := if 0 <? ret then ret else 0 in
        '(n, ret) ← write_loop fuel sys fd timeout buf n ret;
        if (ret <=? 0) && (n =? 0) then mret ret else mret n
  end.

Definition write (fuel : nat) (fd : Z) (buf : list Z) : M (hooks S) Z :=
  write_common fuel (SysWrite fd) fd buf.

Definition send (fuel : nat) (sock : Z) (buffer : list Z) (flags : Z) : M (hooks S) Z :=
  write_common fuel (fun d => SysSend sock d flags) sock buffer.

(** * [select] *)

(** An [fd_set] is the set of its members; [FD_SETSIZE] bits. *)
Definition FD_SETSIZE : Z := 1024.

Definition FD_ISSET (fd : Z) (set : gset Z) : M (hooks S) bool :=
  if bool_decide (0 <= fd < FD_SETSIZE) then mret (bool_decide (fd ∈ set)) else fail OutOfBounds.

Definition FD_SET (fd : Z) (set : gset Z) : M (hooks S) (gset Z) :=
  if bool_decide (0 <= fd < FD_SETSIZE) then mret ({[fd]} ∪ set) else fail OutOfBounds.

(** [for (fd = 0; fd < nfds; ++fd)], [n] rounds from [fd] on: the number of
    members. *)
Fixpoint count_set (n : nat) (fd : Z) (set : gset Z) : M (hooks S) Z :=
  match n with
  | O => mret 0
  | Datatypes.S n' =>
      b ← FD_ISSET fd set;
      total ← count_set n' (fd + 1) set;
      mret (if (b : bool) then total + 1 else total)
  end.

(** The same loop, storing into element [i] of [poll_fds]. *)
Fixpoint fill_set (n : nat) (fd : Z) (set : gset Z) (i events : Z) (poll_fds : list pollfd) :
    M (hooks S) (list pollfd) :=
  match n with
  | O => mret poll_fds
  | Datatypes.S n' =>
      b ← FD_ISSET fd set;
      poll_fds ←
        (if (b : bool) then
           x ← array_get poll_fds i;
           array_set poll_fds i (x <| pfd_fd := fd |> <| pfd_events := events |>)
         else mret poll_fds);
      fill_set n' (fd + 1) set i events poll_fds
  end.

(** [if (cond && set) { FD_SET(fd, set); ++ret; }] *)
Definition set_ready (cond : bool) (fd : Z) (set : option (gset Z)) (ret : Z) :
    M (hooks S) (option (gset Z) * Z) :=
  match set with
  | Some s => if cond then s' ← FD_SET fd s; mret (Some s', ret + 1) else mret (set, ret)
  | None => mret (set, ret)
  end.

(** The loop that converts the [pollfd]s back. *)
Fixpoint select_results (fds : list pollfd) (r w e : option (gset Z)) (ret : Z) :
    M (hooks S) (Z * (option (gset Z) * option (gset Z) * option (gset Z))) :=
  match fds with
  | [] => mret (ret, (r, w, e))
  | pfd :: fds' =>
      let ev := pfd_events pfd in
      '(r, ret) ← set_ready (negb (Z.land ev POLLIN =? 0)) (pfd_fd pfd) r ret;
      '(w, ret) ← set_ready (negb (Z.land ev POLLOUT =? 0)) (pfd_fd pfd) w ret;
      '(e, ret) ← set_ready (negb (Z.land ev (Z.lnot (Z.lor POLLIN POLLOUT)) =? 0)) (pfd_fd pfd) e ret;
      select_results fds' r w e ret
  end.

Definition count_opt (nfds : Z) (set : option (gset Z)) : M (hooks S) Z :=
  match set with Some s => count_set (Z.to_nat nfds) 0 s | None => mret 0 end.

Definition fill_opt (nfds : Z) (set : option (gset Z)) (i events : Z) (poll_fds : list pollfd) :
    M (hooks S) (list pollfd) :=
  match set with Some s => fill_set (Z.to_nat nfds) 0 s i events poll_fds | None => mret poll_fds end.

(** What [g_sys_select] stored through the set pointers that are not NULL. *)
Definition select_sets (r : sysret) (sets : option (gset Z) * option (gset Z) * option (gset Z)) :
    option (gset Z) * option (gset Z) * option (gset Z) :=
  let nth i (s : option (gset Z)) := match s with Some _ => sr_sets r !! i | None => None end in
  (nth 0%nat sets.1.1, nth 1%nat sets.1.2, nth 2%nat sets.2).

(** [garbage] is the indeterminate value of the variable [ret] when [goto out]
    skips its initialisation.  The three sets are distinct objects. *)
Definition select (garbage nfds : Z) (readfds writefds exceptfds : option (gset Z)) (timeout : option timeval) :
    M (hooks S) (Z * (option (gset Z) * option (gset Z) * option (gset Z))) :=
  let sets := (readfds, writefds, exceptfds) in
  let lsets := [readfds; writefds; exceptfds] in
  en ← is_enable_sys_hook;
  match (if (en : bool) then timeout else None) with
  | None => r ← g_sys (SysSelect nfds lsets timeout); mret (sr_ret r, select_sets r sets)
  | Some tv =>
      let timeout_ms := timeval_ms tv in
      r ← g_sys (SysSelect nfds lsets (Some (mk_timeval 0 0)));
      if negb (sr_ret r =? 0) then mret (sr_ret r, select_sets r sets)
      else
        t0 ← count_opt nfds readfds;
        t1 ← count_opt nfds writefds;
        t2 ← count_opt nfds exceptfds;
        let poll_fds := replicate (Z.to_nat (t0 + t1 + t2)) (mk_pollfd 0 0 0) in
        poll_fds ← fill_opt nfds readfds 0 POLLIN poll_fds;
        poll_fds ← fill_opt nfds writefds 1 POLLOUT poll_fds;
        poll_fds ← fill_opt nfds exceptfds 2 0 poll_fds;
        '(n, poll_fds) ← poll poll_fds timeout_ms;
        if n <=? 0 then mret (garbage, sets)
        else select_results poll_fds readfds writefds exceptfds 0
  end.

(** * Sleeping *)

(** [poll_inner] takes the timeout as an [int]. *)
Definition doSleep (timeout_ms : Z) : M (hooks S) unit :=
  call_poll_inner [] (to_int timeout_ms) false;; mret tt.

Definition sleep (seconds : Z) : M (hooks S) Z :=
  en ← is_enable_sys_hook;
  if negb (en : bool) then g_sys_ret (SysSleep seconds)
  else doSleep (to_uint (seconds * 1000));; mret 0.

Definition usleep (usec : Z) : M (hooks S) Z :=
  en ← is_enable_sys_hook;
  if negb (en : bool) then g_sys_ret (SysUsleep usec)
  else doSleep (usec / 1000);; mret 0.

Definition nanosleep (sec nsec : Z) : M (hooks S) Z :=
  en ← is_enable_sys_hook;
  if negb (en : bool) then g_sys_ret (SysNanosleep sec nsec)
  else doSleep (to_ullong (to_int (sec * 1000 + Z.quot nsec 1000000)));; mret 0.

(** * Socket options *)

(** [value] are the bytes at [option_value], [tv] the same bytes read as a
    [struct timeval]. *)
Definition setsockopt (fd level option_name : Z) (value : list Z) (tv : timeval) : M (hooks S) Z :=
  en ← is_enable_sys_hook;
  (if (en : bool) then
     lp ← get_by_fd fd;
     (if bool_decide (is_Some lp) && (SOL_SOCKET =? level) then
        if SO_RCVTIMEO =? option_name then upd_hook fd (fun x => x <| rh_read_timeout := tv |>)
        else if SO_SNDTIMEO =? option_name then upd_hook fd (fun x => x <| rh_write_timeout := tv |>)
        else mret tt
      else mret tt)
   else mret tt);;
  g_sys_ret (SysSetsockopt fd level option_name value tv).
End hooks.
