(* ===== verification/IdMap.v ===== *)
(** The allocator of coroutine ids of the first, C++ version of the program
    (src/oldsrc/idmap.cc): a bitmap in an array of [unsigned long].

    [wsz] is [sizeof(unsigned long)], 4 or 8.  The code finds the word of a
    bit with a shift by [wsz + 1]: that is 5 on a 32-bit machine, as it should
    be, but 9 on a 64-bit one, where it should be 6. *)

From stdpp Require Import gmap list.
From S2P Require Import Prelude.

(** * Constants and state *)

Definition PAGE_SHIFT : Z := 12.
Definition PAGE_SIZE : Z := Z.shiftl 1 PAGE_SHIFT.
Definition BITS_PER_BYTE : Z := 8.
Definition BITS_PER_PAGE : Z := PAGE_SIZE * BITS_PER_BYTE.
Definition BITS_PER_PAGE_MASK : Z := BITS_PER_PAGE - 1.
Definition ID_MAX_DEFAULT : Z := 0x8000.

Record IdMap := mk_idmap {
  im_nr_free : Z;
  im_last_id : Z;
  im_page : list Z        (* the words of [page_] *)
}.

#[export] Instance eta_idmap : Eta IdMap := fun r => mk_idmap (im_nr_free r) (im_last_id r) (im_page r).

Section idmap.
Context (wsz : Z).

Definition new_IdMap : IdMap := mk_idmap ID_MAX_DEFAULT (-1) (replicate (Z.to_nat (ID_MAX_DEFAULT / wsz)) 0).

(** * Bits *)

Definition bit_mask (offset : Z) : Z := Z.shiftl 1 (Z.land offset (wsz * BITS_PER_BYTE - 1)).
Definition bit_word (offset : Z) : Z := Z.shiftr offset (wsz + 1).

(** [~v] on [unsigned long]. *)
Definition bit_not (v : Z) : Z := wrap_u (wsz * 8) (Z.lnot v).

Definition test_and_set_bit (offset : Z) : M IdMap bool :=
  m ← get;
  let mask := bit_mask offset in
  old ← array_get (im_page m) (bit_word offset);
  page ← array_set (im_page m) (bit_word offset) (Z.lor old mask);
  modify (fun m => m <| im_page := page |>);;
  mret (negb (Z.land old mask =? 0)).

Definition clear_bit (offset : Z) : M IdMap unit :=
  m ← get;
  let mask := bit_mask offset in
  old ← array_get (im_page m) (bit_word offset);
  page ← array_set (im_page m) (bit_word offset) (Z.land old (bit_not mask));
  modify (fun m => m <| im_page := page |>).

(** The loop, [n] iterations at most. *)
Fixpoint find_zero (n : nat) (size offset : Z) : M IdMap Z :=
  match n with
  | O => mret offset
  | S n' =>
      if offset <? size then
        m ← get;
        p ← array_get (im_page m) (bit_word offset);
        if negb (Z.land (bit_not p) (bit_mask offset) =? 0) then mret offset
        else find_zero n' size (offset + 1)
      else mret offset
  end.

Definition find_next_zero_bit (size offset : Z) : M IdMap Z := find_zero (Z.to_nat (size - offset)) size offset.

(** * Operations *)

Definition Allocate : M IdMap Z :=
  m ← get;
  let id := im_last_id m + 1 in
  let offset := Z.land id BITS_PER_PAGE_MASK in
  if im_nr_free m =? 0 then mret (-1)
  else
    offset ← find_next_zero_bit BITS_PER_PAGE offset;
    if BITS_PER_PAGE =? offset then mret (-1)
    else
      was ← test_and_set_bit offset;
      if (was : bool) then mret (-1)
      else
        modify (fun m => m <| im_nr_free ::= fun n => to_int (n - 1) |>);;
        modify (fun m => m <| im_last_id := offset |>);;
        mret offset.

Definition Free (id : Z) : M IdMap unit :=
  let offset := Z.land id BITS_PER_PAGE_MASK in
  modify (fun m => m <| im_nr_free ::= fun n => to_int (n + 1) |>);;
  clear_bit offset.
End idmap.

(** [n] allocations in a row. *)
Fixpoint alloc_many (wsz : Z) (n : nat) : M IdMap (list Z) :=
  match n with
  | O => mret []
  | S n' => id ← Allocate wsz; ids ← alloc_many wsz n'; mret (id :: ids)
  end.

(** * A reference allocator

    A set of ids and the last one given out: the next id is the least free
    one after the last, up to the end of the range. *)
Record idset := mk_idset { is_used : gset Z; is_last : Z }.

Fixpoint least_free (n : nat) (u : gset Z) (o : Z) : option Z :=
  match n with
  | O => None
  | S n' => if decide (o ∈ u) then least_free n' u (o + 1) else Some o
  end.

Definition next_free (u : gset Z) (start : Z) : option Z := least_free (Z.to_nat (BITS_PER_PAGE - start)) u start.

Inductive idop := OpAllocate | OpFree (id : Z).

(** What an operation returns (nothing for Free), and the new set. *)
Definition ref_op (o : idop) (s : idset) : Z * idset :=
  match o with
  | OpAllocate =>
      match next_free (is_used s) ((is_last s + 1) `mod` BITS_PER_PAGE) with
      | Some id => (id, mk_idset ({[id]} ∪ is_used s) id)
      | None => (-1, s)
      end
  | OpFree id => (0, mk_idset (is_used s ∖ {[id]}) (is_last s))
  end.

Definition idmap_op (wsz : Z) (o : idop) : M IdMap Z :=
  match o with
  | OpAllocate => Allocate wsz
  | OpFree id => Free wsz id;; mret 0
  end.

Fixpoint ref_ops (os : list idop) (s : idset) : list Z * idset :=
  match os with
  | [] => ([], s)
  | o :: os' => let '(r, s1) := ref_op o s in let '(rs, s2) := ref_ops os' s1 in (r :: rs, s2)
  end.

Fixpoint idmap_ops (wsz : Z) (os : list idop) : M IdMap (list Z) :=
  match os with
  | [] => mret []
  | o :: os' => r ← idmap_op wsz o; rs ← idmap_ops wsz os'; mret (r :: rs)
  end.

(** Only ids that are in use are given back. *)
Fixpoint frees_used (os : list idop) (s : idset) : Prop :=
  match os with
  | [] => True
  | o :: os' => match o with OpFree id => id ∈ is_used s | OpAllocate => True end /\ frees_used os' (ref_op o s).2
  end.
