(* ===== verification/IdMapSpec.v ===== *)
(** Correctness of [IdMap]: its operations on the bits, the refinement of the
    reference allocator where [unsigned long] has 32 bits, and what the wrong
    shift does where it has 64. *)

From stdpp Require Import gmap list.
From S2P Require Import Prelude ThreadSpec IdMap.

Section bits.
Context (wsz : Z) (Hw : wsz = 4 \/ wsz = 8).

Definition w_bits : Z := 8 * wsz.

Record IdWf (m : IdMap) : Prop := {
  wf_len : Z.of_nat (length (im_page m)) = ID_MAX_DEFAULT / wsz;
  wf_words : forall v, v ∈ im_page m -> 0 <= v < 2 ^ w_bits;
  wf_last : -1 <= im_last_id m < BITS_PER_PAGE
}.

(** The bit of [offset]. *)
Definition busy (m : IdMap) (offset : Z) : bool :=
  Z.testbit (nth (Z.to_nat (bit_word wsz offset)) (im_page m) 0) (offset `mod` w_bits).

(** Two offsets with the same bit. *)
Definition same_cell (o1 o2 : Z) : Prop :=
  bit_word wsz o1 = bit_word wsz o2 /\ o1 `mod` w_bits = o2 `mod` w_bits.

#[export] Instance same_cell_dec o1 o2 : Decision (same_cell o1 o2).
Proof. unfold same_cell. apply _. Defined.

Lemma bit_mask_pow offset : bit_mask wsz offset = 2 ^ (offset `mod` w_bits).
Proof using Hw.
  unfold bit_mask, BITS_PER_BYTE, w_bits. rewrite Z.shiftl_1_l. f_equal.
  destruct Hw as [-> | ->]; [apply (Z.land_ones offset 5)|apply (Z.land_ones offset 6)]; lia.
Qed.

Lemma bit_index offset : 0 <= offset `mod` w_bits < w_bits.
Proof using Hw. apply Z.mod_pos_bound. unfold w_bits. destruct Hw; lia. Qed.

Lemma land_pow2 v k : 0 <= k -> (Z.land v (2 ^ k) =? 0) = negb (Z.testbit v k).
Proof using.
  intros Hk. destruct (Z.testbit v k) eqn:E; simpl.
  - apply Z.eqb_neq. intros H0. assert (Z.testbit (Z.land v (2 ^ k)) k = false) as H1 by (rewrite H0; apply Z.bits_0).
    rewrite Z.land_spec, E, Z.pow2_bits_true in H1 by done. done.
  - apply Z.eqb_eq, Z.bits_inj'. intros n Hn. rewrite Z.land_spec, Z.bits_0, Z.pow2_bits_eqb by done.
    destruct (Z.eqb_spec k n) as [->|]; [by rewrite E|by rewrite andb_false_r].
Qed.

Lemma bit_not_spec v k : 0 <= k < w_bits -> Z.testbit (bit_not wsz v) k = negb (Z.testbit v k).
Proof using.
  intros Hk. unfold bit_not, wrap_u, w_bits in *. rewrite Z.mod_pow2_bits_low by lia. apply Z.lnot_spec. lia.
Qed.

Lemma word_range offset : 0 <= offset < BITS_PER_PAGE -> 0 <= bit_word wsz offset < ID_MAX_DEFAULT / wsz.
Proof using Hw.
  intros Ho. unfold bit_word. rewrite Z.shiftr_div_pow2 by (destruct Hw; lia).
  change BITS_PER_PAGE with 32768 in Ho. unfold ID_MAX_DEFAULT.
  destruct Hw as [-> | ->].
  - change (2 ^ (4 + 1)) with 32. change (32768 / 4) with 8192.
    split; [apply Z.div_pos; lia|apply Z.div_lt_upper_bound; lia].
  - change (2 ^ (8 + 1)) with 512. change (32768 / 8) with 4096.
    split; [apply Z.div_pos; lia|apply Z.div_lt_upper_bound; lia].
Qed.

(** Reading the word of an offset. *)
Lemma word_get m offset :
  IdWf m -> 0 <= offset < BITS_PER_PAGE ->
  array_get (im_page m) (bit_word wsz offset) m = Ok (nth (Z.to_nat (bit_word wsz offset)) (im_page m) 0, m).
Proof using Hw.
  intros [Hl _ _] Ho. pose proof (word_range _ Ho) as Hr. apply array_get_run; [lia|].
  destruct (lookup_lt_is_Some_2 (im_page m) (Z.to_nat (bit_word wsz offset))) as [v Hv]; [lia|].
  rewrite Hv. f_equal. symmetry. by apply nth_lookup_Some.
Qed.

(** Storing a word: the other words stay. *)
Lemma word_set m offset v :
  IdWf m -> 0 <= offset < BITS_PER_PAGE -> 0 <= v < 2 ^ w_bits ->
  let m' := m <| im_page := <[Z.to_nat (bit_word wsz offset) := v]> (im_page m) |> in
  array_set (im_page m) (bit_word wsz offset) v m = Ok (im_page m', m) /\ IdWf m' /\
  forall o, 0 <= o < BITS_PER_PAGE ->
    busy m' o = if decide (bit_word wsz o = bit_word wsz offset) then Z.testbit v (o `mod` w_bits) else busy m o.
Proof using Hw.
  intros [Hl Hwd Hla] Ho Hv m'. pose proof (word_range _ Ho) as Hr. split; [|split].
  - apply array_set_run. lia.
  - split; simpl; [by rewrite length_insert| |done].
    intros x [i Hx]%list_elem_of_lookup. apply list_lookup_insert_Some in Hx as [(_ & <- & _)|[_ Hx]]; [done|].
    apply Hwd. by eapply list_elem_of_lookup_2.
  - intros o Ho'. unfold busy, m'. simpl. rewrite !nth_lookup. pose proof (word_range _ Ho').
    destruct (decide (bit_word wsz o = bit_word wsz offset)) as [->|Hne].
    + rewrite list_lookup_insert_eq by lia. done.
    + rewrite list_lookup_insert_ne by lia. done.
Qed.

Lemma word_bound m offset : IdWf m -> 0 <= nth (Z.to_nat (bit_word wsz offset)) (im_page m) 0 < 2 ^ w_bits.
Proof using Hw.
  intros [_ Hwd _]. rewrite nth_lookup. destruct (im_page m !! _) as [v|] eqn:E; simpl.
  - apply Hwd. by eapply list_elem_of_lookup_2.
  - unfold w_bits. destruct Hw as [-> | ->]; lia.
Qed.

(** A number whose bits beyond [n] are those of numbers below [2 ^ n]. *)
Lemma bits_bound v n : 0 <= n -> 0 <= v -> (forall k, n <= k -> Z.testbit v k = false) -> v < 2 ^ n.
Proof using.
  intros Hn Hv Hb. destruct (decide (v = 0)) as [->|Hne]; [apply Z.pow_pos_nonneg; lia|].
  apply Z.log2_lt_pow2; [lia|]. destruct (Z.lt_ge_cases (Z.log2 v) n) as [|Hge]; [done|].
  specialize (Hb _ Hge). rewrite Z.bit_log2 in Hb by lia. done.
Qed.

Lemma high_bit v k : 0 <= v < 2 ^ w_bits -> w_bits <= k -> Z.testbit v k = false.
Proof using Hw.
  intros Hv Hk. assert (0 < w_bits) by (unfold w_bits; destruct Hw; lia).
  destruct (decide (v = 0)) as [->|]; [apply Z.bits_0|]. apply Z.bits_above_log2; [lia|].
  assert (Z.log2 v < w_bits) by (apply Z.log2_lt_pow2; lia). lia.
Qed.

Lemma lor_bound v k : 0 <= v < 2 ^ w_bits -> 0 <= k < w_bits -> 0 <= Z.lor v (2 ^ k) < 2 ^ w_bits.
Proof using Hw.
  intros Hv Hk. assert (0 <= 2 ^ k) by (apply Z.pow_nonneg; lia). split; [apply Z.lor_nonneg; lia|].
  apply bits_bound; [lia|apply Z.lor_nonneg; lia|]. intros j Hj. rewrite Z.lor_spec, (high_bit v) by done.
  rewrite Z.pow2_bits_eqb by lia. apply Z.eqb_neq. lia.
Qed.

Lemma land_bound v u : 0 <= v < 2 ^ w_bits -> 0 <= Z.land v u < 2 ^ w_bits.
Proof using Hw.
  intros Hv. assert (0 < w_bits) by (unfold w_bits; destruct Hw; lia). split; [apply Z.land_nonneg; lia|].
  apply bits_bound; [lia|apply Z.land_nonneg; lia|]. intros j Hj. by rewrite Z.land_spec, (high_bit v).
Qed.

Lemma busy_word m o offset :
  bit_word wsz o = bit_word wsz offset ->
  busy m o = Z.testbit (nth (Z.to_nat (bit_word wsz offset)) (im_page m) 0) (o `mod` w_bits).
Proof using. intros H. unfold busy. by rewrite H. Qed.

Lemma same_cell_bits o offset :
  bit_word wsz o = bit_word wsz offset -> bool_decide (same_cell o offset) = (offset `mod` w_bits =? o `mod` w_bits).
Proof using.
  intros H. apply eq_true_iff_eq. rewrite Z.eqb_eq, bool_decide_eq_true. split; [by intros [_ ?]|by intros ?; split].
Qed.

Lemma test_and_set_bit_run m offset :
  IdWf m -> 0 <= offset < BITS_PER_PAGE ->
  exists page, test_and_set_bit wsz offset m = Ok (busy m offset, m <| im_page := page |>) /\
    IdWf (m <| im_page := page |>) /\
    forall o, 0 <= o < BITS_PER_PAGE -> busy (m <| im_page := page |>) o = busy m o || bool_decide (same_cell o offset).
Proof using Hw.
  intros W Ho. pose proof (bit_index offset) as Hi. unfold test_and_set_bit. step.
  rewrite (bind_Ok _ _ _ _ _ (word_get m offset W Ho)), bit_mask_pow.
  set (old := nth _ _ _). pose proof (word_bound m offset W) as Hb. fold old in Hb.
  destruct (word_set m offset (Z.lor old (2 ^ (offset `mod` w_bits))) W Ho) as (Hset & W' & Hbusy); [by apply lor_bound|].
  rewrite (bind_Ok _ _ _ _ _ Hset). step. eexists. split; [|split; [exact W'|]].
  - rewrite mret_run, land_pow2, negb_involutive by lia. done.
  - intros o Ho'. rewrite Hbusy by done. pose proof (bit_index o).
    destruct (decide (bit_word wsz o = bit_word wsz offset)) as [Heq|Hne].
    + by rewrite Z.lor_spec, Z.pow2_bits_eqb, (busy_word m o offset Heq), same_cell_bits by (lia || done).
    + rewrite bool_decide_eq_false_2 by by intros [??]. by rewrite orb_false_r.
Qed.

Lemma clear_bit_run m offset :
  IdWf m -> 0 <= offset < BITS_PER_PAGE ->
  exists page, clear_bit wsz offset m = Ok (tt, m <| im_page := page |>) /\ IdWf (m <| im_page := page |>) /\
    forall o, 0 <= o < BITS_PER_PAGE -> busy (m <| im_page := page |>) o = busy m o && negb (bool_decide (same_cell o offset)).
Proof using Hw.
  intros W Ho. pose proof (bit_index offset) as Hi. unfold clear_bit. step.
  rewrite (bind_Ok _ _ _ _ _ (word_get m offset W Ho)), bit_mask_pow.
  set (old := nth _ _ _). pose proof (word_bound m offset W) as Hb. fold old in Hb.
  destruct (word_set m offset (Z.land old (bit_not wsz (2 ^ (offset `mod` w_bits)))) W Ho) as (Hset & W' & Hbusy); [by apply land_bound|].
  rewrite (bind_Ok _ _ _ _ _ Hset). eexists. split; [done|split; [exact W'|]].
  intros o Ho'. rewrite Hbusy by done. pose proof (bit_index o).
  destruct (decide (bit_word wsz o = bit_word wsz offset)) as [Heq|Hne].
  - by rewrite Z.land_spec, bit_not_spec, Z.pow2_bits_eqb, (busy_word m o offset Heq), same_cell_bits by (lia || done).
  - rewrite bool_decide_eq_false_2 by by intros [??]. by rewrite andb_true_r.
Qed.

(** The search stops at the first free bit. *)
Lemma find_zero_run m n : forall offset,
  IdWf m -> 0 <= offset -> offset + Z.of_nat n = BITS_PER_PAGE ->
  exists r, find_zero wsz n BITS_PER_PAGE offset m = Ok (r, m) /\ offset <= r <= BITS_PER_PAGE /\
    (forall o, offset <= o < r -> busy m o = true) /\ (r < BITS_PER_PAGE -> busy m r = false).
Proof using Hw.
  induction n as [|n IH]; intros offset W Ho Hn; cbn [find_zero].
  - exists offset. split; [done|]. split; [lia|]. split; intros; lia.
  - rewrite (proj2 (Z.ltb_lt offset BITS_PER_PAGE)) by lia. step.
    rewrite (bind_Ok _ _ _ _ _ (word_get m offset W ltac:(lia))), bit_mask_pow, land_pow2, negb_involutive by apply bit_index.
    rewrite bit_not_spec by apply bit_index. fold (busy m offset). destruct (busy m offset) eqn:E; simpl.
    + destruct (IH (offset + 1) W) as (r & Hrun & Hr & H1 & H2); [lia|lia|]. exists r. split; [done|]. split; [lia|].
      split; [|done]. intros o Ho'. destruct (decide (o = offset)) as [->|]; [done|]. apply H1. lia.
    + exists offset. split; [done|]. split; [lia|]. split; [intros; lia|done].
Qed.

(** Where [Allocate] starts to look. *)
Definition start_of (m : IdMap) : Z := (im_last_id m + 1) `mod` BITS_PER_PAGE.

Lemma land_page_mask id : Z.land id BITS_PER_PAGE_MASK = id `mod` BITS_PER_PAGE.
Proof using. apply (Z.land_ones id 15). lia. Qed.

Lemma Allocate_run m :
  IdWf m -> 0 <= im_nr_free m < 2 ^ 31 ->
  exists r m', Allocate wsz m = Ok (r, m') /\
    ((r = -1 /\ m' = m /\ (im_nr_free m = 0 \/ forall o, start_of m <= o < BITS_PER_PAGE -> busy m o = true)) \/
     (start_of m <= r < BITS_PER_PAGE /\ im_nr_free m <> 0 /\ busy m r = false /\
      (forall o, start_of m <= o < r -> busy m o = true) /\ IdWf m' /\
      im_nr_free m' = im_nr_free m - 1 /\ im_last_id m' = r /\
      forall o, 0 <= o < BITS_PER_PAGE -> busy m' o = busy m o || bool_decide (same_cell o r))).
Proof using Hw.
  intros W Hnr. unfold Allocate. step. rewrite land_page_mask. fold (start_of m).
  assert (0 <= start_of m < BITS_PER_PAGE) as Hst by (apply Z.mod_pos_bound; done).
  destruct (Z.eqb_spec (im_nr_free m) 0) as [H0|H0]; [exists (-1), m; split; [done|left; eauto]|].
  unfold find_next_zero_bit.
  destruct (find_zero_run m (Z.to_nat (BITS_PER_PAGE - start_of m)) (start_of m) W ltac:(lia) ltac:(lia)) as (r & Hrun & Hr & H1 & H2).
  rewrite (bind_Ok _ _ _ _ _ Hrun).
  destruct (Z.eqb_spec BITS_PER_PAGE r) as [He|He]; [exists (-1), m; split; [done|left; split_and!; [done|done|right; intros o Ho; apply H1; lia]]|].
  specialize (H2 ltac:(lia)).
  destruct (test_and_set_bit_run m r W ltac:(lia)) as (page & Hset & W' & Hb). rewrite (bind_Ok _ _ _ _ _ Hset), H2.
  step. step. eexists r, _. split; [done|]. right. split_and!; [lia|lia|done|done|done|..].
  - destruct W' as [L1 L2 L3]. split; [done|done|simpl; lia].
  - simpl. apply to_int_small. lia.
  - done.
  - exact Hb.
Qed.

Lemma Free_run m id :
  IdWf m -> - 2 ^ 31 <= im_nr_free m < 2 ^ 31 - 1 ->
  exists m', Free wsz id m = Ok (tt, m') /\ IdWf m' /\ im_nr_free m' = im_nr_free m + 1 /\ im_last_id m' = im_last_id m /\
    forall o, 0 <= o < BITS_PER_PAGE ->
      busy m' o = busy m o && negb (bool_decide (same_cell o (id `mod` BITS_PER_PAGE))).
Proof using Hw.
  intros W Hnr. unfold Free. step. rewrite land_page_mask. set (m1 := m <| im_nr_free := _ |>).
  assert (IdWf m1) as W1 by by destruct W.
  destruct (clear_bit_run m1 (id `mod` BITS_PER_PAGE) W1) as (page & Hrun & W2 & Hb); [by apply Z.mod_pos_bound|].
  eexists. split; [exact Hrun|]. split; [done|]. split; [simpl; apply to_int_small; lia|]. split; [done|exact Hb].
Qed.

Lemma new_IdMap_wf : IdWf (new_IdMap wsz).
Proof using Hw.
  split; simpl; [| |by unfold BITS_PER_PAGE].
  - rewrite length_replicate. unfold ID_MAX_DEFAULT. destruct Hw as [-> | ->]; done.
  - intros v [-> _]%elem_of_replicate. unfold w_bits. destruct Hw as [-> | ->]; done.
Qed.

Lemma new_IdMap_free o : busy (new_IdMap wsz) o = false.
Proof using.
  unfold busy, new_IdMap. simpl. rewrite nth_lookup. destruct (_ !! _) as [v|] eqn:E; simpl; [|apply Z.bits_0].
  apply list_elem_of_lookup_2, elem_of_replicate in E as [-> _]. apply Z.bits_0.
Qed.
End bits.

(** * 32-bit machines: the reference allocator *)

Lemma same_cell_32 o1 o2 :
  0 <= o1 < BITS_PER_PAGE -> 0 <= o2 < BITS_PER_PAGE -> same_cell 4 o1 o2 <-> o1 = o2.
Proof.
  intros H1 H2. split; [|by intros ->]. unfold same_cell, bit_word, w_bits. rewrite !Z.shiftr_div_pow2 by lia.
  change (2 ^ (4 + 1)) with 32. change (8 * 4) with 32. intros [Hd Hm].
  pose proof (Z.div_mod o1 32). pose proof (Z.div_mod o2 32). lia.
Qed.

Record IdRep (m : IdMap) (s : idset) : Prop := {
  ir_wf : IdWf 4 m;
  ir_busy : forall o, 0 <= o < BITS_PER_PAGE -> busy 4 m o = bool_decide (o ∈ is_used s);
  ir_range : forall o, o ∈ is_used s -> 0 <= o < BITS_PER_PAGE;
  ir_free : im_nr_free m = BITS_PER_PAGE - Z.of_nat (size (is_used s));
  ir_last : im_last_id m = is_last s
}.

Lemma least_free_spec u n : forall start,
  match least_free n u start with
  | Some r => start <= r < start + Z.of_nat n /\ r ∉ u /\ forall o, start <= o < r -> o ∈ u
  | None => forall o, start <= o < start + Z.of_nat n -> o ∈ u
  end.
Proof.
  induction n as [|n IH]; intros start; cbn [least_free]; [lia|].
  destruct (decide (start ∈ u)) as [Hin|Hin]; [|split; [lia|]; split; [done|lia]].
  specialize (IH (start + 1)). destruct (least_free n u (start + 1)) as [r|].
  - destruct IH as (H1 & H2 & H3). split; [lia|]. split; [done|]. intros o Ho.
    destruct (decide (o = start)) as [->|]; [done|]. apply H3. lia.
  - intros o Ho. destruct (decide (o = start)) as [->|]; [done|]. apply IH. lia.
Qed.

Lemma next_free_spec u start : 0 <= start < BITS_PER_PAGE ->
  match next_free u start with
  | Some r => start <= r < BITS_PER_PAGE /\ r ∉ u /\ forall o, start <= o < r -> o ∈ u
  | None => forall o, start <= o < BITS_PER_PAGE -> o ∈ u
  end.
Proof.
  intros Hs. unfold next_free. pose proof (least_free_spec u (Z.to_nat (BITS_PER_PAGE - start)) start) as H.
  destruct (least_free _ _ _); [split; [lia|]; split; [apply H|]|]; intros o Ho; apply H; lia.
Qed.

Lemma new_IdMap_rep : IdRep (new_IdMap 4) (mk_idset ∅ (-1)).
Proof.
  split; simpl.
  - apply new_IdMap_wf. by left.
  - intros o _. rewrite new_IdMap_free. symmetry. by apply bool_decide_eq_false_2, not_elem_of_empty.
  - intros o Ho. by apply elem_of_empty in Ho.
  - by vm_compute.
  - done.
Qed.

(** A set of numbers in a range has at most as many elements as the range,
    and when it has as many it is the range. *)
Lemma size_range (u : gset Z) n : (forall o, o ∈ u -> 0 <= o < n) -> (size u <= Z.to_nat n)%nat.
Proof.
  intros H. rewrite <- (length_seqZ 0 n), <- (size_list_to_set (C := gset Z)) by apply NoDup_seqZ.
  apply subseteq_size. intros o Ho%H. apply elem_of_list_to_set, elem_of_seqZ. lia.
Qed.

Lemma full_range (u : gset Z) n o : (forall o, o ∈ u -> 0 <= o < n) -> (Z.to_nat n <= size u)%nat -> 0 <= o < n -> o ∈ u.
Proof.
  intros H Hn Ho. destruct (decide (o ∈ u)) as [|Hu]; [done|].
  pose proof (size_range ({[o]} ∪ u) n) as Hs. rewrite size_union, size_singleton in Hs.
  - enough (1 + size u <= Z.to_nat n)%nat by lia. apply Hs. by intros x [->%elem_of_singleton|?%H]%elem_of_union.
  - by intros x ->%elem_of_singleton.
Qed.

Lemma used_size m s : IdRep m s -> (size (is_used s) <= Z.to_nat BITS_PER_PAGE)%nat.
Proof. intros R. apply size_range, R. Qed.

(** All ids are in use when none is counted as free. *)
Lemma full_when_zero m s o : IdRep m s -> im_nr_free m = 0 -> 0 <= o < BITS_PER_PAGE -> o ∈ is_used s.
Proof. intros R H0. apply full_range; [apply R|]. pose proof (ir_free _ _ R). lia. Qed.

Lemma idmap_op_refines o m s :
  IdRep m s -> match o with OpFree id => id ∈ is_used s | OpAllocate => True end ->
  exists m', idmap_op 4 o m = Ok ((ref_op o s).1, m') /\ IdRep m' (ref_op o s).2.
Proof.
  intros R Ho. pose proof (ir_free _ _ R) as Hf. pose proof (used_size _ _ R) as Hsz.
  change BITS_PER_PAGE with 32768 in Hf, Hsz.
  destruct o as [|id]; cbn [idmap_op ref_op].
  - rewrite <- (ir_last _ _ R). fold (start_of m).
    assert (0 <= start_of m < BITS_PER_PAGE) as Hst by (apply Z.mod_pos_bound; done).
    pose proof (next_free_spec (is_used s) (start_of m) Hst) as Hn.
    destruct (Allocate_run 4 (or_introl eq_refl) m (ir_wf _ _ R) ltac:(lia)) as (r & m' & Hrun & Hcase).
    assert (forall o, start_of m <= o < BITS_PER_PAGE -> busy 4 m o = true <-> o ∈ is_used s) as Hbusy.
    { intros o Ho'. rewrite (ir_busy _ _ R) by lia. apply bool_decide_eq_true. }
    destruct Hcase as [(-> & -> & Hfull)|(Hr & Hnz & Hb & Hbelow & W' & Hnr & Hla & Hb')].
    + exists m. destruct (next_free (is_used s) (start_of m)) as [r|]; [|done].
      destruct Hn as (H1 & H2 & _). destruct H2. destruct Hfull as [H0|Hall].
      * apply (full_when_zero _ _ _ R H0). lia.
      * apply Hbusy; [lia|]. by apply Hall.
    + assert (r ∉ is_used s) as Hru by (intros Hin; apply Hbusy in Hin; [congruence|lia]).
      destruct (next_free (is_used s) (start_of m)) as [r2|]; [|destruct Hru; by apply Hn].
      assert (r2 = r) as ->.
      { destruct Hn as (H1 & H2 & H3). destruct (Z.lt_trichotomy r2 r) as [Hlt|[?|Hlt]]; [|done|].
        - destruct H2. apply Hbusy; [lia|]. apply Hbelow. lia.
        - destruct Hru. apply H3. lia. }
      exists m'. split; [done|]. split; simpl.
      * done.
      * intros o Ho'. rewrite Hb', (ir_busy _ _ R) by done. apply eq_true_iff_eq.
        rewrite orb_true_iff, !bool_decide_eq_true, same_cell_32, elem_of_union, elem_of_singleton by lia. tauto.
      * intros o [->%elem_of_singleton|Ho']%elem_of_union; [lia|by apply (ir_range _ _ R)].
      * rewrite size_union, size_singleton; [rewrite Hnr, Hf; change BITS_PER_PAGE with 32768; lia|].
        intros x ->%elem_of_singleton Hx. done.
      * done.
  - pose proof (ir_range _ _ R _ Ho) as Hid.
    destruct (Free_run 4 (or_introl eq_refl) m id (ir_wf _ _ R) ltac:(lia)) as (m' & Hrun & W' & Hnr & Hla & Hb').
    exists m'. split; [by rewrite (bind_Ok _ _ _ _ _ Hrun)|]. rewrite Z.mod_small in Hb' by done. split; simpl.
    + done.
    + intros o Ho'. rewrite Hb', (ir_busy _ _ R) by done. apply eq_true_iff_eq.
      rewrite andb_true_iff, negb_true_iff, !bool_decide_eq_true, bool_decide_eq_false, same_cell_32, elem_of_difference, elem_of_singleton by lia.
      tauto.
    + intros o [Ho' _]%elem_of_difference. by apply (ir_range _ _ R).
    + rewrite size_difference by by apply singleton_subseteq_l. rewrite size_singleton.
      assert (0 < size (is_used s))%nat.
      { destruct (decide (size (is_used s) = 0)%nat) as [E|]; [|lia]. apply size_empty_inv in E. by apply E in Ho. }
      rewrite Hnr, Hf. change BITS_PER_PAGE with 32768. lia.
    + rewrite Hla. apply R.
Qed.

Lemma idmap_ops_refine os : forall m s,
  IdRep m s -> frees_used os s ->
  exists m', idmap_ops 4 os m = Ok ((ref_ops os s).1, m') /\ IdRep m' (ref_ops os s).2.
Proof.
  induction os as [|o os IH]; intros m s R Hf; cbn [idmap_ops ref_ops]; [by exists m|].
  destruct Hf as [Ho Hf]. destruct (idmap_op_refines o m s R Ho) as (m1 & Hrun1 & R1).
  destruct (IH m1 _ R1 Hf) as (m2 & Hrun2 & R2). exists m2.
  rewrite (bind_Ok _ _ _ _ _ Hrun1), (bind_Ok _ _ _ _ _ Hrun2).
  destruct (ref_op o s) as [r s1]. simpl in *. by destruct (ref_ops os s1).
Qed.

(** C30. Where [unsigned long] has 32 bits, the bitmap implements the
    reference allocator: from a new map, every program of allocations and of
    releases of ids in use runs, and returns what the set of used ids
    determines (the least id after the last one given that is free, up to
    32767, or -1). *)
Theorem idmap_program_refines os :
  frees_used os (mk_idset ∅ (-1)) ->
  exists m', idmap_ops 4 os (new_IdMap 4) = Ok ((ref_ops os (mk_idset ∅ (-1))).1, m') /\
    IdRep m' (ref_ops os (mk_idset ∅ (-1))).2.
Proof. intros Hf. exact (idmap_ops_refine os _ _ new_IdMap_rep Hf). Qed.

Lemma idmap_program_refines_witness :
  exists m', idmap_ops 4 [OpAllocate; OpAllocate; OpFree 0; OpAllocate] (new_IdMap 4) = Ok ([0; 1; 0; 2], m') /\
    IdRep m' (ref_ops [OpAllocate; OpAllocate; OpFree 0; OpAllocate] (mk_idset ∅ (-1))).2.
Proof.
  destruct (idmap_program_refines [OpAllocate; OpAllocate; OpFree 0; OpAllocate]) as (m' & H & R).
  - split; [done|]. split; [done|]. split; [|by split]. apply (bool_decide_eq_true_1 _). by vm_compute.
  - exists m'. split; [|exact R]. rewrite H. by vm_compute.
Defined.
