(* ===== verification/OldSched.v ===== *)
(** The first, C++ version of the scheduler (src/oldsrc/coroutine.cc,
    coroutine.h and hooks.cc): one [Scheduler] object that owns the coroutines
    and the sockets, a round-robin loop over the list [active_], and the hooks
    that wait for a descriptor before the raw call.

    A coroutine's function is a [prog], a tree of the calls it makes.  The
    machine context [ctx_] of a suspended coroutine is the point at which it
    continues ([old_kont]): the frame of [mainfunc], and that of the hook that
    waits.  [swapcontext] to the context of the scheduler ends a segment.
    [Resume] is called by [Run] only, as in the program.

    The objects have addresses that are never reused; [delete] removes the
    object, and an access through a pointer to it is [BadPointer]. *)

From stdpp Require Import gmap list.
From S2P Require Import Prelude Events Thread Hooks IdMap.

(** * Constants *)

Definition kProtectStackSize : Z := 10 * 1024.
Definition kDefaulaStackSize : Z := 100 * 1024.
Definition kCoroNum : Z := 256.
Definition kStatusDead : Z := 0.
Definition kStatusReady : Z := 1.
Definition kStatusRunning : Z := 2.
Definition kStatusSuspend : Z := 3.
(** Linux *)
Definition EINTR : Z := 4.
Definition MSG_NOSIGNAL : Z := 0x4000.

(** * User code *)

(** What a coroutine does, up to its next call of the library; [PReturn] is
    the end of its function. *)
Inductive prog :=
  | PReturn
  | PSpawn (arg : Z) (fun_ : Z -> prog) (k : Z -> prog)
  | PYield (k : prog)
  | PStatus (id : Z) (k : Z -> prog)
  | PAccept (fd : Z) (k : Z -> prog)
  | PRecv (fd len flags : Z) (k : Z -> list Z -> prog)
  | PSend (fd : Z) (buf : list Z) (flags : Z) (k : Z -> prog)
  | PClose (fd : Z) (k : Z -> prog)
  | PRaw (c : syscall) (k : sysret -> prog)   (* a call that hooks.cc does not wrap *)
  | PLocal (off : Z) (k : Z -> prog)          (* the address of a local variable *)
  | PLoad (a : Z) (k : Z -> prog)
  | PStore (a v : Z) (k : prog)
  | PTrap                                     (* it goes wrong by itself *)
  | PFuel.                                    (* the rest of a loop that was cut off *)

Definition cfunc : Type := Z -> prog.

(** * Data *)

(** The locals of [mainfunc] on the coroutine's stack. *)
Record frame := mk_frame { fr_id : Z; fr_coro : Z }.

(** The locals that [Accept], [Recv] and [Send] share. *)
Record wait_frame := mk_wait { wf_coro : Z; wf_fd : Z; wf_ev : epoll_event }.

Inductive old_kont :=
  | KNone
  | KMain                                    (* makecontext(.., mainfunc, ..) *)
  | KYield (f : frame) (k : prog)
  | KAccept (f : frame) (w : wait_frame) (k : Z -> prog)
  | KRecv (f : frame) (w : wait_frame) (ret len flags : Z) (buf : list Z) (k : Z -> list Z -> prog)
  | KSend (f : frame) (w : wait_frame) (ret flags : Z) (buf : list Z) (k : Z -> prog).

Record ucontext := mk_ucontext { uc_sp : Z; uc_size : Z; uc_link_main : bool; uc_at : old_kont }.

Record Coroutine := mk_old_coroutine {
  arg_ : Z;
  fun_ : cfunc;
  id_ : Z;
  stack_ : Z;
  status_ : Z;
  ctx_ : ucontext
}.
#[export] Instance eta_old_coroutine : Eta Coroutine := fun r =>
  mk_old_coroutine (arg_ r) (fun_ r) (id_ r) (stack_ r) (status_ r) (ctx_ r).

Record Socket := mk_socket { fd_ : Z; coro_ : option Z }.

Record Scheduler (S : Type) := mk_scheduler {
  epfd_ : Z;
  running_ : Z;
  num_ : Z;
  active_ : list (option Z);
  coros_ : list (option Z);
  socks_ : list (option Z);
  id_map_ : IdMap;
  (* the objects that [new] made, by address *)
  ob_coros : gmap Z Coroutine;
  ob_socks : gmap Z Socket;
  ob_next : Z;
  (* the variables of the coroutines that are used through pointers, by address *)
  ob_vars : gmap Z Z;
  (* the C library and the kernel *)
  sc_sys : S
}.
Arguments mk_scheduler {S}.
Arguments epfd_ {S}. Arguments running_ {S}. Arguments num_ {S}. Arguments active_ {S}. Arguments coros_ {S}.
Arguments socks_ {S}. Arguments id_map_ {S}. Arguments ob_coros {S}. Arguments ob_socks {S}. Arguments ob_next {S}. Arguments ob_vars {S}.
Arguments sc_sys {S}.
#[export] Instance eta_scheduler S : Eta (Scheduler S) := fun r =>
  mk_scheduler (epfd_ r) (running_ r) (num_ r) (active_ r) (coros_ r) (socks_ r) (id_map_ r)
    (ob_coros r) (ob_socks r) (ob_next r) (ob_vars r) (sc_sys r).

(** How a loop over a raw call ends: the hook returns, or waits again. *)
Inductive hook_end (A : Type) :=
  | Returns (a : A)
  | Swaps (a : A).
Arguments Returns {A} a.
Arguments Swaps {A} a.

(** * The layers below

    [sizeof(unsigned long)]; whether a block that [delete[]] has given back can
    still be used as the stack of the function that is running on it, up to its
    end (the language leaves that undefined); the raw calls and epoll. *)
Class OldSys (S : Type) := {
  old_wsz : Z;
  old_freed_stack : bool;
  old_call : syscall -> S -> sysret * S;
  old_epoll_create : Z -> S -> Z * S;
  old_epoll_ctl : Z -> Z -> Z -> epoll_event -> S -> Z * S;
  old_epoll_wait : Z -> Z -> Z -> S -> Z * list epoll_event * S
}.

Section old.
Context {S : Type} `{!OldSys S}.
Notation MS := (M (Scheduler S)).

(** * Objects *)

Definition get_coro (p : Z) : MS Coroutine :=
  s ← get;
  match ob_coros s !! p with Some c => mret c | None => fail BadPointer end.

Definition upd_coro (p : Z) (f : Coroutine -> Coroutine) : MS unit :=
  c ← get_coro p;
  modify (fun s => s <| ob_coros ::= <[p := f c]> |>).

Definition get_sock (q : Z) : MS Socket :=
  s ← get;
  match ob_socks s !! q with Some x => mret x | None => fail BadPointer end.

(** [new Coroutine(arg, fun, id)]: the object, and behind it the bytes of the
    stack that the constructor allocates. *)
Definition new_coroutine (arg : Z) (fn : cfunc) (id : Z) : MS Z :=
  s ← get;
  let p := ob_next s in
  put (s <| ob_coros ::= <[p := mk_old_coroutine arg fn id (p + 1) kStatusReady (mk_ucontext 0 0 false KNone)]> |>
         <| ob_next := p + 1 + (kProtectStackSize + kDefaulaStackSize) |>);;
  mret p.

Definition delete_coroutine (p : Z) : MS unit :=
  get_coro p;;
  modify (fun s => s <| ob_coros ::= delete p |>).

Definition delete_socket (q : Z) : MS unit :=
  get_sock q;;
  modify (fun s => s <| ob_socks ::= delete q |>).

(** [coros_[id]] and [socks_[fd]] on the vectors. *)
Definition coros_at (id : Z) : MS (option Z) := s ← get; array_get (coros_ s) id.
Definition set_coros (id : Z) (v : option Z) : MS unit :=
  s ← get; l ← array_set (coros_ s) id v; put (s <| coros_ := l |>).
Definition socks_at (fd : Z) : MS (option Z) := s ← get; array_get (socks_ s) fd.
Definition set_socks (fd : Z) (v : option Z) : MS unit :=
  s ← get; l ← array_set (socks_ s) fd v; put (s <| socks_ := l |>).

(** The id map is a member of the scheduler. *)
Definition in_id_map {A} (m : M IdMap A) : MS A := fun s =>
  match m (id_map_ s) with
  | Ok (a, im) => Ok (a, s <| id_map_ := im |>)
  | Fail e => Fail e
  end.

(** * Calls down *)

Definition raw (c : syscall) : MS sysret :=
  s ← get;
  let '(r, k) := old_call c (sc_sys s) in
  put (s <| sc_sys := k |>);;
  mret r.

Definition epoll_ctl (op fd : Z) (ev : epoll_event) : MS Z :=
  s ← get;
  let '(r, k) := old_epoll_ctl (epfd_ s) op fd ev (sc_sys s) in
  put (s <| sc_sys := k |>);;
  mret r.

(** * The scheduler *)

(** The constructor, on the kernel state [k]. *)
Definition new_Scheduler (k : S) : Scheduler S :=
  let '(epfd, k') := old_epoll_create 1024 k in
  mk_scheduler epfd (-1) 0 [] (replicate (Z.to_nat kCoroNum) None) (replicate (Z.to_nat kCoroNum) None)
    (new_IdMap old_wsz) ∅ ∅ 1 ∅ k'.

(** The body of the destructor's loop, and the destructor. *)
Definition destroy_at (i : Z) : MS unit :=
  c ← coros_at i;
  (match c with Some p => delete_coroutine p | None => mret tt end);;
  q ← socks_at i;
  match q with Some q => delete_socket q | None => mret tt end.

Fixpoint destroy_from (n : nat) (i : Z) : MS unit :=
  match n with
  | O => mret tt
  | Datatypes.S n' => destroy_at i;; destroy_from n' (i + 1)
  end.

Definition delete_Scheduler : MS unit := s ← get; destroy_from (length (coros_ s)) 0.

Definition Spawn (arg : Z) (fn : cfunc) : MS Z :=
  id ← in_id_map (Allocate old_wsz);
  if id <? 0 then mret id
  else
    coro ← new_coroutine arg fn id;
    set_coros id (Some coro);;
    modify (fun s => s <| active_ ::= fun l => l ++ [Some coro] |>);;
    mret id.

Definition Status (id : Z) : MS Z :=
  coro ← coros_at id;
  match coro with
  | None => mret kStatusDead
  | Some p => c ← get_coro p; mret (status_ c)
  end.

(** [swapcontext(&coro->ctx_, &main_)]: the coroutine will continue at [k]. *)
Definition save_ctx (p : Z) (k : old_kont) : MS unit :=
  upd_coro p (fun c => c <| ctx_ := mk_ucontext (uc_sp (ctx_ c)) (uc_size (ctx_ c)) (uc_link_main (ctx_ c)) k |>).

Definition Yield (f : frame) (k : prog) : MS unit :=
  s ← get;
  coro ← coros_at (running_ s);
  p ← deref coro;
  upd_coro p (fun c => c <| status_ := kStatusSuspend |>);;
  modify (fun s => s <| running_ := -1 |>);;
  save_ctx p (KYield f k).

(** [mainfunc] after [delete coro]: its frame, with [id], [coro] and [sched],
    and its return address are on the stack that the destructor has freed. *)
Definition on_freed_stack : MS unit := if old_freed_stack then mret tt else fail FreedStack.

(** [mainfunc] after the coroutine's function has returned. *)
Definition mainfunc_tail (f : frame) : MS unit :=
  c ← get_coro (fr_coro f);
  in_id_map (Free old_wsz (id_ c));;
  delete_coroutine (fr_coro f);;
  on_freed_stack;;
  set_coros (fr_id f) None;;
  modify (fun s => s <| num_ ::= fun n => to_ullong (n - 1) |>);;
  modify (fun s => s <| running_ := -1 |>).

(** * Waiting for a descriptor *)

(** The socket of [fd], made when there is none. *)
Definition socket_of (fd : Z) (coro : option Z) : MS Z :=
  sock ← socks_at fd;
  match sock with
  | Some q => mret q
  | None =>
      s ← get;
      let q := ob_next s in
      put (s <| ob_socks ::= <[q := mk_socket fd coro]> |> <| ob_next := q + 1 |>);;
      set_socks fd (Some q);;
      mret q
  end.

(** The first part of [Accept], [Recv] and [Send]: the frame with which to
    wait, or nothing when the descriptor is not registered. *)
Definition wait_enter (fd events : Z) : MS (option Z * option epoll_event) :=
  s ← get;
  coro ← coros_at (running_ s);
  sock ← socket_of fd coro;
  let ev := mk_epoll_event events sock in
  r ← epoll_ctl EPOLL_CTL_ADD fd ev;
  if negb (r =? 0) then mret (coro, None) else mret (coro, Some ev).

(** The label [swap], up to the switch. *)
Definition wait_swap (w : wait_frame) (k : old_kont) : MS unit :=
  upd_coro (wf_coro w) (fun c => c <| status_ := kStatusSuspend |>);;
  save_ctx (wf_coro w) k.

(** [epoll_ctl(epfd_, EPOLL_CTL_DEL, fd, &ev)] after the switch. *)
Definition wait_leave (w : wait_frame) : MS unit :=
  epoll_ctl EPOLL_CTL_DEL (wf_fd w) (wf_ev w);; mret tt.

Definition blocked_errno (e : Z) : bool := (e =? EAGAIN) || (e =? EWOULDBLOCK).

Fixpoint accept_try (fuel : nat) (fd : Z) : MS (hook_end Z) :=
  match fuel with
  | O => fail OutOfFuel
  | Datatypes.S n =>
      r ← raw (SysAccept fd);
      if sr_ret r <? 0 then
        if blocked_errno (sr_errno r) then mret (Swaps (-1))
        else if negb (sr_errno r =? EINTR) then mret (Returns (-1))
        else accept_try n fd
      else
        fl ← raw (SysFcntl fd F_GETFL None);
        raw (SysFcntl (sr_ret r) F_SETFL (Some (Z.lor (sr_ret fl) O_NONBLOCK)));;
        mret (Returns (sr_ret r))
  end.

(** The loop of [Recv]; [buf] holds the bytes stored so far. *)
Fixpoint recv_try (fuel : nat) (fd len flags ret : Z) (buf : list Z) : MS (hook_end (Z * list Z)) :=
  if ret <? to_llong len then
    match fuel with
    | O => fail OutOfFuel
    | Datatypes.S n =>
        r ← raw (SysRecv fd (to_ullong (len - ret)) flags);
        let nbytes := sr_ret r in
        if nbytes =? -1 then
          if blocked_errno (sr_errno r) then mret (Swaps (ret, buf))
          else if negb (sr_errno r =? EINTR) then mret (Returns (-1, buf))
          else recv_try n fd len flags ret buf
        else if nbytes =? 0 then mret (Returns (-1, buf))
        else
          let ret := ret + nbytes in
          let buf := buf ++ sr_bytes r in
          if nbytes <? to_llong len - ret then mret (Returns (ret, buf))
          else recv_try n fd len flags ret buf
    end
  else mret (Returns (ret, buf)).

(** The loop of [Send]; [buf] is the whole buffer, of length [len]. *)
Fixpoint send_try (fuel : nat) (fd : Z) (buf : list Z) (flags ret : Z) : MS (hook_end Z) :=
  let len := Z.of_nat (length buf) in
  if ret <? len then
    match fuel with
    | O => fail OutOfFuel
    | Datatypes.S n =>
        r ← raw (SysSend fd (drop (Z.to_nat ret) buf) (Z.lor flags MSG_NOSIGNAL));
        let nbytes := sr_ret r in
        if nbytes =? -1 then
          if blocked_errno (sr_errno r) then mret (Swaps ret)
          else if negb (sr_errno r =? EINTR) then mret (Returns (-1))
          else send_try n fd buf flags ret
        else if nbytes =? 0 then mret (Returns (-1))
        else
          let ret := ret + nbytes in
          if ret =? len then mret (Returns ret) else send_try n fd buf flags ret
    end
  else mret (Returns ret).

(** * The hooks, split at the switch

    [.._enter] runs up to the label [swap] and the switch there, and
    [.._leave] from the switch on: [Some] result when the hook returns,
    [None] when the coroutine has been suspended. *)

Definition enter_hook {A} (fd events : Z) (failed : A) (k : wait_frame -> old_kont) : MS (option A) :=
  '(coro, ev) ← wait_enter fd events;
  match ev with
  | None => mret (Some failed)
  | Some ev =>
      p ← deref coro;
      let w := mk_wait p fd ev in
      wait_swap w (k w);;
      mret None
  end.

Definition Accept_enter (f : frame) (fd : Z) (k : Z -> prog) : MS (option Z) :=
  enter_hook fd EPOLLIN (-1) (fun w => KAccept f w k).

Definition Accept_leave (fuel : nat) (f : frame) (w : wait_frame) (k : Z -> prog) : MS (option Z) :=
  wait_leave w;;
  r ← accept_try fuel (wf_fd w);
  match r with
  | Returns s => mret (Some s)
  | Swaps _ => wait_swap w (KAccept f w k);; mret None
  end.

Definition Recv_enter (f : frame) (fd len flags : Z) (k : Z -> list Z -> prog) : MS (option (Z * list Z)) :=
  enter_hook fd EPOLLIN (-1, []) (fun w => KRecv f w 0 len flags [] k).

Definition Recv_leave (fuel : nat) (f : frame) (w : wait_frame) (ret len flags : Z) (buf : list Z)
    (k : Z -> list Z -> prog) : MS (option (Z * list Z)) :=
  wait_leave w;;
  r ← recv_try fuel (wf_fd w) len flags ret buf;
  match r with
  | Returns x => mret (Some x)
  | Swaps x => wait_swap w (KRecv f w x.1 len flags x.2 k);; mret None
  end.

Definition Send_enter (f : frame) (fd : Z) (buf : list Z) (flags : Z) (k : Z -> prog) : MS (option Z) :=
  enter_hook fd EPOLLOUT (-1) (fun w => KSend f w 0 flags buf k).

Definition Send_leave (fuel : nat) (f : frame) (w : wait_frame) (ret flags : Z) (buf : list Z) (k : Z -> prog) :
    MS (option Z) :=
  wait_leave w;;
  r ← send_try fuel (wf_fd w) buf flags ret;
  match r with
  | Returns x => mret (Some x)
  | Swaps ret => wait_swap w (KSend f w ret flags buf k);; mret None
  end.

Definition Close (fd : Z) : MS Z :=
  sock ← socks_at fd;
  (match sock with
   | Some q => delete_socket q;; set_socks fd None
   | None => mret tt
   end);;
  r ← raw (SysClose fd); mret (sr_ret r).

(** * The variables of a coroutine

    They are on its stack, at places that the compiler chooses.  A pointer is
    good as long as the coroutine whose stack it points to is there. *)

Definition on_stack (c : Coroutine) (a : Z) : bool :=
  (stack_ c <=? a) && (a <? stack_ c + (kProtectStackSize + kDefaulaStackSize)).

Definition on_some_stack (s : Scheduler S) (a : Z) : bool :=
  existsb (fun x => on_stack x.2 a) (map_to_list (ob_coros s)).

Definition local_address (f : frame) (off : Z) : MS Z := c ← get_coro (fr_coro f); mret (stack_ c + off).

Definition load_var (a : Z) : MS Z :=
  s ← get;
  if on_some_stack s a then match ob_vars s !! a with Some v => mret v | None => fail UserFault end
  else fail UserFault.

Definition store_var (a v : Z) : MS unit :=
  s ← get;
  if on_some_stack s a then put (s <| ob_vars ::= <[a := v]> |>) else fail UserFault.

(** * Running a coroutine *)

(** The calls of a coroutine, up to the switch to the scheduler. *)
Fixpoint run_prog (f : frame) (p : prog) : MS unit :=
  match p with
  | PReturn => mainfunc_tail f
  | PSpawn arg fn k => id ← Spawn arg fn; run_prog f (k id)
  | PYield k => Yield f k
  | PStatus id k => st ← Status id; run_prog f (k st)
  | PAccept fd k => r ← Accept_enter f fd k; match r with Some s => run_prog f (k s) | None => mret tt end
  | PRecv fd len flags k =>
      r ← Recv_enter f fd len flags k; match r with Some (n, buf) => run_prog f (k n buf) | None => mret tt end
  | PSend fd buf flags k => r ← Send_enter f fd buf flags k; match r with Some n => run_prog f (k n) | None => mret tt end
  | PClose fd k => r ← Close fd; run_prog f (k r)
  | PRaw c k => r ← raw c; run_prog f (k r)
  | PLocal off k => a ← local_address f off; run_prog f (k a)
  | PLoad a k => v ← load_var a; run_prog f (k v)
  | PStore a v k => store_var a v;; run_prog f k
  | PTrap => fail UserFault
  | PFuel => fail OutOfFuel
  end.

(** [mainfunc], from its start. *)
Definition mainfunc : MS unit :=
  s ← get;
  let id := running_ s in
  coro ← coros_at id;
  p ← deref coro;
  c ← get_coro p;
  run_prog (mk_frame id p) (fun_ c (arg_ c)).

(** [swapcontext(&main_, &coro->ctx_)]; it returns when the coroutine switches
    back.  [fuel] bounds the raw calls of one segment. *)
Definition continue (fuel : nat) (k : old_kont) : MS unit :=
  match k with
  | KNone => fail BadPointer
  | KMain => mainfunc
  | KYield f k => run_prog f k
  | KAccept f w k => r ← Accept_leave fuel f w k; match r with Some s => run_prog f (k s) | None => mret tt end
  | KRecv f w ret len flags buf k =>
      r ← Recv_leave fuel f w ret len flags buf k;
      match r with Some (n, buf) => run_prog f (k n buf) | None => mret tt end
  | KSend f w ret flags buf k =>
      r ← Send_leave fuel f w ret flags buf k; match r with Some n => run_prog f (k n) | None => mret tt end
  end.

Definition swap_to (fuel : nat) (p : Z) : MS unit := c ← get_coro p; continue fuel (uc_at (ctx_ c)).

Definition Resume (fuel : nat) (id : Z) : MS unit :=
  coro ← coros_at id;
  match coro with
  | None => mret tt
  | Some p =>
      c ← get_coro p;
      if status_ c =? kStatusReady then
        upd_coro p (fun c => c <| ctx_ := mk_ucontext (stack_ c) kDefaulaStackSize true KNone |>);;
        modify (fun s => s <| running_ := id |>);;
        upd_coro p (fun c => c <| status_ := kStatusRunning |>);;
        save_ctx p KMain;;
        swap_to fuel p
      else if status_ c =? kStatusSuspend then
        modify (fun s => s <| running_ := id |>);;
        upd_coro p (fun c => c <| status_ := kStatusRunning |>);;
        swap_to fuel p
      else mret tt
  end.

(** [for (iter = active_.begin(); iter != active_.end(); ++iter)], from
    element [i] on; the list grows while it runs.  [n] bounds the number of
    elements visited. *)
Fixpoint run_active (fuel n : nat) (i : nat) : MS unit :=
  s ← get;
  match active_ s !! i with
  | None => mret tt
  | Some p =>
      match n with
      | O => fail OutOfFuel
      | Datatypes.S n' =>
          p ← deref p;
          c ← get_coro p;
          Resume fuel (id_ c);;
          run_active fuel n' (i + 1)
      end
  end.

(** [EPOLLIN || EPOLLOUT] is a truth value. *)
Definition kNetworkMask : Z := if negb (EPOLLIN =? 0) || negb (EPOLLOUT =? 0) then 1 else 0.

Fixpoint check_events (evs : list epoll_event) : MS unit :=
  match evs with
  | [] => mret tt
  | ev :: evs' =>
      (if negb (Z.land (ev_events ev) kNetworkMask =? 0) then
         sock ← get_sock (ev_ptr ev);
         modify (fun s => s <| active_ ::= fun l => l ++ [coro_ sock] |>)
       else mret tt);;
      check_events evs'
  end.

(** [events] is the part of the array that the kernel filled in. *)
Definition CheckNetwork : MS unit :=
  s ← get;
  let '(nfds, events, k) := old_epoll_wait (epfd_ s) 1024 (-1) (sc_sys s) in
  put (s <| sc_sys := k |>);;
  if 0 <? nfds then check_events events else mret tt.

(** [rounds] iterations of [while (1)]. *)
Fixpoint Run (fuel n rounds : nat) : MS unit :=
  match rounds with
  | O => mret tt
  | Datatypes.S r => run_active fuel n 0;; CheckNetwork;; Run fuel n r
  end.

(** [pthread_create] (hooks.cc): what is stored in [*thread], and 0. *)
Definition pthread_create (start_routine : cfunc) (arg : Z) : MS (Z * Z) :=
  id ← Spawn arg start_routine;
  mret (to_ullong id, 0).
End old.
