(* ===== verification/OldSchedSpec.v ===== *)
(** The invariant of the first scheduler: the tables, the objects and the id
    map agree; every segment of a coroutine keeps it, and fails only by an
    index out of a table's range, by the user code's own fault, or by the use of
    its stack after the end of a coroutine has freed it. *)

From stdpp Require Import gmap list.
From S2P Require Import Prelude Events Thread Hooks IdMap IdMapSpec OldSched.

(** * Counting the entries of a table *)

Fixpoint entries {A} (l : list (option A)) : nat :=
  match l with
  | [] => 0
  | Some _ :: l' => Datatypes.S (entries l')
  | None :: l' => entries l'
  end.

Lemma entries_le {A} (l : list (option A)) : (entries l <= length l)%nat.
Proof. induction l as [|[x|] l IH]; simpl; lia. Qed.

Lemma entries_replicate {A} n : entries (replicate n (@None A)) = 0%nat.
Proof. by induction n. Qed.

Lemma entries_set {A} (l : list (option A)) i x :
  l !! i = Some None -> entries (<[i := Some x]> l) = Datatypes.S (entries l).
Proof.
  revert i. induction l as [|y l IH]; intros [|i] H; [done..| |]; simpl in *; [by injection H as ->|].
  rewrite (IH _ H). by destruct y.
Qed.

Lemma entries_clear {A} (l : list (option A)) i x :
  l !! i = Some (Some x) -> Datatypes.S (entries (<[i := None]> l)) = entries l.
Proof.
  revert i. induction l as [|y l IH]; intros [|i] H; [done..| |]; simpl in *; [by injection H as ->|].
  specialize (IH _ H). destruct y; lia.
Qed.

(** * The invariant *)

Section inv.
Context {S : Type} `{!OldSys S} (Hw : old_wsz = 4 \/ old_wsz = 8).
Implicit Types s : Scheduler S.
Notation busy := (busy old_wsz).
Notation same_cell := (same_cell old_wsz).

(** The context of a suspended coroutine is in a frame of its own. *)
Definition kont_of (p id : Z) (k : old_kont) : Prop :=
  match k with
  | KNone | KMain => False
  | KYield f _ => f = mk_frame id p
  | KAccept f w _ | KRecv f w _ _ _ _ _ | KSend f w _ _ _ _ => f = mk_frame id p /\ wf_coro w = p
  end.

Record OldInv s : Prop := {
  oi_coros_len : Z.of_nat (length (coros_ s)) = kCoroNum;
  oi_socks_len : Z.of_nat (length (socks_ s)) = kCoroNum;
  oi_table : forall i p, coros_ s !! i = Some (Some p) ->
    exists c, ob_coros s !! p = Some c /\ id_ c = Z.of_nat i;
  oi_live : forall p c, ob_coros s !! p = Some c -> 0 <= id_ c /\ coros_ s !! Z.to_nat (id_ c) = Some (Some p);
  oi_ctx : forall p c, ob_coros s !! p = Some c -> status_ c = kStatusSuspend -> kont_of p (id_ c) (uc_at (ctx_ c));
  oi_active : forall p c, ob_coros s !! p = Some c -> Some p ∈ active_ s;
  oi_map : IdWf old_wsz (id_map_ s);
  oi_busy : forall p c, ob_coros s !! p = Some c -> busy (id_map_ s) (id_ c) = true;
  oi_cells : forall p c p' c', ob_coros s !! p = Some c -> ob_coros s !! p' = Some c' ->
    same_cell (id_ c) (id_ c') -> p = p';
  oi_free : im_nr_free (id_map_ s) = BITS_PER_PAGE - Z.of_nat (entries (coros_ s));
  oi_stable : forall i q, socks_ s !! i = Some (Some q) -> exists x, ob_socks s !! q = Some x /\ fd_ x = Z.of_nat i;
  oi_slive : forall q x, ob_socks s !! q = Some x ->
    0 <= fd_ x /\ socks_ s !! Z.to_nat (fd_ x) = Some (Some q) /\ is_Some (coro_ x);
  oi_next : forall p, is_Some (ob_coros s !! p) \/ is_Some (ob_socks s !! p) -> p < ob_next s
}.

(** The coroutine of frame [f] is running. *)
Record Running (f : frame) s : Prop := {
  ru_inv : OldInv s;
  ru_id : running_ s = fr_id f;
  ru_live : exists c, ob_coros s !! fr_coro f = Some c /\ id_ c = fr_id f
}.

(** [FreedStack] is the end of a coroutine, where a freed stack is of no use. *)
Definition safe (e : error) : Prop :=
  e = OutOfBounds \/ e = OutOfFuel \/ e = UserFault \/ (e = FreedStack /\ old_freed_stack = false).

Lemma safe_bounds : safe OutOfBounds. Proof. by left. Qed.
Lemma safe_fuel : safe OutOfFuel. Proof. by right; left. Qed.
Lemma safe_user : safe UserFault. Proof. by right; right; left. Qed.
Lemma safe_freed : old_freed_stack = false -> safe FreedStack. Proof. by do 3 right. Qed.
#[local] Hint Resolve safe_bounds safe_fuel safe_user : core.

(** * How the invariant changes *)

(** What it does not mention may change, and the list may grow. *)
Lemma inv_frame s s' :
  OldInv s -> coros_ s' = coros_ s -> socks_ s' = socks_ s -> id_map_ s' = id_map_ s -> ob_coros s' = ob_coros s ->
  ob_socks s' = ob_socks s -> ob_next s' = ob_next s -> (forall p, p ∈ active_ s -> p ∈ active_ s') -> OldInv s'.
Proof using.
  intros [] H1 H2 H3 H4 H5 H6 Ha. split; rewrite ?H1, ?H2, ?H3, ?H4, ?H5, ?H6; eauto.
Qed.

(** A coroutine changes its status and its context. *)
Lemma inv_upd s p c c' :
  OldInv s -> ob_coros s !! p = Some c -> id_ c' = id_ c ->
  (status_ c' = kStatusSuspend -> kont_of p (id_ c) (uc_at (ctx_ c'))) ->
  OldInv (s <| ob_coros ::= <[p := c']> |>).
Proof using.
  intros I Hp Hid Hk.
  assert (forall q d, <[p := c']> (ob_coros s) !! q = Some d -> exists d', ob_coros s !! q = Some d' /\ id_ d' = id_ d) as Hl.
  { intros q d. rewrite lookup_insert. case_decide as Hq; [subst q|eauto]. intros [= <-]. eauto. }
  destruct I. split; simpl; try done.
  - intros i q Hq. destruct (oi_table0 _ _ Hq) as (d & Hd & Hi). rewrite lookup_insert.
    case_decide as Heq; [subst q|eauto]. exists c'. split; [done|]. congruence.
  - intros q d (d' & Hd & <-)%Hl. eauto.
  - intros q d. rewrite lookup_insert. case_decide as Hq; [subst q|eauto]. intros [= <-]. rewrite Hid. auto.
  - intros q d (d' & Hd & _)%Hl. eauto.
  - intros q d (d' & Hd & <-)%Hl. eauto.
  - intros q d q' d' (e & He & <-)%Hl (e' & He' & <-)%Hl. eauto.
  - intros q [[d Hq]|Hq]; [|eauto]. apply Hl in Hq as (d' & Hq & _). eauto.
Qed.

Lemma get_coro_run s p c : ob_coros s !! p = Some c -> get_coro p s = Ok (c, s).
Proof using. intros H. unfold get_coro. mrun. by rewrite H. Qed.

Lemma upd_coro_run s p c f :
  ob_coros s !! p = Some c -> upd_coro p f s = Ok (tt, s <| ob_coros ::= <[p := f c]> |>).
Proof using. intros H. unfold upd_coro. by rewrite (bind_Ok _ _ _ _ _ (get_coro_run _ _ _ H)). Qed.

Lemma save_ctx_run s p c k :
  ob_coros s !! p = Some c ->
  save_ctx p k s = Ok (tt, s <| ob_coros ::= <[p := c <| ctx_ := mk_ucontext (uc_sp (ctx_ c)) (uc_size (ctx_ c)) (uc_link_main (ctx_ c)) k |>]> |>).
Proof using. intros H. unfold save_ctx. by rewrite (upd_coro_run _ _ _ _ H). Qed.

Lemma wait_swap_inv s f w k :
  Running f s -> wf_coro w = fr_coro f -> kont_of (fr_coro f) (fr_id f) k ->
  wp (wait_swap w k) (fun _ s' => OldInv s') safe s.
Proof using.
  intros [I Hr (c & Hc & Hid)] Hwf Hk. unfold wait_swap. rewrite Hwf. wstep. unfold wp at 1.
  rewrite (upd_coro_run _ _ _ _ Hc). unfold wp.
  erewrite save_ctx_run by (simpl; apply lookup_insert_eq). cbn. rewrite insert_insert_eq.
  refine (inv_upd s _ c _ I Hc _ _); [done|]. intros _. simpl. by rewrite Hid.
Qed.

(** The table of a running coroutine. *)
Lemma running_entry s f : Running f s -> 0 <= fr_id f /\ coros_ s !! Z.to_nat (fr_id f) = Some (Some (fr_coro f)).
Proof using. intros [I _ (c & Hc & <-)]. apply (oi_live _ I _ _ Hc). Qed.

Lemma running_frame s s' f :
  Running f s -> OldInv s' -> running_ s' = running_ s -> ob_coros s' = ob_coros s -> Running f s'.
Proof using. intros [I Hr Hl] I' H1 H2. split; [done|congruence|by rewrite H2]. Qed.

Lemma Yield_inv s f k : Running f s -> wp (Yield f k) (fun _ s' => OldInv s') safe s.
Proof using.
  intros R. destruct (running_entry _ _ R) as [H0 He]. destruct R as [I Hr (c & Hc & Hid)].
  unfold Yield. do 2 wstep. wstep. unfold coros_at. do 2 wstep.
  apply wp_array_get; [|auto]. rewrite Hr, He. intros v _ [= <-]. do 2 wstep. wstep.
  unfold wp at 1. rewrite (upd_coro_run _ _ _ _ Hc). do 2 wstep.
  unfold wp. erewrite save_ctx_run by (simpl; apply lookup_insert_eq). cbn. rewrite insert_insert_eq.
  apply (inv_frame (s <| ob_coros ::= <[fr_coro f := c <| status_ := kStatusSuspend |> <| ctx_ := mk_ucontext (uc_sp (ctx_ c)) (uc_size (ctx_ c)) (uc_link_main (ctx_ c)) (KYield f k) |>]> |>)); try done.
  refine (inv_upd s _ c _ I Hc _ _); [done|]. intros _. simpl. rewrite Hid. by destruct f.
Qed.
Lemma same_cell_comm o o' : same_cell o o' -> same_cell o' o.
Proof using. unfold IdMapSpec.same_cell. by intros [-> ->]. Qed.

Lemma live_range s p c : OldInv s -> ob_coros s !! p = Some c -> 0 <= id_ c < kCoroNum.
Proof using.
  intros I Hc. destruct (oi_live _ I _ _ Hc) as [H0 Hl]. apply lookup_lt_Some in Hl.
  pose proof (oi_coros_len _ I). lia.
Qed.

(** The id given out is free in the table. *)
Lemma Spawn_inv s arg fn :
  OldInv s ->
  wp (Spawn arg fn) (fun _ s' => OldInv s' /\ running_ s' = running_ s /\
    forall p c, ob_coros s !! p = Some c -> ob_coros s' !! p = Some c) safe s.
Proof using Hw.
  intros I. unfold Spawn. wstep.
  assert (0 <= im_nr_free (id_map_ s) < 2 ^ 31) as Hnr.
  { pose proof (entries_le (coros_ s)). pose proof (oi_coros_len _ I). rewrite (oi_free _ I).
    change BITS_PER_PAGE with 32768. unfold kCoroNum in *. lia. }
  unfold wp at 1, in_id_map.
  destruct (Allocate_run old_wsz Hw (id_map_ s) (oi_map _ I) Hnr) as (id & m' & -> & Hcase).
  destruct Hcase as [(-> & -> & _)|(Hid & _ & Hfree & _ & W' & Hnr' & _ & Hbusy)].
  { simpl. wstep. split; [|by split]. by apply (inv_frame s). }
  assert (0 <= id < BITS_PER_PAGE) as Hr.
  { destruct Hid. split; [|done]. apply Z.le_trans with (start_of (id_map_ s)); [|done]. by apply Z.mod_pos_bound. }
  rewrite (proj2 (Z.ltb_ge _ _)) by apply Hr. unfold new_coroutine, set_coros. repeat wstep.
  apply wp_array_set; [|auto]. cbn [coros_ set_field id_map_ ob_coros ob_next eta eta_scheduler]. intros Hlen. repeat wstep.
  set (p := ob_next s) in *. set (c := mk_old_coroutine _ _ _ _ _ _).
  assert (ob_coros s !! p = None) as Hp.
  { destruct (ob_coros s !! p) eqn:Hp; [|done]. pose proof (oi_next _ I p ltac:(left; eauto)). subst p. lia. }
  assert (coros_ s !! Z.to_nat id = Some None) as He.
  { destruct (coros_ s !! Z.to_nat id) as [[q|]|] eqn:Hq; [|done|by apply lookup_ge_None in Hq; lia].
    destruct (oi_table _ I _ _ Hq) as (d & Hd & Hi). pose proof (oi_busy _ I _ _ Hd) as Hb.
    rewrite Hi, Z2Nat.id in Hb by lia. congruence. }
  split; [|split; [done|]].
  2: { intros q d Hd. simpl. rewrite lookup_insert_ne; [done|]. congruence. }
  assert (forall q d, ob_coros s !! q = Some d -> q <> p) as Hne by congruence.
  assert (forall q d, ob_coros s !! q = Some d -> ~ same_cell (id_ d) id) as Hsc.
  { intros q d Hd Hs. pose proof (oi_busy _ I _ _ Hd) as Hb. unfold IdMapSpec.busy in Hb, Hfree.
    destruct Hs as [Hs1 Hs2]. rewrite Hs1, Hs2 in Hb. congruence. }
  split; simpl.
  - rewrite length_insert. apply I.
  - apply I.
  - intros i q Hq. destruct (decide (i = Z.to_nat id)) as [->|Hi].
    + rewrite list_lookup_insert_eq in Hq by lia. injection Hq as <-. exists c. rewrite lookup_insert_eq.
      split; [done|]. simpl. lia.
    + rewrite list_lookup_insert_ne in Hq by done. destruct (oi_table _ I _ _ Hq) as (d & Hd & Hi').
      exists d. by rewrite lookup_insert_ne by (intros <-; by apply (Hne _ _ Hd)).
  - intros q d. rewrite lookup_insert. case_decide as Hq.
    + subst q. intros [= <-]. simpl. split; [lia|]. by rewrite list_lookup_insert_eq by lia.
    + intros Hd. destruct (oi_live _ I _ _ Hd) as [H0 Hl]. split; [done|].
      rewrite list_lookup_insert_ne; [done|]. intros Heq. rewrite <- Heq in Hl. congruence.
  - intros q d. rewrite lookup_insert. case_decide as Hq; [by intros [= <-]|apply (oi_ctx _ I)].
  - intros q d. rewrite lookup_insert. case_decide as Hq.
    + subst q. intros _. apply elem_of_app. right. by apply list_elem_of_singleton.
    + intros Hd. apply elem_of_app. left. by apply (oi_active _ I _ _ Hd).
  - done.
  - intros q d. rewrite lookup_insert. case_decide as Hq.
    + intros [= <-]. rewrite Hbusy by done. simpl. rewrite bool_decide_eq_true_2 by done. apply orb_true_r.
    + intros Hd. pose proof (live_range _ _ _ I Hd) as Hrd. unfold kCoroNum in Hrd.
      rewrite Hbusy by (change BITS_PER_PAGE with 32768; lia). by rewrite (oi_busy _ I _ _ Hd).
  - intros q d q' d'. rewrite !lookup_insert. case_decide as Hq; case_decide as Hq'; try congruence.
    + intros [= <-] Hd Hs. exfalso. apply (Hsc _ _ Hd). by apply same_cell_comm.
    + intros Hd [= <-] Hs. exfalso. by apply (Hsc _ _ Hd).
    + intros Hd Hd'. apply (oi_cells _ I _ _ _ _ Hd Hd').
  - rewrite Hnr', (oi_free _ I), entries_set by done. lia.
  - apply I.
  - apply I.
  - intros q [Hq|Hq].
    + rewrite lookup_insert in Hq. case_decide as Heq; [subst q p; unfold kProtectStackSize, kDefaulaStackSize; lia|].
      pose proof (oi_next _ I q ltac:(by left)). subst p. unfold kProtectStackSize, kDefaulaStackSize. lia.
    + pose proof (oi_next _ I q ltac:(by right)). subst p. unfold kProtectStackSize, kDefaulaStackSize. lia.
Qed.

(** * The end of a coroutine *)

(** Its id is given back. *)
Lemma free_id_run s f : Running f s ->
  exists m', Free old_wsz (fr_id f) (id_map_ s) = Ok (tt, m') /\ IdWf old_wsz m' /\ im_nr_free m' = im_nr_free (id_map_ s) + 1 /\
    (forall o, 0 <= o < BITS_PER_PAGE -> busy m' o = busy (id_map_ s) o && negb (bool_decide (same_cell o (fr_id f)))).
Proof using Hw.
  intros [I Hr (c & Hc & Hid)]. pose proof (live_range _ _ _ I Hc) as Hrc. unfold kCoroNum in Hrc. rewrite Hid in Hrc.
  assert (- 2 ^ 31 <= im_nr_free (id_map_ s) < 2 ^ 31 - 1) as Hnr.
  { pose proof (entries_le (coros_ s)). pose proof (oi_coros_len _ I). rewrite (oi_free _ I).
    change BITS_PER_PAGE with 32768. unfold kCoroNum in *. lia. }
  destruct (Free_run old_wsz Hw (id_map_ s) (fr_id f) (oi_map _ I) Hnr) as (m' & Hrun & W' & Hnr' & _ & Hbusy).
  rewrite Z.mod_small in Hbusy by (change BITS_PER_PAGE with 32768; lia). by exists m'.
Qed.

(** Where a freed stack is of no use, the end of a coroutine fails. *)
Lemma mainfunc_tail_freed s f : Running f s -> old_freed_stack = false -> mainfunc_tail f s = Fail FreedStack.
Proof using Hw.
  intros R Hfs. destruct (free_id_run s f R) as (m' & Hfree & _). destruct R as [I Hr (c & Hc & Hid)].
  unfold mainfunc_tail. rewrite (bind_Ok _ _ _ _ _ (get_coro_run _ _ _ Hc)), Hid.
  rewrite (bind_Ok _ _ s tt (s <| id_map_ := m' |>)) by (unfold in_id_map; by rewrite Hfree).
  unfold delete_coroutine. erewrite bind_Ok by (erewrite bind_Ok by (by apply get_coro_run); done).
  unfold on_freed_stack. by rewrite Hfs.
Qed.

Lemma mainfunc_tail_inv s f : Running f s -> wp (mainfunc_tail f) (fun _ s' => OldInv s') safe s.
Proof using Hw.
  intros R. destruct (running_entry _ _ R) as [H0 He].
  destruct (free_id_run s f R) as (m' & Hfree & W' & Hnr' & Hbusy). destruct R as [I Hr (c & Hc & Hid)].
  unfold mainfunc_tail. wstep. unfold wp at 1. rewrite (get_coro_run _ _ _ Hc). rewrite Hid. wstep.
  unfold wp at 1, in_id_map. rewrite Hfree.
  unfold delete_coroutine. do 2 wstep. unfold wp at 1. erewrite get_coro_run by exact Hc. do 2 wstep.
  unfold on_freed_stack. repeat wstep. destruct old_freed_stack eqn:Hfs; [|by apply wp_fail, safe_freed]. wstep.
  unfold set_coros. repeat wstep. apply wp_array_set; [|auto].
  cbn [coros_ set_field id_map_ ob_coros eta eta_scheduler]. intros Hlen. repeat wstep.
  set (p := fr_coro f) in *. set (id := fr_id f) in *.
  assert (forall q d, delete p (ob_coros s) !! q = Some d -> q <> p /\ ob_coros s !! q = Some d) as Hl.
  { intros q d Hd. by apply lookup_delete_Some in Hd as [? ?]. }
  split; simpl.
  - rewrite length_insert. apply I.
  - apply I.
  - intros i q Hq. destruct (decide (i = Z.to_nat id)) as [->|Hi]; [by rewrite list_lookup_insert_eq in Hq by lia|].
    rewrite list_lookup_insert_ne in Hq by done. destruct (oi_table _ I _ _ Hq) as (d & Hd & Hi').
    exists d. split; [|done]. rewrite lookup_delete_ne; [done|]. intros Heq. apply Hi.
    assert (d = c) as -> by (rewrite <- Heq in Hd; congruence). lia.
  - intros q d [Hne Hd]%Hl. destruct (oi_live _ I _ _ Hd) as [Hd0 Hl']. split; [done|].
    rewrite list_lookup_insert_ne; [done|]. intros Heq. rewrite <- Heq in Hl'. congruence.
  - intros q d [Hne Hd]%Hl. by apply (oi_ctx _ I).
  - intros q d [Hne Hd]%Hl. by apply (oi_active _ I _ _ Hd).
  - done.
  - intros q d [Hne Hd]%Hl. pose proof (live_range _ _ _ I Hd) as Hrd. unfold kCoroNum in Hrd.
    rewrite Hbusy by (change BITS_PER_PAGE with 32768; lia). rewrite (oi_busy _ I _ _ Hd), bool_decide_eq_false_2; [done|].
    intros Hs. apply Hne, (oi_cells _ I _ _ _ _ Hd Hc). by rewrite Hid.
  - intros q d q' d' [_ Hd]%Hl [_ Hd']%Hl. apply (oi_cells _ I _ _ _ _ Hd Hd').
  - rewrite Hnr', (oi_free _ I). rewrite <- (entries_clear _ _ _ He). lia.
  - apply I.
  - apply I.
  - intros q Hq. apply (oi_next _ I). destruct Hq as [[d Hq%Hl]|Hq]; [left|by right]. destruct Hq. eauto.
Qed.

(** * Calls down and sockets *)

Lemma inv_sys s k : OldInv s -> OldInv (s <| sc_sys := k |>).
Proof using. intros I. by apply (inv_frame s). Qed.

Lemma running_sys f s k : Running f s -> Running f (s <| sc_sys := k |>).
Proof using. intros R. apply (running_frame s); [done|apply inv_sys, R|done..]. Qed.

Lemma raw_run s c : raw c s = Ok ((old_call c (sc_sys s)).1, s <| sc_sys := (old_call c (sc_sys s)).2 |>).
Proof using. unfold raw. mrun. by destruct old_call. Qed.

Lemma epoll_ctl_run s op fd ev : exists r k, epoll_ctl op fd ev s = Ok (r, s <| sc_sys := k |>).
Proof using. unfold epoll_ctl. mrun. destruct old_epoll_ctl as [r k]. eauto. Qed.

(** Only the state of the kernel changes. *)
Definition sys_only {A} (m : M (Scheduler S) A) : Prop :=
  forall s, wp m (fun _ s' => exists k, s' = s <| sc_sys := k |>) safe s.

Lemma sys_only_ret A (a : A) : sys_only (mret a).
Proof using. intros s. exists (sc_sys s). by destruct s. Qed.

Lemma sys_only_bind A B (m : M (Scheduler S) A) (k : A -> M (Scheduler S) B) :
  sys_only m -> (forall a, sys_only (k a)) -> sys_only (m ≫= k).
Proof using.
  intros Hm Hk s. wstep. refine (wp_mono _ _ _ _ _ _ (Hm s) _ (fun e H => H)). intros a s' [k1 ->].
  refine (wp_mono _ _ _ _ _ _ (Hk a _) _ (fun e H => H)). intros b s' [k2 ->]. by exists k2.
Qed.

Lemma sys_only_raw c : sys_only (raw c).
Proof using. intros s. unfold wp. rewrite raw_run. eauto. Qed.

Lemma sys_only_ctl op fd ev : sys_only (epoll_ctl op fd ev).
Proof using. intros s. unfold wp. destruct (epoll_ctl_run s op fd ev) as (r & k & ->). eauto. Qed.

Lemma sys_only_fuel A : sys_only (fail (A := A) OutOfFuel).
Proof using. intros s. by apply wp_fail. Qed.

#[local] Hint Resolve sys_only_ret sys_only_bind sys_only_raw sys_only_ctl sys_only_fuel : core.

Lemma accept_try_sys fuel fd : sys_only (accept_try fuel fd).
Proof using.
  induction fuel as [|n IH]; simpl; [auto|]. apply sys_only_bind; [auto|]. intros r.
  repeat case_match; auto.
Qed.

Lemma recv_try_sys fuel fd len flags : forall ret buf, sys_only (recv_try fuel fd len flags ret buf).
Proof using.
  induction fuel as [|n IH]; intros ret buf; simpl; (case_match; [|auto]); [auto|].
  apply sys_only_bind; [auto|]. intros r. repeat case_match; auto.
Qed.

Lemma send_try_sys fuel fd buf flags : forall ret, sys_only (send_try fuel fd buf flags ret).
Proof using.
  induction fuel as [|n IH]; intros ret; simpl; (case_match; [|auto]); [auto|].
  apply sys_only_bind; [auto|]. intros r. repeat case_match; auto.
Qed.

Lemma coros_at_running s f :
  Running f s -> coros_at (running_ s) s = Ok (Some (fr_coro f), s).
Proof using.
  intros R. destruct (running_entry _ _ R) as [H0 He]. unfold coros_at, array_get. mrun.
  rewrite (ru_id _ _ R), bool_decide_eq_true_2 by done. by rewrite He.
Qed.

Lemma socket_of_inv s f fd p :
  Running f s -> wp (socket_of fd (Some p)) (fun _ s' => Running f s') safe s.
Proof using.
  intros R. pose proof (ru_inv _ _ R) as I. unfold socket_of, socks_at. repeat wstep. apply wp_array_get; [|auto].
  intros [q|] H0 Hq; [by wstep|]. unfold set_socks. repeat wstep. apply wp_array_set; [|auto].
  cbn [socks_ set_field ob_socks ob_next eta eta_scheduler]. intros Hlen. repeat wstep.
  apply (running_frame s); [done| |done..]. set (q := ob_next s) in *. set (x := mk_socket _ _).
  assert (ob_socks s !! q = None) as Hp.
  { destruct (ob_socks s !! q) eqn:Hp; [|done]. pose proof (oi_next _ I q ltac:(right; eauto)). subst q. lia. }
  destruct I. split; simpl; try done.
  - by rewrite length_insert.
  - intros i q' Hq'. destruct (decide (i = Z.to_nat fd)) as [->|Hi].
    + rewrite list_lookup_insert_eq in Hq' by lia. injection Hq' as <-. exists x. rewrite lookup_insert_eq.
      split; [done|]. simpl. lia.
    + rewrite list_lookup_insert_ne in Hq' by done. destruct (oi_stable0 _ _ Hq') as (d & Hd & Hi').
      exists d. rewrite lookup_insert_ne; [done|]. intros <-. congruence.
  - intros q' d. rewrite lookup_insert. case_decide as Hqq.
    + subst q'. intros [= <-]. simpl. split; [done|]. split; [by rewrite list_lookup_insert_eq by lia|eauto].
    + intros Hd. destruct (oi_slive0 _ _ Hd) as (Hd0 & Hl & Hco). split; [done|]. split; [|done].
      rewrite list_lookup_insert_ne; [done|]. intros Heq. rewrite <- Heq in Hl. congruence.
  - intros q' [Hq'|Hq'].
    + pose proof (oi_next0 q' ltac:(by left)). subst q. lia.
    + rewrite lookup_insert in Hq'. case_decide as Heq; [lia|]. pose proof (oi_next0 q' ltac:(by right)). subst q. lia.
Qed.

(** A hook returns at once, in the same frame, or has suspended. *)
Definition hook_post (A : Type) (f : frame) (r : option A) s : Prop :=
  match r with Some _ => Running f s | None => OldInv s end.

Lemma wp_safe_mono {A} (m : M (Scheduler S) A) (Q Q' : A -> Scheduler S -> Prop) s :
  wp m Q' safe s -> (forall a s', Q' a s' -> Q a s') -> wp m Q safe s.
Proof using. intros H HQ. by apply (wp_mono _ _ _ _ _ _ H HQ). Qed.

Lemma enter_hook_inv A s f fd events (failed : A) k :
  Running f s -> (forall w, wf_coro w = fr_coro f -> kont_of (fr_coro f) (fr_id f) (k w)) ->
  wp (enter_hook fd events failed k) (hook_post A f) safe s.
Proof using.
  intros R Hk. unfold enter_hook, wait_enter. repeat wstep. unfold wp at 1. rewrite (coros_at_running _ _ R). wstep.
  apply (wp_safe_mono _ _ _ _ (socket_of_inv s f fd (fr_coro f) R)). intros q s1 R1. wstep.
  refine (wp_safe_mono _ _ _ _ (sys_only_ctl _ _ _ s1) _). intros r s2 [k2 ->].
  destruct (negb (r =? 0)); repeat wstep; [by apply running_sys|].
  refine (wp_safe_mono _ _ _ _ (wait_swap_inv _ f (mk_wait (fr_coro f) fd (mk_epoll_event events q)) _ (running_sys _ _ k2 R1) eq_refl _) _); [by apply Hk|].
  intros [] s3 I3. by wstep.
Qed.

Lemma leave_hook_inv A B s f w (try : M (Scheduler S) (hook_end A)) (ret : A -> B) (k : A -> old_kont) :
  Running f s -> wf_coro w = fr_coro f -> (forall a, kont_of (fr_coro f) (fr_id f) (k a)) -> sys_only try ->
  wp (wait_leave w;;
      r ← try;
      match r with Returns a => mret (Some (ret a)) | Swaps a => wait_swap w (k a);; mret None end)
     (hook_post B f) safe s.
Proof using.
  intros R Hf Hk Ht. unfold wait_leave. do 2 wstep.
  refine (wp_safe_mono _ _ _ _ (sys_only_ctl _ _ _ s) _). intros _ s1 [k1 ->]. do 2 wstep.
  refine (wp_safe_mono _ _ _ _ (Ht _) _). intros [a|a] s2 [k2 ->]; cbn beta iota.
  - wstep. by do 2 apply running_sys.
  - wstep. refine (wp_safe_mono _ _ _ _ (wait_swap_inv _ f _ _ _ Hf (Hk a)) _); [by do 2 apply running_sys|].
    intros [] s3 I3. by wstep.
Qed.

Lemma Close_inv s f fd : Running f s -> wp (Close fd) (fun _ s' => Running f s') safe s.
Proof using.
  intros R. pose proof (ru_inv _ _ R) as I. unfold Close, socks_at. repeat wstep. apply wp_array_get; [|auto].
  intros v H0 Hv. wstep.
  assert (forall s1, Running f s1 -> wp (raw (SysClose fd)) (fun r s' => wp (mret (sr_ret r)) (fun _ s'' => Running f s'') safe s') safe s1) as Hend.
  { intros s1 R1. refine (wp_safe_mono _ _ _ _ (sys_only_raw _ s1) _). intros r s2 [k ->]. wstep. by apply running_sys. }
  destruct v as [q|]; [|do 2 wstep; by apply Hend].
  destruct (oi_stable _ I _ _ Hv) as (x & Hx & Hfd).
  unfold delete_socket, get_sock, set_socks. do 4 wstep. rewrite Hx. repeat wstep. apply wp_array_set; [|auto].
  cbn [socks_ set_field ob_socks eta eta_scheduler]. intros Hlen. repeat wstep. apply Hend.
  apply (running_frame s); [done| |done..].
  assert (forall q' d, delete q (ob_socks s) !! q' = Some d -> q' <> q /\ ob_socks s !! q' = Some d) as Hl.
  { intros q' d Hd. by apply lookup_delete_Some in Hd as [? ?]. }
  destruct I. split; simpl; try done.
  - by rewrite length_insert.
  - intros i q' Hq'. destruct (decide (i = Z.to_nat fd)) as [->|Hi]; [by rewrite list_lookup_insert_eq in Hq' by lia|].
    rewrite list_lookup_insert_ne in Hq' by done. destruct (oi_stable0 _ _ Hq') as (d & Hd & Hi').
    exists d. split; [|done]. rewrite lookup_delete_ne; [done|]. intros Heq. apply Hi.
    assert (d = x) as -> by (rewrite <- Heq in Hd; congruence). lia.
  - intros q' d [Hne Hd]%Hl. destruct (oi_slive0 _ _ Hd) as (Hd0 & Hl' & Hco). split; [done|]. split; [|done].
    rewrite list_lookup_insert_ne; [done|]. intros Heq. rewrite <- Heq in Hl'. congruence.
  - intros q' Hq'. apply oi_next0. destruct Hq' as [Hq'|[d Hq'%Hl]]; [by left|right]. destruct Hq'. eauto.
Qed.

Lemma Status_inv s f id : Running f s -> wp (Status id) (fun _ s' => Running f s') safe s.
Proof using.
  intros R. pose proof (ru_inv _ _ R) as I. unfold Status, coros_at. repeat wstep. apply wp_array_get; [|auto].
  intros [p|] _ Hp; [|by wstep]. destruct (oi_table _ I _ _ Hp) as (c & Hc & _). wstep.
  unfold wp at 1. rewrite (get_coro_run _ _ _ Hc). by wstep.
Qed.

(** * The variables of the coroutines *)

Lemma local_address_inv s f off : Running f s -> wp (local_address f off) (fun _ s' => s' = s) safe s.
Proof using.
  intros [_ _ (c & Hc & _)]. unfold local_address. wstep. unfold wp at 1. rewrite (get_coro_run _ _ _ Hc). by wstep.
Qed.

Lemma load_var_inv s a : wp (load_var a) (fun _ s' => s' = s) safe s.
Proof using. unfold load_var. do 2 wstep. repeat case_match; [by wstep|by apply wp_fail..]. Qed.

Lemma store_var_inv s f a v : Running f s -> wp (store_var a v) (fun _ s' => Running f s') safe s.
Proof using.
  intros R. unfold store_var. do 2 wstep. case_match; [|by apply wp_fail]. wstep.
  apply (running_frame s); [done| |done..]. by apply (inv_frame s); [apply R|..].
Qed.

(** * Segments of a coroutine *)

Lemma run_prog_inv f p : forall s, Running f s -> wp (run_prog f p) (fun _ s' => OldInv s') safe s.
Proof using Hw.
  induction p as [|arg fn _ k IH|k IH|id k IH|fd k IH|fd len flags k IH|fd buf flags k IH|fd k IH|c k IH|off k IH|a k IH|a v k IH| |];
    intros s R; cbn [run_prog]; [..|by apply wp_fail|by apply wp_fail].
  - by apply mainfunc_tail_inv.
  - wstep. apply (wp_safe_mono _ _ _ _ (Spawn_inv s arg fn (ru_inv _ _ R))). intros id s1 (I1 & Hr & Hc). apply IH.
    destruct R as [_ Hru (c & Hco & Hid)]. split; [done|congruence|eauto].
  - by apply Yield_inv.
  - wstep. apply (wp_safe_mono _ _ _ _ (Status_inv s f id R)). auto.
  - wstep. refine (wp_safe_mono _ _ _ _ (enter_hook_inv _ s f fd _ _ _ R _) _); [by intros w Hwf; destruct f|].
    intros [v|] s1 H1; [by apply IH|by wstep].
  - wstep. refine (wp_safe_mono _ _ _ _ (enter_hook_inv _ s f fd _ _ _ R _) _); [by intros w Hwf; destruct f|].
    intros [[n b]|] s1 H1; [by apply IH|by wstep].
  - wstep. refine (wp_safe_mono _ _ _ _ (enter_hook_inv _ s f fd _ _ _ R _) _); [by intros w Hwf; destruct f|].
    intros [v|] s1 H1; [by apply IH|by wstep].
  - wstep. apply (wp_safe_mono _ _ _ _ (Close_inv s f fd R)). auto.
  - wstep. refine (wp_safe_mono _ _ _ _ (sys_only_raw c s) _). intros r s1 [k1 ->]. by apply IH, running_sys.
  - wstep. apply (wp_safe_mono _ _ _ _ (local_address_inv s f off R)). intros a s1 ->. by apply IH.
  - wstep. apply (wp_safe_mono _ _ _ _ (load_var_inv s a)). intros v s1 ->. by apply IH.
  - wstep. apply (wp_safe_mono _ _ _ _ (store_var_inv s f a v R)). auto.
Qed.

Lemma continue_inv s f fuel k :
  Running f s -> kont_of (fr_coro f) (fr_id f) k -> wp (continue fuel k) (fun _ s' => OldInv s') safe s.
Proof using Hw.
  intros R Hk. destruct k as [| |g k|g w k|g w ret len flags buf k|g w ret flags buf k]; cbn [continue kont_of] in *; try done.
  - rewrite Hk. destruct f. by apply run_prog_inv.
  - destruct Hk as [-> Hwf]. replace (mk_frame (fr_id f) (fr_coro f)) with f by by destruct f. wstep.
    refine (wp_safe_mono _ _ _ _ (leave_hook_inv Z Z s f w _ (fun x => x) (fun _ => KAccept f w k) R Hwf _ (accept_try_sys _ _)) _).
    + intros a. by destruct f.
    + intros [v|] s1 H1; [by apply run_prog_inv|by wstep].
  - destruct Hk as [-> Hwf]. replace (mk_frame (fr_id f) (fr_coro f)) with f by by destruct f. wstep.
    refine (wp_safe_mono _ _ _ _ (leave_hook_inv _ _ s f w _ (fun x => x) (fun x => KRecv f w x.1 len flags x.2 k) R Hwf _ (recv_try_sys _ _ _ _ _ _)) _).
    + intros a. by destruct f.
    + intros [[n b]|] s1 H1; [by apply run_prog_inv|by wstep].
  - destruct Hk as [-> Hwf]. replace (mk_frame (fr_id f) (fr_coro f)) with f by by destruct f. wstep.
    refine (wp_safe_mono _ _ _ _ (leave_hook_inv Z Z s f w _ (fun x => x) (fun ret => KSend f w ret flags buf k) R Hwf _ (send_try_sys _ _ _ _ _)) _).
    + intros a. by destruct f.
    + intros [v|] s1 H1; [by apply run_prog_inv|by wstep].
Qed.

(** [Resume] of any id keeps the invariant; it fails only by an index beyond
    a table. *)
Lemma Resume_inv s fuel id : OldInv s -> wp (Resume fuel id) (fun _ s' => OldInv s') safe s.
Proof using Hw.
  intros I. unfold Resume, coros_at. repeat wstep. apply wp_array_get; [|auto].
  intros [p|] H0 Hp; [|by wstep]. destruct (oi_table _ I _ _ Hp) as (c & Hc & Hid). rewrite Z2Nat.id in Hid by done.
  wstep. unfold wp at 1. rewrite (get_coro_run _ _ _ Hc).
  destruct (Z.eqb_spec (status_ c) kStatusReady) as [Hst|Hst]; [|destruct (Z.eqb_spec (status_ c) kStatusSuspend) as [Hst'|Hst']; [|by wstep]].
  - wstep. unfold wp at 1. rewrite (upd_coro_run _ _ _ _ Hc). do 2 wstep. wstep.
    unfold wp at 1. erewrite upd_coro_run by (simpl; apply lookup_insert_eq). wstep.
    unfold wp at 1. erewrite save_ctx_run by (simpl; apply lookup_insert_eq). cbn. rewrite !insert_insert_eq.
    match goal with |- context [<[p := ?d]> (ob_coros s)] => set (c' := d) end.
    match goal with |- wp _ _ _ ?st => set (s1 := st) end.
    assert (Running (mk_frame id p) s1) as R1.
    { split; [|done|exists c'; split; [by apply lookup_insert_eq|done]].
      apply (inv_frame (s <| ob_coros ::= <[p := c']> |>)); [|done..]. by apply (inv_upd s p c c'). }
    unfold swap_to. wstep. unfold wp at 1. rewrite (get_coro_run s1 p c') by apply lookup_insert_eq.
    cbn [continue uc_at ctx_ c' set_field eta eta_old_coroutine]. unfold mainfunc. do 3 wstep.
    unfold wp at 1. rewrite (coros_at_running _ _ R1). do 2 wstep. wstep.
    unfold wp at 1. cbn [fr_coro]. rewrite (get_coro_run s1 p c') by apply lookup_insert_eq. by apply run_prog_inv.
  - do 2 wstep. wstep. unfold wp at 1. rewrite (upd_coro_run _ p c) by done. cbn.
    match goal with |- context [<[p := ?d]> _] => set (c' := d) end.
    match goal with |- wp _ _ _ ?st => set (s1 := st) end.
    assert (Running (mk_frame id p) s1) as R1.
    { split; [|done|exists c'; split; [by apply lookup_insert_eq|done]].
      apply (inv_frame (s <| ob_coros ::= <[p := c']> |>)); [|done..]. by apply (inv_upd s p c c'). }
    unfold swap_to. wstep. unfold wp at 1. rewrite (get_coro_run s1 p c') by apply lookup_insert_eq.
    apply (continue_inv _ (mk_frame id p)); [done|]. cbn [fr_coro fr_id]. rewrite <- Hid. by apply (oi_ctx _ I p c).
Qed.

(** A round of the scheduler keeps the invariant, if it ends. *)
Lemma wp_any {A} (m : M (Scheduler S) A) Q s : wp m Q safe s -> wp m Q any_error s.
Proof using. intros H. by apply (wp_mono _ _ _ _ _ _ H). Qed.

Lemma run_active_inv fuel n : forall i s, OldInv s -> wp (run_active fuel n i) (fun _ s' => OldInv s') any_error s.
Proof using Hw.
  induction n as [|n IH]; intros i s I; simpl; do 2 wstep; (destruct (active_ s !! i) as [[p|]|]; [|done|by wstep]); [done|].
  do 3 wstep. unfold wp at 1, get_coro. mrun. destruct (ob_coros s !! p) as [c|]; [|done].
  change (wp (Resume fuel (id_ c);; run_active fuel n (i + 1)) (fun _ s' => OldInv s') any_error s). wstep.
  refine (wp_mono _ _ _ _ _ _ (wp_any _ _ _ (Resume_inv s fuel (id_ c) I)) _ (fun e H => H)). intros [] s1 I1. by apply IH.
Qed.

Lemma check_events_inv evs : forall s, OldInv s -> wp (check_events evs) (fun _ s' => OldInv s') any_error s.
Proof using.
  induction evs as [|ev evs IH]; intros s I; simpl; [by wstep|]. wstep.
  case_match; [|wstep; by apply IH]. wstep. unfold wp at 1, get_sock. mrun.
  destruct (ob_socks s !! ev_ptr ev) as [x|]; [|done]. apply IH.
  apply (inv_frame s); [done..|]. intros p Hp. simpl. apply elem_of_app. by left.
Qed.

Lemma CheckNetwork_inv s : OldInv s -> wp CheckNetwork (fun _ s' => OldInv s') any_error s.
Proof using.
  intros I. unfold CheckNetwork. do 2 wstep. destruct old_epoll_wait as [[nfds evs] k]. do 2 wstep.
  pose proof (inv_sys s k I). case_match; [by apply check_events_inv|by wstep].
Qed.

Lemma Run_inv fuel n r : forall s, OldInv s -> wp (Run fuel n r) (fun _ s' => OldInv s') any_error s.
Proof using Hw.
  induction r as [|r IH]; intros s I; simpl; [by wstep|]. wstep.
  refine (wp_mono _ _ _ _ _ _ (run_active_inv fuel n 0 s I) _ (fun e H => H)). intros [] s1 I1. wstep.
  refine (wp_mono _ _ _ _ _ _ (CheckNetwork_inv s1 I1) _ (fun e H => H)). intros [] s2 I2. by apply IH.
Qed.

Lemma new_Scheduler_inv k : OldInv (new_Scheduler k).
Proof using Hw.
  unfold new_Scheduler. destruct old_epoll_create as [epfd k']. remember (Z.to_nat kCoroNum) as n eqn:Hn.
  split; simpl; try (intros; match goal with H : ∅ !! _ = Some _ |- _ => by rewrite lookup_empty in H end).
  - by rewrite length_replicate, Hn.
  - by rewrite length_replicate, Hn.
  - intros i p Hp. by apply lookup_replicate in Hp as [? _].
  - by apply new_IdMap_wf.
  - by rewrite entries_replicate.
  - intros i p Hp. by apply lookup_replicate in Hp as [? _].
  - intros p. rewrite !lookup_empty. by intros [[]|[]].
Qed.

End inv.
#[export] Hint Resolve safe_bounds safe_fuel safe_user : core.
