(* ===== verification/OldProps.v ===== *)
(** The properties of the first scheduler: its segments are safe and keep its
    tables consistent; its destructor frees every object once; and its loop
    does not survive the end of a coroutine. *)

From stdpp Require Import gmap list.
From S2P Require Import Prelude Events Thread Hooks IdMap IdMapSpec OldSched OldSchedSpec.

(** * What only grows *)

Section grow.
Context {S : Type} `{!OldSys S}.
Implicit Types s : Scheduler S.
Notation MS := (M (Scheduler S)).

(** Nothing is taken off the list of active coroutines, and no address comes
    to life again. *)
Record grow s s' : Prop := {
  gr_active : exists l, active_ s' = active_ s ++ l;
  gr_next : ob_next s <= ob_next s';
  gr_dead : forall p, p < ob_next s -> ob_coros s !! p = None -> ob_coros s' !! p = None
}.

#[export] Instance grow_refl : Reflexive grow.
Proof using. intros s. split; [exists []; by rewrite app_nil_r|lia|done]. Qed.

#[export] Instance grow_trans : Transitive grow.
Proof using.
  intros s1 s2 s3 [[l1 H1] N1 D1] [[l2 H2] N2 D2]. split; [|lia|].
  - exists (l1 ++ l2). by rewrite H2, H1, app_assoc.
  - intros p Hp Hd. apply D2; [lia|by apply D1].
Qed.

#[export] Instance grow_preorder : PreOrder grow.
Proof using. split; apply _. Qed.

Notation grows := (always grow).

Lemma grow_same s s' :
  active_ s' = active_ s -> ob_next s' = ob_next s -> ob_coros s' = ob_coros s -> grow s s'.
Proof using. intros H1 H2 H3. split; [exists []; by rewrite app_nil_r|lia|by rewrite H3]. Qed.

Lemma grows_get_coro p : grows (get_coro p).
Proof using. apply always_bind; [apply _|auto with always|]. intros s. case_match; auto with always. Qed.

Lemma grows_get_sock q : grows (get_sock q).
Proof using. apply always_bind; [apply _|auto with always|]. intros s. case_match; auto with always. Qed.

Lemma grows_upd_coro p f : grows (upd_coro p f).
Proof using.
  intros s. unfold upd_coro, get_coro. do 3 wstep. destruct (ob_coros s !! p) as [c|] eqn:Hc; repeat wstep; [|done].
  split; simpl; [exists []; by rewrite app_nil_r|lia|]. intros q Hq Hd. rewrite lookup_insert_ne; [done|congruence].
Qed.

Lemma grows_delete_coroutine p : grows (delete_coroutine p).
Proof using.
  apply always_bind; [apply _|apply grows_get_coro|]. intros _. apply always_modify. intros s.
  split; simpl; [exists []; by rewrite app_nil_r|lia|]. intros q Hq Hd. apply lookup_delete_None. by right.
Qed.

Lemma grows_delete_socket q : grows (delete_socket q).
Proof using.
  apply always_bind; [apply _|apply grows_get_sock|]. intros _. apply always_modify. intros s. by apply grow_same.
Qed.

Lemma grows_new_coroutine arg fn id : grows (new_coroutine arg fn id).
Proof using.
  apply always_state. intros s. repeat wstep. split; simpl; [exists []; by rewrite app_nil_r|unfold kProtectStackSize, kDefaulaStackSize; lia|].
  intros q Hq Hd. rewrite lookup_insert_ne; [done|lia].
Qed.

Lemma grows_coros_at id : grows (coros_at id).
Proof using. unfold coros_at. always_auto. Qed.

Lemma grows_socks_at id : grows (socks_at id).
Proof using. unfold socks_at. always_auto. Qed.

Lemma grows_set_coros id v : grows (set_coros id v).
Proof using. apply always_state. intros s. wstep. apply wp_array_set; [|done]. intros _. wstep. by apply grow_same. Qed.

Lemma grows_set_socks id v : grows (set_socks id v).
Proof using. apply always_state. intros s. wstep. apply wp_array_set; [|done]. intros _. wstep. by apply grow_same. Qed.

Lemma grows_in_id_map A (m : M IdMap A) : grows (in_id_map m).
Proof using. intros s. unfold wp, in_id_map. destruct (m (id_map_ s)) as [[a im]|e]; [|done]. by apply grow_same. Qed.

Lemma grows_sys A (m : MS A) : sys_only m -> grows m.
Proof using.
  intros H s. refine (wp_mono _ _ _ _ _ _ (H s) _ _); [|done]. intros a s' [k ->]. by apply grow_same.
Qed.

#[local] Hint Resolve grows_get_coro grows_get_sock grows_upd_coro grows_delete_coroutine grows_delete_socket
  grows_new_coroutine grows_coros_at grows_socks_at grows_set_coros grows_set_socks grows_in_id_map : always.
#[local] Hint Extern 1 (grows (raw _)) => apply grows_sys, sys_only_raw : always.
#[local] Hint Extern 1 (grows (epoll_ctl _ _ _)) => apply grows_sys, sys_only_ctl : always.
#[local] Hint Extern 1 (grows (accept_try _ _)) => apply grows_sys, accept_try_sys : always.
#[local] Hint Extern 1 (grows (recv_try _ _ _ _ _ _)) => apply grows_sys, recv_try_sys : always.
#[local] Hint Extern 1 (grows (send_try _ _ _ _ _)) => apply grows_sys, send_try_sys : always.
#[local] Hint Extern 2 (grows (modify _)) =>
  apply always_modify; intros; first [by apply grow_same | split; simpl; [eauto|lia|done]] : always.

Lemma grows_save_ctx p k : grows (save_ctx p k).
Proof using. unfold save_ctx. always_auto. Qed.

Lemma grows_wait_swap w k : grows (wait_swap w k).
Proof using. unfold wait_swap, save_ctx. always_auto. Qed.

Lemma grows_wait_leave w : grows (wait_leave w).
Proof using. unfold wait_leave. always_auto. Qed.
#[local] Hint Resolve grows_save_ctx grows_wait_swap grows_wait_leave : always.

Lemma grows_Spawn arg fn : grows (Spawn arg fn).
Proof using. unfold Spawn. always_auto. Qed.

Lemma grows_socket_of fd p : grows (socket_of fd p).
Proof using.
  unfold socket_of. apply always_bind; [apply _|auto with always|]. intros [q|]; [auto with always|].
  apply always_state. intros s. do 2 wstep.
  refine (wp_mono _ _ _ _ _ _ (always_bind grow _ _ (grows_set_socks fd _) (fun _ => always_ret grow (ob_next s)) _) _ (fun e H => H)).
  intros q s1 H. refine (transitivity _ H). split; simpl; [exists []; by rewrite app_nil_r|lia|done].
Qed.
#[local] Hint Resolve grows_Spawn grows_socket_of : always.

Lemma grows_enter_hook A fd events (failed : A) k : grows (enter_hook fd events failed k).
Proof using. unfold enter_hook, wait_enter. always_auto. Qed.

Lemma grows_mainfunc_tail f : grows (mainfunc_tail f).
Proof using. unfold mainfunc_tail, on_freed_stack. always_auto. Qed.

Lemma grows_Yield f k : grows (Yield f k).
Proof using. unfold Yield. always_auto. Qed.

Lemma grows_Close fd : grows (Close fd).
Proof using. unfold Close. always_auto. Qed.

Lemma grows_Status id : grows (Status id).
Proof using. unfold Status. always_auto. Qed.

Lemma grows_local_address f off : grows (local_address f off).
Proof using. unfold local_address. always_auto. Qed.

Lemma grows_load_var a : grows (load_var a).
Proof using. unfold load_var. always_auto. Qed.

Lemma grows_store_var a v : grows (store_var a v).
Proof using. apply always_state. intros s. case_match; [|by apply wp_fail]. wstep. by apply grow_same. Qed.
#[local] Hint Resolve grows_enter_hook grows_mainfunc_tail grows_Yield grows_Close grows_Status
  grows_local_address grows_load_var grows_store_var : always.

Lemma grows_run_prog f p : grows (run_prog f p).
Proof using.
  induction p; cbn [run_prog]; unfold Accept_enter, Recv_enter, Send_enter; always_auto.
Qed.
#[local] Hint Resolve grows_run_prog : always.

Lemma grows_continue fuel k : grows (continue fuel k).
Proof using.
  destruct k; cbn [continue]; unfold mainfunc, Accept_leave, Recv_leave, Send_leave; always_auto.
Qed.
#[local] Hint Resolve grows_continue : always.

Lemma grows_Resume fuel id : grows (Resume fuel id).
Proof using. unfold Resume, swap_to. always_auto. Qed.
#[local] Hint Resolve grows_Resume : always.

Lemma grows_run_active fuel n : forall i, grows (run_active fuel n i).
Proof using. induction n as [|n IH]; intros i; cbn [run_active]; always_auto. Qed.

Lemma grows_check_events evs : grows (check_events evs).
Proof using. induction evs as [|ev evs IH]; cbn [check_events]; always_auto. Qed.

Lemma grows_CheckNetwork : grows CheckNetwork.
Proof using.
  apply always_state. intros s. destruct old_epoll_wait as [[n evs] k]. do 2 wstep.
  assert (grow s (s <| sc_sys := k |>)) as Hg by by apply grow_same.
  case_match; [|by wstep]. refine (wp_mono _ _ _ _ _ _ (grows_check_events evs _) _ (fun e H => H)).
  intros [] s1 H1. exact (transitivity Hg H1).
Qed.
#[local] Hint Resolve grows_run_active grows_CheckNetwork : always.

Lemma grows_Run fuel n r : grows (Run fuel n r).
Proof using. induction r as [|r IH]; cbn [Run]; always_auto. Qed.
End grow.

(** * The main program: coroutines are created, then the loop runs *)

Section main.
Context {S : Type} `{!OldSys S}.
Implicit Types s : Scheduler S.
Notation MS := (M (Scheduler S)).

(** Calls of [pthread_create], and the ids they store. *)
Fixpoint create_all (l : list (cfunc * Z)) : MS (list Z) :=
  match l with
  | [] => mret []
  | (fn, arg) :: l' => '(thread, _) ← pthread_create fn arg; ids ← create_all l'; mret (thread :: ids)
  end.

Definition main_program (l : list (cfunc * Z)) (fuel n rounds : nat) : MS unit := create_all l;; Run fuel n rounds.

Lemma create_all_inv (Hw : old_wsz = 4 \/ old_wsz = 8) l : forall s,
  OldInv s -> wp (create_all l) (fun _ s' => OldInv s') safe s.
Proof using.
  induction l as [|[fn arg] l IH]; intros s I; simpl; [by wstep|]. unfold pthread_create. do 2 wstep.
  refine (wp_safe_mono _ _ _ _ (Spawn_inv Hw s arg fn I) _). intros id s1 (I1 & _). do 2 wstep.
  refine (wp_safe_mono _ _ _ _ (IH s1 I1) _). intros ids s2 I2. by wstep.
Qed.

(** A pass over the list does not get past the pointer to a dead coroutine. *)
Lemma dangling_pass fuel p n : forall i j s s',
  active_ s !! j = Some (Some p) -> (i <= j)%nat -> p < ob_next s -> ob_coros s !! p = None ->
  run_active fuel n i s <> Ok (tt, s').
Proof using.
  induction n as [|n IH]; intros i j s s' Hj Hij Hp Hd; cbn [run_active]; intros Hrun;
    apply bind_inv in Hrun as (s0 & s1 & [= <- <-] & Hrun).
  - destruct (active_ s !! i) eqn:Hi; [done|]. apply lookup_ge_None in Hi. apply lookup_lt_Some in Hj. lia.
  - destruct (active_ s !! i) as [q|] eqn:Hi; [|apply lookup_ge_None in Hi; apply lookup_lt_Some in Hj; lia].
    apply bind_inv in Hrun as (q' & s1 & Hq & Hrun). destruct q as [q|]; [|done]. injection Hq as <- <-.
    apply bind_inv in Hrun as (c & s1 & Hc & Hrun). unfold get_coro in Hc.
    apply bind_inv in Hc as (s2 & s3 & [= <- <-] & Hc). destruct (ob_coros s !! q) as [d|] eqn:Hq; [|done].
    injection Hc as <- <-. apply bind_inv in Hrun as ([] & s1 & Hres & Hrun).
    destruct (wp_Ok _ _ _ _ _ _ (grows_Resume fuel (id_ d) s) Hres) as [[l Hl] Hn Hdd].
    assert (i <> j) by (intros ->; congruence).
    refine (IH (i + 1)%nat j s1 s' _ _ _ _ Hrun); [|lia|lia|by apply Hdd].
    rewrite Hl, lookup_app_l; [done|by apply lookup_lt_Some in Hj].
Qed.
End main.

(** * A kernel to run the examples on

    One descriptor: [dk_in] arrives on it (nothing left is EAGAIN) and becomes
    [dk_taken], [dk_out] is what it took, three bytes at a time; [dk_waits] are the answers of
    epoll_wait. *)

Record demo_kernel := mk_demo {
  dk_in : list Z; dk_taken : list Z; dk_out : list Z; dk_waits : list (list epoll_event)
}.

Definition demo_call (c : syscall) (k : demo_kernel) : sysret * demo_kernel :=
  match c with
  | SysRecv _ n _ =>
      match dk_in k with
      | [] => (mk_sysret (-1) EAGAIN [] [] [], k)
      | l => let b := take (Z.to_nat n) l in
             (mk_sysret (Z.of_nat (length b)) 0 b [] [], mk_demo (drop (Z.to_nat n) l) (dk_taken k ++ b) (dk_out k) (dk_waits k))
      end
  | SysSend _ d _ =>
      let b := take 3 d in
      (mk_sysret (Z.of_nat (length b)) 0 [] [] [], mk_demo (dk_in k) (dk_taken k) (dk_out k ++ b) (dk_waits k))
  | _ => (mk_sysret 0 0 [] [] [], k)
  end.

Definition demo_epoll_wait (k : demo_kernel) : Z * list epoll_event * demo_kernel :=
  match dk_waits k with
  | [] => (-1, [], k)
  | evs :: l => (Z.of_nat (length evs), evs, mk_demo (dk_in k) (dk_taken k) (dk_out k) l)
  end.

#[export] Instance demo_sys : OldSys demo_kernel := {|
  old_wsz := 8;
  old_freed_stack := true;
  old_call := demo_call;
  old_epoll_create _ k := (3, k);
  old_epoll_ctl _ _ _ _ k := (0, k);
  old_epoll_wait _ _ _ k := demo_epoll_wait k
|}.

Lemma demo_wsz : old_wsz (S := demo_kernel) = 4 \/ old_wsz (S := demo_kernel) = 8.
Proof. by right. Qed.

(** One coroutine that returns at once, and one that echoes. *)
Definition idle_main : cfunc := fun _ => PReturn.
Definition echo_main : cfunc := fun fd => PRecv fd 8 0 (fun n buf => PSend fd buf 0 (fun _ => PReturn)).

(** C29. The first scheduler, with 32- or 64-bit longs: whatever the
    coroutines do, after [main] has created them and the loop has run for any
    number of rounds, the table of coroutines, the live objects, the id map
    and the table of sockets agree, and resuming any id from there keeps it so.
    A resumption fails at most by an index out of a table of 256 entries, by a
    fault of the user code's own, for want of fuel, or because a coroutine has
    ended: [mainfunc] then always goes on on the stack that it has just
    deleted, which fails unless a freed stack is as good as a live one.  It
    never fails through another dangling pointer or a null pointer of the
    library. *)
Theorem old_segments_safe {S} `{!OldSys S} l fuel n rounds (k : S) s :
  old_wsz = 4 \/ old_wsz = 8 ->
  main_program l fuel n rounds (new_Scheduler k) = Ok (tt, s) ->
  OldInv s /\
  (forall fuel' id, match Resume fuel' id s with
     | Ok (_, s') => OldInv s'
     | Fail e => e = OutOfBounds \/ e = OutOfFuel \/ e = UserFault \/ (e = FreedStack /\ old_freed_stack = false)
     end) /\
  (forall f s', Running f s' -> old_freed_stack = false -> run_prog f PReturn s' = Fail FreedStack).
Proof.
  intros Hw Hrun. assert (OldInv s) as I.
  { apply bind_inv in Hrun as (ids & s1 & Hc & Hrun).
    pose proof (wp_Ok _ _ _ _ _ _ (create_all_inv Hw l _ (new_Scheduler_inv Hw k)) Hc) as I1.
    exact (wp_Ok _ _ _ _ _ _ (Run_inv Hw fuel n rounds s1 I1) Hrun). }
  split; [done|]. split; [intros fuel' id; apply (Resume_inv Hw s fuel' id I)|].
  intros f s' R Hfs. by apply (mainfunc_tail_freed Hw).
Qed.

Lemma old_segments_safe_witness :
  exists s, main_program [(echo_main, 5)] 10 10 2 (new_Scheduler (mk_demo [1; 2; 3; 4; 5] [] [] [])) = Ok (tt, s) /\ OldInv s.
Proof.
  destruct (main_program [(echo_main, 5)] 10 10 2 (new_Scheduler (mk_demo [1; 2; 3; 4; 5] [] [] []))) as [[[] s]|e] eqn:H; [|by vm_compute in H].
  exists s. split; [done|].
  apply (old_segments_safe [(echo_main, 5)] 10 10 2 (mk_demo [1; 2; 3; 4; 5] [] [] []) s demo_wsz H).
Defined.

(** C36. The loop never takes a coroutine off its list: once one that was
    alive has ended, the next round dereferences the freed object (or fails
    before), so the loop cannot complete another round. *)
Theorem finished_coroutine_stops_run {S} `{!OldSys S} fuel n rounds (s s' : Scheduler S) p c :
  OldInv s -> ob_coros s !! p = Some c ->
  Run fuel n rounds s = Ok (tt, s') -> ob_coros s' !! p = None ->
  forall fuel' n' rounds', exists e, Run fuel' n' (Datatypes.S rounds') s' = Fail e.
Proof.
  intros I Hp Hrun Hd fuel' n' rounds'.
  destruct (wp_Ok _ _ _ _ _ _ (grows_Run fuel n rounds s) Hrun) as [[l Hl] Hn _].
  pose proof (oi_active _ I _ _ Hp) as [j Hj]%list_elem_of_lookup.
  destruct (Run fuel' n' (Datatypes.S rounds') s') as [[[] s2]|e] eqn:Hr; [|eauto]. exfalso.
  apply bind_inv in Hr as ([] & s1 & Hpass & _). refine (dangling_pass fuel' p n' 0 j s' s1 _ _ _ Hd Hpass); [|lia|].
  - rewrite Hl, lookup_app_l; [done|by apply lookup_lt_Some in Hj].
  - pose proof (oi_next _ I p ltac:(left; eauto)). lia.
Qed.

Lemma finished_coroutine_stops_run_witness :
  exists s s', create_all [(idle_main, 0)] (new_Scheduler (mk_demo [] [] [] [])) = Ok ([0], s) /\
    Run 10 10 1 s = Ok (tt, s') /\ exists e, Run 10 10 1 s' = Fail e.
Proof.
  destruct (create_all [(idle_main, 0)] (new_Scheduler (mk_demo [] [] [] []))) as [[ids s]|e] eqn:H; [|by vm_compute in H].
  assert (ids = [0]) as -> by (vm_compute in H; congruence).
  destruct (Run 10 10 1 s) as [[[] s']|e] eqn:Hr; [|vm_compute in H; injection H as <-; by vm_compute in Hr].
  exists s, s'. split; [done|]. split; [done|].
  pose proof (wp_Ok _ _ _ _ _ _ (create_all_inv demo_wsz [(idle_main, 0)] _ (new_Scheduler_inv demo_wsz (mk_demo [] [] [] []))) H) as I.
  destruct (ob_coros s !! 1) as [c|] eqn:Hc; [|vm_compute in H; injection H as <-; by vm_compute in Hc].
  apply (finished_coroutine_stops_run 10 10 1 s s' 1 c I Hc Hr).
  vm_compute in H. injection H as <-. vm_compute in Hr. injection Hr as <-. reflexivity.
Defined.

(** * The destructor *)

Section destroy.
Context {S : Type} `{!OldSys S}.
Implicit Types s : Scheduler S.

(** The destructor's loop, from [s0], has reached entry [i]. *)
Record Destroyed (s0 : Scheduler S) (i : Z) s : Prop := {
  de_coros : coros_ s = coros_ s0;
  de_socks : socks_ s = socks_ s0;
  de_live : forall p c, ob_coros s !! p = Some c <-> ob_coros s0 !! p = Some c /\ i <= id_ c;
  de_slive : forall q x, ob_socks s !! q = Some x <-> ob_socks s0 !! q = Some x /\ i <= fd_ x
}.

Definition delete_entry (v : option Z) : M (Scheduler S) unit :=
  match v with Some p => delete_coroutine p | None => mret tt end.
Definition delete_sock_entry (u : option Z) : M (Scheduler S) unit :=
  match u with Some q => delete_socket q | None => mret tt end.

Lemma delete_entry_run s0 i s v :
  OldInv s0 -> Destroyed s0 i s -> 0 <= i -> coros_ s0 !! Z.to_nat i = Some v ->
  exists s', delete_entry v s = Ok (tt, s') /\ coros_ s' = coros_ s /\ socks_ s' = socks_ s /\ ob_socks s' = ob_socks s /\
    forall p c, ob_coros s' !! p = Some c <-> ob_coros s0 !! p = Some c /\ i + 1 <= id_ c.
Proof using.
  intros I D Hi Hv.
  assert (forall p c, ob_coros s0 !! p = Some c -> id_ c = i -> v = Some p) as Hid.
  { intros p c Hc <-. destruct (oi_live _ I _ _ Hc) as [_ Hl]. congruence. }
  destruct v as [p|].
  - destruct (oi_table _ I _ _ Hv) as (c & Hc & Hci). eexists. split.
    { simpl. unfold delete_coroutine. erewrite bind_Ok by (eapply get_coro_run, (de_live _ _ _ D); split; [exact Hc|lia]). done. }
    do 3 (split; [done|]). intros q d. simpl. rewrite lookup_delete_Some, (de_live _ _ _ D). split.
    + intros (Hne & Hq & Hle). split; [done|]. enough (id_ d <> i) by lia. intros E. specialize (Hid q d Hq E). congruence.
    + intros (Hq & Hle). split; [|split; [done|lia]]. intros <-. assert (d = c) as -> by congruence. lia.
  - exists s. split; [done|]. do 3 (split; [done|]). intros q d. rewrite (de_live _ _ _ D). split; [|intros []; split; [done|lia]].
    intros (Hq & Hle). split; [done|]. enough (id_ d <> i) by lia. intros E. by specialize (Hid q d Hq E).
Qed.

Lemma delete_sock_entry_run s0 i s s1 u :
  OldInv s0 -> Destroyed s0 i s -> 0 <= i -> socks_ s0 !! Z.to_nat i = Some u -> ob_socks s1 = ob_socks s ->
  exists s', delete_sock_entry u s1 = Ok (tt, s') /\ coros_ s' = coros_ s1 /\ socks_ s' = socks_ s1 /\ ob_coros s' = ob_coros s1 /\
    forall q x, ob_socks s' !! q = Some x <-> ob_socks s0 !! q = Some x /\ i + 1 <= fd_ x.
Proof using.
  intros I D Hi Hu Hs.
  assert (forall q x, ob_socks s0 !! q = Some x -> fd_ x = i -> u = Some q) as Hid.
  { intros q x Hx <-. destruct (oi_slive _ I _ _ Hx) as (_ & Hl & _). congruence. }
  destruct u as [q|].
  - destruct (oi_stable _ I _ _ Hu) as (x & Hx & Hxi). eexists. split.
    { simpl. unfold delete_socket, get_sock. mrun. rewrite Hs, (proj2 (de_slive _ _ _ D q x)) by (split; [done|lia]). done. }
    do 3 (split; [done|]). intros q' d. simpl. rewrite lookup_delete_Some, Hs, (de_slive _ _ _ D). split.
    + intros (Hne & Hq & Hle). split; [done|]. enough (fd_ d <> i) by lia. intros E. specialize (Hid q' d Hq E). congruence.
    + intros (Hq & Hle). split; [|split; [done|lia]]. intros <-. assert (d = x) as -> by congruence. lia.
  - exists s1. split; [done|]. do 3 (split; [done|]). intros q d. rewrite Hs, (de_slive _ _ _ D). split; [|intros []; split; [done|lia]].
    intros (Hq & Hle). split; [done|]. enough (fd_ d <> i) by lia. intros E. by specialize (Hid q d Hq E).
Qed.

Lemma destroy_at_run s0 i s :
  OldInv s0 -> Destroyed s0 i s -> 0 <= i < kCoroNum ->
  exists s', destroy_at i s = Ok (tt, s') /\ Destroyed s0 (i + 1) s'.
Proof using.
  intros I D Hi. pose proof (oi_coros_len _ I) as L1. pose proof (oi_socks_len _ I) as L2.
  destruct (lookup_lt_is_Some_2 (coros_ s0) (Z.to_nat i) ltac:(lia)) as [v Hv].
  destruct (lookup_lt_is_Some_2 (socks_ s0) (Z.to_nat i) ltac:(lia)) as [u Hu].
  destruct (delete_entry_run s0 i s v I D ltac:(lia) Hv) as (s1 & R1 & C1 & C2 & C3 & Hl1).
  destruct (delete_sock_entry_run s0 i s s1 u I D ltac:(lia) Hu C3) as (s2 & R2 & D1 & D2 & D3 & Hl2).
  exists s2. split; [|destruct D; split; [congruence..|by rewrite D3|done]].
  unfold destroy_at, coros_at, socks_at.
  erewrite bind_Ok by (unfold array_get; mrun; rewrite bool_decide_eq_true_2, (de_coros _ _ _ D), Hv by lia; done).
  rewrite (bind_Ok _ _ _ _ _ R1).
  erewrite bind_Ok by (unfold array_get; mrun; rewrite bool_decide_eq_true_2, C2, (de_socks _ _ _ D), Hu by lia; done).
  exact R2.
Qed.

Lemma destroy_from_run s0 n : forall i s,
  OldInv s0 -> Destroyed s0 i s -> 0 <= i -> i + Z.of_nat n <= kCoroNum ->
  exists s', destroy_from n i s = Ok (tt, s') /\ Destroyed s0 (i + Z.of_nat n) s'.
Proof using.
  induction n as [|n IH]; intros i s I D H0 Hn; cbn [destroy_from].
  - exists s. split; [done|]. by rewrite Z.add_0_r.
  - destruct (destroy_at_run s0 i s I D ltac:(lia)) as (s1 & R1 & D1).
    destruct (IH (i + 1) s1 I D1 ltac:(lia) ltac:(lia)) as (s2 & R2 & D2).
    exists s2. rewrite (bind_Ok _ _ _ _ _ R1). split; [done|]. by replace (i + Z.of_nat (Datatypes.S n)) with (i + 1 + Z.of_nat n) by lia.
Qed.
End destroy.

(** C31. The destructor deletes every coroutine and every socket exactly once:
    from any state with the invariant it runs without touching a freed object,
    and nothing is left allocated. *)
Theorem delete_Scheduler_frees {S} `{!OldSys S} (s : Scheduler S) :
  OldInv s -> exists s', delete_Scheduler s = Ok (tt, s') /\ ob_coros s' = ∅ /\ ob_socks s' = ∅.
Proof.
  intros I. unfold delete_Scheduler. pose proof (oi_coros_len _ I) as L1. pose proof (oi_socks_len _ I) as L2.
  assert (Destroyed s 0 s) as D.
  { split; [done..| |].
    - intros p c. split; [|by intros []]. intros Hc. split; [done|]. apply (oi_live _ I _ _ Hc).
    - intros q x. split; [|by intros []]. intros Hx. split; [done|]. apply (oi_slive _ I _ _ Hx). }
  destruct (destroy_from_run s (length (coros_ s)) 0 s I D ltac:(lia) ltac:(lia)) as (s' & Hrun & D').
  exists s'. split; [exact Hrun|]. split; apply map_empty; intros p.
  - destruct (ob_coros s' !! p) as [c|] eqn:Hc; [|done]. apply (de_live _ _ _ D') in Hc as [Hc Hle].
    destruct (oi_live _ I _ _ Hc) as [H0 Hl]. apply lookup_lt_Some in Hl. lia.
  - destruct (ob_socks s' !! p) as [x|] eqn:Hx; [|done]. apply (de_slive _ _ _ D') in Hx as [Hx Hle].
    destruct (oi_slive _ I _ _ Hx) as (H0 & Hl & _). apply lookup_lt_Some in Hl. lia.
Qed.

Lemma delete_Scheduler_frees_witness :
  exists s s', create_all [(echo_main, 5); (idle_main, 0)] (new_Scheduler (mk_demo [] [] [] [])) = Ok ([0; 1], s) /\
    size (ob_coros s) = 2%nat /\ delete_Scheduler s = Ok (tt, s') /\ ob_coros s' = ∅.
Proof.
  destruct (create_all [(echo_main, 5); (idle_main, 0)] (new_Scheduler (mk_demo [] [] [] []))) as [[ids s]|e] eqn:H; [|by vm_compute in H].
  pose proof (wp_Ok _ _ _ _ _ _ (create_all_inv demo_wsz [(echo_main, 5); (idle_main, 0)] _ (new_Scheduler_inv demo_wsz (mk_demo [] [] [] []))) H) as I.
  destruct (delete_Scheduler_frees s I) as (s' & Hd & Hc & _). exists s, s'.
  split; [|split; [|by split]]; vm_compute in H; injection H as <- <-; reflexivity.
Defined.

(** * More coroutines than ids that fit *)

Lemma create_all_ids {S} `{!OldSys S} l : forall (s : Scheduler S) ids im,
  Z.of_nat (length (coros_ s)) = kCoroNum ->
  alloc_many old_wsz (length l) (id_map_ s) = Ok (ids, im) -> (forall id, id ∈ ids -> 0 <= id < kCoroNum) ->
  exists s', create_all l s = Ok (ids, s') /\ id_map_ s' = im /\ Z.of_nat (length (coros_ s')) = kCoroNum.
Proof.
  induction l as [|[fn arg] l IH]; intros s ids im Hlen Ha Hids; cbn [create_all alloc_many length] in *.
  { injection Ha as <- <-. by exists s. }
  apply bind_inv in Ha as (id & im1 & Hid & Ha). apply bind_inv in Ha as (ids' & im2 & Hids' & Ha).
  injection Ha as <- <-. assert (0 <= id < kCoroNum) as Hr by (apply Hids; left).
  assert (exists s1, Spawn arg fn s = Ok (id, s1) /\ id_map_ s1 = im1 /\ Z.of_nat (length (coros_ s1)) = kCoroNum) as (s1 & Hs & Him & Hl).
  { unfold Spawn. erewrite bind_Ok by (unfold in_id_map; rewrite Hid; done). rewrite (proj2 (Z.ltb_ge _ _)) by lia.
    unfold new_coroutine, set_coros, array_set. mrun. rewrite bool_decide_eq_true_2 by (simpl; lia).
    eexists. split; [done|]. split; [done|]. simpl. by rewrite length_insert. }
  destruct (IH s1 ids' im2 Hl ltac:(by rewrite Him) ltac:(intros; apply Hids; by right)) as (s2 & Hc & Him2 & Hl2).
  exists s2. unfold pthread_create. rewrite bind_assoc, (bind_Ok _ _ _ _ _ Hs). mrun. rewrite Hc.
  rewrite to_ullong_small by (unfold kCoroNum in Hr; lia). done.
Qed.

(** C37. With 64-bit longs the table of 256 coroutines is overrun by the 65th:
    for any functions and arguments, 64 calls of [pthread_create] give the ids
    0 to 63, and the next one, whose id is 512, stores beyond the table. *)
Theorem spawn_65_out_of_bounds {S} `{!OldSys S} l fn arg (k : S) :
  old_wsz = 8 -> length l = 64%nat ->
  exists s, create_all l (new_Scheduler k) = Ok (seqZ 0 64, s) /\ pthread_create fn arg s = Fail OutOfBounds.
Proof.
  intros Hw Hl.
  destruct (alloc_many 8 64 (new_IdMap 8)) as [[ids im]|] eqn:Ha; [|by vm_compute in Ha].
  destruct (Allocate 8 im) as [[id im']|] eqn:Hb; [|vm_compute in Ha; injection Ha as <- <-; by vm_compute in Hb].
  assert (ids = seqZ 0 64 /\ id = 512) as [-> ->].
  { vm_compute in Ha. injection Ha as <- <-. vm_compute in Hb. by injection Hb as <- <-. }
  destruct (create_all_ids l (new_Scheduler k) (seqZ 0 64) im) as (s & Hc & Him & Hlen).
  - unfold new_Scheduler. by destruct old_epoll_create.
  - unfold new_Scheduler. destruct old_epoll_create. simpl. by rewrite Hw, Hl.
  - intros id Hid%elem_of_seqZ. unfold kCoroNum. lia.
  - exists s. split; [done|]. unfold pthread_create, Spawn. unfold mbind at 1, M_bind at 1. unfold mbind at 1, M_bind at 1.
    unfold in_id_map. rewrite Hw, Him, Hb. unfold new_coroutine, set_coros, array_set. mrun.
    rewrite bool_decide_eq_false_2; [done|]. simpl. unfold kCoroNum in Hlen. lia.
Qed.

Lemma spawn_65_out_of_bounds_witness :
  exists s, create_all (replicate 64 (echo_main, 5)) (new_Scheduler (mk_demo [] [] [] [])) = Ok (seqZ 0 64, s) /\
    pthread_create idle_main 0 s = Fail OutOfBounds.
Proof. apply (spawn_65_out_of_bounds (replicate 64 (echo_main, 5)) idle_main 0 (mk_demo [] [] [] [])); reflexivity. Defined.
