(* ===== verification/OldIO.v ===== *)
(** The hooks of the first scheduler, seen from the coroutine that waits: what
    one segment of [Send] and of [Recv] does with the bytes, and which
    coroutines [CheckNetwork] puts on the list. *)

From stdpp Require Import gmap list.
From S2P Require Import Prelude Events Thread Hooks IdMap OldSched OldSchedSpec OldProps.

Section io.
Context {S : Type} `{!OldSys S}.
Implicit Types s : Scheduler S.

(** The calls that succeed leave these parts of the scheduler as they are. *)
Definition suspended_at (p : Z) (k : old_kont) s : Prop :=
  exists c, ob_coros s !! p = Some c /\ status_ c = kStatusSuspend /\ uc_at (ctx_ c) = k.

Lemma wait_swap_run w k s c :
  ob_coros s !! wf_coro w = Some c ->
  exists s', wait_swap w k s = Ok (tt, s') /\ sc_sys s' = sc_sys s /\ suspended_at (wf_coro w) k s'.
Proof using.
  intros Hc. unfold wait_swap. erewrite bind_Ok by (apply upd_coro_run; exact Hc).
  eexists. split; [apply save_ctx_run; simpl; apply lookup_insert_eq|]. split; [done|].
  eexists. split; [simpl; apply lookup_insert_eq|done].
Qed.

(** The state after the descriptor has been taken off the epoll. *)
Definition after_leave (w : wait_frame) s : Scheduler S :=
  s <| sc_sys := (old_epoll_ctl (epfd_ s) EPOLL_CTL_DEL (wf_fd w) (wf_ev w) (sc_sys s)).2 |>.

Lemma wait_leave_run w s : wait_leave w s = Ok (tt, after_leave w s).
Proof using. unfold wait_leave, after_leave, epoll_ctl. mrun. by destruct old_epoll_ctl. Qed.

(** * Sending *)

(** What the kernel says of send on [fd]: [sent] is the stream of bytes it has
    taken from the program, [intr] a bound on the interruptions to come. *)
Record SendKernel (fd : Z) (sent : S -> list Z) (intr : S -> nat) : Prop := {
  sk_call : forall d flags st,
    let r := old_call (SysSend fd d flags) st in
    (intr r.2 <= intr st)%nat /\
    ((sr_ret r.1 = -1 /\ sent r.2 = sent st /\ (sr_errno r.1 = EINTR -> (intr r.2 < intr st)%nat)) \/
     (0 <= sr_ret r.1 <= Z.of_nat (length d) /\ sent r.2 = sent st ++ take (Z.to_nat (sr_ret r.1)) d));
  sk_ctl : forall epfd op fd' ev st,
    sent (old_epoll_ctl epfd op fd' ev st).2 = sent st /\ intr (old_epoll_ctl epfd op fd' ev st).2 = intr st
}.

(** A raw send of what is left of [buf] from [ret] on. *)
Definition send_call (fd : Z) (buf : list Z) (flags ret : Z) (st : S) (r : sysret) (k : S) : Prop :=
  ret < Z.of_nat (length buf) /\
  old_call (SysSend fd (drop (Z.to_nat ret) buf) (Z.lor flags MSG_NOSIGNAL)) st = (r, k).

(** The raw sends of one segment, from position [ret] of [buf] in the kernel
    state [st]: how the last one ends the segment, and the state after it. *)
Inductive send_rounds (fd : Z) (buf : list Z) (flags : Z) : Z -> S -> hook_end Z -> S -> Prop :=
  | send_empty st : send_rounds fd buf flags (Z.of_nat (length buf)) st (Returns (Z.of_nat (length buf))) st
  | send_blocked ret st r k :
      send_call fd buf flags ret st r k -> sr_ret r = -1 -> sr_errno r = EAGAIN \/ sr_errno r = EWOULDBLOCK ->
      send_rounds fd buf flags ret st (Swaps ret) k
  | send_failed ret st r k :
      send_call fd buf flags ret st r k ->
      sr_ret r = 0 \/ (sr_ret r = -1 /\ sr_errno r <> EAGAIN /\ sr_errno r <> EWOULDBLOCK /\ sr_errno r <> EINTR) ->
      send_rounds fd buf flags ret st (Returns (-1)) k
  | send_interrupted ret st r k o k' :
      send_call fd buf flags ret st r k -> sr_ret r = -1 -> sr_errno r = EINTR ->
      send_rounds fd buf flags ret k o k' -> send_rounds fd buf flags ret st o k'
  | send_all ret st r k :
      send_call fd buf flags ret st r k -> ret + sr_ret r = Z.of_nat (length buf) ->
      send_rounds fd buf flags ret st (Returns (Z.of_nat (length buf))) k
  | send_part ret st r k o k' :
      send_call fd buf flags ret st r k -> 0 < sr_ret r -> ret + sr_ret r < Z.of_nat (length buf) ->
      send_rounds fd buf flags (ret + sr_ret r) k o k' -> send_rounds fd buf flags ret st o k'.

Lemma blocked_errno_true e : blocked_errno e = true -> e = EAGAIN \/ e = EWOULDBLOCK.
Proof using. unfold blocked_errno. rewrite orb_true_iff, !Z.eqb_eq. done. Qed.

Lemma blocked_errno_false e : blocked_errno e = false -> e <> EAGAIN /\ e <> EWOULDBLOCK.
Proof using. unfold blocked_errno. rewrite orb_false_iff, !Z.eqb_neq. done. Qed.

(** Of the rest of [buf] from [ret] on, [sent] has grown by what the answer
    says. *)
Definition send_answer (buf : list Z) (ret : Z) (r : hook_end Z) (before after : list Z) : Prop :=
  match r with
  | Returns n =>
      (n = Z.of_nat (length buf) /\ after = before ++ drop (Z.to_nat ret) buf) \/
      (n = -1 /\ exists m, after = before ++ take m (drop (Z.to_nat ret) buf))
  | Swaps ret' =>
      ret <= ret' <= Z.of_nat (length buf) /\
      after = before ++ take (Z.to_nat (ret' - ret)) (drop (Z.to_nat ret) buf)
  end.

(** A part of the rest is sent, and then the answer is about what remains. *)
Lemma send_answer_more buf ret n r b0 b1 b2 :
  0 <= ret -> 0 <= n -> ret + n <= Z.of_nat (length buf) ->
  b1 = b0 ++ take (Z.to_nat n) (drop (Z.to_nat ret) buf) ->
  send_answer buf (ret + n) r b1 b2 -> send_answer buf ret r b0 b2.
Proof using.
  intros H0 Hn Hl -> Ha.
  assert (drop (Z.to_nat (ret + n)) buf = drop (Z.to_nat n) (drop (Z.to_nat ret) buf)) as Hd.
  { rewrite drop_drop. f_equal. lia. }
  set (rest := drop (Z.to_nat ret) buf) in *.
  assert (forall m, take (Z.to_nat n) rest ++ take m (drop (Z.to_nat n) rest) = take (Z.to_nat n + m) rest) as Ht.
  { intros m. rewrite <- (take_drop (Z.to_nat n) rest) at 3. rewrite take_app_add'; [done|].
    unfold rest. rewrite length_take, length_drop. lia. }
  destruct r as [v|ret']; simpl in *.
  - destruct Ha as [[-> ->]|[-> [m ->]]]; rewrite Hd, <- app_assoc; [left|right]; split; try done.
    + by rewrite take_drop.
    + eexists. by rewrite Ht.
  - destruct Ha as [Hr ->]. split; [lia|]. rewrite Hd, <- app_assoc, Ht. do 2 f_equal. lia.
Qed.

Lemma send_try_run fd sent intr buf flags (K : SendKernel fd sent intr) fuel : forall ret s,
  0 <= ret <= Z.of_nat (length buf) ->
  (Z.to_nat (Z.of_nat (length buf) - ret) + intr (sc_sys s) < fuel)%nat ->
  exists r k, send_try fuel fd buf flags ret s = Ok (r, s <| sc_sys := k |>) /\
    send_rounds fd buf flags ret (sc_sys s) r k /\ send_answer buf ret r (sent (sc_sys s)) (sent k).
Proof using.
  induction fuel as [|n IH]; intros ret s Hret Hf; [lia|]. cbn [send_try].
  destruct (Z.ltb_spec ret (Z.of_nat (length buf))) as [Hlt|Hge].
  2: { replace ret with (Z.of_nat (length buf)) by lia. exists (Returns (Z.of_nat (length buf))), (sc_sys s).
       split; [by destruct s|]. split; [apply send_empty|]. left. split; [done|]. rewrite drop_ge by lia. by rewrite app_nil_r. }
  rewrite (bind_Ok _ _ _ _ _ (raw_run s _)).
  destruct (sk_call _ _ _ K (drop (Z.to_nat ret) buf) (Z.lor flags MSG_NOSIGNAL) (sc_sys s)) as [Hi Hcase].
  destruct (old_call _ (sc_sys s)) as [r k] eqn:Hcall. cbn [fst snd] in *. pose proof (conj Hlt Hcall : send_call fd buf flags ret _ r k) as HC.
  destruct Hcase as [(Hr & Hs & He)|(Hr & Hs)].
  - rewrite Hr, Z.eqb_refl. destruct (blocked_errno (sr_errno r)) eqn:Hw.
    { exists (Swaps ret), k. split; [done|]. split; [by eapply send_blocked; [| |apply blocked_errno_true]|].
      split; [lia|]. rewrite Z.sub_diag. simpl. by rewrite app_nil_r. }
    destruct (Z.eqb_spec (sr_errno r) EINTR) as [Hei|Hei]; cbn [negb].
    + destruct (IH ret (s <| sc_sys := k |>) Hret) as (r2 & k2 & Hrun & HR & Ha); [cbn [sc_sys set_field]; cbn; specialize (He Hei); lia|].
      exists r2, k2. split; [by rewrite Hrun|]. split; [by eapply send_interrupted|]. cbn in Ha. by rewrite Hs in Ha.
    + exists (Returns (-1)), k. split; [done|]. apply blocked_errno_false in Hw as [Hw1 Hw2].
      split; [eapply send_failed; [done|by right]|]. right. split; [done|]. exists 0%nat. by rewrite Hs, take_0, app_nil_r.
  - rewrite length_drop in Hr. rewrite (proj2 (Z.eqb_neq (sr_ret r) (-1))) by lia.
    destruct (Z.eqb_spec (sr_ret r) 0) as [H0|H0].
    { exists (Returns (-1)), k. split; [done|]. split; [eapply send_failed; [done|by left]|]. right. split; [done|]. eexists. exact Hs. }
    destruct (Z.eqb_spec (ret + sr_ret r) (Z.of_nat (length buf))) as [Hall|Hnot].
    + rewrite Hall. exists (Returns (Z.of_nat (length buf))), k. split; [done|]. split; [by eapply send_all|]. left. split; [done|].
      rewrite Hs. f_equal. apply take_ge. rewrite length_drop. lia.
    + destruct (IH (ret + sr_ret r) (s <| sc_sys := k |>)) as (r2 & k2 & Hrun & HR & Ha); [lia|cbn; lia|].
      exists r2, k2. split; [by rewrite Hrun|]. split; [eapply send_part; [done|lia|lia|done]|].
      cbn in Ha. by apply (send_answer_more _ _ (sr_ret r) _ _ (sent k)); [lia..| |].
Qed.

(** * Receiving *)

(** What the kernel says of recv on [fd]: [taken] is the stream of bytes the
    program has taken from it. *)
Record RecvKernel (fd : Z) (taken : S -> list Z) (intr : S -> nat) : Prop := {
  rk_call : forall n flags st, 0 < n ->
    let r := old_call (SysRecv fd n flags) st in
    (intr r.2 <= intr st)%nat /\
    ((sr_ret r.1 = -1 /\ taken r.2 = taken st /\ (sr_errno r.1 = EINTR -> (intr r.2 < intr st)%nat)) \/
     (0 <= sr_ret r.1 <= n /\ sr_ret r.1 = Z.of_nat (length (sr_bytes r.1)) /\
      taken r.2 = taken st ++ sr_bytes r.1));
  rk_ctl : forall epfd op fd' ev st,
    taken (old_epoll_ctl epfd op fd' ev st).2 = taken st /\ intr (old_epoll_ctl epfd op fd' ev st).2 = intr st
}.

(** A raw recv of what [buf] still needs of [len] bytes. *)
Definition recv_call (fd len flags : Z) (buf : list Z) (st : S) (r : sysret) (k : S) : Prop :=
  Z.of_nat (length buf) < len /\ old_call (SysRecv fd (len - Z.of_nat (length buf)) flags) st = (r, k).

(** The raw recvs of one segment, with [buf] received before, from the kernel
    state [st]: how the last one ends the segment, and the state after it. *)
Inductive recv_rounds (fd len flags : Z) : list Z -> S -> hook_end (Z * list Z) -> S -> Prop :=
  | recv_full buf st : len <= Z.of_nat (length buf) -> recv_rounds fd len flags buf st (Returns (Z.of_nat (length buf), buf)) st
  | recv_blocked buf st r k :
      recv_call fd len flags buf st r k -> sr_ret r = -1 -> sr_errno r = EAGAIN \/ sr_errno r = EWOULDBLOCK ->
      recv_rounds fd len flags buf st (Swaps (Z.of_nat (length buf), buf)) k
  | recv_failed buf st r k :
      recv_call fd len flags buf st r k ->
      sr_ret r = 0 \/ (sr_ret r = -1 /\ sr_errno r <> EAGAIN /\ sr_errno r <> EWOULDBLOCK /\ sr_errno r <> EINTR) ->
      recv_rounds fd len flags buf st (Returns (-1, buf)) k
  | recv_interrupted buf st r k o k' :
      recv_call fd len flags buf st r k -> sr_ret r = -1 -> sr_errno r = EINTR ->
      recv_rounds fd len flags buf k o k' -> recv_rounds fd len flags buf st o k'
  | recv_short buf st r k buf' :
      recv_call fd len flags buf st r k -> 0 < sr_ret r -> buf' = buf ++ sr_bytes r -> sr_ret r < len - Z.of_nat (length buf') ->
      recv_rounds fd len flags buf st (Returns (Z.of_nat (length buf'), buf')) k
  | recv_more buf st r k buf' o k' :
      recv_call fd len flags buf st r k -> 0 < sr_ret r -> buf' = buf ++ sr_bytes r -> len - Z.of_nat (length buf') <= sr_ret r ->
      recv_rounds fd len flags buf' k o k' -> recv_rounds fd len flags buf st o k'.

(** Every byte taken is in the buffer, behind those that were there. *)
Definition recv_answer (len : Z) (buf : list Z) (r : hook_end (Z * list Z)) (before after : list Z) : Prop :=
  exists got, after = before ++ got /\
    match r with
    | Returns (n, buf') => buf' = buf ++ got /\ (n = -1 \/ (n = Z.of_nat (length buf') /\ n <= len))
    | Swaps (ret, buf') => buf' = buf ++ got /\ ret = Z.of_nat (length buf') /\ ret < len
    end.

Lemma recv_answer_more len buf b r before mid after :
  mid = before ++ b -> recv_answer len (buf ++ b) r mid after -> recv_answer len buf r before after.
Proof using.
  intros -> (got & -> & H). exists (b ++ got). split; [by rewrite app_assoc|].
  destruct r as [[n buf']|[ret buf']]; destruct H as [-> H]; by rewrite !app_assoc in *.
Qed.

Lemma recv_try_run fd taken intr len flags (K : RecvKernel fd taken intr) fuel : forall buf s,
  Z.of_nat (length buf) <= len < 2 ^ 63 ->
  (Z.to_nat (len - Z.of_nat (length buf)) + intr (sc_sys s) < fuel)%nat ->
  exists r k, recv_try fuel fd len flags (Z.of_nat (length buf)) buf s = Ok (r, s <| sc_sys := k |>) /\
    recv_rounds fd len flags buf (sc_sys s) r k /\ recv_answer len buf r (taken (sc_sys s)) (taken k).
Proof using.
  induction fuel as [|m IH]; intros buf s Hret Hf; [lia|]. cbn [recv_try].
  rewrite to_llong_small by lia.
  destruct (Z.ltb_spec (Z.of_nat (length buf)) len) as [Hlt|Hge].
  2: { exists (Returns (Z.of_nat (length buf), buf)), (sc_sys s). split; [by destruct s|]. split; [by apply recv_full|].
       exists []. rewrite !app_nil_r. split; [done|]. split; [done|]. right. split; [done|lia]. }
  rewrite (bind_Ok _ _ _ _ _ (raw_run s _)). rewrite to_ullong_small by lia.
  destruct (rk_call _ _ _ K (len - Z.of_nat (length buf)) flags (sc_sys s) ltac:(lia)) as [Hi Hcase].
  destruct (old_call _ (sc_sys s)) as [r k] eqn:Hcall. cbn [fst snd] in *. pose proof (conj Hlt Hcall : recv_call fd len flags buf _ r k) as HC.
  destruct Hcase as [(Hr & Hs & He)|(Hr & Hb & Hs)].
  - rewrite Hr, Z.eqb_refl. destruct (blocked_errno (sr_errno r)) eqn:Hw.
    { exists (Swaps (Z.of_nat (length buf), buf)), k. split; [done|].
      split; [by eapply recv_blocked; [| |apply blocked_errno_true]|]. exists []. by rewrite !app_nil_r. }
    destruct (Z.eqb_spec (sr_errno r) EINTR) as [Hei|Hei]; cbn [negb].
    + destruct (IH buf (s <| sc_sys := k |>) Hret) as (r2 & k2 & Hrun & HR & Ha); [cbn; specialize (He Hei); lia|].
      exists r2, k2. split; [by rewrite Hrun|]. split; [by eapply recv_interrupted|]. cbn in Ha. by rewrite Hs in Ha.
    + exists (Returns (-1, buf)), k. split; [done|]. apply blocked_errno_false in Hw as [Hw1 Hw2].
      split; [eapply recv_failed; [done|by right]|]. exists []. rewrite !app_nil_r. split; [done|]. split; [done|by left].
  - rewrite (proj2 (Z.eqb_neq (sr_ret r) (-1))) by lia.
    destruct (Z.eqb_spec (sr_ret r) 0) as [H0|H0].
    { exists (Returns (-1, buf)), k. split; [done|]. split; [eapply recv_failed; [done|by left]|]. exists []. rewrite !app_nil_r.
      destruct (sr_bytes r); [|simpl in *; lia]. rewrite app_nil_r in Hs. split; [done|]. split; [done|by left]. }
    assert (Z.of_nat (length buf) + sr_ret r = Z.of_nat (length (buf ++ sr_bytes r))) as -> by (rewrite length_app; lia).
    assert (Z.of_nat (length (buf ++ sr_bytes r)) <= len) as Hle by (rewrite length_app; lia).
    destruct (Z.ltb_spec (sr_ret r) (len - Z.of_nat (length (buf ++ sr_bytes r)))) as [Hsh|Hmore].
    + eexists _, k. split; [done|]. split; [eapply recv_short; [done|lia|done|done]|].
      exists (sr_bytes r). split; [done|]. split; [done|]. right. split; [done|lia].
    + destruct (IH (buf ++ sr_bytes r) (s <| sc_sys := k |>)) as (r2 & k2 & Hrun & HR & Ha); [lia|rewrite length_app; cbn; lia|].
      exists r2, k2. split; [by rewrite Hrun|]. split; [eapply recv_more; [done|lia|done|done|done]|].
      cbn in Ha. by apply (recv_answer_more _ _ (sr_bytes r) _ _ (taken k)).
Qed.
End io.

(** C32. A segment of the first [Send], from the moment the descriptor was
    reported.  [send_rounds] says which raw sends it makes, each of what is
    left of the buffer: an interrupted one is made again, and after one that
    takes a part the next one sends the rest.  With a kernel whose send takes a
    prefix of what it is given, the segment ends (fuel for the bytes left and
    the interruptions to come is enough): the whole length is returned when
    all that was left has been taken, in order; -1, after a part of it, when
    the last raw send returned 0 or failed with something else than EAGAIN,
    EWOULDBLOCK and EINTR; and when it would block, the coroutine is suspended
    again, at the position up to which the kernel has taken bytes. *)
Theorem send_segment {S} `{!OldSys S} fd sent intr f w ret flags buf k fuel (s : Scheduler S) c :
  SendKernel fd sent intr -> wf_fd w = fd -> ob_coros s !! wf_coro w = Some c ->
  0 <= ret <= Z.of_nat (length buf) -> (length buf + intr (sc_sys s) < fuel)%nat ->
  exists o s', send_rounds fd buf flags ret (sc_sys (after_leave w s)) o (sc_sys s') /\
    let before := sent (sc_sys s) in let after := sent (sc_sys s') in let rest := drop (Z.to_nat ret) buf in
    match o with
    | Returns n => Send_leave fuel f w ret flags buf k s = Ok (Some n, s') /\
        ((n = Z.of_nat (length buf) /\ after = before ++ rest) \/ (n = -1 /\ exists m, after = before ++ take m rest))
    | Swaps ret' => Send_leave fuel f w ret flags buf k s = Ok (None, s') /\ ret <= ret' <= Z.of_nat (length buf) /\
        after = before ++ take (Z.to_nat (ret' - ret)) rest /\ suspended_at (wf_coro w) (KSend f w ret' flags buf k) s'
    end.
Proof.
  intros K <- Hc Hret Hfuel. unfold Send_leave. rewrite (bind_Ok _ _ _ _ _ (wait_leave_run w s)).
  destruct (sk_ctl _ _ _ K (epfd_ s) EPOLL_CTL_DEL (wf_fd w) (wf_ev w) (sc_sys s)) as [Hs Hi].
  destruct (send_try_run (wf_fd w) sent intr buf flags K fuel ret (after_leave w s) Hret) as (r & k1 & Hrun & HR & Ha).
  { unfold after_leave. simpl. rewrite Hi. lia. }
  rewrite (bind_Ok _ _ _ _ _ Hrun). unfold after_leave in Ha. simpl in Ha. rewrite Hs in Ha. exists r. destruct r as [n|ret'].
  - exists ((after_leave w s) <| sc_sys := k1 |>). split; [exact HR|]. split; [done|exact Ha].
  - destruct Ha as [Hr Ha].
    set (s1 := (after_leave w s) <| sc_sys := k1 |>) in *.
    destruct (wait_swap_run w (KSend f w ret' flags buf k) s1 c Hc) as (s2 & Hsw & Hsys & Hsus).
    exists s2. split; [by rewrite Hsys|]. rewrite (bind_Ok _ _ _ _ _ Hsw). cbv zeta. rewrite Hsys. by split; [|split].
Qed.

(** What the demo kernel does is a send and a recv of the kind assumed. *)
Lemma demo_send_kernel fd : SendKernel fd dk_out (fun _ => 0%nat).
Proof.
  split; [|done]. intros d flags st. simpl. split; [done|]. right. rewrite length_take. split; [lia|].
  f_equal. rewrite Nat2Z.id, take_take_min || idtac. destruct d as [|x1 [|x2 [|x3 d]]]; done.
Qed.

Lemma demo_recv_kernel fd : RecvKernel fd dk_taken (fun _ => 0%nat).
Proof.
  split; [|done]. intros n flags [l t o w] Hn. simpl. split; [done|]. destruct l as [|x l]; [by left|right].
  cbn [fst snd sr_ret sr_bytes dk_taken]. split; [|done]. rewrite length_take. lia.
Qed.

Lemma send_segment_witness :
  exists s r s', create_all [(echo_main, 5)] (new_Scheduler (mk_demo [] [] [] [])) = Ok ([0], s) /\
    Send_leave 10 (mk_frame 0 1) (mk_wait 1 5 (mk_epoll_event EPOLLOUT 3)) 1 0 [7; 8; 9; 10; 11] (fun _ => PReturn) s = Ok (r, s') /\
    r = Some 5 /\ dk_out (sc_sys s') = [8; 9; 10; 11].
Proof.
  destruct (create_all [(echo_main, 5)] (new_Scheduler (mk_demo [] [] [] []))) as [[ids s]|e] eqn:H; [|by vm_compute in H].
  destruct (ob_coros s !! 1) as [c|] eqn:Hc; [|vm_compute in H; injection H as <- <-; by vm_compute in Hc].
  destruct (send_segment 5 dk_out (fun _ => 0%nat) (mk_frame 0 1) (mk_wait 1 5 (mk_epoll_event EPOLLOUT 3)) 1 0
    [7; 8; 9; 10; 11] (fun _ => PReturn) 10 s c (demo_send_kernel 5) eq_refl Hc) as (o & s' & _ & Ho); [simpl; lia|simpl; lia|].
  destruct o as [n|ret']; [|destruct Ho as [Hrun _]; vm_compute in H; injection H as <- <-; by vm_compute in Hrun].
  destruct Ho as [Hrun _]. exists s, (Some n), s'. split; [|split; [exact Hrun|]]; vm_compute in H; injection H as <- <-; [done|].
  vm_compute in Hrun. injection Hrun as <- <-. done.
Defined.

(** C33. A segment of the first [Recv].  [recv_rounds] says which raw recvs it
    makes, each for what is missing of the buffer: an interrupted one is made
    again, and so is one whose answer is not smaller than what is then missing.
    With a kernel whose recv hands over the next bytes of a stream, the segment
    ends; every byte taken from the stream is in the buffer, in order, behind
    those of earlier segments.  Their number is returned when the buffer is
    full or the last answer was short; -1 when the last raw recv returned 0 or
    failed with something else than EAGAIN, EWOULDBLOCK and EINTR (even after
    bytes); and when it would block, the coroutine is suspended again with all
    of them. *)
Theorem recv_segment {S} `{!OldSys S} fd taken intr f w len flags buf k fuel (s : Scheduler S) c :
  RecvKernel fd taken intr -> wf_fd w = fd -> ob_coros s !! wf_coro w = Some c ->
  Z.of_nat (length buf) <= len < 2 ^ 63 -> (Z.to_nat len + intr (sc_sys s) < fuel)%nat ->
  exists o s' got, recv_rounds fd len flags buf (sc_sys (after_leave w s)) o (sc_sys s') /\
    taken (sc_sys s') = taken (sc_sys s) ++ got /\
    let run := Recv_leave fuel f w (Z.of_nat (length buf)) len flags buf k s in
    match o with
    | Returns (n, buf') => run = Ok (Some (n, buf'), s') /\ buf' = buf ++ got /\ (n = -1 \/ (n = Z.of_nat (length buf') /\ n <= len))
    | Swaps (ret, buf') => run = Ok (None, s') /\ buf' = buf ++ got /\ ret = Z.of_nat (length buf') /\ ret < len /\
        suspended_at (wf_coro w) (KRecv f w ret len flags buf' k) s'
    end.
Proof.
  intros K <- Hc Hret Hfuel. unfold Recv_leave. rewrite (bind_Ok _ _ _ _ _ (wait_leave_run w s)).
  destruct (rk_ctl _ _ _ K (epfd_ s) EPOLL_CTL_DEL (wf_fd w) (wf_ev w) (sc_sys s)) as [Hs Hi].
  destruct (recv_try_run (wf_fd w) taken intr len flags K fuel buf (after_leave w s) Hret) as (r & k1 & Hrun & HR & got & Ht & Ha).
  { unfold after_leave. simpl. rewrite Hi. lia. }
  rewrite (bind_Ok _ _ _ _ _ Hrun). unfold after_leave in Ht. simpl in Ht. rewrite Hs in Ht. exists r. destruct r as [[n buf']|[ret' buf']].
  - exists ((after_leave w s) <| sc_sys := k1 |>), got. split; [exact HR|]. split; [exact Ht|]. split; [done|exact Ha].
  - destruct Ha as (-> & -> & Hlt).
    set (s1 := (after_leave w s) <| sc_sys := k1 |>) in *.
    match goal with |- context [wait_swap w ?kk] => destruct (wait_swap_run w kk s1 c Hc) as (s2 & Hsw & Hsys & Hsus) end.
    exists s2, got. rewrite Hsys. split; [exact HR|]. split; [exact Ht|]. cbv zeta. rewrite (bind_Ok _ _ _ _ _ Hsw). by split_and!.
Qed.

Lemma recv_segment_witness :
  exists s r s', create_all [(echo_main, 5)] (new_Scheduler (mk_demo [1; 2; 3] [] [] [])) = Ok ([0], s) /\
    Recv_leave 12 (mk_frame 0 1) (mk_wait 1 5 (mk_epoll_event EPOLLIN 3)) 1 10 0 [9] (fun _ _ => PReturn) s = Ok (r, s') /\
    r = Some (4, [9; 1; 2; 3]).
Proof.
  destruct (create_all [(echo_main, 5)] (new_Scheduler (mk_demo [1; 2; 3] [] [] []))) as [[ids s]|e] eqn:H; [|by vm_compute in H].
  destruct (ob_coros s !! 1) as [c|] eqn:Hc; [|vm_compute in H; injection H as <- <-; by vm_compute in Hc].
  destruct (recv_segment 5 dk_taken (fun _ => 0%nat) (mk_frame 0 1) (mk_wait 1 5 (mk_epoll_event EPOLLIN 3)) 10 0
    [9] (fun _ _ => PReturn) 12 s c (demo_recv_kernel 5) eq_refl Hc) as (o & s' & got & _ & _ & Ho); [simpl; lia|simpl; lia|].
  destruct o as [[n b]|[ret' b]]; [|destruct Ho as [Hrun _]; vm_compute in H; injection H as <- <-; by vm_compute in Hrun].
  destruct Ho as [Hrun _]. exists s, (Some (n, b)), s'. split; [|split; [exact Hrun|]]; vm_compute in H; injection H as <- <-; [done|].
  vm_compute in Hrun. injection Hrun as <- <- <-. done.
Defined.

(** C39. [Recv] does not return a message that fills half of the buffer but
    not all of it: it asks for more, and when there is no more it suspends the
    coroutine with the message undelivered, although its descriptor has just
    been taken off the epoll. *)
Theorem recv_keeps_half_full {S} `{!OldSys S} fuel f w len flags k (s : Scheduler S) c r1 r2 k1 k2 :
  ob_coros s !! wf_coro w = Some c -> 0 < len < 2 ^ 63 ->
  old_call (SysRecv (wf_fd w) len flags) (sc_sys (after_leave w s)) = (r1, k1) ->
  0 < sr_ret r1 < len -> len <= 2 * sr_ret r1 ->
  old_call (SysRecv (wf_fd w) (len - sr_ret r1) flags) k1 = (r2, k2) ->
  sr_ret r2 = -1 -> sr_errno r2 = EAGAIN ->
  exists s', Recv_leave (2 + fuel) f w 0 len flags [] k s = Ok (None, s') /\ sc_sys s' = k2 /\
    suspended_at (wf_coro w) (KRecv f w (sr_ret r1) len flags (sr_bytes r1) k) s'.
Proof.
  intros Hc Hlen H1 Hr1 Hhalf H2 Hr2 He2.
  set (s2 := (after_leave w s) <| sc_sys := k2 |>).
  destruct (wait_swap_run w (KRecv f w (sr_ret r1) len flags (sr_bytes r1) k) s2 c Hc) as (s3 & Hsw & Hsys & Hsus).
  exists s3. split; [|split; [exact Hsys|exact Hsus]].
  unfold Recv_leave. rewrite (bind_Ok _ _ _ _ _ (wait_leave_run w s)).
  assert (recv_try (2 + fuel) (wf_fd w) len flags 0 [] (after_leave w s) = Ok (Swaps (sr_ret r1, sr_bytes r1), s2)) as Htry.
  { cbn [recv_try Nat.add]. rewrite to_llong_small by lia. rewrite (proj2 (Z.ltb_lt _ _)) by lia.
    rewrite (bind_Ok _ _ _ _ _ (raw_run _ _)). rewrite Z.sub_0_r, to_ullong_small, H1 by lia. cbn [fst snd].
    rewrite (proj2 (Z.eqb_neq (sr_ret r1) (-1))), (proj2 (Z.eqb_neq (sr_ret r1) 0)) by lia. cbn zeta.
    rewrite Z.add_0_l, (proj2 (Z.ltb_ge _ _)), (proj2 (Z.ltb_lt (sr_ret r1) len)) by lia.
    rewrite (bind_Ok _ _ _ _ _ (raw_run _ _)). cbn [sc_sys set_field]. cbn. rewrite to_ullong_small, H2 by lia. cbn.
    by rewrite Hr2, He2. }
  rewrite (bind_Ok _ _ _ _ _ Htry). cbn [fst snd]. by rewrite (bind_Ok _ _ _ _ _ Hsw).
Qed.

Lemma recv_keeps_half_full_witness :
  exists s s', create_all [(echo_main, 5)] (new_Scheduler (mk_demo [1; 2; 3; 4; 5] [] [] [])) = Ok ([0], s) /\
    Recv_leave 4 (mk_frame 0 1) (mk_wait 1 5 (mk_epoll_event EPOLLIN 3)) 0 8 0 [] (fun _ _ => PReturn) s = Ok (None, s').
Proof.
  destruct (create_all [(echo_main, 5)] (new_Scheduler (mk_demo [1; 2; 3; 4; 5] [] [] []))) as [[ids s]|e] eqn:H; [|by vm_compute in H].
  destruct (ob_coros s !! 1) as [c|] eqn:Hc; [|vm_compute in H; injection H as <- <-; by vm_compute in Hc].
  assert (sc_sys s = mk_demo [1; 2; 3; 4; 5] [] [] []) as Hs by (vm_compute in H; by injection H as <- <-).
  destruct (recv_keeps_half_full 2 (mk_frame 0 1) (mk_wait 1 5 (mk_epoll_event EPOLLIN 3)) 8 0 (fun _ _ => PReturn) s c
    (mk_sysret 5 0 [1; 2; 3; 4; 5] [] []) (mk_sysret (-1) EAGAIN [] [] [])
    (mk_demo [] [1; 2; 3; 4; 5] [] []) (mk_demo [] [1; 2; 3; 4; 5] [] []) Hc) as (s' & Hrun & _);
    [lia|unfold after_leave; cbn; by rewrite Hs|cbn; lia..|reflexivity|reflexivity|reflexivity|].
  exists s, s'. split; [|exact Hrun]. vm_compute in H. injection H as <- <-. reflexivity.
Defined.

(** * The network *)

(** The coroutines of the sockets whose mask has the bit EPOLLIN. *)
Definition readable {S} (s : Scheduler S) (evs : list epoll_event) : list (option Z) :=
  omap (fun ev => if Z.testbit (ev_events ev) 0 then coro_ <$> ob_socks s !! ev_ptr ev else None) evs.

Lemma kNetworkMask_bit v : negb (Z.land v kNetworkMask =? 0) = Z.testbit v 0.
Proof.
  change kNetworkMask with (Z.ones 1). rewrite Z.land_ones by lia. change (2 ^ 1) with 2. rewrite Zmod_odd, Z.bit0_odd.
  by destruct (Z.odd v).
Qed.

Lemma readable_in {S} (s : Scheduler S) ev evs x :
  Z.testbit (ev_events ev) 0 = true -> ob_socks s !! ev_ptr ev = Some x ->
  readable s (ev :: evs) = coro_ x :: readable s evs.
Proof. intros Hb Hx. unfold readable. cbn [omap list_omap]. by rewrite Hb, Hx. Qed.

Lemma readable_out {S} (s : Scheduler S) ev evs :
  Z.testbit (ev_events ev) 0 = false -> readable s (ev :: evs) = readable s evs.
Proof. intros Hb. unfold readable. cbn [omap list_omap]. by rewrite Hb. Qed.

Lemma check_events_run {S} evs : forall s : Scheduler S,
  (forall ev, ev ∈ evs -> is_Some (ob_socks s !! ev_ptr ev)) ->
  check_events evs s = Ok (tt, s <| active_ ::= fun l => l ++ readable s evs |>).
Proof.
  induction evs as [|ev evs IH]; intros s Hlive; cbn [check_events].
  { unfold readable. simpl. mrun. rewrite app_nil_r. by destruct s. }
  rewrite kNetworkMask_bit. destruct (Hlive ev ltac:(left)) as [x Hx].
  assert (forall e, e ∈ evs -> is_Some (ob_socks s !! ev_ptr e)) as Hl by (intros e He; apply Hlive; by right).
  destruct (Z.testbit (ev_events ev) 0) eqn:Hb.
  - erewrite bind_Ok by (unfold get_sock; mrun; rewrite Hx; done). rewrite IH by exact Hl.
    rewrite (readable_in s ev evs x Hb Hx). cbn. by rewrite <- app_assoc.
  - erewrite bind_Ok by done. rewrite IH by exact Hl. by rewrite (readable_out s ev evs Hb).
Qed.

(** [CheckNetwork] puts on the list exactly the coroutines of the
    sockets reported readable, in the order of the report: the mask it tests
    is [EPOLLIN || EPOLLOUT], which is 1, so a coroutine that waits in [Send]
    is not woken by its event. *)
Theorem CheckNetwork_wakes_readers {S} `{!OldSys S} (s : Scheduler S) nfds evs k :
  old_epoll_wait (epfd_ s) 1024 (-1) (sc_sys s) = (nfds, evs, k) -> 0 < nfds ->
  (forall ev, ev ∈ evs -> is_Some (ob_socks s !! ev_ptr ev)) ->
  exists s', CheckNetwork s = Ok (tt, s') /\ active_ s' = active_ s ++ readable s evs /\
    ((forall ev, ev ∈ evs -> ev_events ev = EPOLLOUT) -> active_ s' = active_ s).
Proof.
  intros Hw Hn Hlive. eexists. split.
  { unfold CheckNetwork. mrun. rewrite Hw. rewrite (proj2 (Z.ltb_lt _ _)) by done. by apply check_events_run. }
  split; [done|]. intros Hout. change (active_ s ++ readable s evs = active_ s). enough (readable s evs = []) as -> by apply app_nil_r.
  clear Hw Hlive. induction evs as [|ev evs IH]; [done|]. rewrite readable_out by by rewrite (Hout ev) by left.
  apply IH. intros e He. apply Hout. by right.
Qed.

Lemma CheckNetwork_wakes_readers_witness :
  exists s s', (create_all [(echo_main, 5); (echo_main, 6)];; run_active 10 10 0)
      (new_Scheduler (mk_demo [] [] [] [[mk_epoll_event EPOLLIN 225283; mk_epoll_event EPOLLOUT 225284]])) = Ok (tt, s) /\
    CheckNetwork s = Ok (tt, s') /\ active_ s = [Some 1; Some 112642] /\ active_ s' = [Some 1; Some 112642; Some 1].
Proof.
  destruct ((create_all [(echo_main, 5); (echo_main, 6)];; run_active 10 10 0)
      (new_Scheduler (mk_demo [] [] [] [[mk_epoll_event EPOLLIN 225283; mk_epoll_event EPOLLOUT 225284]]))) as [[[] s]|e] eqn:H; [|by vm_compute in H].
  destruct (CheckNetwork_wakes_readers s 2 [mk_epoll_event EPOLLIN 225283; mk_epoll_event EPOLLOUT 225284] (mk_demo [] [] [] [])) as (s' & Hc & Ha & _);
    vm_compute in H; injection H as <-.
  - done.
  - done.
  - intros ev [->|[->|[]%elem_of_nil]%elem_of_cons]%elem_of_cons; eexists; reflexivity.
  - eexists _, s'. split; [reflexivity|]. split; [exact Hc|]. split; [done|]. rewrite Ha. reflexivity.
Defined.
