(* ===== verification/HooksSpec.v ===== *)
(** What the hooked calls promise: against the contract of [poll_inner] and of
    the raw system calls, the behaviour of waiting, reading, writing, and of
    the table of sockets. *)

From stdpp Require Import gmap list.
From S2P Require Import Prelude TimerWheel Events Thread Hooks.

(** * The contract of the layers below

    [poll_inner] returns -1 or a count; of the descriptors it changes the
    [revents] only; it does not change whether the task
    has its calls hooked; and when it returns 0 the task has not timed out: a
    task whose time is up gets -1 (coroutine_impl.c, [fix_coroutine_timeout]
    and the first lines of [poll_inner]).  Raw calls know nothing of tasks. *)
Class PollContract (S : Type) `{!HookSys S} : Prop := {
  poll_range : forall fds t b h, -1 <= (poll_inner fds t b h).1.1;
  poll_enabled : forall fds t b h,
    hook_enabled (hk_sys (poll_inner fds t b h).2) = hook_enabled (hk_sys h);
  poll_zero : forall fds t b h, (poll_inner fds t b h).1.1 = 0 ->
    task_timed_out (hk_sys (poll_inner fds t b h).2) = false;
  poll_shape : forall fds t b h,
    (fun f => (pfd_fd f, pfd_events f)) <$> (poll_inner fds t b h).1.2 = (fun f => (pfd_fd f, pfd_events f)) <$> fds;
  sys_enabled : forall c s, hook_enabled (sys_call c s).2 = hook_enabled s;
  sys_timed_out : forall c s, task_timed_out (sys_call c s).2 = task_timed_out s
}.

Section spec.
Context {S : Type} `{!HookSys S} `{!PollContract S}.
Implicit Types h : hooks S.

(** The state after a raw call. *)
Definition after_sys (c : syscall) h : hooks S :=
  let r := sys_call c (hk_sys h) in
  h <| hk_sys := r.2 |> <| hk_errno := if sr_ret r.1 <? 0 then sr_errno r.1 else hk_errno h |>.

Lemma g_sys_run c h : g_sys c h = Ok ((sys_call c (hk_sys h)).1, after_sys c h).
Proof using. unfold g_sys, after_sys. mrun. by destruct (sys_call c (hk_sys h)). Qed.

Lemma after_sys_enabled c h : hook_enabled (hk_sys (after_sys c h)) = hook_enabled (hk_sys h).
Proof using PollContract0. apply sys_enabled. Qed.

Lemma after_sys_errno c h e :
  sr_ret (sys_call c (hk_sys h)).1 < 0 -> sr_errno (sys_call c (hk_sys h)).1 = e ->
  hk_errno (after_sys c h) = e.
Proof using. intros Hr He. unfold after_sys. simpl. by rewrite (proj2 (Z.ltb_lt _ _)). Qed.

Lemma call_poll_inner_run fds t b h :
  call_poll_inner fds t b h = Ok ((poll_inner fds t b h).1, (poll_inner fds t b h).2).
Proof using. unfold call_poll_inner. mrun. by destruct (poll_inner fds t b h) as [[]]. Qed.

Lemma poll_hooked fds t h :
  hook_enabled (hk_sys h) = true -> poll fds t h = Ok (poll_inner fds t true h).
Proof using.
  intros He. unfold poll, is_enable_sys_hook. mrun. rewrite He, call_poll_inner_run.
  by destruct (poll_inner fds t true h) as [[]].
Qed.

(** * [wait_io_ready] *)

(** The state in which [wait_io_ready] returns. *)
Definition after_wait (fd events timeout : Z) h : hooks S :=
  (poll_inner [mk_pollfd fd events 0] timeout true h).2.

Lemma wait_io_ready_run fd events timeout h :
  hook_enabled (hk_sys h) = true ->
  wait_io_ready fd events timeout h = Ok (1, after_wait fd events timeout h).
Proof using PollContract0.
  intros He. unfold wait_io_ready, after_wait.
  set (p := poll_inner [mk_pollfd fd events 0] timeout true h).
  rewrite (bind_Ok _ _ h p.1 p.2) by (rewrite poll_hooked by done; unfold p; by destruct poll_inner).
  destruct p as [[n fds] h1] eqn:Hp. mrun. unfold timed_out. mrun.
  destruct (Z.eqb_spec n 0) as [->|Hn]; [|done].
  assert (task_timed_out (hk_sys h1) = false) as ->; [|done].
  pose proof (poll_zero [mk_pollfd fd events 0] timeout true h) as Hz. fold p in Hz.
  rewrite Hp in Hz. by apply Hz.
Qed.

Lemma after_wait_enabled fd events timeout h :
  hook_enabled (hk_sys (after_wait fd events timeout h)) = hook_enabled (hk_sys h).
Proof using PollContract0. apply poll_enabled. Qed.

(** * Reading *)

Section read.
Context (sys : Z -> syscall) (fd nbyte timeout : Z).

(** The raw call of one round, and the state after it. *)
Definition read_round h : sysret * hooks S :=
  let h1 := after_wait fd (Z.lor POLLIN (Z.lor POLLERR POLLHUP)) timeout h in
  ((sys_call (sys nbyte) (hk_sys h1)).1, after_sys (sys nbyte) h1).

(** The raw call would block. *)
Definition would_block (r : sysret) : bool :=
  (sr_ret r <? 0) && ((sr_errno r =? EAGAIN) || (sr_errno r =? EWOULDBLOCK)).

Lemma would_block_neg r : would_block r = true -> sr_ret r < 0.
Proof using. unfold would_block. intros [H _]%andb_true_iff. lia. Qed.

(** [rounds k h r h']: [k] rounds would block, and the one after them ends
    with the raw result [r] in state [h']. *)
Inductive rounds : nat -> hooks S -> sysret -> hooks S -> Prop :=
  | rounds_last h r h' : read_round h = (r, h') -> would_block r = false -> rounds 0 h r h'
  | rounds_again k h r h1 r' h' :
      read_round h = (r, h1) -> would_block r = true -> rounds k h1 r' h' -> rounds (Datatypes.S k) h r' h'.

Lemma read_round_enabled h :
  hook_enabled (hk_sys (read_round h).2) = hook_enabled (hk_sys h).
Proof using PollContract0. simpl. by rewrite sys_enabled, after_wait_enabled. Qed.

Lemma read_loop_again fuel h r h1 :
  hook_enabled (hk_sys h) = true -> 0 < nbyte -> read_round h = (r, h1) -> would_block r = true ->
  read_loop (Datatypes.S fuel) sys fd nbyte timeout h = read_loop fuel sys fd nbyte timeout h1.
Proof using PollContract0.
  intros He Hn [= Hr Hh] Hb. cbn [read_loop]. rewrite (bind_Ok _ _ _ _ _ (wait_io_ready_run _ _ _ _ He)).
  simpl. rewrite (bind_Ok _ _ _ _ _ (g_sys_run _ _)), Hr, Hh.
  unfold would_block in Hb. apply andb_true_iff in Hb as [Hneg Hb]. rewrite Hneg.
  assert (hk_errno h1 = sr_errno r) as Herr.
  { subst h1 r. apply after_sys_errno; [lia|done]. }
  unfold errno. mrun. rewrite Herr, (proj2 (Z.ltb_lt _ _)) by done.
  destruct (sr_errno r =? EAGAIN), (sr_errno r =? EWOULDBLOCK); done.
Qed.

Lemma read_loop_last fuel h r h1 :
  hook_enabled (hk_sys h) = true -> read_round h = (r, h1) -> would_block r = false ->
  read_loop (Datatypes.S fuel) sys fd nbyte timeout h =
    Ok ((1, Z.max 0 (sr_ret r), if 0 <? sr_ret r then sr_bytes r else []), h1).
Proof using PollContract0.
  intros He [= Hr Hh] Hb. cbn [read_loop]. rewrite (bind_Ok _ _ _ _ _ (wait_io_ready_run _ _ _ _ He)).
  simpl. rewrite (bind_Ok _ _ _ _ _ (g_sys_run _ _)), Hr, Hh. unfold would_block in Hb.
  destruct (Z.ltb_spec (sr_ret r) 0) as [Hneg|Hpos].
  - assert (hk_errno h1 = sr_errno r) as Herr by (subst h1 r; by apply after_sys_errno).
    unfold errno. mrun. rewrite Herr. simpl in Hb. apply orb_false_iff in Hb as [-> ->]. simpl.
    rewrite Z.max_l, (proj2 (Z.ltb_ge _ _)) by lia. done.
  - destruct (Z.eqb_spec (sr_ret r) 0) as [->|]; [done|].
    rewrite Z.max_r, (proj2 (Z.ltb_lt _ _)) by lia. done.
Qed.

Lemma read_loop_rounds k h r h' fuel :
  rounds k h r h' -> hook_enabled (hk_sys h) = true -> 0 < nbyte -> (k < fuel)%nat ->
  read_loop fuel sys fd nbyte timeout h =
    Ok ((1, Z.max 0 (sr_ret r), if 0 <? sr_ret r then sr_bytes r else []), h').
Proof using PollContract0.
  intros Hk. revert fuel. induction Hk as [h r h' Hr Hb|k h r h1 r' h' Hr Hb Hk IH]; intros fuel He Hn Hf.
  - destruct fuel; [lia|]. by apply read_loop_last.
  - destruct fuel as [|fuel]; [lia|]. rewrite (read_loop_again _ _ _ _ He Hn Hr Hb). apply IH; [|done|lia].
    pose proof (read_round_enabled h) as Hen. rewrite Hr in Hen. simpl in Hen. congruence.
Qed.
End read.

(** The table entry of a hooked descriptor. *)
Definition hooked (fd : Z) (lp : rpchook_t) h : Prop :=
  hook_enabled (hk_sys h) = true /\ in_table fd = true /\ hk_socks h !! fd = Some lp.

Lemma get_by_fd_hooked fd lp h : hooked fd lp h -> get_by_fd fd h = Ok (Some lp, h).
Proof using. intros (_ & Ht & Hl). unfold get_by_fd. rewrite Ht. mrun. by rewrite Hl. Qed.

Lemma read_common_hooked fuel sys fd nbyte lp h :
  hooked fd lp h ->
  read_common fuel sys fd nbyte h =
    ('(ready, n, data) ← read_loop fuel sys fd nbyte (timeval_ms (rh_read_timeout lp));
     if (ready <=? 0) && (n =? 0) then mret (ready, []) else mret (n, data)) h.
Proof using.
  intros Hh. unfold read_common, is_enable_sys_hook.
  rewrite (bind_Ok _ _ h true h) by (mrun; by rewrite (proj1 Hh)).
  by rewrite (bind_Ok _ _ _ _ _ (get_by_fd_hooked _ _ _ Hh)).
Qed.

(** * Writing *)

(** What the kernel has taken for descriptor [fd], and how often it may still
    answer "would block".  [sys] is [write] or [send] on [fd]: a call takes a
    prefix of the data, of the length it returns, or fails and takes nothing;
    waiting sends nothing. *)
Class WriteContract (sys : list Z -> syscall) := {
  sent : S -> list Z;
  credit : S -> nat;
  write_takes : forall d s, let r := sys_call (sys d) s in
    sr_ret r.1 <= Z.of_nat (length d) /\ sent r.2 = sent s ++ take (Z.to_nat (sr_ret r.1)) d;
  write_credit : forall d s, let r := sys_call (sys d) s in
    if would_block r.1 then (credit r.2 < credit s)%nat else (credit r.2 <= credit s)%nat;
  wait_sends_nothing : forall fds t b h, sent (hk_sys (poll_inner fds t b h).2) = sent (hk_sys h);
  wait_credit : forall fds t b h, (credit (hk_sys (poll_inner fds t b h).2) <= credit (hk_sys h))%nat
}.

Section write.
Context (sys : list Z -> syscall) `{!WriteContract sys} (fd timeout : Z) (buf : list Z).

(** The first [n] bytes are out. *)
Definition progress (s0 : S) (n : Z) (s : S) : Prop :=
  0 <= n <= Z.of_nat (length buf) /\ sent s = sent s0 ++ take (Z.to_nat n) buf.

Lemma progress_call s0 n s :
  progress s0 n s ->
  let r := sys_call (sys (drop (Z.to_nat n) buf)) s in progress s0 (n + Z.max 0 (sr_ret r.1)) r.2.
Proof using.
  intros [Hn Hs] r. destruct (write_takes (drop (Z.to_nat n) buf) s) as [Hle Hsent]. fold r in Hle, Hsent.
  rewrite length_drop in Hle. split; [lia|]. rewrite Hsent, Hs, <- app_assoc. f_equal.
  destruct (Z.max_spec 0 (sr_ret r.1)) as [[Hr ->]|[Hr ->]].
  - rewrite Z2Nat.inj_add by lia. apply take_take_drop.
  - rewrite Z.add_0_r. replace (Z.to_nat (sr_ret r.1)) with 0%nat by lia. by rewrite take_0, app_nil_r.
Qed.

(** One round of the loop with [n] bytes out: the raw call for the rest, after
    a wait, and the state after it. *)
Definition write_round (n : Z) h : sysret * hooks S :=
  let c := sys (drop (Z.to_nat n) buf) in
  let h1 := after_wait fd (Z.lor POLLOUT (Z.lor POLLERR POLLHUP)) timeout h in
  ((sys_call c (hk_sys h1)).1, after_sys c h1).

(** With [n] bytes out after the raw result [r] there is no further round:
    everything is out, or the call took nothing for another reason than that
    it would block. *)
Definition write_over (n : Z) (r : sysret) : bool :=
  (Z.of_nat (length buf) <=? n) || (sr_ret r <=? 0) && negb (would_block r).

(** [write_rounds n h n' r h']: the rounds from [n] bytes in [h] on; the last
    one ends with [n'] bytes out, the raw result [r] and the state [h']. *)
Inductive write_rounds : Z -> hooks S -> Z -> sysret -> hooks S -> Prop :=
  | write_last n h r h' :
      write_round n h = (r, h') -> write_over (n + Z.max 0 (sr_ret r)) r = true ->
      write_rounds n h (n + Z.max 0 (sr_ret r)) r h'
  | write_again n h r h1 n' r' h' :
      write_round n h = (r, h1) -> write_over (n + Z.max 0 (sr_ret r)) r = false ->
      write_rounds (n + Z.max 0 (sr_ret r)) h1 n' r' h' -> write_rounds n h n' r' h'.

(** The raw calls of a whole write.  The first one is made without a wait, and
    its failure, whatever the reason, is followed by a round. *)
Inductive write_run h : Z -> sysret -> hooks S -> Prop :=
  | write_at_once r h' :
      ((sys_call (sys buf) (hk_sys h)).1, after_sys (sys buf) h) = (r, h') ->
      sr_ret r = 0 \/ sr_ret r = Z.of_nat (length buf) -> write_run h (sr_ret r) r h'
  | write_in_rounds r0 h0 n r h' :
      ((sys_call (sys buf) (hk_sys h)).1, after_sys (sys buf) h) = (r0, h0) ->
      sr_ret r0 <> 0 -> sr_ret r0 < Z.of_nat (length buf) ->
      write_rounds (Z.max 0 (sr_ret r0)) h0 n r h' -> write_run h n r h'.

Lemma write_round_enabled n h : hook_enabled (hk_sys (write_round n h).2) = hook_enabled (hk_sys h).
Proof using PollContract0. simpl. by rewrite sys_enabled, after_wait_enabled. Qed.

(** What a round does to the bytes that are out, and to the refusals left. *)
Lemma write_round_progress s0 n h :
  progress s0 n (hk_sys h) -> let r := write_round n h in
  progress s0 (n + Z.max 0 (sr_ret r.1)) (hk_sys r.2) /\
  if would_block r.1 then (credit (hk_sys r.2) < credit (hk_sys h))%nat else (credit (hk_sys r.2) <= credit (hk_sys h))%nat.
Proof using.
  intros Hp. unfold write_round. set (h1 := after_wait fd _ timeout h).
  assert (progress s0 n (hk_sys h1)) as Hp1.
  { destruct Hp as [Hn Hs]. split; [done|]. unfold h1, after_wait. by rewrite wait_sends_nothing. }
  assert (credit (hk_sys h1) <= credit (hk_sys h))%nat as Hc1 by apply wait_credit.
  split; [apply (progress_call _ _ _ Hp1)|].
  pose proof (write_credit (drop (Z.to_nat n) buf) (hk_sys h1)) as Hc. cbv zeta in Hc. cbn [fst snd].
  unfold after_sys. cbn [hk_sys set_field]. simpl. case_match; lia.
Qed.

(** A round of the loop. *)
Lemma write_loop_round fuel n ret0 h r h1 :
  hook_enabled (hk_sys h) = true -> n < Z.of_nat (length buf) -> write_round n h = (r, h1) ->
  sr_ret r <= Z.of_nat (length buf) - n ->
  write_loop (Datatypes.S fuel) sys fd timeout buf n ret0 h =
    let n1 := n + Z.max 0 (sr_ret r) in
    if write_over n1 r then Ok ((n1, sr_ret r), h1) else write_loop fuel sys fd timeout buf n1 (sr_ret r) h1.
Proof using PollContract0.
  intros He Hn [= Hr Hh] Hle. cbn [write_loop]. rewrite (proj2 (Z.leb_gt _ _)) by done.
  rewrite (bind_Ok _ _ _ _ _ (wait_io_ready_run _ _ _ _ He)). cbn [Z.leb Z.compare].
  unfold g_sys_ret. rewrite bind_assoc, (bind_Ok _ _ _ _ _ (g_sys_run _ _)), Hr, Hh. rewrite (bind_Ok _ _ h1 (sr_ret r) h1) by done.
  unfold write_over, would_block. destruct (Z.ltb_spec (sr_ret r) 0) as [Hneg|Hpos].
  - assert (hk_errno h1 = sr_errno r) as Herr by (subst h1 r; by apply after_sys_errno).
    unfold errno. rewrite (bind_Ok _ _ h1 (sr_errno r) h1) by (unfold gets; by rewrite Herr).
    rewrite Z.max_l, Z.add_0_r, (proj2 (Z.leb_gt _ _)), (proj2 (Z.leb_le (sr_ret r) 0)) by lia. cbn [andb orb].
    rewrite <- negb_orb. by destruct (_ || _).
  - destruct (Z.eqb_spec (sr_ret r) 0) as [->|Hz]; [by rewrite orb_true_r, Z.max_l, Z.add_0_r by lia|].
    rewrite Z.max_r, (proj2 (Z.leb_gt (sr_ret r) 0)) by lia. cbn [andb orb]. rewrite orb_false_r.
    destruct (Z.leb_spec (Z.of_nat (length buf)) (n + sr_ret r)); [|done].
    destruct fuel; cbn [write_loop]; by rewrite (proj2 (Z.leb_le _ _)).
Qed.

Lemma write_loop_rounds s0 : forall fuel n ret0 h,
  hook_enabled (hk_sys h) = true -> progress s0 n (hk_sys h) -> n < Z.of_nat (length buf) ->
  (credit (hk_sys h) + (length buf - Z.to_nat n) <= fuel)%nat ->
  exists n' r h', write_rounds n h n' r h' /\ write_loop (Datatypes.S fuel) sys fd timeout buf n ret0 h = Ok ((n', sr_ret r), h') /\
    progress s0 n' (hk_sys h') /\ write_over n' r = true.
Proof using PollContract0.
  induction fuel as [|fuel IH]; intros n ret0 h He Hp Hlt Hf; [destruct Hp; lia|].
  destruct (write_round_progress s0 n h Hp) as [Hp1 Hc]. pose proof (write_round_enabled n h) as He1.
  destruct (write_round n h) as [r h1] eqn:Hr. cbn [fst snd] in *. rewrite He in He1.
  rewrite (write_loop_round _ n ret0 h r h1 He Hlt Hr) by (destruct Hp1; lia). cbv zeta.
  destruct (write_over (n + Z.max 0 (sr_ret r)) r) eqn:Ho.
  - exists (n + Z.max 0 (sr_ret r)), r, h1. split; [by apply write_last|]. by split_and!.
  - assert (n + Z.max 0 (sr_ret r) < Z.of_nat (length buf) /\ (sr_ret r <= 0 -> would_block r = true)) as [Hlt1 Hwb].
    { unfold write_over in Ho. apply orb_false_iff in Ho as [Ho1 Ho2]. split; [lia|]. intros Hneg.
      rewrite (proj2 (Z.leb_le _ _)) in Ho2 by done. by apply negb_false_iff in Ho2. }
    destruct (IH (n + Z.max 0 (sr_ret r)) (sr_ret r) h1 He1 Hp1 Hlt1) as (n' & r' & h' & HR & Hrun & Hp' & Ho').
    { destruct Hp as [Hn _]. destruct (Z.leb_spec (sr_ret r) 0) as [Hneg|Hpos].
      - rewrite (Hwb Hneg) in Hc. rewrite Z.max_l, Z.add_0_r by lia. lia.
      - rewrite Z.max_r, Z2Nat.inj_add by lia. destruct (would_block r); lia. }
    exists n', r', h'. split; [by eapply write_again|]. by split_and!.
Qed.

(** A write: its raw calls, and the value made of them. *)
Definition write_result (n : Z) (r : sysret) : Z := if n =? 0 then sr_ret r else n.

Lemma write_common_run fuel lp h :
  hooked fd lp h -> timeval_ms (rh_write_timeout lp) = timeout -> buf <> [] ->
  (credit (hk_sys h) + length buf < fuel)%nat ->
  exists n r h', write_run h n r h' /\ write_common fuel sys fd buf h = Ok (write_result n r, h') /\
    progress (hk_sys h) n (hk_sys h') /\ write_over n r = true.
Proof using All.
  intros Hh Ht Hbuf Hf. assert (0 < length buf)%nat by (destruct buf; simpl; [done|lia]).
  unfold write_common, is_enable_sys_hook. rewrite (bind_Ok _ _ h true h) by (mrun; by rewrite (proj1 Hh)).
  rewrite (bind_Ok _ _ _ _ _ (get_by_fd_hooked _ _ _ Hh)), Ht.
  unfold g_sys_ret. rewrite bind_assoc, (bind_Ok _ _ _ _ _ (g_sys_run _ _)).
  assert (progress (hk_sys h) 0 (hk_sys h)) as Hp by (split; [lia|]; by rewrite take_0, app_nil_r).
  pose proof (progress_call _ _ _ Hp) as Hp1. pose proof (write_credit buf (hk_sys h)) as Hc.
  pose proof (after_sys_enabled (sys buf) h) as He. rewrite (proj1 Hh) in He.
  destruct ((sys_call (sys buf) (hk_sys h)).1, after_sys (sys buf) h) as [r h1] eqn:Hr. injection Hr as Hr Hh1.
  assert (hk_sys h1 = (sys_call (sys buf) (hk_sys h)).2) as Hs1 by by rewrite <- Hh1.
  cbv zeta in Hp1, Hc. rewrite drop_0, Hr, <- Hs1, Z.add_0_l in Hp1. rewrite Hr, <- Hs1 in Hc. rewrite Hr, Hh1. rewrite Hh1 in He.
  rewrite (bind_Ok _ _ h1 (sr_ret r) h1) by done.
  destruct (Z.eqb_spec (sr_ret r) 0) as [Hz|Hnz].
  { exists (sr_ret r), r, h1. split; [apply write_at_once; [by rewrite Hr, Hh1|by left]|].
    rewrite Hz in Hp1 |- *. split; [by unfold write_result; rewrite Hz|].
    split; [exact Hp1|]. unfold write_over, would_block. rewrite Hz. by rewrite orb_true_r. }
  replace (if 0 <? sr_ret r then sr_ret r else 0) with (Z.max 0 (sr_ret r)) by (destruct (Z.ltb_spec 0 (sr_ret r)); lia).
  destruct (Z.ltb_spec (Z.max 0 (sr_ret r)) (Z.of_nat (length buf))) as [Hlt|Hall].
  - destruct fuel as [|fuel]; [lia|].
    destruct (write_loop_rounds (hk_sys h) fuel (Z.max 0 (sr_ret r)) (sr_ret r) h1 He Hp1 Hlt) as (n & r' & h' & HR & Hrun & Hp' & Ho).
    { destruct (would_block r); lia. }
    exists n, r', h'. split; [eapply write_in_rounds; [by rewrite Hr, Hh1|done|lia|done]|]. split; [|done].
    rewrite (bind_Ok _ _ _ _ _ Hrun). unfold write_result. destruct (Z.eqb_spec n 0) as [->|]; [|by rewrite andb_false_r].
    unfold write_over in Ho. rewrite (proj2 (Z.leb_gt _ _)) in Ho by lia. by destruct (sr_ret r' <=? 0).
  - assert (sr_ret r = Z.of_nat (length buf)) as Hlen by (destruct Hp1; lia). rewrite Z.max_r, Hlen in * by lia.
    exists (sr_ret r), r, h1. split; [apply write_at_once; [by rewrite Hr, Hh1|by right]|]. rewrite Hlen.
    rewrite (bind_Ok _ _ h1 (Z.of_nat (length buf), Z.of_nat (length buf)) h1) by (destruct fuel; cbn [write_loop]; by rewrite Z.leb_refl).
    unfold write_result. rewrite (proj2 (Z.eqb_neq _ _)), andb_false_r by lia. split; [done|]. split; [done|].
    unfold write_over. by rewrite Z.leb_refl.
Qed.

(** When it is over, and what the value says of the bytes. *)
Lemma write_over_spec n r : write_over n r = true -> n <= Z.of_nat (length buf) ->
  n = Z.of_nat (length buf) \/ sr_ret r = 0 \/ (sr_ret r < 0 /\ sr_errno r <> EAGAIN /\ sr_errno r <> EWOULDBLOCK).
Proof using.
  unfold write_over, would_block. intros [Ho%Z.leb_le|[Hle%Z.leb_le Hb]%andb_prop]%orb_prop Hn; [left; lia|right].
  destruct (Z.ltb_spec (sr_ret r) 0); [right|left; lia]. cbn [andb] in Hb. apply negb_true_iff, orb_false_iff in Hb as [H1 H2].
  by apply Z.eqb_neq in H1, H2.
Qed.

Lemma write_common_sent fuel lp h :
  hooked fd lp h -> timeval_ms (rh_write_timeout lp) = timeout -> buf <> [] ->
  (credit (hk_sys h) + length buf < fuel)%nat ->
  exists v h', write_common fuel sys fd buf h = Ok (v, h') /\ v <= Z.of_nat (length buf) /\
    sent (hk_sys h') = sent (hk_sys h) ++ take (Z.to_nat v) buf.
Proof using All.
  intros Hh Ht Hbuf Hf. destruct (write_common_run fuel lp h Hh Ht Hbuf Hf) as (n & r & h' & _ & Hrun & [Hn Hs] & Ho).
  exists (write_result n r), h'. split; [done|]. unfold write_result. destruct (Z.eqb_spec n 0) as [->|]; [|split; [lia|done]].
  assert (sr_ret r <= 0) as Hneg.
  { unfold write_over in Ho. destruct buf as [|b l]; [done|]. cbn [length] in Ho. rewrite (proj2 (Z.leb_gt _ _)) in Ho by lia.
    by apply andb_prop in Ho as [?%Z.leb_le _]. }
  split; [lia|]. by replace (Z.to_nat (sr_ret r)) with 0%nat by lia.
Qed.
End write.
End spec.
