(* ===== verification/ThreadHooks.v ===== *)
(** The thread under the hooks: the interface [Hooks.HookSys] implemented by
    the thread of [System], and the proof that it keeps the contract
    [HooksSpec.PollContract] that the theorems on the hooked calls assume.

    A state is a world in which the function of a task runs, with the state of
    the raw calls.  [poll_inner] runs its first half; if that blocks, whatever
    the other coroutines, the event loop and the kernel do until the coroutine
    is switched in again; and its second half. *)

From stdpp Require Import gmap list.
From S2P Require Import Prelude TimerList TimerListSpec ListProgram TimerWheel TimerWheelSpec TimerFrame Context Events.
From S2P Require Import Thread ThreadSpec Sched Coroutine TaskPool CtlInv Poll MemInv MemPoll CtlSteps.
From S2P Require Import PollFrames System Boot ThreadProps PollReturn Hooks HooksSpec.

(** * What surrounds the calls of a task *)

Section surroundings.
Context (K R : Type) `{!EpollKernel K}.

(** A wait, seen by the caller: the steps of the thread, and the table of
    descriptors, [errno] and the raw state as the others leave them. *)
Record twait := mk_twait {
  tw_acts : list action;
  tw_socks : gmap Z rpchook_t;
  tw_errno : Z;
  tw_raw : R
}.

(** The steps end with the caller's coroutine switched in, inside its call. *)
Definition leads_back (q : Z) (fds : list pollfd) (u : user_ctx) (acts : list action) (w : world K) : Prop :=
  allowed_run acts w /\ waits_through q acts w /\ reported acts < 2 ^ 31 /\
  exists w', run_thread acts w = Ok (tt, w') /\ w_mode w' = M_poll_ret q fds u.

(** The raw calls, of which poll(2) returns -1 or a count and stores in
    [revents] only; the clock; and the waits.  A wait that never ends is
    [None]. *)
Class Surroundings := {
  raw_call : syscall -> R -> sysret * R;
  raw_poll_ret : forall fds t r, -1 <= sr_ret (raw_call (SysPoll fds t) r).1;
  raw_poll_fds : forall fds t r, asked <$> sr_fds (raw_call (SysPoll fds t) r).1 = asked <$> fds;
  call_time : R -> timeval;
  meanwhile : forall (socks : gmap Z rpchook_t) (r : R) (w : world K) q fds u,
    option { tw : twait | leads_back q fds u (tw_acts tw) w }
}.
End surroundings.
Arguments mk_twait {R}.
Arguments tw_acts {R}. Arguments tw_socks {R}. Arguments tw_errno {R}. Arguments tw_raw {R}.
Arguments leads_back {K _}.
Arguments Surroundings K R {_}.
Arguments raw_call {K R _ _}. Arguments raw_poll_ret {K R _ _}. Arguments raw_poll_fds {K R _ _}.
Arguments call_time {K R _ _}. Arguments meanwhile {K R _ _}.

Section thread.
Context {K R : Type} `{!EpollKernel K} `{!Surroundings K R}.
Implicit Types w : world K.

(** * States *)

(** [coroutine_self()->task], as far as the hooks read it: the attributes and
    the time-out flag. *)
Definition self_told w : option (coroutine_task_attr_t * Z) :=
  match coroutine_self w with
  | Ok (Some c, _) => rc ← w_cos w !! c; t ← co_task rc; told w t
  | _ => None
  end.

(** The function of a task runs. *)
Definition task_running w : Prop :=
  flags_ok w /\ exists th s xs u t r, Inv th w s xs /\ s_pc s = PC_user u /\ s_stack s = t :: r.

Record tstate := mk_tstate { ts_world : world K; ts_raw : R; ts_ok : task_running ts_world }.

Definition clock_in w (now : timeval) : bool :=
  match e ← w_env w; env_epoll e with
  | Some ep => bool_decide (2 ^ 31 <= GetTickMS now /\ GetTickMS now < 2 ^ 62 /\ GetTickMS now - et_start (ep_timer ep) < 2 ^ 31 - 11)
  | None => false
  end.

(** The context at which the coroutine [c] waits. *)
Definition waits_at w (c : Z) : option Z :=
  rc ← w_cos w !! c; match co_kont rc with K_poll q _ _ => Some q | _ => None end.

(** * [poll_inner] as one call *)

(** The second half, after the wait [tw]. *)
Definition poll_resumed (q : Z) (fds : list pollfd) (u : user_ctx) (tw : twait R) w :
    option (Z * list pollfd * (world K * gmap Z rpchook_t * R)) :=
  match run_thread (tw_acts tw) w with
  | Ok (_, w2) =>
      match poll_inner_leave q fds (w2 <| w_errno := tw_errno tw |>) with
      | Ok (ret, fds', w3) => Some (ret, fds', (w3 <| w_mode := M_user u |>, tw_socks tw, tw_raw tw))
      | Fail _ => None
      end
  | Fail _ => None
  end.

(** [None] if the call does not return, or the clock has left its range. *)
Definition thread_poll (fds : list pollfd) (timeout : Z) (with_pollfunc : bool) (h : hooks tstate) :
    option (Z * list pollfd * (world K * gmap Z rpchook_t * R)) :=
  let r := ts_raw (hk_sys h) in
  let w := (ts_world (hk_sys h)) <| w_errno := hk_errno h |> in
  let timeout := to_int timeout in
  let polled := (raw_call (SysPoll fds timeout) r).1 in
  let pollfunc := if with_pollfunc then Some (sr_ret polled, sr_fds polled) else None in
  match w_mode w, coroutine_self w, clock_in w (call_time r) with
  | M_user u, Ok (Some c, _), true =>
      match poll_inner_enter fds timeout pollfunc (call_time r) u w with
      | Ok (PollReturn ret fds', w1) => Some (ret, fds', (w1, hk_socks h, r))
      | Ok (PollBlocked, w1) =>
          q ← waits_at w1 c;
          match meanwhile (hk_socks h) r w1 q fds u with
          | Some (exist _ tw _) => poll_resumed q fds u tw w1
          | None => None
          end
      | Fail _ => None
      end
  | _, _, _ => None
  end.

(** * The running task *)

Lemma self_told_run th w s xs t r : Inv th w s xs -> s_stack s = t :: r -> self_told w = told w t.
Proof using.
  intros [_ (ep & live & L & HC & _) _] Hst.
  destruct (running_task th w ep s t r HC Hst) as (c & tk & rc & _ & _ & Hrc & Hsta & _ & Hself & _).
  unfold self_told. rewrite Hself, Hrc. simpl. by rewrite (ts_task _ _ _ _ _ Hsta).
Qed.

Lemma told_running th w s xs t r : Inv th w s xs -> s_stack s = t :: r -> is_Some (told w t).
Proof using.
  intros [_ (ep & live & L & HC & _) _] Hst.
  destruct (running_task th w ep s t r HC Hst) as (c & tk & rc & _ & Htk & _). unfold told. rewrite Htk. by eexists.
Qed.

(** [errno] is of no concern to the thread. *)
Lemma inv_errno th w s xs v : Inv th w s xs -> Inv th (w <| w_errno := v |>) s xs.
Proof using.
  intros [TH (ep & live & L & HC & HM & HW & Hxs) HL]. split; [done| |done]. exists ep, live, L.
  split; [|split; [by apply (mem_ext w)|done]]. destruct HC as [[B1 B2 B3 B4 B5] HT HP Hmode]. by split; [split|..].
Qed.

Lemma flags_run th acts : forall w s xs w',
  Inv th w s xs -> allowed_run acts w -> run_thread acts w = Ok (tt, w') -> flags_ok w -> flags_ok w'.
Proof using.
  induction acts as [|a acts IH]; intros w s xs w' I Hal Hrun Hf; [by injection Hrun as <-|].
  destruct Hal as [Ha Hrest]. destruct (inv_step th w s xs a I Ha) as (w1 & s1 & xs1 & Hs & _ & I1).
  simpl in Hrun. rewrite (bind_Ok _ _ _ _ _ Hs) in Hrun. apply (IH w1 s1 xs1 w' I1 (Hrest _ Hs) Hrun).
  destruct I as [TH HR _]. by eapply effect_flags; [eapply step_effect|].
Qed.

Lemma clock_in_allowed w now u fds timeout pf :
  clock_in w now = true -> w_mode w = M_user u -> u <> U_main -> - 2 ^ 31 <= timeout < 2 ^ 31 -> allowed (A_poll fds timeout pf now) w.
Proof using.
  unfold clock_in, allowed. destruct (w_env w) as [e|]; [|done]. simpl. destruct (env_epoll e) as [ep|] eqn:Hep; [|done].
  intros H%bool_decide_eq_true Hm Hu Ht. exists e, ep. rewrite Hm. by destruct u.
Qed.

(** * A call of the running task *)

Section call.
Context (th : thread) w (s : sched) (xs r : list Z) (t : Z) (u : user_ctx).
Context (I : Inv th w s xs) (Hpc : s_pc s = PC_user u) (Hst : s_stack s = t :: r) (Hflags : flags_ok w).
Context (fds : list pollfd) (timeout : Z) (pf : option (Z * list pollfd)) (now : timeval).
Context (Ha : allowed (A_poll fds timeout pf now) w).

Lemma call_mode : w_mode w = M_user u.
Proof using I Hpc. by rewrite (inv_mode _ _ _ _ I), Hpc. Qed.

Lemma call_step out w1 : poll_inner_enter fds timeout pf now u w = Ok (out, w1) -> step_thread (A_poll fds timeout pf now) w = Ok (tt, w1).
Proof using I Hpc.
  intros H. unfold step_thread. rewrite (bind_Ok _ _ _ _ _ (gets_run w_mode w)), call_mode.
  destruct u; by rewrite (bind_Ok _ _ _ _ _ H).
Qed.

Lemma call_flags out w1 : poll_inner_enter fds timeout pf now u w = Ok (out, w1) -> flags_ok w1.
Proof using I Hpc Hflags Ha.
  intros H. destruct I as [TH HR _]. eapply effect_flags; [|exact Hflags]. by eapply (step_effect th TH w s xs); [..|by eapply call_step].
Qed.

(** What the first half does to the caller's task. *)
Lemma call_told out w1 :
  poll_inner_enter fds timeout pf now u w = Ok (out, w1) ->
  exists a f f', told w t = Some (a, f) /\ told w1 t = Some (a, f') /\
    match out with PollReturn ret fds' => ret = -1 /\ fds' = fds \/ pf = Some (ret, fds') /\ f' = 0 | PollBlocked => f' = 0 end.
Proof using I Hpc Hst Hflags.
  intros Hrun. pose proof I as [_ HR _]. destruct (running_objects th w s xs u t r HR Hpc Hst) as (c & rc & tk & Hself & _ & _ & Hrc & Hrt & Htk & _).
  destruct (wp_Ok _ _ _ _ _ _ (enter_told w c rc t tk fds timeout pf now u Hself Hrc Hrt Htk) Hrun) as (_ & flag & Hflag & Hlim & Hout).
  assert (told w t = Some (tk_attr tk, tk_timeout tk)) as Ht by (unfold told; by rewrite Htk).
  exists (tk_attr tk), (tk_timeout tk), flag. split; [done|]. split; [done|].
  assert ((limited (tk_attr tk) = true -> flag = 0) -> flag = 0) as Hz.
  { destruct (limited (tk_attr tk)) eqn:Hl; [by auto|]. intros _. rewrite (Hlim eq_refl). by apply (Hflags t (tk_attr tk)). }
  destruct Hout as [(fds' & -> & ->)|[[(r' & fds' & -> & Hpf)| ->] Hz']]; [by left|right; auto|auto].
Qed.

Lemma call_returns ret fds' w1 : poll_inner_enter fds timeout pf now u w = Ok (PollReturn ret fds', w1) -> Inv th w1 s xs.
Proof using I Hpc Ha.
  intros Hrun. pose proof call_mode as Hm. destruct I as [TH HR HL]. destruct Ha as (e & ep & He & Hep & Ha'). rewrite Hm in Ha'.
  assert (u <> U_main /\ - 2 ^ 31 <= timeout < 2 ^ 31 /\ clock_ok ep now) as (Hu & Hint & Hclk) by by destruct u.
  destruct (poll_result th TH w s xs u e ep fds timeout pf now HR Hm He Hep Hu Hint Hclk)
    as [(ret' & fds2 & w' & Hrun' & HR')|(q & w' & pc & Hrun' & _)]; rewrite Hrun in Hrun'; [|done]. injection Hrun' as -> -> <-. by split.
Qed.

(** A call that blocks, and what leads back to it. *)
Lemma call_resumed w1 c tw out :
  poll_inner_enter fds timeout pf now u w = Ok (PollBlocked, w1) -> coroutine_self w = Ok (Some c, w) ->
  exists q, waits_at w1 c = Some q /\
    (leads_back q fds u (tw_acts tw) w1 -> poll_resumed q fds u tw w1 = Some out ->
     task_running out.2.1.1 /\ (exists a f, told w t = Some (a, f) /\ self_told out.2.1.1 = Some (a, 0)) /\
     0 <= out.1.1 /\ asked <$> out.1.2 = asked <$> fds).
Proof using I Hpc Hst Hflags Ha.
  intros Hrun Hself. pose proof I as [TH HR _]. destruct (running_objects th w s xs u t r HR Hpc Hst) as (c' & _ & _ & Hself' & _ & Hth & _).
  rewrite Hself in Hself'. injection Hself' as <-.
  destruct (poll_waits th w s xs u t r c fds timeout pf now w1 I Hpc Hst Hth Ha Hrun)
    as (s1 & q & rc & pc & _ & I1 & Ht1 & Hrc & Hk & Hp & Hcnt & _).
  exists q. split; [unfold waits_at; by rewrite Hrc; simpl; rewrite Hk|].
  destruct (call_told _ _ Hrun) as (a & f & f' & Ht & Ht' & ->).
  intros (Hal & Hw & Hlt & w2 & Hrun2 & Hm2) Hout.
  destruct (wait_run th (tw_acts tw) w1 s1 xs w2 t q fds u pc I1 Ht1 Hal Hw Hrun2 Hm2 Hp) as (s2 & xs2 & pc2 & I2 & Hpc2 & Hh & Ht2 & Hp2 & Hr);
    [lia|lia|].
  pose proof (flags_run th _ _ _ _ _ I1 Hal Hrun2 (call_flags _ _ Hrun)) as Hf2.
  unfold poll_resumed in Hout. rewrite Hrun2 in Hout. set (w2' := w2 <| w_errno := tw_errno tw |>) in *.
  pose proof (inv_errno _ _ _ _ (tw_errno tw) I2) as I2'. fold w2' in I2'. rewrite Ht' in Ht2.
  destruct (leave_told th w2' s2 xs2 t q fds u pc2 a I2' Hpc2 Hh Hp2 Ht2) as (fds' & w3 & tk3 & Hleave & Hask & Htk3 & Ha3 & Hf3).
  rewrite Hleave in Hout. injection Hout as <-. cbn [fst snd].
  assert (allowed A_run w2') as Hal2.
  { destruct I2' as [_ (ep & live & L & HC & _) _]. destruct (cb_env _ _ _ _ (ci_base _ _ _ _ HC)) as (e & He & _ & _ & Hep).
    exists e, ep. rewrite (ci_mode _ _ _ _ HC), Hpc2. done. }
  destruct (inv_step th w2' s2 xs2 A_run I2' Hal2) as (w3' & s3 & xs3 & Hs3 & Hstep & I3).
  assert (w3' = w3 <| w_mode := M_user u |>) as ->.
  { revert Hs3. unfold step_thread. rewrite (bind_Ok _ _ _ _ _ (gets_run w_mode w2')), (inv_mode _ _ _ _ I2'), Hpc2. cbn [mode_of].
    rewrite (bind_Ok _ _ _ _ _ Hleave). by intros [= <-]. }
  assert (s3 = s_goto (PC_user u) s2) as -> by (inversion Hstep; congruence).
  assert (exists r', s_stack s2 = t :: r') as [r' Hst2] by (destruct (s_stack s2); [done|]; injection Hh as ->; eauto).
  split_and!; [|exists a, f; split; [done|]|lia|done].
  - split; [|by exists th, (s_goto (PC_user u) s2), xs3, u, t, r'].
    destruct I2' as [TH2 HR2 _]. eapply effect_flags; [by eapply (step_effect th TH2)|exact Hf2].
  - etrans; [exact (self_told_run th _ _ _ t r' I3 Hst2)|]. unfold told. cbn. by rewrite Htk3; simpl; rewrite Ha3, Hf3.
Qed.
End call.

Lemma to_int_range z : - 2 ^ 31 <= to_int z < 2 ^ 31.
Proof using. by apply (wrap_s_range 32). Qed.

(** What a call that returns has done. *)
Lemma thread_poll_ok fds timeout b h out :
  thread_poll fds timeout b h = Some out ->
  task_running out.2.1.1 /\
  (exists a f f', self_told (ts_world (hk_sys h)) = Some (a, f) /\ self_told out.2.1.1 = Some (a, f') /\ (out.1.1 = 0 -> f' = 0)) /\
  -1 <= out.1.1 /\ asked <$> out.1.2 = asked <$> fds.
Proof using.
  destruct h as [socks err [w0 r0 [Hf0 (th & s & xs & u & t & r & I0 & Hpc & Hst)]]]. unfold thread_poll. cbn [hk_sys hk_errno hk_socks ts_world ts_raw].
  pose proof (inv_errno _ _ _ _ err I0) as I. set (w := w0 <| w_errno := err |>) in *.
  assert (flags_ok w) as Hf by exact Hf0. assert (self_told w0 = told w t) as Htold by exact (self_told_run th w0 s xs t r I0 Hst).
  rewrite (call_mode th w s xs u I Hpc). destruct (coroutine_self w) as [[[c|] w']|] eqn:Hself; try done.
  pose proof (so_pc _ (inv_sched _ _ _ _ I)) as Hok. rewrite Hpc, Hst in Hok.
  pose proof I as [_ HR _]. destruct (running_objects th w s xs u t r HR Hpc Hst) as (c' & _ & _ & Hself' & _).
  rewrite Hself in Hself'. injection Hself' as -> ->.
  destruct (clock_in w (call_time r0)) eqn:Hclk; [|done].
  set (tmo := to_int timeout). set (pf := if b then _ else None).
  assert (u <> U_main) as Hu by (intros ->; by destruct Hok).
  pose proof (clock_in_allowed w (call_time r0) u fds tmo pf Hclk (call_mode th w s xs u I Hpc) Hu (to_int_range timeout)) as Ha.
  destruct (poll_inner_enter fds tmo pf (call_time r0) u w) as [[[ret fds'|] w1]|] eqn:Hrun; [| |done].
  - intros [= <-]. cbn [fst snd]. pose proof (call_returns th w s xs u I Hpc fds tmo pf _ Ha _ _ _ Hrun) as I1.
    destruct (call_told th w s xs r t u I Hpc Hst Hf fds tmo pf _ _ _ Hrun) as (a & f & f' & Ht & Ht1 & Hcase).
    split; [split; [by eapply (call_flags th w s xs u I Hpc Hf fds tmo pf)|by exists th, s, xs, u, t, r]|].
    split; [exists a, f, f'; rewrite Htold, (self_told_run th w1 s xs t r I1 Hst); split_and!; [done|done|]|].
    + destruct Hcase as [[-> ->]|[_ ->]]; [intros ?; lia|done].
    + destruct Hcase as [[-> ->]|[Hpf _]]; [by split|]. unfold pf in Hpf. destruct b; [|done]. injection Hpf as <- <-.
      split; [apply raw_poll_ret|apply raw_poll_fds].
  - destruct (waits_at w1 c') as [q|] eqn:Hq; [|done]. simpl. destruct (meanwhile socks r0 w1 q fds u) as [[tw Hl]|]; [|done]. intros Hout.
    destruct (call_resumed th w s xs r t u I Hpc Hst Hf fds tmo pf _ Ha w1 c' tw out Hrun Hself) as (q' & Hq' & Hres).
    rewrite Hq in Hq'. injection Hq' as <-. destruct (Hres Hl Hout) as (H1 & (a & f & Ht & H2) & H3 & H4).
    split; [done|]. split; [exists a, f, 0; by rewrite Htold|]. split; [lia|done].
Qed.

(** * The interface of the hooks *)

Definition tstate_raw (s : tstate) (r : R) : tstate := mk_tstate (ts_world s) r (ts_ok s).

(** The state after a call that returns. *)
Definition poll_state fds timeout b h out (H : thread_poll fds timeout b h = Some out) : hooks tstate :=
  mk_hooks out.2.1.2 (w_errno out.2.1.1) (mk_tstate out.2.1.1 out.2.2 (proj1 (thread_poll_ok fds timeout b h out H))).

(** A call that does not return has no result; -1 stands for it. *)
#[export] Instance thread_hooks : HookSys tstate := {|
  sys_call c s := let '(ret, r) := raw_call c (ts_raw s) in (ret, tstate_raw s r);
  hook_enabled s := match self_told (ts_world s) with Some (a, _) => negb (attr_enable_sys_hook a =? 0) | None => false end;
  task_timed_out s := match self_told (ts_world s) with Some (_, f) => negb (f =? 0) | None => false end;
  poll_inner fds timeout b h :=
    match thread_poll fds timeout b h as o return thread_poll fds timeout b h = o -> Z * list pollfd * hooks tstate with
    | Some out => fun H => (out.1, poll_state fds timeout b h out H)
    | None => fun _ => (-1, fds, h)
    end eq_refl
|}.

Lemma poll_inner_cases fds timeout b (h : hooks tstate) :
  (thread_poll fds timeout b h = None /\ poll_inner fds timeout b h = (-1, fds, h)) \/
  exists out H, poll_inner fds timeout b h = (out.1, poll_state fds timeout b h out H).
Proof using.
  unfold poll_inner, thread_hooks.
  assert (forall o (E : thread_poll fds timeout b h = o),
    (o = None /\ match o as o' return thread_poll fds timeout b h = o' -> Z * list pollfd * hooks tstate with
       | Some out => fun H => (out.1, poll_state fds timeout b h out H) | None => fun _ => (-1, fds, h) end E = (-1, fds, h)) \/
    exists out H, match o as o' return thread_poll fds timeout b h = o' -> Z * list pollfd * hooks tstate with
       | Some out => fun H => (out.1, poll_state fds timeout b h out H) | None => fun _ => (-1, fds, h) end E
       = (out.1, poll_state fds timeout b h out H)) as Hgen.
  { intros [out|] E; [right; by exists out, E|by left]. }
  apply Hgen.
Qed.

(** Each clause of the contract. *)
#[export] Instance thread_poll_contract : PollContract tstate.
Proof using.
  split.
  - intros fds t b h. destruct (poll_inner_cases fds t b h) as [[_ ->]|(out & H & ->)]; [done|]. apply (thread_poll_ok _ _ _ _ _ H).
  - intros fds t b h. destruct (poll_inner_cases fds t b h) as [[_ ->]|(out & H & ->)]; [done|].
    destruct (thread_poll_ok _ _ _ _ _ H) as (_ & (a & f & f' & H1 & H2 & _) & _). cbn. by rewrite H1, H2.
  - intros fds t b h. destruct (poll_inner_cases fds t b h) as [[_ ->]|(out & H & ->)]; [done|]. cbn [fst snd].
    destruct (thread_poll_ok _ _ _ _ _ H) as (_ & (a & f & f' & H1 & H2 & H3) & _). intros Hz. cbn. by rewrite H2, H3.
  - intros fds t b h. destruct (poll_inner_cases fds t b h) as [[_ ->]|(out & H & ->)]; [done|]. apply (thread_poll_ok _ _ _ _ _ H).
  - intros c s. cbn. by destruct (raw_call c (ts_raw s)).
  - intros c s. cbn. by destruct (raw_call c (ts_raw s)).
Qed.

(** C3. A thread keeps the contract of the hooked calls.  The interface that
    [read], [write], [accept], [connect], [select] and the others are verified
    against is implemented by the code of a thread: [poll_inner], called by a
    running task, with any execution of the other coroutines and of the event
    loop between its two halves, returns -1 or a count, leaves the task's
    attributes alone, does not return 0 to a task that has timed out, and
    changes only the [revents] of the descriptors.  So every theorem on the
    hooked calls is one on tasks of this thread. *)
Theorem thread_keeps_contract : PollContract tstate.
Proof using. exact thread_poll_contract. Qed.

(** A reachable state in which the function of a task runs. *)
Lemma reach_running w u : Reach w -> w_mode w = M_user u -> u <> U_main -> task_running w.
Proof using.
  intros HR Hm Hu. split; [by apply reach_flags|]. destruct (reach_inv w HR) as (th & s & xs & I).
  pose proof (inv_mode _ _ _ _ I) as Hmode. rewrite Hm in Hmode. pose proof (so_pc _ (inv_sched _ _ _ _ I)) as Hok.
  assert (s_pc s = PC_user u) as Hpc by (destruct (s_pc s); try discriminate; simpl in Hmode; congruence).
  rewrite Hpc in Hok. destruct (s_stack s) as [|t r] eqn:Hst; [by simpl in Hok|]. by exists th, s, xs, u, t, r.
Qed.
End thread.

(** * A hooked read in a thread *)

#[export] Instance user_ctx_eq_dec : EqDecision user_ctx.
Proof. solve_decision. Defined.

Definition leads_back_b (q : Z) (fds : list pollfd) (u : user_ctx) (acts : list action) (w : world (gmap Z Z)) : bool :=
  match check_run acts w with
  | Some w' => waits_b q acts w && (reported acts <? 2 ^ 31) &&
      match w_mode w' with M_poll_ret q' fds' u' => bool_decide (q' = q /\ fds' = fds /\ u' = u) | _ => false end
  | None => false
  end.

Lemma leads_back_b_sound q fds u acts w : leads_back_b q fds u acts w = true -> leads_back q fds u acts w.
Proof.
  unfold leads_back_b. destruct (check_run acts w) as [w'|] eqn:Hrun; [|done]. destruct (check_run_sound _ _ _ Hrun) as [H1 H2].
  intros [[Hw Hr]%andb_prop Hm]%andb_prop. split_and!; [done|by apply waits_b_sound|by apply Z.ltb_lt|]. exists w'. split; [done|].
  destruct (w_mode w'); try done. apply bool_decide_eq_true in Hm as (-> & -> & ->). done.
Qed.

(** Steps that lead back, if these do. *)
Definition try_wait (acts : list action) (socks : gmap Z rpchook_t) (r : Z) (w : world (gmap Z Z)) q fds u :
    option { tw : twait Z | leads_back q fds u (tw_acts tw) w } :=
  match decide (leads_back_b q fds u acts w = true) with
  | left H => Some (exist _ (mk_twait acts socks 0 r) (leads_back_b_sound q fds u acts w H))
  | right _ => None
  end.

(** The raw state counts the reads: the first one finds nothing, the second
    one three bytes.  In the first wait nothing happens until it times out; in
    the second one the descriptor becomes ready. *)
Definition demo_raw (c : syscall) (r : Z) : sysret * Z :=
  match c with
  | SysRead _ _ => if r =? 0 then (mk_sysret (-1) EAGAIN [] [] [], 1) else (mk_sysret 3 0 [7; 8; 9] [] [], r + 1)
  | SysPoll fds _ => (mk_sysret 0 0 [] fds [], r)
  | _ => (mk_sysret 0 0 [] [] [], r)
  end.

#[export] Program Instance demo_surroundings : Surroundings (gmap Z Z) Z := {|
  raw_call := demo_raw;
  call_time r := demo_time (1 + 20 * r);
  meanwhile socks r w q fds u :=
    try_wait (if r =? 0 then [A_eventloop 3 (demo_time 0) (demo_time 2); A_events [] (demo_time 20); A_run]
              else [A_run; A_events [mk_epoll_event 1 (item_addr q 0)] (demo_time 25); A_run]) socks r w q fds u
|}.
Solve Obligations with done.

Definition demo_tstate : tstate (K := gmap Z Z) (R := Z) :=
  mk_tstate demo_polling 0 (reach_running demo_polling U_fun (demo_check _ _ demo_polling_run) eq_refl ltac:(discriminate)).

Definition demo_hooks : hooks (tstate (K := gmap Z Z) (R := Z)) := mk_hooks {[5 := new_rpchook]} 0 demo_tstate.

(** The coroutine waits twice, and then has the three bytes; the clock shows
    the time after the second raw read. *)
Lemma thread_keeps_contract_witness :
  PollContract (tstate (K := gmap Z Z) (R := Z)) /\
  match read 3 5 16 demo_hooks with
  | Ok (r, h) => Some (r, GetTickMS (call_time (K := gmap Z Z) (ts_raw (hk_sys h)))) | Fail _ => None
  end = Some ((3, [7; 8; 9]), 1000000000041).
Proof. split; [apply thread_keeps_contract|vm_compute; reflexivity]. Defined.
