(* ===== verification/Settle.v ===== *)
(** A blocked call can always return: it is enough that the functions of the
    tasks return, and that [epoll_wait] returns after the deadline.  No other
    task can keep it from it. *)

From stdpp Require Import gmap list.
From S2P Require Import Prelude TimerList TimerListSpec ListProgram TimerWheel TimerWheelSpec TimerFrame Context Events.
From S2P Require Import Thread ThreadSpec Sched Coroutine TaskPool CtlInv Poll MemInv MemPoll CtlSteps.
From S2P Require Import PollFrames System Boot ThreadProps PollReturn DueFrames WaitEnds Hooks HooksSpec ThreadHooks.

Section settle.
Context {K : Type} `{!EpollKernel K}.
Implicit Types w : world K.

(** * Letting the thread settle *)

(** The library's code runs, functions of the user return, and main enters the
    event loop. *)
Definition next_action w : option action :=
  match w_mode w with
  | M_task_loop | M_poll_ret _ _ _ | M_process => Some A_run
  | M_user U_fun | M_user U_timeout => Some A_return
  | M_user U_main => Some (A_eventloop 0 (mk_timeval 0 0) (mk_timeval 0 0))
  | _ => None
  end.

Definition returned (q : Z) w : bool := match w_mode w with M_poll_ret q' _ _ => q' =? q | _ => false end.

(** Up to [epoll_wait], or to the return of the call at [q]. *)
Fixpoint settle_in (fuel : nat) (q : Z) w : list action :=
  match fuel with
  | O => []
  | S fuel' =>
      if returned q w then []
      else
        match next_action w with
        | None => []
        | Some a => a :: match step_thread a w with Ok (_, w') => settle_in fuel' q w' | Fail _ => [] end
        end
  end.

(** Every queued context is resumed once, every task on the stack returns. *)
Definition settle_fuel w : nat :=
  20 * size (lh_items (w_heap w)) + 10 * match w_env w with Some e => Z.to_nat (env_callstacksize e) | None => 0 end + 5.

Definition settle (q : Z) w : list action := settle_in (settle_fuel w) q w.

(** * It does *)

Definition pc_weight (p : pc) : nat :=
  match p with
  | PC_start | PC_ret _ _ _ => 5
  | PC_user U_timeout => 3
  | PC_user U_main => 2
  | PC_user _ => 4
  | PC_idle => 2
  | PC_process => 1
  | PC_events => 0
  end.

Definition weight (s : sched) (xs : list Z) : nat := 20 * length xs + 10 * length (s_stack s) + pc_weight (s_pc s).

Lemma pc_weight_max p : (pc_weight p <= 5)%nat.
Proof using. destruct p as [| |[]| | |]; simpl; lia. Qed.

Lemma weight_step s xs a s' xs' :
  sched_ok s -> sched_step s xs a s' xs' -> (a = A_run \/ a = A_return \/ exists e t1 t2, a = A_eventloop e t1 t2) ->
  (weight s' xs' < weight s xs)%nat.
Proof using.
  intros OK Hs Ha. pose proof (so_pc _ OK) as Hok. unfold weight.
  destruct Hs as [t r Hp Hst|t r Hp Hst|q fds u Hp|t q fds u xs' Hp -> Hw|Hp ->| | | | | |u Hp Hu|Hp|e t1 t2 Hp];
    try (by destruct Ha as [?|[?|(? & ? & ? & ?)]]); rewrite ?Hp in *; unfold s_goto, s_push; cbn [s_stack s_pc length pc_weight]; try lia.
  - unfold s_pop. rewrite Hst. cbn [s_stack s_pc length].
    match goal with |- context [pc_weight ?p] => pose proof (pc_weight_max p) end. lia.
  - destruct (s_stack s); [by simpl in Hok|]. simpl in Hok. destruct Hok as [-> | ->]; cbn; lia.
  - destruct Hu as [-> | ->]; cbn; lia.
Qed.

Lemma queue_bound th w s xs : Inv th w s xs -> (length xs <= size (lh_items (w_heap w)))%nat.
Proof using.
  intros [_ (ep & live & L & _ & HM & _ & Hxs) _]. destruct (rep_dll _ _ (wh_rep _ _ _ (mi_wheel _ _ _ _ _ HM)) _ _ Hxs) as (_ & Hnd & Hseg).
  rewrite <- size_dom. rewrite <- (size_list_to_set (C := gset Z) xs Hnd). apply subseteq_size. intros x Hx%elem_of_list_to_set.
  destruct (lseg_elem _ _ _ _ _ _ Hseg Hx) as (it & Hit & _). apply elem_of_dom. by eexists.
Qed.

Lemma settle_enough th w s xs : Inv th w s xs -> (weight s xs <= settle_fuel w)%nat.
Proof using.
  intros I. pose proof (queue_bound th w s xs I) as Hq. destruct I as [_ (ep & live & L & HC & _) _].
  destruct (cb_env _ _ _ _ (ci_base _ _ _ _ HC)) as (e & He & [_ Hsz _] & _). rewrite stack_cos_length in Hsz.
  unfold weight, settle_fuel. rewrite He, Hsz. pose proof (pc_weight_max (s_pc s)). lia.
Qed.

(** What the next action is, and that it is allowed. *)
Lemma next_action_ok th w s xs :
  Inv th w s xs -> s_pc s = PC_events \/
  exists a, next_action w = Some a /\ allowed a w /\ events_of a = 0 /\ (a = A_run \/ a = A_return \/ exists e t1 t2, a = A_eventloop e t1 t2).
Proof using.
  intros I. pose proof (inv_mode _ _ _ _ I) as Hm. pose proof (so_pc _ (inv_sched _ _ _ _ I)) as Hok.
  destruct I as [_ (ep & live & L & HC & _) _]. destruct (cb_env _ _ _ _ (ci_base _ _ _ _ HC)) as (e & He & _ & _ & Hep).
  unfold next_action, allowed. destruct (s_pc s) as [| |u|q fds u| |] eqn:Hp; cbn [mode_of] in Hm; rewrite Hm; [..|by left]; right.
  1,2,4,5: exists A_run; split_and!; [done|by exists e, ep|done|by left].
  destruct (s_stack s).
  - simpl in Hok. subst u. eexists. split; [done|]. split; [by exists e, ep|]. split; [done|]. right. right. eauto.
  - destruct Hok as [-> | ->]; exists A_return; (split_and!; [done|by exists e, ep|done|by right; left]).
Qed.

Lemma settles th t q fds u n : forall w s xs it,
  Inv th w s xs -> s_stat s !! t = Some (T_wait q fds u) -> lh_items (w_heap w) !! q = Some it -> (weight s xs <= n)%nat ->
  exists w' s' xs', allowed_run (settle_in n q w) w /\ run_thread (settle_in n q w) w = Ok (tt, w') /\ Inv th w' s' xs' /\
    waits_through q (settle_in n q w) w /\ reported (settle_in n q w) = 0 /\
    (w_mode w' = M_poll_ret q fds u \/
     w_mode w' = M_loop_wait /\ (q ∈ xs -> q ∈ xs') /\ s_stat s' !! t = Some (T_wait q fds u) /\
       exists it', lh_items (w_heap w') !! q = Some it' /\ ti_expire it' = ti_expire it).
Proof using.
  induction n as [|n IH]; intros w s xs it I Ht Hit Hn.
  - pose proof (inv_mode _ _ _ _ I) as Hm. exists w, s, xs. split_and!; [done..|]. right.
    assert (s_pc s = PC_events) as Hp by (unfold weight in Hn; destruct (s_pc s) as [| |[]| | |]; simpl in Hn; done || lia).
    rewrite Hm, Hp. split_and!; [done..|by exists it].
  - cbn [settle_in].
    assert (forall fds' u', w_mode w <> M_poll_ret q fds' u') as Hnot.
    { intros fds' u' Hm. pose proof (inv_mode _ _ _ _ I) as Hmode. rewrite Hm in Hmode.
      eapply (waits_not_returning th w s xs t q fds u fds' u' I Ht). destruct (s_pc s); try discriminate; simpl in Hmode; congruence. }
    assert (returned q w = false) as ->.
    { unfold returned. destruct (w_mode w) eqn:Hm; try done. apply Z.eqb_neq. intros ->. by apply (Hnot fds0 u0). }
    destruct (next_action_ok th w s xs I) as [Hp|(a & -> & Ha & Hev & Hkind)].
    + assert (w_mode w = M_loop_wait) as Hm by (by rewrite (inv_mode _ _ _ _ I), Hp).
      assert (next_action w = None) as -> by (unfold next_action; by rewrite Hm).
      exists w, s, xs. split_and!; [done..|]. right. split_and!; [done..|by exists it].
    + destruct (inv_step th w s xs a I Ha) as (w1 & s1 & xs1 & Hs & Hstep & I1). rewrite Hs.
      pose proof (weight_step _ _ _ _ _ (inv_sched _ _ _ _ I) Hstep Hkind) as Hw.
      destruct (waiting_due th w s xs a w1 t q fds u I Ha Hs Ht it Hit) as (it1 & Hit1 & E1).
      assert (forall acts, allowed_run acts w1 -> allowed_run (a :: acts) w) as Hal.
      { intros acts H. split; [done|]. intros w' Hw'. rewrite Hs in Hw'. by injection Hw' as <-. }
      assert (forall acts, waits_through q acts w1 -> waits_through q (a :: acts) w) as Hwt.
      { intros acts H. split; [done|]. intros w' Hw'. rewrite Hs in Hw'. by injection Hw' as <-. }
      destruct (waiting_step s xs a s1 xs1 t q fds u (inv_sched _ _ _ _ I) Hstep Ht) as [Ht1|[Hpc _]].
      * assert (q ∈ xs -> q ∈ xs1) as Hqs.
        { intros Hq. destruct (queued_step s xs a s1 xs1 t q fds u (inv_sched _ _ _ _ I) Hstep (in_loop _ _ _ _ I) Hq Ht) as [[? _]|Hpc]; [|done|].
          - intros t0 fds0 u0 Ht0. by eapply (inv_waits_unique th w s xs).
          - exfalso. by eapply (waits_not_returning th w1 s1 xs1 t q fds u fds u I1 Ht1). }
        destruct (IH w1 s1 xs1 it1 I1 Ht1 Hit1 ltac:(lia)) as (w' & s' & xs' & H1 & H2 & H3 & H4 & H5 & H6).
        exists w', s', xs'. split; [by apply Hal|]. split; [simpl; by rewrite (bind_Ok _ _ _ _ _ Hs)|]. split; [done|]. split; [by apply Hwt|].
        split; [simpl; lia|]. destruct H6 as [?|(? & ? & ? & it' & ? & ?)]; [by left|right]. split_and!; [done|by auto|done|].
        exists it'. split; [done|congruence].
      * assert (w_mode w1 = M_poll_ret q fds u) as Hm1 by (by rewrite (inv_mode _ _ _ _ I1), Hpc).
        assert (settle_in n q w1 = []) as -> by (destruct n; [done|]; cbn [settle_in]; unfold returned; by rewrite Hm1, Z.eqb_refl).
        exists w1, s1, xs1. split; [by apply Hal|]. split; [simpl; by rewrite (bind_Ok _ _ _ _ _ Hs)|]. split; [done|]. split; [by apply Hwt|].
        split; [simpl; lia|]. by left.
Qed.

(** * Waits that lead back *)

Lemma reported_app acts1 acts2 : reported (acts1 ++ acts2) = reported acts1 + reported acts2.
Proof using. induction acts1 as [|a acts1 IH]; simpl; [done|]. rewrite IH. lia. Qed.

Lemma waits_app q acts1 acts2 w w1 :
  waits_through q acts1 w -> run_thread acts1 w = Ok (tt, w1) -> waits_through q acts2 w1 -> waits_through q (acts1 ++ acts2) w.
Proof using.
  revert w. induction acts1 as [|a acts1 IH]; intros w; simpl; [by intros _ [= ->]|].
  intros [Hn Hrest] H H2. apply bind_inv in H as ([] & w2 & Hs & H). split; [done|]. intros w' Hw'.
  rewrite Hs in Hw'. injection Hw' as <-. by apply IH; [apply Hrest|..].
Qed.

(** An iteration after the deadline, and then the rest. *)
Lemma late_iteration th w s xs e ep t q fds u it later :
  Inv th w s xs -> w_mode w = M_loop_wait -> w_env w = Some e -> env_epoll e = Some ep ->
  s_stat s !! t = Some (T_wait q fds u) -> lh_items (w_heap w) !! q = Some it ->
  clock_ok ep later -> ti_expire it <= GetTickMS later -> et_start (ep_timer ep) <= GetTickMS later ->
  exists w', step_thread (A_events [] later) w = Ok (tt, w') /\ leads_back q fds u (A_events [] later :: settle q w') w.
Proof using.
  intros I Hm He Hep Ht Hit Hclk Hexp Hst.
  assert (allowed (A_events [] later) w) as Ha by (exists e, ep; rewrite Hm; by split_and!).
  destruct (inv_step th w s xs _ I Ha) as (w1 & _ & _ & Hs & _).
  destruct (events_queue th w s xs w1 [] later t q fds u e ep I Hm He Hep ltac:(done) Hclk Ht) as (s1 & xs1 & I1 & Hq1 & Ht1);
    [left; by exists it|done|].
  destruct (waiting_due th w s xs _ w1 t q fds u I Ha Hs Ht it Hit) as (it1 & Hit1 & _).
  destruct (settles th t q fds u (settle_fuel w1) w1 s1 xs1 it1 I1 Ht1 Hit1 (settle_enough th w1 s1 xs1 I1))
    as (w2 & s2 & xs2 & Hal & Hrun & I2 & Hwt & Hrep & Hend).
  exists w1. split; [done|]. split_and!.
  - split; [done|]. intros w' Hw'. rewrite Hs in Hw'. by injection Hw' as <-.
  - split; [intros fds' u'; by rewrite Hm|]. intros w' Hw'. rewrite Hs in Hw'. by injection Hw' as <-.
  - simpl. fold (settle q w1) in Hrep. lia.
  - exists w2. split; [simpl; by rewrite (bind_Ok _ _ _ _ _ Hs)|]. destruct Hend as [?|(Hm2 & Hq2 & _)]; [done|].
    exfalso. specialize (Hq2 Hq1). pose proof (inv_mode _ _ _ _ I2) as Hmode. rewrite Hm2 in Hmode.
    destruct (in_loop _ _ _ _ I2) as [->|[Hproc|[Hne _]]]; [by apply elem_of_nil in Hq2|by rewrite Hproc in Hmode|].
    apply Hne. apply (main_alone s2 (so_pc _ (inv_sched _ _ _ _ I2))). right. left. by destruct (s_pc s2).
Qed.

(** C6. No wait is without end.  When [poll_inner] has blocked, let the thread
    settle: the functions of the other tasks return, main enters the event
    loop.  Either the call is resumed on the way, or main arrives at
    [epoll_wait]; and if [epoll_wait] then returns, without any event, at a
    time [kMaxTimeoutMs] or more after the call, the call is resumed when the
    functions resumed before it have returned.  The call stack, the pool and
    the queue of the process loop cannot keep it from that. *)
Theorem blocked_call_can_return w u t tk c fds timeout pf now w1 :
  Reach w -> w_mode w = M_user u -> self_task w = Ok (t, w) -> w_tasks w !! t = Some tk -> tk_coroutine tk = Some c ->
  allowed (A_poll fds timeout pf now) w -> poll_inner_enter fds timeout pf now u w = Ok (PollBlocked, w1) ->
  exists rc q w2, w_cos w1 !! c = Some rc /\ co_kont rc = K_poll q fds u /\ run_thread (settle q w1) w1 = Ok (tt, w2) /\
    (leads_back q fds u (settle q w1) w1 \/
     w_mode w2 = M_loop_wait /\ forall e ep later, w_env w2 = Some e -> env_epoll e = Some ep -> clock_ok ep later ->
       GetTickMS now + kMaxTimeoutMs <= GetTickMS later -> et_start (ep_timer ep) <= GetTickMS later ->
       exists w3, step_thread (A_events [] later) w2 = Ok (tt, w3) /\
         leads_back q fds u (settle q w1 ++ A_events [] later :: settle q w3) w1).
Proof using.
  intros HR Hm Hself Htk Htc Ha Hrun.
  destruct (poll_caller w u t tk c fds timeout pf now HR Hm Hself Htk Htc Ha) as (th & s & xs & r & rc & I & Hpc & Hst & Hth & _).
  destruct (poll_waits th w s xs u t r c fds timeout pf now w1 I Hpc Hst Hth Ha Hrun)
    as (s1 & q & rc1 & pc & it & I1 & Ht1 & Hrc1 & Hk & _ & _ & Hit & Hexp).
  destruct (settles th t q fds u (settle_fuel w1) w1 s1 xs it I1 Ht1 Hit (settle_enough th w1 s1 xs I1))
    as (w2 & s2 & xs2 & Hal & Hrun2 & I2 & Hwt & Hrep & Hend). fold (settle q w1) in Hal, Hrun2, Hwt, Hrep.
  exists rc1, q, w2. split; [done|]. split; [done|]. split; [done|].
  destruct Hend as [Hm2|(Hm2 & _ & Ht2 & it2 & Hit2 & E2)]; [left; split_and!; [done|done|lia|by exists w2]|right]. split; [done|].
  intros e ep later He Hep Hclk Hlate Hstart.
  destruct (late_iteration th w2 s2 xs2 e ep t q fds u it2 later I2 Hm2 He Hep Ht2 Hit2 Hclk ltac:(lia) Hstart)
    as (w3 & Hs3 & Hal3 & Hwt3 & Hrep3 & w4 & Hrun4 & Hm4).
  exists w3. split; [done|]. split_and!; [by eapply allowed_run_app|by eapply waits_app|rewrite reported_app; lia|].
  exists w4. split; [|done]. by rewrite (run_thread_app _ _ _ _ Hrun2).
Qed.
End settle.

(** The poll of [PollReturn]. *)
Lemma blocked_call_can_return_witness :
  exists rc q w2, w_cos demo_blocked !! 2 = Some rc /\ co_kont rc = K_poll q demo_poll U_fun /\
    run_thread (settle q demo_blocked) demo_blocked = Ok (tt, w2) /\
    (leads_back q demo_poll U_fun (settle q demo_blocked) demo_blocked \/
     w_mode w2 = M_loop_wait /\ forall e ep later, w_env w2 = Some e -> env_epoll e = Some ep -> clock_ok ep later ->
       GetTickMS (demo_time 1) + kMaxTimeoutMs <= GetTickMS later -> et_start (ep_timer ep) <= GetTickMS later ->
       exists w3, step_thread (A_events [] later) w2 = Ok (tt, w3) /\
         leads_back q demo_poll U_fun (settle q demo_blocked ++ A_events [] later :: settle q w3) demo_blocked).
Proof.
  apply (blocked_call_can_return demo_polling U_fun 1 demo_polling_task 2 demo_poll 1000 None (demo_time 1) demo_blocked).
  - exact (demo_check _ _ demo_polling_run).
  - by vm_compute.
  - exact demo_self.
  - by vm_compute.
  - by vm_compute.
  - apply allowed_b_sound. by vm_compute.
  - exact demo_blocks.
Defined.
