(* ===== verification/HooksProps.v ===== *)
(** Properties of the hooked calls (src/src/hook_sys_call.c), and a scripted
    system to run them on. *)

From stdpp Require Import gmap list.
From S2P Require Import Prelude TimerWheel Events Thread Hooks HooksSpec.

(** * A scripted system

    Raw calls answer with the results of a script, in order, and fail with
    EIO after its end; [poll_inner] reports every descriptor ready, or -1
    once the task has timed out.  The calls made are logged. *)

Record script := mk_script {
  sc_results : list sysret;
  sc_sent : list Z;
  sc_calls : list syscall;
  sc_enabled : bool;
  sc_timed_out : bool
}.

Definition EIO : Z := 5.
Definition sc_error : sysret := mk_sysret (-1) EIO [] [] [].

Definition sc_data (c : syscall) : list Z :=
  match c with SysWrite _ d | SysSend _ d _ => d | _ => [] end.

(** A write takes no more than it is given. *)
Definition sc_clamp (c : syscall) (r : sysret) : sysret :=
  match c with
  | SysWrite _ d | SysSend _ d _ =>
      mk_sysret (Z.min (sr_ret r) (Z.of_nat (length d))) (sr_errno r) (sr_bytes r) (sr_fds r) (sr_sets r)
  | _ => r
  end.

Definition sc_call (c : syscall) (s : script) : sysret * script :=
  let r := sc_clamp c (default sc_error (head (sc_results s))) in
  (r, mk_script (tail (sc_results s)) (sc_sent s ++ take (Z.to_nat (sr_ret r)) (sc_data c))
        (sc_calls s ++ [c]) (sc_enabled s) (sc_timed_out s)).

#[export] Instance script_sys : HookSys script := {|
  sys_call := sc_call;
  hook_enabled := sc_enabled;
  task_timed_out := sc_timed_out;
  poll_inner fds t b h :=
    if sc_timed_out (hk_sys h) then (-1, fds, h)
    else (Z.of_nat (length fds), (fun f => f <| pfd_revents := pfd_events f |>) <$> fds, h)
|}.

#[export] Instance script_contract : PollContract script.
Proof.
  split; try done; intros fds t b h; simpl; destruct (sc_timed_out (hk_sys h)) eqn:E; simpl;
    first [done|lia|by intros|by rewrite <- list_fmap_compose].
Qed.

Lemma sc_clamp_block c r : would_block (sc_clamp c r) = true -> would_block r = true.
Proof.
  destruct c; simpl; try done; unfold would_block; simpl; rewrite !andb_true_iff, !Z.ltb_lt;
    intros [? ?]; split; [lia|done|lia|done].
Qed.

Definition sc_credit (s : script) : nat := length (filter (fun r => would_block r = true) (sc_results s)).

Lemma sc_credit_call c s : let r := sc_call c s in
  if would_block r.1 then (sc_credit r.2 < sc_credit s)%nat else (sc_credit r.2 <= sc_credit s)%nat.
Proof.
  unfold sc_credit, sc_call. simpl. destruct (sc_results s) as [|r rs]; simpl.
  - destruct (would_block (sc_clamp c sc_error)) eqn:E; [by apply sc_clamp_block in E|done].
  - destruct (would_block (sc_clamp c r)) eqn:E; rewrite filter_cons.
    + apply sc_clamp_block in E. rewrite decide_True by done. simpl. lia.
    + case_decide; simpl; lia.
Qed.

#[export] Program Instance script_write fd : WriteContract (SysWrite fd) := {|
  sent := sc_sent;
  credit := sc_credit
|}.
Next Obligation. intros fd d s. simpl. split; [lia|done]. Qed.
Next Obligation. intros fd d s. apply sc_credit_call. Qed.
Next Obligation. intros fd fds t b h. simpl. by case_match. Qed.
Next Obligation. intros fd fds t b h. simpl. by case_match. Qed.

#[export] Program Instance script_send fd flags : WriteContract (fun d => SysSend fd d flags) := {|
  sent := sc_sent;
  credit := sc_credit
|}.
Next Obligation. intros fd flags d s. simpl. split; [lia|done]. Qed.
Next Obligation. intros fd flags d s. apply sc_credit_call. Qed.
Next Obligation. intros fd flags fds t b h. simpl. by case_match. Qed.
Next Obligation. intros fd flags fds t b h. simpl. by case_match. Qed.

Definition again : sysret := mk_sysret (-1) EAGAIN [] [] [].
Definition good (n : Z) : sysret := mk_sysret n 0 (replicate (Z.to_nat n) 7) [] [].

(** A hooked descriptor 5 over the given script. *)
Definition demo_hooks (timed_out : bool) (rs : list sysret) : hooks script :=
  mk_hooks {[5 := new_rpchook]} 0 (mk_script rs [] [] true timed_out).

Lemma demo_hooked b rs : hooked 5 new_rpchook (demo_hooks b rs).
Proof. done. Qed.

Section claims.
Context {S : Type} `{!HookSys S} `{!PollContract S}.
Implicit Types h : hooks S.

(** [wait_io_ready] always reports "io ready", also when the task's time
    is up: [poll] then returns -1, which its test [!poll(...)] takes for
    success, so the branch that closes the descriptor and returns -1 is dead. *)
Theorem wait_io_ready_never_times_out fd events timeout h :
  hook_enabled (hk_sys h) = true ->
  wait_io_ready fd events timeout h = Ok (1, (poll_inner [mk_pollfd fd events 0] timeout true h).2).
Proof using PollContract0. apply wait_io_ready_run. Qed.

(** C20. A hooked [read] or [recv] skips the rounds in which the raw call would
    block, and returns what the first other raw call returned, with the bytes
    it stored; but a raw call that failed is reported as 0, end of file.
    [k + 1] rounds of fuel are enough. *)
Theorem read_recv_return_first_result fd nbyte flags lp h h' k r fuel :
  hooked fd lp h -> 0 < nbyte -> (k < fuel)%nat ->
  (rounds (SysRead fd) fd nbyte (timeval_ms (rh_read_timeout lp)) k h r h' ->
   read fuel fd nbyte h = Ok ((Z.max 0 (sr_ret r), if 0 <? sr_ret r then sr_bytes r else []), h')) /\
  (rounds (fun n => SysRecv fd n flags) fd nbyte (timeval_ms (rh_read_timeout lp)) k h r h' ->
   recv fuel fd nbyte flags h = Ok ((Z.max 0 (sr_ret r), if 0 <? sr_ret r then sr_bytes r else []), h')).
Proof using PollContract0.
  intros Hh Hn Hf. split; intros Hk; [unfold read|unfold recv]; rewrite (read_common_hooked _ _ _ _ _ _ Hh);
    by rewrite (bind_Ok _ _ _ _ _ (read_loop_rounds _ _ _ _ _ _ _ _ _ Hk (proj1 Hh) Hn Hf)).
Qed.

(** C26. A hooked [read] in a task whose time is up does not return while its
    raw calls would block: every round polls (which returns at once) and
    calls again, whatever the fuel. *)
Theorem read_spins_after_timeout (P : hooks S -> Prop) fd nbyte lp h :
  hooked fd lp h -> 0 < nbyte -> P h ->
  (forall h1, P h1 -> task_timed_out (hk_sys h1) = true /\
     let round := read_round (SysRead fd) fd nbyte (timeval_ms (rh_read_timeout lp)) h1 in
     would_block round.1 = true /\ P round.2) ->
  forall fuel, read fuel fd nbyte h = Fail OutOfFuel.
Proof using PollContract0.
  intros Hh Hn HP Hstep fuel. unfold read. rewrite (read_common_hooked _ _ _ _ _ _ Hh).
  cut (read_loop fuel (SysRead fd) fd nbyte (timeval_ms (rh_read_timeout lp)) h = Fail OutOfFuel).
  { intros Hl. unfold mbind, M_bind. by rewrite Hl. }
  pose proof (proj1 Hh) as He. clear Hh. revert h HP He. induction fuel as [|fuel IH]; intros h HP He; [done|].
  destruct (Hstep _ HP) as (_ & Hb & HP'). destruct (read_round _ _ _ _ h) as [r h1] eqn:Hr.
  rewrite (read_loop_again _ _ _ _ _ _ _ _ He Hn Hr Hb). apply IH; [done|].
  pose proof (read_round_enabled (SysRead fd) fd nbyte (timeval_ms (rh_read_timeout lp)) h) as Hen.
  rewrite Hr in Hen. simpl in Hen. congruence.
Qed.

(** C19. A hooked [write] sends the buffer from its beginning, each byte once.
    [write_run] says which raw calls it makes: one for the whole buffer, and
    then, with [n] bytes out, one for the bytes from [n] on after each wait for
    room, as long as some are left and the last call took a part or would have
    blocked.  So it ends with everything out, or because the last raw call [r]
    returned 0 or failed with something else than "would block"; it returns the
    number [n] of bytes that the kernel has taken, or the result of [r] when
    that is 0.  It does return: fuel for one round per byte and per refusal of
    the kernel is enough. *)
Theorem write_sends_prefix fd `{!WriteContract (SysWrite fd)} lp buf h fuel :
  hooked fd lp h -> buf <> [] -> (credit (hk_sys h) + length buf < fuel)%nat ->
  exists n r h', write_run (SysWrite fd) fd (timeval_ms (rh_write_timeout lp)) buf h n r h' /\
    write fuel fd buf h = Ok (if n =? 0 then sr_ret r else n, h') /\
    0 <= n <= Z.of_nat (length buf) /\ sent (hk_sys h') = sent (hk_sys h) ++ take (Z.to_nat n) buf /\
    (n = Z.of_nat (length buf) \/ sr_ret r = 0 \/ (sr_ret r < 0 /\ sr_errno r <> EAGAIN /\ sr_errno r <> EWOULDBLOCK)).
Proof using PollContract0.
  intros Hh Hb Hf. destruct (write_common_run (SysWrite fd) fd _ buf fuel lp h Hh eq_refl Hb Hf) as (n & r & h' & HR & Hrun & [Hn Hs] & Ho).
  exists n, r, h'. do 4 (split; [done|]). by apply (write_over_spec buf); [|lia].
Qed.

(** The same for [send]. *)
Theorem send_sends_prefix fd flags `{!WriteContract (fun d => SysSend fd d flags)} lp buf h fuel :
  hooked fd lp h -> buf <> [] -> (credit (hk_sys h) + length buf < fuel)%nat ->
  exists n r h', write_run (fun d => SysSend fd d flags) fd (timeval_ms (rh_write_timeout lp)) buf h n r h' /\
    send fuel fd buf flags h = Ok (if n =? 0 then sr_ret r else n, h') /\
    0 <= n <= Z.of_nat (length buf) /\ sent (hk_sys h') = sent (hk_sys h) ++ take (Z.to_nat n) buf /\
    (n = Z.of_nat (length buf) \/ sr_ret r = 0 \/ (sr_ret r < 0 /\ sr_errno r <> EAGAIN /\ sr_errno r <> EWOULDBLOCK)).
Proof using PollContract0.
  intros Hh Hb Hf.
  destruct (write_common_run (fun d => SysSend fd d flags) fd _ buf fuel lp h Hh eq_refl Hb Hf) as (n & r & h' & HR & Hrun & [Hn Hs] & Ho).
  exists n, r, h'. do 4 (split; [done|]). by apply (write_over_spec buf); [|lia].
Qed.
End claims.

(** * Witnesses *)

Lemma wait_io_ready_never_times_out_witness :
  wait_io_ready 5 POLLIN 1000 (demo_hooks true []) = Ok (1, demo_hooks true []).
Proof. exact (wait_io_ready_never_times_out 5 POLLIN 1000 (demo_hooks true []) eq_refl). Defined.

Lemma read_recv_return_first_result_witness :
  exists h', read 3 5 10 (demo_hooks false [again; again; good 4]) = Ok ((4, [7; 7; 7; 7]), h').
Proof.
  eexists. refine (proj1 (read_recv_return_first_result 5 10 0 new_rpchook (demo_hooks false [again; again; good 4])
    _ 2 (good 4) 3 _ _ _) _).
  - apply demo_hooked.
  - reflexivity.
  - repeat constructor.
  - eapply rounds_again; [reflexivity|reflexivity|]. eapply rounds_again; [reflexivity|reflexivity|].
    by apply rounds_last.
Defined.

(** A system whose raw calls always would block and whose task has timed out. *)
#[local] Instance blocked_sys : HookSys unit := {|
  sys_call c s := (again, tt);
  hook_enabled _ := true;
  task_timed_out _ := true;
  poll_inner fds t b h := (-1, fds, h)
|}.

#[local] Instance blocked_contract : PollContract unit.
Proof. split; done. Qed.

Lemma read_spins_after_timeout_witness :
  read 100000 5 10 (mk_hooks {[5 := new_rpchook]} 0 tt) = Fail OutOfFuel.
Proof.
  apply (read_spins_after_timeout (fun _ => True) 5 10 new_rpchook).
  - split; [|split]; reflexivity.
  - reflexivity.
  - exact I.
  - intros h1 _. split; [reflexivity|]. split; [reflexivity|exact I].
Defined.

Lemma write_sends_prefix_witness :
  exists h', write 20 5 [1; 2; 3; 4; 5] (demo_hooks false [good 2; again; good 2; good 3]) = Ok (5, h') /\
    sc_sent (hk_sys h') = [1; 2; 3; 4; 5].
Proof.
  destruct (write_sends_prefix 5 new_rpchook [1; 2; 3; 4; 5] (demo_hooks false [good 2; again; good 2; good 3]) 20
    (demo_hooked _ _) ltac:(discriminate) ltac:(vm_compute; lia)) as (n & r & h' & _ & Hrun & _).
  exists h'. vm_compute in Hrun. injection Hrun as Hn <-. split; reflexivity.
Defined.

Lemma send_sends_prefix_witness :
  exists h', send 20 5 [1; 2; 3] 0 (demo_hooks false [again; good 3]) = Ok (3, h') /\ sc_sent (hk_sys h') = [1; 2; 3].
Proof.
  destruct (send_sends_prefix 5 0 new_rpchook [1; 2; 3] (demo_hooks false [again; good 3]) 20
    (demo_hooked _ _) ltac:(discriminate) ltac:(vm_compute; lia)) as (n & r & h' & _ & Hrun & _).
  exists h'. vm_compute in Hrun. injection Hrun as Hn <-. split; reflexivity.
Defined.
