(* ===== verification/SocketProps.v ===== *)
(** Properties of the socket calls of src/src/hook_sys_call.c: the table of
    hooked descriptors, non-blocking mode, [connect], [setsockopt],
    and the translation of [select] to [poll]. *)

From stdpp Require Import gmap list.
From S2P Require Import Prelude TimerWheel Events Thread Hooks HooksSpec HooksProps.

(** * The table and [fcntl] *)

Section table.
Context {S : Type} `{!HookSys S} `{!PollContract S}.
Implicit Types h : hooks S.

Lemma g_sys_ret_run c h : g_sys_ret c h = Ok (sr_ret (sys_call c (hk_sys h)).1, after_sys c h).
Proof using. unfold g_sys_ret. by rewrite (bind_Ok _ _ _ _ _ (g_sys_run _ _)). Qed.

Lemma enabled_run h : is_enable_sys_hook h = Ok (hook_enabled (hk_sys h), h).
Proof using. done. Qed.

Lemma get_by_fd_run fd h : in_table fd = true -> get_by_fd fd h = Ok (hk_socks h !! fd, h).
Proof using. intros Ht. unfold get_by_fd. by rewrite Ht. Qed.

Lemma in_table_nonneg fd : in_table fd = true -> 0 <= fd.
Proof using. unfold in_table. rewrite andb_true_iff, !Z.ltb_lt. lia. Qed.

(** [fcntl(fd, F_GETFL, 0)] is the raw call. *)
Lemma fcntl_getfl_run fd p h :
  in_table fd = true ->
  fcntl fd F_GETFL p h =
    Ok (sr_ret (sys_call (SysFcntl fd F_GETFL None) (hk_sys h)).1, after_sys (SysFcntl fd F_GETFL None) h).
Proof using.
  intros Ht. pose proof (in_table_nonneg _ Ht). unfold fcntl. rewrite (proj2 (Z.ltb_ge _ _)) by done.
  rewrite (bind_Ok _ _ _ _ _ (get_by_fd_run _ _ Ht)). apply g_sys_ret_run.
Qed.

(** The state after a hooked [fcntl(fd, F_SETFL, param)]. *)
Definition after_setfl (fd param : Z) (lp : rpchook_t) h : hooks S :=
  let c := SysFcntl fd F_SETFL (Some (Z.lor param O_NONBLOCK)) in
  let h1 := after_sys c h in
  if sr_ret (sys_call c (hk_sys h)).1 =? 0
  then h1 <| hk_socks := <[fd := lp <| rh_user_flag := param |>]> (hk_socks h) |> else h1.

Lemma fcntl_setfl_run fd param lp h :
  hooked fd lp h ->
  fcntl fd F_SETFL param h =
    Ok (sr_ret (sys_call (SysFcntl fd F_SETFL (Some (Z.lor param O_NONBLOCK))) (hk_sys h)).1,
        after_setfl fd param lp h).
Proof using.
  intros Hh. destruct (id Hh) as (He & Ht & Hl). pose proof (in_table_nonneg _ Ht).
  unfold fcntl. rewrite (proj2 (Z.ltb_ge _ _)) by done.
  rewrite (bind_Ok _ _ _ _ _ (get_by_fd_hooked _ _ _ Hh)). simpl.
  rewrite (bind_Ok _ _ _ _ _ (enabled_run _)), He. simpl.
  rewrite (bind_Ok _ _ _ _ _ (g_sys_ret_run _ _)). unfold after_setfl. simpl.
  destruct (_ =? 0); [|done]. unfold upd_hook. mrun. do 4 f_equal.
  apply map_eq. intros k. destruct (decide (k = fd)) as [->|].
  - by rewrite lookup_alter_eq, lookup_insert_eq, Hl.
  - by rewrite lookup_alter_ne, lookup_insert_ne.
Qed.
End table.

Section socket_claims.
Context {S : Type} `{!HookSys S} `{!PollContract S}.
Implicit Types h : hooks S.

(** A hooked [fcntl(fd, F_SETFL, param)] always asks the kernel for
    non-blocking mode, changes no other flag, and on success remembers the
    flags the user asked for; other descriptors are unaffected. *)
Theorem fcntl_setfl_nonblocking fd param lp h :
  hooked fd lp h ->
  exists flag, Z.testbit flag 11 = true /\ (forall i, i <> 11 -> Z.testbit flag i = Z.testbit param i) /\
    let r := sys_call (SysFcntl fd F_SETFL (Some flag)) (hk_sys h) in
    exists h', fcntl fd F_SETFL param h = Ok (sr_ret r.1, h') /\ hk_sys h' = r.2 /\
      hk_socks h' = if sr_ret r.1 =? 0 then <[fd := lp <| rh_user_flag := param |>]> (hk_socks h) else hk_socks h.
Proof using.
  intros Hh. exists (Z.lor param O_NONBLOCK). change O_NONBLOCK with (2 ^ 11). split_and!.
  - rewrite Z.lor_spec, Z.pow2_bits_true by lia. apply orb_true_r.
  - intros i Hi. rewrite Z.lor_spec, Z.pow2_bits_false by lia. apply orb_false_r.
  - eexists. split; [by apply fcntl_setfl_run|]. unfold after_setfl. change O_NONBLOCK with (2 ^ 11).
    by destruct (_ =? 0).
Qed.

(** A hooked [socket] returns the raw descriptor; it enters the table
    with the default timeouts of 1 ms and its domain, and is switched to
    non-blocking mode; a failed raw call is returned and registers nothing. *)
Theorem socket_registers domain type protocol h :
  hook_enabled (hk_sys h) = true ->
  let c := SysSocket domain type protocol in
  let fd := sr_ret (sys_call c (hk_sys h)).1 in
  (fd < 0 -> socket domain type protocol h = Ok (fd, after_sys c h)) /\
  (in_table fd = true ->
   let s1 := sys_call (SysFcntl fd F_GETFL None) (sys_call c (hk_sys h)).2 in
   let s2 := sys_call (SysFcntl fd F_SETFL (Some (Z.lor (sr_ret s1.1) O_NONBLOCK))) s1.2 in
   exists h' flag, socket domain type protocol h = Ok (fd, h') /\ hk_sys h' = s2.2 /\
     hk_socks h' = <[fd := new_rpchook <| rh_domain := domain |> <| rh_user_flag := flag |>]> (hk_socks h)).
Proof using PollContract0.
  intros He c fd. assert (is_enable_sys_hook h = Ok (true, h)) as Hen by (by rewrite enabled_run, He). split.
  - intros Hneg. unfold socket. rewrite (bind_Ok _ _ _ _ _ Hen), (bind_Ok _ _ _ _ _ (g_sys_ret_run _ _)). simpl.
    fold c fd. by rewrite (proj2 (Z.ltb_lt _ _)).
  - intros Ht s1 s2. pose proof (in_table_nonneg _ Ht). set (h1 := after_sys c h).
    set (lp := new_rpchook <| rh_domain := domain |>).
    set (h2 := h1 <| hk_socks := alter (fun x => x <| rh_domain := domain |>) fd (<[fd := new_rpchook]> (hk_socks h)) |>).
    set (h3 := after_sys (SysFcntl fd F_GETFL None) h2).
    assert (hk_socks h2 !! fd = Some lp) as Hl2 by (unfold h2; simpl; by rewrite lookup_alter_eq, lookup_insert_eq).
    assert (hooked fd lp h3) as Hh3.
    { split; [|by split]. unfold h3. rewrite after_sys_enabled. unfold h2, h1.
      rewrite <- He. apply (after_sys_enabled c h). }
    set (fl := Z.lor (sr_ret s1.1) O_NONBLOCK).
    assert (Z.lor fl O_NONBLOCK = fl) as Hfl by (unfold fl; by rewrite <- Z.lor_assoc, Z.lor_diag).
    exists (after_setfl fd fl lp h3), (if sr_ret s2.1 =? 0 then fl else 0). split_and!.
    + unfold socket. rewrite (bind_Ok _ _ _ _ _ Hen), (bind_Ok _ _ _ _ _ (g_sys_ret_run _ _)). cbn [negb].
      fold c fd. rewrite (proj2 (Z.ltb_ge _ _)) by done. unfold alloc_by_fd. rewrite Ht.
      rewrite (bind_Ok _ _ _ (Some fd) (h1 <| hk_socks := <[fd := new_rpchook]> (hk_socks h1) |>)) by done.
      rewrite (bind_Ok _ _ _ fd _ eq_refl). unfold upd_hook at 1. rewrite (bind_Ok _ _ _ tt h2) by done.
      rewrite (bind_Ok _ _ _ _ _ (fcntl_getfl_run _ _ _ Ht)).
      by rewrite (bind_Ok _ _ _ _ _ (fcntl_setfl_run _ _ _ _ Hh3)).
    + unfold after_setfl. rewrite Hfl. by destruct (_ =? 0).
    + unfold after_setfl. rewrite Hfl. change (sys_call _ (hk_sys h3)) with s2.
      assert (hk_socks h3 = <[fd := lp]> (hk_socks h)) as Hs3.
      { unfold h3, h2. simpl. apply map_eq. intros k. destruct (decide (k = fd)) as [->|].
        - by rewrite lookup_alter_eq, !lookup_insert_eq.
        - by rewrite lookup_alter_ne, !lookup_insert_ne. }
      destruct (_ =? 0); [|exact Hs3].
      transitivity (<[fd := lp <| rh_user_flag := fl |>]> (hk_socks h3)); [done|].
      by rewrite Hs3, insert_insert_eq.
Qed.

(** When the kernel hands out a descriptor beyond the table of 102400
    entries, a hooked [socket] dereferences a NULL entry. *)
Theorem socket_beyond_table domain type protocol h :
  hook_enabled (hk_sys h) = true ->
  gSocketFd_len <= sr_ret (sys_call (SysSocket domain type protocol) (hk_sys h)).1 ->
  socket domain type protocol h = Fail NullDeref.
Proof using.
  intros He Hfd. unfold socket. rewrite (bind_Ok _ _ h true h) by (by rewrite enabled_run, He).
  rewrite (bind_Ok _ _ _ _ _ (g_sys_ret_run _ _)). cbn [negb]. set (fd := sr_ret _) in *.
  unfold gSocketFd_len in Hfd. rewrite (proj2 (Z.ltb_ge _ _)) by lia.
  unfold alloc_by_fd, in_table, gSocketFd_len. rewrite (proj2 (Z.ltb_ge fd _)) by lia. by rewrite andb_false_r.
Qed.

(** A hooked [close] forgets the descriptor, and only it, and returns
    what the raw close returns. *)
Theorem close_forgets fd h :
  hook_enabled (hk_sys h) = true -> in_table fd = true ->
  close fd h = Ok (sr_ret (sys_call (SysClose fd) (hk_sys h)).1,
                   (after_sys (SysClose fd) h) <| hk_socks := delete fd (hk_socks h) |>).
Proof using.
  intros He Ht. unfold close. rewrite (bind_Ok _ _ h true h) by (by rewrite enabled_run, He). cbn [negb].
  rewrite (bind_Ok _ _ _ _ _ (get_by_fd_run _ _ Ht)). destruct (hk_socks h !! fd) as [lp|] eqn:Hl.
  - unfold free_by_fd. rewrite Ht. rewrite (bind_Ok _ _ h tt (h <| hk_socks := delete fd (hk_socks h) |>)) by done.
    by rewrite g_sys_ret_run.
  - rewrite (bind_Ok _ _ h tt h) by done. rewrite g_sys_ret_run, delete_id by done. done.
Qed.

(** A receive timeout set with [setsockopt] is what the next [read] of
    the descriptor waits with: the first raw read follows one wait of
    [tv_sec * 1000 + tv_usec / 1000] ms. *)
Theorem setsockopt_read_timeout fd value tv lp nbyte h fuel :
  hooked fd lp h -> 0 < nbyte ->
  exists ret h1, setsockopt fd SOL_SOCKET SO_RCVTIMEO value tv h = Ok (ret, h1) /\
    hooked fd (lp <| rh_read_timeout := tv |>) h1 /\
    let round := read_round (SysRead fd) fd nbyte (timeval_ms tv) h1 in
    would_block round.1 = false -> 0 < sr_ret round.1 ->
    read (Datatypes.S fuel) fd nbyte h1 = Ok ((sr_ret round.1, sr_bytes round.1), round.2).
Proof using PollContract0.
  intros Hh Hn. destruct (id Hh) as (He & Ht & Hl).
  set (h0 := h <| hk_socks := alter (fun x => x <| rh_read_timeout := tv |>) fd (hk_socks h) |>).
  set (c := SysSetsockopt fd SOL_SOCKET SO_RCVTIMEO value tv).
  assert (hooked fd (lp <| rh_read_timeout := tv |>) (after_sys c h0)) as Hh1.
  { split; [|split; [done|]].
    - rewrite after_sys_enabled. exact He.
    - simpl. by rewrite lookup_alter_eq, Hl. }
  exists (sr_ret (sys_call c (hk_sys h)).1), (after_sys c h0). split_and!; [|done|].
  - unfold setsockopt. rewrite (bind_Ok _ _ h true h) by (by rewrite enabled_run, He).
    rewrite bind_assoc, (bind_Ok _ _ _ _ _ (get_by_fd_hooked _ _ _ Hh)). simpl.
    rewrite (bind_Ok _ _ h tt h0) by done. by rewrite g_sys_ret_run.
  - intros round. destruct round as [r h2] eqn:Hr. cbn [fst snd]. intros Hb Hpos.
    unfold read. rewrite (read_common_hooked _ _ _ _ _ _ Hh1).
    rewrite (bind_Ok _ _ _ _ _ (read_loop_last _ _ _ _ _ _ _ _ (proj1 Hh1) Hr Hb)).
    rewrite Z.max_r, (proj2 (Z.ltb_lt _ _)) by lia. done.
Qed.
End socket_claims.

(** * [connect] *)

Section connect.
Context {S : Type} `{!HookSys S} `{!PollContract S}.
Implicit Types h : hooks S.

(** One wait of [connect], and the events it reports. *)
Definition connect_poll (fd : Z) h : Z * list pollfd * hooks S :=
  poll_inner [mk_pollfd fd (Z.lor POLLOUT (Z.lor POLLERR POLLHUP)) 0] 10 true h.

Definition connect_events (fd : Z) h : Z :=
  match (connect_poll fd h).1.2 with f :: _ => pfd_revents f | [] => 0 end.

(** [connect_ends fd n rev h rev' h']: at most [n] more waits from [h] on, up
    to the first that returns 1; [rev'] are the events of the last one, or
    [rev] when there is none, and [h'] is the state after it. *)
Inductive connect_ends (fd : Z) : nat -> Z -> hooks S -> Z -> hooks S -> Prop :=
  | connect_spent rev h : connect_ends fd 0 rev h rev h
  | connect_reported n rev h :
      (connect_poll fd h).1.1 = 1 -> connect_ends fd (Datatypes.S n) rev h (connect_events fd h) (connect_poll fd h).2
  | connect_again n rev h rev' h' :
      (connect_poll fd h).1.1 <> 1 -> connect_ends fd n (connect_events fd h) (connect_poll fd h).2 rev' h' ->
      connect_ends fd (Datatypes.S n) rev h rev' h'.

Lemma connect_wait_ends fd n : forall rev h, hook_enabled (hk_sys h) = true ->
  exists rev' h', connect_ends fd n rev h rev' h' /\ connect_wait n fd rev h = Ok (rev', h').
Proof using PollContract0.
  induction n as [|n IH]; intros rev h He; [exists rev, h; by split; [apply connect_spent|]|]. cbn [connect_wait].
  pose proof (poll_enabled [mk_pollfd fd (Z.lor POLLOUT (Z.lor POLLERR POLLHUP)) 0] 10 true h) as He1.
  rewrite (bind_Ok _ _ _ (connect_poll fd h).1 (connect_poll fd h).2)
    by (rewrite poll_hooked by done; apply (f_equal Ok), surjective_pairing).
  rewrite He in He1. fold (connect_poll fd h) in He1.
  pose proof (connect_reported fd n rev h) as HR. pose proof (connect_again fd n rev h) as HA. unfold connect_events in *.
  destruct (connect_poll fd h) as [[r fds] h1]. cbn [fst snd] in *.
  destruct (Z.eqb_spec r 1) as [->|Hr]; [by eexists _, _; split; [apply HR|]|].
  destruct (IH (match fds with f :: _ => pfd_revents f | [] => 0 end) h1 He1) as (rev' & h' & HE & Hrun).
  exists rev', h'. split; [by apply HA|done].
Qed.

(** The state in which [connect] waits, or returns at once: the address has
    been stored in the table, if it is not larger than a [sockaddr_in]. *)
Definition connect_stored (fd : Z) (lp : rpchook_t) (address : list Z) h : hooks S :=
  let h0 := after_sys (SysConnect fd address) h in
  if Z.of_nat (length address) <=? sizeof_sockaddr_in
  then h0 <| hk_socks := <[fd := lp <| rh_dest ::= fun d => address ++ drop (length address) d |>]> (hk_socks h) |>
  else h0.

(** C34. A hooked [connect] whose raw call is in progress waits for the
    descriptor to be writable, up to the first wait that returns 1, ten times
    at most.  It returns 0, with [errno] 0, when the last wait has seen the
    descriptor writable, and the raw failure when it has not: after ten waits
    that time out, and after the first one that reports an error or a hang-up
    only.  When the raw call succeeds or fails for another reason, its result
    is returned at once. *)
Theorem connect_waits fd lp address h :
  hooked fd lp h ->
  let raw := (sys_call (SysConnect fd address) (hk_sys h)).1 in let h1 := connect_stored fd lp address h in
  if (sr_ret raw <? 0) && (sr_errno raw =? EINPROGRESS)
  then exists rev h2, connect_ends fd 10 0 h1 rev h2 /\
    connect fd address h = if negb (Z.land rev POLLOUT =? 0) then Ok (0, h2 <| hk_errno := 0 |>) else Ok (sr_ret raw, h2)
  else connect fd address h = Ok (sr_ret raw, h1).
Proof using PollContract0.
  intros Hh raw h1. destruct (id Hh) as (He & Hin & Hl). set (h0 := after_sys (SysConnect fd address) h).
  assert (connect fd address h = (e ← errno;
    if negb ((sr_ret raw <? 0) && (e =? EINPROGRESS)) then mret (sr_ret raw)
    else revents ← connect_wait 10 fd 0; if negb (Z.land revents POLLOUT =? 0) then set_errno 0;; mret 0 else mret (sr_ret raw)) h1) as ->.
  { unfold connect. rewrite (bind_Ok _ _ h true h) by (by rewrite enabled_run, He).
    rewrite (bind_Ok _ _ _ _ _ (g_sys_ret_run _ _)). cbn [negb]. fold h0 raw.
    rewrite (bind_Ok _ _ h0 (Some lp) h0) by (rewrite get_by_fd_run by done; by rewrite <- Hl).
    rewrite (bind_Ok _ _ h0 tt h1); [done|]. unfold h1, connect_stored. fold h0. destruct (_ <=? _); [|done].
    unfold upd_hook, modify. do 2 f_equal. apply (f_equal (fun m => h0 <| hk_socks := m |>)).
    change (hk_socks h0) with (hk_socks h). apply map_eq. intros x.
    destruct (decide (x = fd)) as [->|]; [by rewrite lookup_alter_eq, lookup_insert_eq, Hl|].
    by rewrite lookup_alter_ne, lookup_insert_ne. }
  assert (hook_enabled (hk_sys h1) = true /\ hk_errno h1 = hk_errno h0) as [He1 Herr].
  { unfold h1, connect_stored. fold h0. rewrite <- He, <- (after_sys_enabled (SysConnect fd address) h). by destruct (_ <=? _). }
  unfold errno. rewrite (bind_Ok _ _ h1 (hk_errno h0) h1) by (unfold gets; by rewrite Herr).
  destruct (Z.ltb_spec (sr_ret raw) 0) as [Hneg|]; [|done].
  assert (hk_errno h0 = sr_errno raw) as -> by by apply after_sys_errno.
  destruct (sr_errno raw =? EINPROGRESS); [|done]. cbn [andb negb].
  destruct (connect_wait_ends fd 10 0 h1 He1) as (rev & h2 & HE & Hrun). exists rev, h2. split; [done|].
  rewrite (bind_Ok _ _ _ _ _ Hrun). by destruct (negb _).
Qed.
End connect.

(** * Witnesses *)

Lemma fcntl_setfl_nonblocking_witness :
  exists flag, Z.testbit flag 11 = true /\ (forall i, i <> 11 -> Z.testbit flag i = Z.testbit 2 i) /\
    let r := sys_call (SysFcntl 5 F_SETFL (Some flag)) (hk_sys (demo_hooks false [good 0])) in
    exists h', fcntl 5 F_SETFL 2 (demo_hooks false [good 0]) = Ok (sr_ret r.1, h') /\ hk_sys h' = r.2 /\
      hk_socks h' = if sr_ret r.1 =? 0
                    then <[5 := new_rpchook <| rh_user_flag := 2 |>]> (hk_socks (demo_hooks false [good 0]))
                    else hk_socks (demo_hooks false [good 0]).
Proof. exact (fcntl_setfl_nonblocking 5 2 new_rpchook _ (demo_hooked false [good 0])). Defined.

Lemma socket_registers_witness :
  exists h' flag, socket 2 1 0 (demo_hooks false [good 9; good 2; good 0]) = Ok (9, h') /\
    hk_socks h' = <[9 := new_rpchook <| rh_domain := 2 |> <| rh_user_flag := flag |>]>
                    (hk_socks (demo_hooks false [good 9; good 2; good 0])).
Proof.
  destruct (socket_registers 2 1 0 (demo_hooks false [good 9; good 2; good 0])) as [_ Hok]; [reflexivity|].
  destruct (Hok eq_refl) as (h' & flag & Hrun & _ & Hs).
  exists h', flag. split; [exact Hrun|exact Hs].
Defined.

Lemma socket_beyond_table_witness :
  socket 2 1 0 (demo_hooks false [mk_sysret 102400 0 [] [] []]) = Fail NullDeref.
Proof.
  apply (socket_beyond_table 2 1 0 (demo_hooks false [mk_sysret 102400 0 [] [] []])).
  - reflexivity.
  - vm_compute. discriminate.
Defined.

Lemma close_forgets_witness :
  close 5 (demo_hooks false [good 0]) =
    Ok (0, (after_sys (SysClose 5) (demo_hooks false [good 0])) <| hk_socks := delete 5 (hk_socks (demo_hooks false [good 0])) |>).
Proof. exact (close_forgets 5 (demo_hooks false [good 0]) eq_refl eq_refl). Defined.

Lemma setsockopt_read_timeout_witness :
  exists ret h1, setsockopt 5 SOL_SOCKET SO_RCVTIMEO [] (mk_timeval 2 500000) (demo_hooks false [good 0; good 3]) = Ok (ret, h1) /\
    hooked 5 (new_rpchook <| rh_read_timeout := mk_timeval 2 500000 |>) h1 /\
    let round := read_round (SysRead 5) 5 10 (timeval_ms (mk_timeval 2 500000)) h1 in
    would_block round.1 = false -> 0 < sr_ret round.1 ->
    read 1 5 10 h1 = Ok ((sr_ret round.1, sr_bytes round.1), round.2).
Proof.
  exact (setsockopt_read_timeout 5 [] (mk_timeval 2 500000) new_rpchook 10 _ 0
    (demo_hooked false [good 0; good 3]) eq_refl).
Defined.

(** A connection in progress that is writable at the first wait. *)
Definition in_progress : sysret := mk_sysret (-1) EINPROGRESS [] [] [].

Lemma connect_waits_witness :
  exists rev h', connect_ends 5 10 0 (connect_stored 5 new_rpchook [2; 0; 0; 80] (demo_hooks false [in_progress])) rev h' /\
    connect 5 [2; 0; 0; 80] (demo_hooks false [in_progress]) = Ok (0, h' <| hk_errno := 0 |>).
Proof.
  destruct (connect_waits 5 new_rpchook [2; 0; 0; 80] (demo_hooks false [in_progress]) (demo_hooked _ _)) as (rev & h' & HE & Hrun).
  exists rev, h'. split; [exact HE|]. rewrite Hrun.
  inversion HE as [|? ? ? _ Hrev Hh'|? ? ? ? ? Hno]; [|by destruct Hno]. reflexivity.
Defined.
