(* ===== verification/SelectProps.v ===== *)
(** [select] (src/src/hook_sys_call.c) translated to [poll]: what is polled,
    what is reported, and where the translation fails; and the transparency
    of all wrappers for tasks that do not hook system calls. *)

From stdpp Require Import gmap list.
From S2P Require Import Prelude TimerWheel Events Thread Hooks HooksSpec HooksProps SocketProps.

(** The members below [nfds] of a set, ascending. *)
Definition members (nfds : Z) (set : gset Z) : list Z := filter (.∈ set) (seqZ 0 nfds).

Lemma members_singleton fd nfds : 0 <= fd < nfds -> members nfds {[fd]} = [fd].
Proof.
  intros Hfd. unfold members. replace nfds with (fd + (1 + (nfds - fd - 1))) by lia.
  rewrite seqZ_app, seqZ_app, !filter_app by lia. cbn [seqZ].
  assert (forall l : list Z, fd ∉ l -> filter (.∈ ({[fd]} : gset Z)) l = []) as Hnil.
  { induction l as [|y l IH]; intros Hl; [done|]. rewrite filter_cons_False by set_solver. apply IH. set_solver. }
  rewrite (Hnil (seqZ 0 fd)), (Hnil (seqZ (0 + fd + 1) _)) by (rewrite elem_of_seqZ; lia).
  rewrite seqZ_cons by lia. rewrite filter_cons_True by set_solver. done.
Qed.


Section loops.
Context {S : Type} `{!HookSys S} `{!PollContract S}.
Implicit Types h : hooks S.

Lemma count_set_run n : forall fd set h,
  0 <= fd -> fd + Z.of_nat n <= FD_SETSIZE ->
  count_set n fd set h = Ok (Z.of_nat (length (filter (.∈ set) (seqZ fd (Z.of_nat n)))), h).
Proof using.
  induction n as [|n IH]; intros fd set h Hfd Hn; [done|]. cbn [count_set].
  unfold FD_ISSET at 1. rewrite bool_decide_eq_true_2 by lia.
  rewrite (bind_Ok _ _ h (bool_decide (fd ∈ set)) h) by done.
  rewrite (bind_Ok _ _ _ _ _ (IH (fd + 1) set h ltac:(lia) ltac:(lia))).
  rewrite (seqZ_cons fd (Z.of_nat (Datatypes.S n))), filter_cons by lia.
  replace (Z.pred (Z.of_nat (Datatypes.S n))) with (Z.of_nat n) by lia. replace (Z.succ fd) with (fd + 1) by lia.
  case_decide as Hin; [rewrite bool_decide_eq_true_2 by done|rewrite bool_decide_eq_false_2 by done]; [|done].
  unfold mret, M_ret. do 2 f_equal. cbn [length]. lia.
Qed.

(** Every member is stored at the same index [i]. *)
Lemma fill_set_run n : forall fd set i ev l h,
  0 <= fd -> fd + Z.of_nat n <= FD_SETSIZE -> 0 <= i < Z.of_nat (length l) ->
  (forall x, l !! Z.to_nat i = Some x -> pfd_revents x = 0) ->
  fill_set n fd set i ev l h =
    Ok (foldl (fun l m => <[Z.to_nat i := mk_pollfd m ev 0]> l) l (filter (.∈ set) (seqZ fd (Z.of_nat n))), h).
Proof using.
  induction n as [|n IH]; intros fd set i ev l h Hfd Hn Hi Hrev; [done|]. cbn [fill_set].
  unfold FD_ISSET at 1. rewrite bool_decide_eq_true_2 by lia.
  rewrite (bind_Ok _ _ h (bool_decide (fd ∈ set)) h) by done.
  rewrite (seqZ_cons fd (Z.of_nat (Datatypes.S n))), filter_cons by lia.
  replace (Z.pred (Z.of_nat (Datatypes.S n))) with (Z.of_nat n) by lia. replace (Z.succ fd) with (fd + 1) by lia.
  case_decide as Hin; [rewrite bool_decide_eq_true_2 by done|rewrite bool_decide_eq_false_2 by done].
  - destruct (lookup_lt_is_Some_2 l (Z.to_nat i)) as [x Hx]; [lia|].
    rewrite (bind_Ok _ _ h (<[Z.to_nat i := mk_pollfd fd ev 0]> l) h).
    + rewrite IH; [done|lia|lia|by rewrite length_insert|]. intros y.
      rewrite list_lookup_insert_eq by lia. by intros [= <-].
    + rewrite (bind_Ok _ _ h x h).
      2: { unfold array_get. rewrite bool_decide_eq_true_2 by lia. by rewrite Hx. }
      unfold array_set. rewrite bool_decide_eq_true_2 by lia.
      unfold mret, M_ret. do 4 f_equal. rewrite <- (Hrev x Hx). by destruct x.
  - rewrite (bind_Ok _ _ h l h) by done. apply IH; [lia|lia|done|done].
Qed.

(** So the last one, the largest, remains. *)
Lemma foldl_insert_last {A} (l : list A) i (f : Z -> A) ms :
  foldl (fun l m => <[i := f m]> l) l ms = match last ms with Some m => <[i := f m]> l | None => l end.
Proof using.
  induction ms as [|m ms IH] using rev_ind; [done|].
  rewrite foldl_app, last_snoc, IH. simpl. destruct (last ms); [|done]. by rewrite list_insert_insert_eq.
Qed.

Lemma count_opt_run nfds set h :
  0 <= nfds <= FD_SETSIZE ->
  count_opt nfds (Some set) h = Ok (Z.of_nat (length (members nfds set)), h).
Proof using.
  intros Hn. unfold count_opt, members. rewrite count_set_run by lia. by rewrite Z2Nat.id by lia.
Qed.
End loops.

Section select_claims.
Context {S : Type} `{!HookSys S} `{!PollContract S}.
Implicit Types h : hooks S.

(** The immediate check of [select] found nothing. *)
Definition nothing_yet (nfds : Z) (sets : list (option (gset Z))) h : Prop :=
  hook_enabled (hk_sys h) = true /\
  sr_ret (sys_call (SysSelect nfds sets (Some (mk_timeval 0 0))) (hk_sys h)).1 = 0.

(** What a hooked [select] on read descriptors alone polls, with [ms] its
    members: the largest one for input, and descriptor 0 for nothing, once
    for each of the other members. *)
Definition select_polled (ms : list Z) : list pollfd :=
  match last ms with
  | Some m => mk_pollfd m POLLIN 0 :: replicate (pred (length ms)) (mk_pollfd 0 0 0)
  | None => []
  end.

Lemma fill_read_run nfds set h :
  0 <= nfds <= FD_SETSIZE ->
  fill_opt nfds (Some set) 0 POLLIN (replicate (length (members nfds set)) (mk_pollfd 0 0 0)) h =
    Ok (select_polled (members nfds set), h).
Proof using All.
  intros Hn. unfold fill_opt. destruct (members nfds set) as [|m ms] eqn:Hm.
  - cut (forall n fd, 0 <= fd -> fd + Z.of_nat n <= nfds ->
         fill_set n fd set 0 POLLIN [] h = Ok ([], h)).
    { intros Hf. apply Hf; lia. }
    induction n as [|n IH]; intros fd Hfd Hle; [done|]. cbn [fill_set]. unfold FD_ISSET.
    rewrite bool_decide_eq_true_2 by lia. rewrite (bind_Ok _ _ h (bool_decide (fd ∈ set)) h) by done.
    rewrite bool_decide_eq_false_2; [rewrite (bind_Ok _ _ h [] h) by done; apply IH; lia|].
    intros Hin. assert (fd ∈ members nfds set) as Hx; [|rewrite Hm in Hx; set_solver].
    apply list_elem_of_filter. split; [done|]. apply elem_of_seqZ. lia.
  - rewrite fill_set_run; [|lia|lia|rewrite length_replicate; simpl; lia|by intros x [= <-]].
    rewrite Z2Nat.id by lia. fold (members nfds set). rewrite Hm, foldl_insert_last.
    unfold select_polled. rewrite last_cons. by destruct (last ms).
Qed.

(** Without write and exception sets, the poll of [select] and what follows. *)
Lemma select_read_run garbage nfds rs tv h :
  0 <= nfds <= FD_SETSIZE -> nothing_yet nfds [Some rs; None; None] h ->
  let h1 := after_sys (SysSelect nfds [Some rs; None; None] (Some (mk_timeval 0 0))) h in
  let polled := poll_inner (select_polled (members nfds rs)) (timeval_ms tv) true h1 in
  select garbage nfds (Some rs) None None (Some tv) h =
    if polled.1.1 <=? 0 then Ok ((garbage, (Some rs, None, None)), polled.2)
    else select_results polled.1.2 (Some rs) None None 0 polled.2.
Proof using PollContract0.
  intros Hn [He Hz] h1 polled. unfold select.
  rewrite (bind_Ok _ _ h true h) by (by rewrite enabled_run, He).
  rewrite (bind_Ok _ _ _ _ _ (g_sys_run _ _)), Hz. cbn [negb Z.eqb]. fold h1.
  rewrite (bind_Ok _ _ _ _ _ (count_opt_run _ _ _ Hn)), !(bind_Ok (count_opt _ None) _ h1 0 h1) by done.
  rewrite !Z.add_0_r, Nat2Z.id, (bind_Ok _ _ _ _ _ (fill_read_run _ _ _ Hn)).
  rewrite !(bind_Ok (fill_opt _ None _ _ _) _ h1 (select_polled (members nfds rs)) h1) by done.
  erewrite bind_Ok.
  2: { rewrite poll_hooked; [apply (f_equal Ok), surjective_pairing|].
       unfold h1. by rewrite after_sys_enabled. }
  fold polled. destruct polled as [[n fds] h2]. cbn [fst snd]. by destruct (n <=? 0).
Qed.

(** A hooked [select] on a single read descriptor works through [poll]:
    when the immediate check finds nothing it polls exactly that descriptor
    for input with the given timeout, and when that reports an event it
    returns 1 with the descriptor in the set. *)
Theorem select_single_read garbage nfds fd tv h :
  0 <= fd < nfds -> nfds <= FD_SETSIZE -> nothing_yet nfds [Some {[fd]}; None; None] h ->
  let h1 := after_sys (SysSelect nfds [Some {[fd]}; None; None] (Some (mk_timeval 0 0))) h in
  let polled := poll_inner [mk_pollfd fd POLLIN 0] (timeval_ms tv) true h1 in
  0 < polled.1.1 ->
  select garbage nfds (Some {[fd]}) None None (Some tv) h = Ok ((1, (Some {[fd]}, None, None)), polled.2).
Proof using PollContract0.
  intros Hfd Hn Hy h1 polled Hp.
  pose proof (members_singleton _ _ Hfd) as Hm.
  rewrite select_read_run by (done || lia). rewrite Hm. fold h1. change (select_polled [fd]) with [mk_pollfd fd POLLIN 0].
  fold polled. rewrite (proj2 (Z.leb_gt _ _)) by done.
  pose proof (poll_shape [mk_pollfd fd POLLIN 0] (timeval_ms tv) true h1) as Hs. fold polled in Hs.
  destruct polled as [[n fds] h2]. cbn [fst snd] in *. destruct fds as [|f [|]]; [done| |done].
  injection Hs as Hf Hev. cbn [select_results]. rewrite Hev, Hf. unfold set_ready, FD_SET.
  unfold FD_SETSIZE in *. rewrite bool_decide_eq_true_2 by lia. mrun. by rewrite union_idemp_L.
Qed.

(** C35. A hooked [select] on several read descriptors polls only the largest
    of them (and descriptor 0, for no event, in place of each of the others);
    when that poll times out or fails it returns the value of an
    uninitialised variable and leaves the set as it was. *)
Theorem select_polls_largest_only garbage nfds rs tv h :
  0 <= nfds <= FD_SETSIZE -> nothing_yet nfds [Some rs; None; None] h ->
  let h1 := after_sys (SysSelect nfds [Some rs; None; None] (Some (mk_timeval 0 0))) h in
  let polled := poll_inner (select_polled (members nfds rs)) (timeval_ms tv) true h1 in
  polled.1.1 <= 0 ->
  select garbage nfds (Some rs) None None (Some tv) h = Ok ((garbage, (Some rs, None, None)), polled.2).
Proof using PollContract0.
  intros Hn Hy h1 polled Hp. rewrite select_read_run by done. fold h1 polled.
  by rewrite (proj2 (Z.leb_le _ _)).
Qed.

(** A hooked [select] on one write descriptor alone writes beyond its
    array of [pollfd]s: the array has one element and the write set is stored
    at index 1. *)
Theorem select_write_only_overflows garbage nfds fd tv h :
  0 <= fd < nfds -> nfds <= FD_SETSIZE -> nothing_yet nfds [None; Some {[fd]}; None] h ->
  select garbage nfds None (Some {[fd]}) None (Some tv) h = Fail OutOfBounds.
Proof using PollContract0.
  intros Hfd Hn [He Hz]. unfold select.
  rewrite (bind_Ok _ _ h true h) by (by rewrite enabled_run, He).
  rewrite (bind_Ok _ _ _ _ _ (g_sys_run _ _)), Hz. cbn [negb Z.eqb].
  set (h1 := after_sys _ h). unfold FD_SETSIZE in Hn.
  rewrite !(bind_Ok (count_opt _ None) _ h1 0 h1) by done.
  rewrite (bind_Ok _ _ _ _ _ (count_opt_run nfds {[fd]} h1 ltac:(unfold FD_SETSIZE; lia))).
  rewrite !(bind_Ok (count_opt _ None) _ h1 0 h1) by done.
  rewrite members_singleton by done. cbn [length].
  rewrite (bind_Ok (fill_opt _ None _ _ _) _ h1 [mk_pollfd 0 0 0] h1) by done.
  cut (forall n x, 0 <= x <= fd -> fd < x + Z.of_nat n <= 1024 ->
    fill_set n x {[fd]} 1 POLLOUT [mk_pollfd 0 0 0] h1 = Fail OutOfBounds).
  { intros Hf. unfold mbind at 1, M_bind at 1. unfold fill_opt.
    by rewrite (Hf (Z.to_nat nfds) 0 ltac:(lia) ltac:(lia)). }
  induction n as [|n IH]; intros x Hx Hxn; [lia|]. cbn [fill_set]. unfold FD_ISSET, FD_SETSIZE.
  rewrite bool_decide_eq_true_2 by lia. rewrite (bind_Ok _ _ h1 (bool_decide (x ∈ ({[fd]} : gset Z))) h1) by done.
  destruct (decide (x = fd)) as [->|].
  - by rewrite bool_decide_eq_true_2 by set_solver.
  - rewrite bool_decide_eq_false_2 by set_solver. rewrite (bind_Ok _ _ h1 [mk_pollfd 0 0 0] h1) by done. apply IH; lia.
Qed.

(** [fcntl(fd, F_SETFL, flags)] of a task that has not enabled hooking. *)
Lemma fcntl_setfl_raw fd flags h : hook_enabled (hk_sys h) = false -> 0 <= fd ->
  let c := SysFcntl fd F_SETFL (Some flags) in
  exists socks, fcntl fd F_SETFL flags h = Ok (sr_ret (sys_call c (hk_sys h)).1, (after_sys c h) <| hk_socks := socks |>) /\
    forall x, x <> fd -> socks !! x = hk_socks h !! x.
Proof using.
  intros He Hfd c. assert (exists lp, get_by_fd fd h = Ok (lp, h)) as [lp Hlp] by (unfold get_by_fd; destruct (in_table fd); by eexists).
  unfold fcntl. rewrite (proj2 (Z.ltb_ge fd 0)), (bind_Ok _ _ _ _ _ Hlp) by done.
  cbn [orb Z.eqb F_SETFL F_DUPFD F_SETFD F_SETOWN F_GETLK F_SETLK F_SETLKW F_GETFD F_GETFL F_GETOWN Pos.eqb].
  rewrite (bind_Ok _ _ _ _ _ (enabled_run h)), He. cbn [andb]. rewrite (bind_Ok _ _ _ _ _ (g_sys_ret_run _ _)). fold c.
  set (r := sr_ret _). change (hk_socks h) with (hk_socks (after_sys c h)). generalize (after_sys c h). intros h1. destruct (_ && _).
  - exists (alter (fun x => x <| rh_user_flag := flags |>) fd (hk_socks h1)). unfold upd_hook.
    rewrite (bind_Ok _ _ h1 tt _ eq_refl). split; [done|]. intros x Hx. by rewrite lookup_alter_ne.
  - exists (hk_socks h1). rewrite (bind_Ok _ _ h1 tt h1) by done. split; [by destruct h1|done].
Qed.

(** C27. For a task that has not enabled hooking, and for code outside any
    task, the wrappers of socket, accept, connect, close, read, recv, write,
    send, poll, __poll, select, sleep, usleep, nanosleep and setsockopt are the
    raw calls.  [fcntl] of a descriptor that is not negative passes the flags
    of F_SETFL on as they are and returns what the raw call returns (it still
    records them for a registered descriptor).  [gethostbyname] is not among
    them: it calls a null pointer. *)
Theorem hooks_transparent h :
  hook_enabled (hk_sys h) = false ->
  (forall d t p, socket d t p h = g_sys_ret (SysSocket d t p) h) /\
  (forall fuel fd, accept fuel fd h = g_sys_ret (SysAccept fd) h) /\
  (forall fd a, connect fd a h = g_sys_ret (SysConnect fd a) h) /\
  (forall fd, close fd h = g_sys_ret (SysClose fd) h) /\
  (forall fuel fd n, read fuel fd n h = (r ← g_sys (SysRead fd n); mret (sr_ret r, sr_bytes r)) h) /\
  (forall fuel fd n fl, recv fuel fd n fl h = (r ← g_sys (SysRecv fd n fl); mret (sr_ret r, sr_bytes r)) h) /\
  (forall fuel fd d, write fuel fd d h = g_sys_ret (SysWrite fd d) h) /\
  (forall fuel fd d fl, send fuel fd d fl h = g_sys_ret (SysSend fd d fl) h) /\
  (forall fds t, poll fds t h = (r ← g_sys (SysPoll fds t); mret (sr_ret r, sr_fds r)) h) /\
  (forall g n r w e t, select g n r w e t h =
     (x ← g_sys (SysSelect n [r; w; e] t); mret (sr_ret x, select_sets x (r, w, e))) h) /\
  (forall s, sleep s h = g_sys_ret (SysSleep s) h) /\
  (forall u, usleep u h = g_sys_ret (SysUsleep u) h) /\
  (forall s n, nanosleep s n h = g_sys_ret (SysNanosleep s n) h) /\
  (forall fd l o v tv, setsockopt fd l o v tv h = g_sys_ret (SysSetsockopt fd l o v tv) h) /\
  (forall fds t, __poll fds t h = (r ← g_sys (SysPoll fds t); mret (sr_ret r, sr_fds r)) h) /\
  (forall fd flags, 0 <= fd -> let c := SysFcntl fd F_SETFL (Some flags) in
     exists socks, fcntl fd F_SETFL flags h = Ok (sr_ret (sys_call c (hk_sys h)).1, (after_sys c h) <| hk_socks := socks |>) /\
       forall x, x <> fd -> socks !! x = hk_socks h !! x).
Proof using.
  intros He. assert (is_enable_sys_hook h = Ok (false, h)) as Hen by (by rewrite enabled_run, He).
  assert (forall fd, exists lp, get_by_fd fd h = Ok (lp, h)) as Hg by (intros fd; unfold get_by_fd; destruct in_table; eauto).
  assert (forall fuel sys fd n, read_common fuel sys fd n h = (r ← g_sys (sys n); mret (sr_ret r, sr_bytes r)) h) as Hr.
  { intros fuel sys fd n. unfold read_common. rewrite (bind_Ok _ _ _ _ _ Hen). destruct (Hg fd) as [lp Hlp].
    by rewrite (bind_Ok _ _ _ _ _ Hlp). }
  assert (forall fuel sys fd d, write_common fuel sys fd d h = g_sys_ret (sys d) h) as Hw.
  { intros fuel sys fd d. unfold write_common. rewrite (bind_Ok _ _ _ _ _ Hen). destruct (Hg fd) as [lp Hlp].
    by rewrite (bind_Ok _ _ _ _ _ Hlp). }
  split_and!; intros; unfold read, recv, write, send, socket, accept, connect, close, poll, select, sleep, usleep,
    nanosleep, setsockopt, __poll, poll; rewrite ?Hr, ?Hw; try rewrite (bind_Ok _ _ _ _ _ Hen); cbn [negb]; try done.
  - rewrite g_sys_ret_run. by rewrite (bind_Ok _ _ _ _ _ (g_sys_ret_run _ _)).
  - rewrite g_sys_ret_run. by rewrite (bind_Ok _ _ _ _ _ (g_sys_ret_run _ _)).
  - by apply fcntl_setfl_raw.
Qed.
End select_claims.

(** * Witnesses *)

Definition demo_select : hooks script := demo_hooks false [good 0].

Lemma select_single_read_witness :
  select 99 6 (Some {[5]}) None None (Some (mk_timeval 1 0)) demo_select =
    Ok ((1, (Some {[5]}, None, None)),
        after_sys (SysSelect 6 [Some {[5]}; None; None] (Some (mk_timeval 0 0))) demo_select).
Proof.
  exact (select_single_read 99 6 5 (mk_timeval 1 0) demo_select ltac:(lia) ltac:(vm_compute; discriminate)
    (conj eq_refl eq_refl) eq_refl).
Defined.

Lemma select_polls_largest_only_witness :
  select_polled (members 8 {[3; 5; 7]}) = [mk_pollfd 7 POLLIN 0; mk_pollfd 0 0 0; mk_pollfd 0 0 0] /\
  exists h', select 99 8 (Some {[3; 5; 7]}) None None (Some (mk_timeval 1 0)) (demo_hooks true [good 0]) =
    Ok ((99, (Some {[3; 5; 7]}, None, None)), h').
Proof.
  split; [vm_compute; reflexivity|]. eexists.
  apply (select_polls_largest_only 99 8 {[3; 5; 7]} (mk_timeval 1 0) (demo_hooks true [good 0])).
  - unfold FD_SETSIZE. lia.
  - split; reflexivity.
  - vm_compute. discriminate.
Defined.

Lemma select_write_only_overflows_witness :
  select 99 6 None (Some {[5]}) None (Some (mk_timeval 1 0)) demo_select = Fail OutOfBounds.
Proof.
  apply (select_write_only_overflows 99 6 5 (mk_timeval 1 0) demo_select).
  - lia.
  - vm_compute. discriminate.
  - split; reflexivity.
Defined.

Definition demo_plain : hooks script := mk_hooks {[5 := new_rpchook]} 0 (mk_script [good 3] [] [] false false).

Lemma hooks_transparent_witness : sleep 3 demo_plain = g_sys_ret (SysSleep 3) demo_plain.
Proof.
  destruct (hooks_transparent demo_plain) as (_ & _ & _ & _ & _ & _ & _ & _ & _ & _ & Hs & _); [reflexivity|].
  exact (Hs 3).
Defined.
