(* ===== verification/HooksTable.v ===== *)
(** The table of sockets is well formed: an entry belongs to a descriptor that
    the table has room for, and its [dest] is a whole [struct sockaddr_in].
    Every hooked call keeps it so, [connect] because it compares the length
    of the address before it copies. *)

From stdpp Require Import gmap list.
From S2P Require Import Prelude TimerWheel Events Thread Hooks HooksProps.

(** [sizeof dest] *)
Definition entry_ok (lp : rpchook_t) : Prop := Z.of_nat (length (rh_dest lp)) = sizeof_sockaddr_in.

Definition table_ok {S} (h : hooks S) : Prop := map_Forall (fun fd lp => in_table fd = true /\ entry_ok lp) (hk_socks h).

Definition keeps_table {S} (h h' : hooks S) : Prop := table_ok h -> table_ok h'.

#[export] Instance keeps_table_preorder S : PreOrder (@keeps_table S).
Proof. split; [by intros h H|]. intros h1 h2 h3 H1 H2 H. by apply H2, H1. Qed.

(** What runs while a coroutine is in [poll_inner] are hooked calls. *)
Class TableContract (S : Type) `{!HookSys S} : Prop :=
  poll_keeps_table : forall fds t b h, keeps_table h (poll_inner fds t b h).2.

Section table.
Context {S : Type} `{!HookSys S} `{!TableContract S}.
Notation MH := (M (hooks S)).
Notation keeps := (always (@keeps_table S)).

Lemma same_table (h h' : hooks S) : hk_socks h' = hk_socks h -> keeps_table h h'.
Proof using. intros Heq. unfold keeps_table, table_ok. by rewrite Heq. Qed.

Lemma new_entry_ok : entry_ok new_rpchook.
Proof using. done. Qed.

Lemma table_get_by_fd fd : keeps (get_by_fd fd).
Proof using. unfold get_by_fd. case_match; auto with always. Qed.

Lemma table_alloc fd : keeps (alloc_by_fd fd).
Proof using.
  unfold alloc_by_fd. destruct (in_table fd) eqn:Hfd; [|auto with always].
  apply always_bind; [apply _| |auto with always]. apply always_modify. intros h H. simpl. unfold table_ok. simpl.
  by apply map_Forall_insert_2.
Qed.

Lemma table_free fd : keeps (free_by_fd fd).
Proof using.
  unfold free_by_fd. case_match; [|auto with always]. apply always_modify. intros h Hh. unfold table_ok. simpl.
  by apply map_Forall_delete.
Qed.

(** An update keeps the size of [dest]. *)
Lemma table_upd fd f : (forall lp, entry_ok lp -> entry_ok (f lp)) -> keeps (upd_hook fd f).
Proof using.
  intros Hf. apply always_modify. intros h H fd' lp. simpl. rewrite lookup_alter_Some.
  intros [(-> & lp0 & Hlp & ->)|[_ Hlp]]; [|by apply H]. destruct (H fd' lp0 Hlp). split; [done|by apply Hf].
Qed.

Lemma table_g_sys c : keeps (g_sys c).
Proof using.
  unfold g_sys. apply always_state. intros h. destruct (sys_call c (hk_sys h)) as [r s]. repeat wstep. by apply same_table.
Qed.

Lemma table_call_poll fds t b : keeps (call_poll_inner fds t b).
Proof using All.
  unfold call_poll_inner. apply always_state. intros h. pose proof (poll_keeps_table fds t b h) as H.
  destruct (poll_inner fds t b h) as [[r fds'] h']. by repeat wstep.
Qed.

#[local] Hint Resolve table_get_by_fd table_alloc table_free table_g_sys table_call_poll : always.
#[local] Hint Extern 2 (always keeps_table (modify _)) => apply always_modify; intros; by apply same_table : always.
#[local] Hint Extern 2 (always keeps_table (upd_hook _ _)) => apply table_upd; by intros : always.

Lemma table_g_sys_ret c : keeps (g_sys_ret c).
Proof using. unfold g_sys_ret. always_auto. Qed.
Lemma table_enabled : keeps is_enable_sys_hook.
Proof using. unfold is_enable_sys_hook. always_auto. Qed.
Lemma table_timed_out : keeps timed_out.
Proof using. unfold timed_out. always_auto. Qed.
Lemma table_errno : keeps errno.
Proof using. unfold errno. always_auto. Qed.
Lemma table_set_errno e : keeps (set_errno e).
Proof using. unfold set_errno. always_auto. Qed.
#[local] Hint Resolve table_g_sys_ret table_enabled table_timed_out table_errno table_set_errno : always.

Lemma table_poll fds t : keeps (poll fds t).
Proof using All. unfold poll. always_auto. Qed.
Lemma table_fcntl fd cmd p : keeps (fcntl fd cmd p).
Proof using. unfold fcntl. always_auto. Qed.
Lemma table_close fd : keeps (close fd).
Proof using. unfold close. always_auto. Qed.
#[local] Hint Resolve table_poll table_fcntl table_close : always.

Lemma table_socket d ty p : keeps (socket d ty p).
Proof using. unfold socket. always_auto. Qed.

Lemma table_accept_loop fuel : forall l fd, keeps (accept_loop fuel l fd).
Proof using All. induction fuel as [|fuel IH]; intros l fd; cbn [accept_loop]; always_auto. Qed.
#[local] Hint Resolve table_accept_loop : always.

Lemma table_accept fuel l : keeps (accept fuel l).
Proof using All. unfold accept. always_auto. Qed.

Lemma table_connect_wait n fd : forall rev, keeps (connect_wait n fd rev).
Proof using All. induction n as [|n IH]; intros rev; cbn [connect_wait]; always_auto. Qed.
#[local] Hint Resolve table_connect_wait : always.

(** Only an address that fits is copied. *)
Lemma copy_address_ok address lp :
  (Z.of_nat (length address) <=? sizeof_sockaddr_in) = true -> entry_ok lp ->
  entry_ok (lp <| rh_dest ::= fun d => address ++ drop (length address) d |>).
Proof using. unfold entry_ok. simpl. rewrite length_app, length_drop. intros ?%Z.leb_le ?. lia. Qed.

Lemma table_connect fd address : keeps (connect fd address).
Proof using All.
  unfold connect. apply always_bind; [apply _|auto with always|intros en].
  apply always_bind; [apply _|auto with always|intros ret]. case_match; [auto with always|].
  apply always_bind; [apply _|auto with always|intros [lp|]]; [|auto with always].
  apply always_bind; [apply _| |intros _; always_auto].
  destruct (_ <=? _) eqn:Hlen; [|auto with always]. apply table_upd. intros lp'. by apply copy_address_ok.
Qed.

Lemma table_wait_io_ready fd events t : keeps (wait_io_ready fd events t).
Proof using All. unfold wait_io_ready. always_auto. Qed.
#[local] Hint Resolve table_wait_io_ready : always.

Lemma table_read_loop fuel sys fd n t : keeps (read_loop fuel sys fd n t).
Proof using All. induction fuel as [|fuel IH]; cbn [read_loop]; always_auto. Qed.

Lemma table_write_loop fuel sys fd t buf : forall n ret, keeps (write_loop fuel sys fd t buf n ret).
Proof using All. induction fuel as [|fuel IH]; intros n ret; cbn [write_loop]; always_auto. Qed.
#[local] Hint Resolve table_read_loop table_write_loop : always.

Lemma table_read_common fuel sys fd n : keeps (read_common fuel sys fd n).
Proof using All. unfold read_common. always_auto. Qed.

Lemma table_write_common fuel sys fd buf : keeps (write_common fuel sys fd buf).
Proof using All. unfold write_common. always_auto. Qed.

Lemma table_FD_ISSET fd set : keeps (FD_ISSET fd set).
Proof using. unfold FD_ISSET. always_auto. Qed.
Lemma table_FD_SET fd set : keeps (FD_SET fd set).
Proof using. unfold FD_SET. always_auto. Qed.
#[local] Hint Resolve table_read_common table_write_common table_FD_ISSET table_FD_SET : always.

Lemma table_count_set n : forall fd set, keeps (count_set n fd set).
Proof using. induction n as [|n IH]; intros fd set; cbn [count_set]; always_auto. Qed.

Lemma table_fill_set n : forall fd set i ev fds, keeps (fill_set n fd set i ev fds).
Proof using. induction n as [|n IH]; intros fd set i ev fds; cbn [fill_set]; always_auto. Qed.
#[local] Hint Resolve table_count_set table_fill_set : always.

Lemma table_results fds : forall r w e ret, keeps (select_results fds r w e ret).
Proof using. induction fds as [|f fds IH]; intros r w e ret; cbn [select_results]; unfold set_ready; always_auto. Qed.
#[local] Hint Resolve table_results : always.

Lemma table_select g n r w e t : keeps (select g n r w e t).
Proof using All. unfold select, count_opt, fill_opt. always_auto. Qed.
#[local] Hint Resolve table_socket table_accept table_connect table_select : always.

(** * Programs of hooked calls *)

Inductive hooked_call :=
  | HPoll (fds : list pollfd) (timeout : Z)
  | HFcntl (fd cmd param : Z)
  | HSocket (domain type protocol : Z)
  | HClose (fd : Z)
  | HAccept (fuel : nat) (fd : Z)
  | HConnect (fd : Z) (address : list Z)
  | HRead (fuel : nat) (fd nbyte : Z)
  | HRecv (fuel : nat) (fd nbyte flags : Z)
  | HWrite (fuel : nat) (fd : Z) (buf : list Z)
  | HSend (fuel : nat) (fd : Z) (buf : list Z) (flags : Z)
  | HSelect (garbage nfds : Z) (r w e : option (gset Z)) (timeout : option timeval)
  | HSleep (seconds : Z)
  | HUsleep (usec : Z)
  | HNanosleep (sec nsec : Z)
  | HSetsockopt (fd level name : Z) (value : list Z) (tv : timeval).

(** The call, without its results. *)
Definition do_call (c : hooked_call) : MH unit :=
  match c with
  | HPoll fds t => poll fds t;; mret tt
  | HFcntl fd cmd p => fcntl fd cmd p;; mret tt
  | HSocket d ty p => socket d ty p;; mret tt
  | HClose fd => close fd;; mret tt
  | HAccept fuel fd => accept fuel fd;; mret tt
  | HConnect fd address => connect fd address;; mret tt
  | HRead fuel fd n => read fuel fd n;; mret tt
  | HRecv fuel fd n flags => recv fuel fd n flags;; mret tt
  | HWrite fuel fd buf => write fuel fd buf;; mret tt
  | HSend fuel fd buf flags => send fuel fd buf flags;; mret tt
  | HSelect g n r w e t => select g n r w e t;; mret tt
  | HSleep n => sleep n;; mret tt
  | HUsleep n => usleep n;; mret tt
  | HNanosleep n m => nanosleep n m;; mret tt
  | HSetsockopt fd l n v tv => setsockopt fd l n v tv;; mret tt
  end.

Fixpoint do_calls (cs : list hooked_call) : MH unit :=
  match cs with
  | [] => mret tt
  | c :: cs' => do_call c;; do_calls cs'
  end.

Lemma table_do_call c : keeps (do_call c).
Proof using All.
  destruct c; cbn [do_call]; unfold read, recv, write, send, sleep, usleep, nanosleep, doSleep, setsockopt; always_auto.
Qed.

Lemma table_do_calls cs : keeps (do_calls cs).
Proof using All.
  induction cs as [|c cs IH]; cbn [do_calls]; [auto with always|].
  apply always_bind; [apply _|apply table_do_call|done].
Qed.

(** C22. The type invariant of [gSocketFd]: from the empty table of the start,
    after any sequence of hooked calls with any arguments, every entry is at
    the index of a descriptor between 0 and 102399, and its [dest] is still 16
    bytes: [connect] copies no address that is longer. *)
Theorem table_well_formed cs e s h :
  do_calls cs (mk_hooks ∅ e s) = Ok (tt, h) ->
  forall fd lp, hk_socks h !! fd = Some lp -> 0 <= fd < gSocketFd_len /\ length (rh_dest lp) = 16%nat.
Proof using All.
  intros Hrun fd lp Hlp.
  assert (table_ok h) as H by (apply (wp_Ok _ _ any_error _ _ _ (table_do_calls cs _) Hrun), map_Forall_empty).
  destruct (H fd lp Hlp) as [Ht He]. unfold in_table, entry_ok, sizeof_sockaddr_in in *. split; lia.
Qed.
End table.

#[export] Instance script_table : TableContract script.
Proof. intros fds t b h. simpl. by case_match. Qed.

(** A socket that connects to an address of 16 bytes, and to one of 20. *)
Definition demo_calls : list hooked_call :=
  [HSocket 2 1 0; HConnect 5 (replicate 16 9); HConnect 5 (replicate 20 9); HClose 7].
Definition demo_answers : script := mk_script [good 5; good 0; good 0; good 0; good 0] [] [] true false.

Definition demo_table : hooks script :=
  match do_calls demo_calls (mk_hooks ∅ 0 demo_answers) with Ok (_, h) => h | Fail _ => mk_hooks ∅ 0 demo_answers end.
Definition demo_entry : rpchook_t := default new_rpchook (hk_socks demo_table !! 5).

Lemma demo_table_run : do_calls demo_calls (mk_hooks ∅ 0 demo_answers) = Ok (tt, demo_table).
Proof.
  unfold demo_table. assert ((if do_calls demo_calls (mk_hooks ∅ 0 demo_answers) then true else false) = true) as H by by vm_compute.
  by destruct (do_calls _ _) as [[[] h]|].
Qed.

Lemma table_well_formed_witness :
  rh_dest demo_entry = replicate 16 9 /\ 0 <= 5 < gSocketFd_len /\ length (rh_dest demo_entry) = 16%nat.
Proof.
  split; [vm_compute; reflexivity|].
  apply (table_well_formed demo_calls 0 demo_answers demo_table demo_table_run 5). vm_compute. reflexivity.
Defined.
