(* ===== verification/AcceptProps.v ===== *)
(** [accept] in general (src/src/hook_sys_call.c): it waits as long as the raw
    call would block, and registers the connection it gets, or closes the
    listening socket when the task's time is up. *)

From stdpp Require Import gmap list.
From S2P Require Import Prelude TimerWheel Events Thread Hooks HooksSpec HooksProps SocketProps.

Section accept.
Context {S : Type} `{!HookSys S} `{!PollContract S}.
Implicit Types h : hooks S.

(** One wait for a connection. *)
Definition accept_wait (l : Z) h : Z * list pollfd * hooks S :=
  poll_inner [mk_pollfd l (Z.lor POLLIN (Z.lor POLLERR POLLHUP)) 0] (-1) false h.

(** [awaits l k r h r' h']: a raw accept has returned [r] in state [h]; after
    [k] more waits, none of which ends with the task's time up, one has
    returned [r'] in [h'], which is not "would block". *)
Inductive awaits (l : Z) : nat -> sysret -> hooks S -> sysret -> hooks S -> Prop :=
  | awaits_last r h : would_block r = false -> awaits l 0 r h r h
  | awaits_again k r h r' h' :
      would_block r = true ->
      (accept_wait l h).1.1 <=? 0 = false \/ task_timed_out (hk_sys (accept_wait l h).2) = false ->
      awaits l k (sys_call (SysAccept l) (hk_sys (accept_wait l h).2)).1 (after_sys (SysAccept l) (accept_wait l h).2) r' h' ->
      awaits l (Datatypes.S k) r h r' h'.

(** [late l k r h h']: the same, but in state [h'] the [k + 1]st wait has ended
    without an event because the task's time is up. *)
Inductive late (l : Z) : nat -> sysret -> hooks S -> hooks S -> Prop :=
  | late_last r h :
      would_block r = true -> (accept_wait l h).1.1 <= 0 -> task_timed_out (hk_sys (accept_wait l h).2) = true ->
      late l 0 r h (accept_wait l h).2
  | late_again k r h h' :
      would_block r = true ->
      (accept_wait l h).1.1 <=? 0 = false \/ task_timed_out (hk_sys (accept_wait l h).2) = false ->
      late l k (sys_call (SysAccept l) (hk_sys (accept_wait l h).2)).1 (after_sys (SysAccept l) (accept_wait l h).2) h' ->
      late l (Datatypes.S k) r h h'.

Lemma awaits_enabled l k r h r' h' : awaits l k r h r' h' -> hook_enabled (hk_sys h') = hook_enabled (hk_sys h).
Proof using PollContract0.
  induction 1 as [|k r h r' h' _ _ _ IH]; [done|]. rewrite IH, after_sys_enabled. apply poll_enabled.
Qed.

(** A round of the loop, after a raw call that would block. *)
Lemma accept_loop_wait fuel l r h :
  would_block r = true -> hk_errno h = sr_errno r ->
  accept_loop (Datatypes.S fuel) l (sr_ret r) h =
    (let '(n, _, h1) := accept_wait l h in
     if (n <=? 0) && task_timed_out (hk_sys h1) then (close l;; set_errno EBADF;; mret (-1, false)) h1
     else accept_loop fuel l (sr_ret (sys_call (SysAccept l) (hk_sys h1)).1) (after_sys (SysAccept l) h1)).
Proof using.
  intros Hb Herr. cbn [accept_loop]. unfold would_block in Hb. apply andb_true_iff in Hb as [Hneg Hb]. rewrite Hneg. unfold errno.
  rewrite (bind_Ok _ _ h (sr_errno r) h) by (unfold gets; by rewrite Herr). rewrite Hb.
  rewrite (bind_Ok _ _ _ _ _ (call_poll_inner_run _ _ _ _)). fold (accept_wait l h).
  destruct (accept_wait l h) as [[n fds] h1]. cbn [fst snd]. unfold timed_out.
  rewrite (bind_Ok _ _ h1 (task_timed_out (hk_sys h1)) h1) by done. destruct (_ && _); [done|].
  by rewrite (bind_Ok _ _ _ _ _ (g_sys_ret_run _ _)).
Qed.

Lemma goes_on_false (n : Z) (b : bool) : n <=? 0 = false \/ b = false -> (n <=? 0) && b = false.
Proof using. intros [-> | ->]; by rewrite ?andb_false_r. Qed.

Lemma accept_loop_run l k r h r' h' : awaits l k r h r' h' -> forall fuel,
  (sr_ret r < 0 -> hk_errno h = sr_errno r) -> (k < fuel)%nat ->
  accept_loop fuel l (sr_ret r) h = Ok ((sr_ret r', negb (sr_ret r' <? 0)), h').
Proof using PollContract0.
  induction 1 as [r h Hb|k r h r' h' Hb Hw HA IH]; intros fuel Herr Hf; (destruct fuel as [|fuel]; [lia|]).
  - cbn [accept_loop]. destruct (Z.ltb_spec (sr_ret r) 0) as [Hneg|]; [|done]. unfold errno.
    rewrite (bind_Ok _ _ h (sr_errno r) h) by (unfold gets; by rewrite Herr).
    unfold would_block in Hb. rewrite (proj2 (Z.ltb_lt _ _)) in Hb by done. simpl in Hb. by rewrite Hb.
  - rewrite accept_loop_wait by (done || (apply Herr; by apply would_block_neg)).
    destruct (accept_wait l h) as [[n fds] h1]. cbn [fst snd] in *. rewrite goes_on_false by done.
    apply IH; [|lia]. intros Hn. by apply after_sys_errno.
Qed.

(** The listening socket is closed and forgotten. *)
Lemma close_listener l h : hook_enabled (hk_sys h) = true -> in_table l = true ->
  exists h', (close l;; set_errno EBADF;; mret (-1, false)) h = Ok ((-1, false), h') /\ hk_errno h' = EBADF /\
    hk_sys h' = (sys_call (SysClose l) (hk_sys h)).2 /\ hk_socks h' = delete l (hk_socks h).
Proof using PollContract0. intros He Hin. rewrite (bind_Ok _ _ _ _ _ (close_forgets _ _ He Hin)). by eexists. Qed.

Lemma accept_loop_late l k r h h1 : late l k r h h1 -> forall fuel,
  (sr_ret r < 0 -> hk_errno h = sr_errno r) -> (k < fuel)%nat -> hook_enabled (hk_sys h) = true -> in_table l = true ->
  exists h', accept_loop fuel l (sr_ret r) h = Ok ((-1, false), h') /\ hk_errno h' = EBADF /\
    hk_sys h' = (sys_call (SysClose l) (hk_sys h1)).2 /\ hk_socks h' = delete l (hk_socks h1).
Proof using PollContract0.
  induction 1 as [r h Hb Hn Ht|k r h h' Hb Hw HA IH]; intros fuel Herr Hf He Hin; (destruct fuel as [|fuel]; [lia|]);
    rewrite accept_loop_wait by (done || (apply Herr; by apply would_block_neg));
    pose proof (poll_enabled [mk_pollfd l (Z.lor POLLIN (Z.lor POLLERR POLLHUP)) 0] (-1) false h) as Hen;
    fold (accept_wait l h) in Hen; destruct (accept_wait l h) as [[n fds] h1]; cbn [fst snd] in *.
  - rewrite (proj2 (Z.leb_le _ _)), Ht by done. apply close_listener; [by rewrite Hen|done].
  - rewrite goes_on_false by done. apply IH; [intros Hn; by apply after_sys_errno|lia| |done].
    by rewrite after_sys_enabled, Hen.
Qed.

(** What [accept] leaves in the table for a connection. *)
Definition accepted (flags : option Z) : rpchook_t :=
  match flags with Some f => new_rpchook <| rh_user_flag := f |> | None => new_rpchook end.

(** The registration of the connection. *)
Lemma accept_register fd h :
  hook_enabled (hk_sys h) = true -> in_table fd = true ->
  exists h' flags,
    (lp ← alloc_by_fd fd;
     current_flags ← fcntl fd F_GETFL 0;
     let flag := Z.lor current_flags O_NONBLOCK in
     ret ← fcntl fd F_SETFL flag;
     (match lp with
      | Some l => if ret =? 0 then upd_hook l (fun x => x <| rh_user_flag := current_flags |>) else mret tt
      | None => mret tt
      end);;
     mret fd) h = Ok (fd, h') /\
    hk_socks h' = <[fd := accepted flags]> (hk_socks h) /\ hook_enabled (hk_sys h') = true.
Proof using PollContract0.
  intros He Ht. unfold alloc_by_fd. rewrite Ht.
  set (h1 := h <| hk_socks := <[fd := new_rpchook]> (hk_socks h) |>). rewrite (bind_Ok _ _ h (Some fd) h1) by done.
  rewrite (bind_Ok _ _ _ _ _ (fcntl_getfl_run _ _ _ Ht)). set (h2 := after_sys (SysFcntl fd F_GETFL None) h1).
  set (fl := sr_ret (sys_call (SysFcntl fd F_GETFL None) (hk_sys h1)).1). cbv zeta.
  assert (hooked fd new_rpchook h2) as Hh2.
  { split; [|split; [done|apply lookup_insert_eq]]. unfold h2. by rewrite after_sys_enabled. }
  rewrite (bind_Ok _ _ _ _ _ (fcntl_setfl_run _ (Z.lor fl O_NONBLOCK) _ _ Hh2)). unfold after_setfl.
  set (c := SysFcntl fd F_SETFL _). set (h3 := after_sys c h2).
  assert (hook_enabled (hk_sys h3) = true) as He3 by (unfold h3; rewrite after_sys_enabled; apply Hh2).
  destruct (_ =? 0).
  - eexists _, (Some fl). split; [done|]. split; [|done]. cbn.
    apply map_eq. intros i. destruct (decide (i = fd)) as [->|Hne].
    + by rewrite lookup_alter_eq, !lookup_insert_eq.
    + by rewrite lookup_alter_ne, !lookup_insert_ne.
  - exists h3, None. split; [done|]. by split.
Qed.

(** A descriptor beyond the table gets no entry. *)
Lemma accept_beyond fd h : gSocketFd_len <= fd ->
  exists h',
    (lp ← alloc_by_fd fd;
     current_flags ← fcntl fd F_GETFL 0;
     let flag := Z.lor current_flags O_NONBLOCK in
     ret ← fcntl fd F_SETFL flag;
     (match lp with
      | Some l => if ret =? 0 then upd_hook l (fun x => x <| rh_user_flag := current_flags |>) else mret tt
      | None => mret tt
      end);;
     mret fd) h = Ok (fd, h') /\ hk_socks h' = hk_socks h.
Proof using.
  intros Hfd. assert (in_table fd = false) as Ht by (unfold in_table; rewrite andb_false_iff; right; by apply Z.ltb_ge).
  assert (forall h1, get_by_fd fd h1 = Ok (None, h1)) as Hg by (intros h1; unfold get_by_fd; by rewrite Ht).
  unfold alloc_by_fd. rewrite Ht, (bind_Ok _ _ h None h) by done. unfold gSocketFd_len in Hfd.
  assert (forall p h1, fcntl fd F_GETFL p h1 = Ok ((sr_ret (sys_call (SysFcntl fd F_GETFL None) (hk_sys h1)).1), after_sys (SysFcntl fd F_GETFL None) h1)) as Hget.
  { intros p h1. unfold fcntl. rewrite (proj2 (Z.ltb_ge fd 0)), (bind_Ok _ _ _ _ _ (Hg h1)) by lia. by rewrite <- g_sys_ret_run. }
  rewrite (bind_Ok _ _ _ _ _ (Hget 0 h)). cbv zeta. set (h1 := after_sys _ h). set (p := Z.lor _ _).
  assert (fcntl fd F_SETFL p h1 = Ok ((sr_ret (sys_call (SysFcntl fd F_SETFL (Some p)) (hk_sys h1)).1), after_sys (SysFcntl fd F_SETFL (Some p)) h1)) as Hset.
  { unfold fcntl. rewrite (proj2 (Z.ltb_ge fd 0)), (bind_Ok _ _ _ _ _ (Hg h1)) by lia. cbn [Z.eqb F_SETFL F_DUPFD F_SETFD F_SETOWN F_GETLK F_SETLK F_SETLKW F_GETFD F_GETFL F_GETOWN Pos.eqb orb].
    rewrite (bind_Ok _ _ _ _ _ (enabled_run h1)), bool_decide_eq_false_2, andb_false_r by (by intros []).
    rewrite (bind_Ok _ _ _ _ _ (g_sys_ret_run _ _)), andb_false_r. by rewrite (bind_Ok _ _ _ tt _ eq_refl). }
  rewrite (bind_Ok _ _ _ _ _ Hset). eexists. split; [done|]. done.
Qed.

(** [accept] returns the descriptor of [r], having registered it. *)
Definition accept_gives (l : Z) h (fuel : nat) (r : sysret) h1 : Prop :=
  exists h' flags, accept fuel l h = Ok (sr_ret r, h') /\
    hk_socks h' = <[sr_ret r := accepted flags]> (hk_socks h1) /\ hook_enabled (hk_sys h') = true.

(** The part of [accept] up to its loop. *)
Lemma accept_starts l lp h fuel : hooked l lp h ->
  accept fuel l h =
    ('(fd, ok) ← accept_loop fuel l (sr_ret (sys_call (SysAccept l) (hk_sys h)).1);
     if negb (ok : bool) then mret fd
     else
       lp ← alloc_by_fd fd;
       current_flags ← fcntl fd F_GETFL 0;
       let flag := Z.lor current_flags O_NONBLOCK in
       ret ← fcntl fd F_SETFL flag;
       (match lp with
        | Some l => if ret =? 0 then upd_hook l (fun x => x <| rh_user_flag := current_flags |>) else mret tt
        | None => mret tt
        end);;
       mret fd) (after_sys (SysAccept l) h).
Proof using.
  intros Hh. unfold accept. rewrite (bind_Ok _ _ h true h) by (by rewrite enabled_run, (proj1 Hh)). cbn [negb].
  rewrite (bind_Ok _ _ _ _ _ (get_by_fd_hooked _ _ _ Hh)), (bind_Ok _ _ h tt h) by done. by rewrite (bind_Ok _ _ _ _ _ (g_sys_ret_run _ _)).
Qed.

Lemma accept_ends l lp h fuel k r h1 :
  hooked l lp h -> (k < fuel)%nat ->
  awaits l k (sys_call (SysAccept l) (hk_sys h)).1 (after_sys (SysAccept l) h) r h1 ->
  (sr_ret r < 0 -> accept fuel l h = Ok (sr_ret r, h1)) /\ (in_table (sr_ret r) = true -> accept_gives l h fuel r h1) /\
  (gSocketFd_len <= sr_ret r -> exists h', accept fuel l h = Ok (sr_ret r, h') /\ hk_socks h' = hk_socks h1).
Proof using PollContract0.
  intros Hh Hf HA. pose proof (awaits_enabled _ _ _ _ _ _ HA) as He1. rewrite after_sys_enabled, (proj1 Hh) in He1.
  unfold accept_gives. rewrite (accept_starts _ _ _ _ Hh).
  rewrite (bind_Ok _ _ _ _ _ (accept_loop_run _ _ _ _ _ _ HA fuel (fun H => after_sys_errno _ _ _ H eq_refl) Hf)). split; [|split].
  - intros Hneg. by rewrite (proj2 (Z.ltb_lt _ _)).
  - intros Ht. pose proof (in_table_nonneg _ Ht). rewrite (proj2 (Z.ltb_ge _ _)) by done. cbn [negb].
    by apply accept_register.
  - intros Hfd. rewrite (proj2 (Z.ltb_ge _ _)) by (unfold gSocketFd_len in Hfd; lia). cbn [negb]. by apply accept_beyond.
Qed.

(** C23. A hooked [accept] of a registered listening socket waits as long as
    the raw call would block and the task's time is not up.  The first other
    raw result is returned: a failure as it is; a descriptor that fits the
    table of sockets after it has been entered there, with the default timeouts
    and no other entry changed; a larger one without an entry.  When a wait
    ends without an event because the time is up, the listening socket is
    closed and forgotten, and -1 is returned with [errno] EBADF.  One unit of
    fuel per wait is enough. *)
Theorem accept_returns_connection l lp h fuel k h1 :
  hooked l lp h -> (k < fuel)%nat -> let raw := (sys_call (SysAccept l) (hk_sys h)).1 in let h0 := after_sys (SysAccept l) h in
  (forall r, awaits l k raw h0 r h1 ->
     (sr_ret r < 0 -> accept fuel l h = Ok (sr_ret r, h1)) /\
     (in_table (sr_ret r) = true -> exists h' flags, accept fuel l h = Ok (sr_ret r, h') /\
        hk_socks h' = <[sr_ret r := accepted flags]> (hk_socks h1) /\ hook_enabled (hk_sys h') = true) /\
     (gSocketFd_len <= sr_ret r -> exists h', accept fuel l h = Ok (sr_ret r, h') /\ hk_socks h' = hk_socks h1)) /\
  (late l k raw h0 h1 -> exists h', accept fuel l h = Ok (-1, h') /\ hk_errno h' = EBADF /\
     hk_sys h' = (sys_call (SysClose l) (hk_sys h1)).2 /\ hk_socks h' = delete l (hk_socks h1)).
Proof using PollContract0.
  intros Hh Hf raw h0. split; [intros r; by apply (accept_ends l lp)|]. intros HL. destruct (id Hh) as (He & Hin & _).
  destruct (accept_loop_late _ _ _ _ _ HL fuel (fun H => after_sys_errno _ _ _ H eq_refl) Hf) as (h' & Hrun & ?); [|done|].
  { unfold h0. by rewrite after_sys_enabled. }
  exists h'. split; [|done]. rewrite (accept_starts _ _ _ _ Hh). by rewrite (bind_Ok _ _ _ _ _ Hrun).
Qed.
End accept.

(** The first raw accept would block; the second has a connection. *)
Definition demo_answered : hooks script :=
  mk_hooks {[5 := new_rpchook]} EAGAIN (mk_script [good 2; good 0] [] [SysAccept 5; SysAccept 5] true false).

Lemma accept_returns_connection_witness :
  (exists h' flags, accept 2 5 (demo_hooks false [again; good 8; good 2; good 0]) = Ok (8, h') /\
     hk_socks h' = <[8 := accepted flags]> (hk_socks demo_answered)) /\
  (exists h', accept 1 5 (demo_hooks true [again; good 0]) = Ok (-1, h') /\ hk_errno h' = EBADF /\ hk_socks h' = ∅).
Proof.
  split.
  - destruct (proj1 (accept_returns_connection 5 new_rpchook (demo_hooks false [again; good 8; good 2; good 0]) 2 1
      demo_answered (demo_hooked _ _) ltac:(lia)) (good 8)) as (_ & Hin & _).
    + eapply awaits_again; [reflexivity|by right|]. by apply awaits_last.
    + destruct (Hin eq_refl) as (h' & flags & Hrun & Hs & _). exists h', flags. split; [exact Hrun|exact Hs].
  - destruct (proj2 (accept_returns_connection 5 new_rpchook (demo_hooks true [again; good 0]) 1 0
      (after_sys (SysAccept 5) (demo_hooks true [again; good 0])) (demo_hooked _ _) ltac:(lia))) as (h' & Hrun & Herr & _ & Hs).
    + refine (late_last 5 _ (after_sys (SysAccept 5) (demo_hooks true [again; good 0])) _ _ _); [reflexivity|vm_compute; discriminate|reflexivity].
    + exists h'. split; [exact Hrun|]. split; [exact Herr|]. rewrite Hs. reflexivity.
Defined.
