(* ===== verification/Examples.v ===== *)
(** The example programs (src/example/echoserver.c, sleep_coroutine.c), as
    clients of the hooked calls and of [coroutine_new_task].

    The echo server is a listener that creates a task per connection, and the
    handler [echo] that sends back what it receives.  [buf] is the handler's
    array with its bounds, and the descriptor reaches the handler through a
    pointer to the listener's variable, as in the program. *)

From stdpp Require Import gmap list.
From S2P Require Import Prelude TimerWheel Events Thread Hooks HooksSpec.

(** What the program prints. *)
Inductive line :=
  | L_timeout
  | L_in_echo
  | L_recv (text : list Z) (n : Z)
  | L_end (count : Z)
  | L_in_listener.

Record server (S : Type) := mk_server {
  sv_hooks : hooks S;
  sv_count : Z;              (* count *)
  sv_fd : Z;                 (* the variable fd of the listener *)
  sv_out : list line;
  sv_handlers : list Z       (* the variable fd of each handler started *)
}.
Arguments mk_server {S}.
Arguments sv_hooks {S}. Arguments sv_count {S}. Arguments sv_fd {S}. Arguments sv_out {S}. Arguments sv_handlers {S}.
#[export] Instance eta_server S : Eta (server S) := fun r => 
  mk_server (sv_hooks r) (sv_count r) (sv_fd r) (sv_out r) (sv_handlers r).

(** [sizeof(buf)] *)
Definition sizeof_buf : Z := 1024.

(** The string at the start of an array, for [%s]. *)
Fixpoint c_string (buf : list Z) : list Z :=
  match buf with
  | [] => []
  | b :: buf' => if b =? 0 then [] else b :: c_string buf'
  end.

(** [data] is stored at the start of [buf]. *)
Definition overwrite (data buf : list Z) : list Z := data ++ drop (length data) buf.

(** The functions of the program, and [&fd]. *)
Definition echo_fun : coroutine_fun_t := F_user 1.
Definition listener_fun : coroutine_fun_t := F_user 2.
Definition timeout_fun : coroutine_fun_t := F_user 3.
Definition fd_var : void_ptr := VUser 1.

(** [attr] of a connection, and of the listener. *)
Definition conn_attr : coroutine_task_attr_t := mk_attr 1 5000 fd_var (Some echo_fun) (Some timeout_fun).
Definition listener_attr : coroutine_task_attr_t := mk_attr 1 (-1) VNull (Some listener_fun) None.

(** [main] sets [stack_size] only; [garbage] is what [task_per_thread] holds. *)
Definition main_options (garbage : Z) : coroutine_options_t := coroutine_init_env (mk_options (8 * 1024) garbage).

(** Linux, x86-64 *)
Definition AF_INET : Z := 2.
Definition SOCK_STREAM : Z := 1.
Definition SO_REUSEADDR : Z := 2.
Definition htons (port : Z) : Z := Z.land port 255 * 256 + port / 256.

(** What the server uses besides the hooked calls.  [start_task] is
    [coroutine_new_task] up to the call of the new task's function: the
    function and the argument it is called with, or nothing when no task is
    free.  [run_on] is what follows the first lines of this function: the rest
    of it and the other coroutines, until the caller is switched in again. *)
Class TaskSys (S : Type) := {
  start_task : coroutine_task_attr_t -> M (hooks S) (option (coroutine_fun_t * void_ptr));
  run_on : server S -> server S
}.

(** What [coroutine_new_task] promises: the task runs the function of its
    attributes on the argument of its attributes; the table of descriptors is
    not touched; and without a task nothing has happened. *)
Class TaskContract (S : Type) `{!TaskSys S} := {
  task_runs : forall attr h fn arg h', start_task attr h = Ok (Some (fn, arg), h') ->
    attr_fun attr = Some fn /\ arg = attr_arg attr /\ hk_socks h' = hk_socks h;
  no_task : forall attr h h', start_task attr h = Ok (None, h') -> h' = h
}.

Section echo.
Context {S : Type} `{!HookSys S}.
Notation MV := (M (server S)).

Definition on_hooks {A} (m : M (hooks S) A) : MV A := fun v =>
  match m (sv_hooks v) with
  | Ok (a, h) => Ok (a, v <| sv_hooks := h |>)
  | Fail e => Fail e
  end.

Definition printf (l : line) : MV unit := modify (fun v => v <| sv_out ::= fun o => o ++ [l] |>).

(** The callback of a task whose time is up. *)
Definition timeout : MV unit := printf L_timeout.

(** The loop of [echo]; [rf] bounds the rounds of one hooked call. *)
Fixpoint echo_loop (fuel rf : nat) (fd : Z) (buf : list Z) : MV unit :=
  match fuel with
  | O => fail OutOfFuel
  | Datatypes.S fuel' =>
      '(n, data) ← on_hooks (recv rf fd sizeof_buf 0);
      let buf := overwrite data buf in
      if n <=? 0 then on_hooks (close fd);; mret tt
      else
        buf ← array_set buf n 0;
        printf (L_recv (c_string buf) n);;
        n ← on_hooks (send rf fd (take (Z.to_nat n) buf) 0);
        if n <=? 0 then on_hooks (close fd);; mret tt
        else echo_loop fuel' rf fd buf
  end.

(** [*((int* )arg)]: the one [int] that is passed is the listener's [fd]. *)
Definition load_int (arg : void_ptr) : MV Z :=
  match arg with
  | VNull => fail NullDeref
  | _ => if bool_decide (arg = fd_var) then gets sv_fd else fail BadPointer
  end.

(** The start of [echo], up to its first call. *)
Definition echo_enter (arg : void_ptr) : MV Z :=
  fd ← load_int arg;
  printf L_in_echo;;
  mret fd.

(** [buf] is the indeterminate content of the array. *)
Definition echo (fuel rf : nat) (buf : list Z) (arg : void_ptr) : MV unit :=
  fd ← echo_enter arg;
  echo_loop fuel rf fd buf;;
  modify (fun v => v <| sv_count := to_int (sv_count v + 1) |>);;
  v ← get;
  printf (L_end (sv_count v)).

(** * The listener *)

Context `{!TaskSys S}.

Definition bind (fd port : Z) : MV Z := on_hooks (g_sys_ret (SysBind fd AF_INET port)).

Definition listen (fd backlog : Z) : MV Z := on_hooks (g_sys_ret (SysListen fd backlog)).

(** The first lines of a function of the program, called on [arg]. *)
Definition call_fun (fn : coroutine_fun_t) (arg : void_ptr) : MV unit :=
  if bool_decide (fn = echo_fun) then
    fd ← echo_enter arg;
    modify (fun v => v <| sv_handlers ::= fun l => l ++ [fd] |>)
  else if bool_decide (fn = listener_fun) then printf L_in_listener
  else if bool_decide (fn = timeout_fun) then timeout
  else fail BadPointer.

(** [coroutine_new_task(&attr)]: the new task runs before the call returns. *)
Definition new_handler (attr : coroutine_task_attr_t) : MV Z :=
  started ← on_hooks (start_task attr);
  match started with
  | Some (fn, arg) =>
      call_fun fn arg;;
      modify run_on;;
      mret 0
  | None => mret (-1)
  end.

(** One round of the loop of [listener]. *)
Definition listener_round (rf : nat) (socket_desc : Z) : MV unit :=
  fd ← on_hooks (accept rf socket_desc);
  modify (fun v => v <| sv_fd := fd |>);;
  if 0 <? fd then new_handler conn_attr;; mret tt else mret tt.

Fixpoint listener_loop (rounds rf : nat) (socket_desc : Z) : MV unit :=
  match rounds with
  | O => mret tt
  | Datatypes.S n => listener_round rf socket_desc;; listener_loop n rf socket_desc
  end.

(** [rounds] rounds of its endless loop. *)
Definition listener (rounds rf : nat) : MV unit :=
  printf L_in_listener;;
  socket_desc ← on_hooks (socket AF_INET SOCK_STREAM 0);
  fl ← on_hooks (fcntl socket_desc F_GETFL 0);
  on_hooks (fcntl socket_desc F_SETFL (Z.lor fl O_NONBLOCK));;
  bind socket_desc (htons 28888);;
  on_hooks (setsockopt socket_desc SOL_SOCKET SO_REUSEADDR [1; 0; 0; 0] (mk_timeval 1 0));;
  listen socket_desc 20000;;
  listener_loop rounds rf socket_desc.
End echo.

(** * sleep_coroutine.c: [fun1] sleeps 1 second a round, [fun2] 5 *)

Section sleepers.
Context {S : Type} `{!HookSys S}.

(** [rounds] rounds of the loop: [n] lines have been printed. *)
Fixpoint sleep_rounds (rounds : nat) (seconds n : Z) : M (hooks S) Z :=
  match rounds with
  | O => mret n
  | Datatypes.S k =>
      let n := n + 1 in
      sleep seconds;;
      sleep_rounds k seconds n
  end.

Definition fun1 (rounds : nat) : M (hooks S) Z := sleep_rounds rounds 1 0.
Definition fun2 (rounds : nat) : M (hooks S) Z := sleep_rounds rounds 5 0.
End sleepers.
