(* ===== verification/ExampleMain.v ===== *)
(** The [main] functions of the example programs (src/example/echoserver.c,
    sleep_coroutine.c): what they call, and what becomes of it in a thread
    that is not initialised yet. *)

From stdpp Require Import gmap list.
From S2P Require Import Prelude TimerList TimerListSpec ListProgram TimerWheel TimerWheelSpec TimerFrame Context Events.
From S2P Require Import Thread ThreadSpec Sched Coroutine TaskPool CtlInv Poll MemInv MemPoll CtlSteps.
From S2P Require Import System Boot ThreadProps NestProps Hooks Examples.

(** A call of [main]. *)
Inductive main_call :=
  | MC_init_env (options : coroutine_options_t)
  | MC_new_task (attr : coroutine_task_attr_t)
  | MC_eventloop.

(** [options] has [stack_size] set only. *)
Definition echo_main (garbage : Z) : list main_call :=
  [ MC_init_env (mk_options (8 * 1024) garbage); MC_new_task listener_attr; MC_eventloop ].

Definition fun1_fun : coroutine_fun_t := F_user 11.
Definition fun2_fun : coroutine_fun_t := F_user 12.

(** The same [attr] is passed twice, with another function. *)
Definition sleep_main (garbage : Z) : list main_call :=
  [ MC_init_env (mk_options (8 * 1024) garbage); MC_new_task (mk_attr 1 (-1) VNull (Some fun1_fun) None);
    MC_new_task (mk_attr 1 (-1) VNull (Some fun2_fun) None); MC_eventloop ].

Section main.
Context {K : Type} `{!EpollKernel K}.

(** One call, up to its first switch. *)
Definition do_main_call (epfd : Z) (now : timeval) (c : main_call) : M (world K) unit :=
  match c with
  | MC_init_env options => modify (fun w => w <| w_options := coroutine_init_env options |>)
  | MC_new_task attr => coroutine_new_task epfd now attr U_main;; mret tt
  | MC_eventloop => eventloop_start epfd now now
  end.

Fixpoint do_main_calls (epfd : Z) (now : timeval) (cs : list main_call) : M (world K) unit :=
  match cs with
  | [] => mret tt
  | c :: cs' => do_main_call epfd now c;; do_main_calls epfd now cs'
  end.

(** The first task of [main] initialises the thread.  Unless the number of
    tasks, which is not initialised, happens to be 1 (or negative), this
    stores behind the array of the pool. *)
Lemma main_overflows (w : world K) epfd now garbage attr cs :
  blank w now -> w_env w = None -> garbage = 0 \/ 2 <= garbage < 2 ^ 31 ->
  do_main_calls epfd now (MC_init_env (mk_options (8 * 1024) garbage) :: MC_new_task attr :: cs) w = Fail OutOfBounds.
Proof using.
  intros Hb He Hg. cbn [do_main_calls do_main_call]. set (o := coroutine_init_env (mk_options (8 * 1024) garbage)).
  assert (2 <= opt_task_per_thread o < 2 ^ 31) as Ho.
  { unfold o, coroutine_init_env, kDefaultTaskPerThread. cbn. destruct (Z.eqb_spec garbage 0); cbn; lia. }
  set (w1 := w <| w_options := o |>). rewrite (bind_Ok _ _ w tt w1) by done.
  assert (blank w1 now) as Hb1 by (destruct Hb; by split).
  pose proof (init_overflows w1 1 epfd now Hb1 ltac:(cbn; lia)) as Hrun.
  unfold coroutine_new_task, do_init_curr_thread_env.
  rewrite !bind_assoc, (bind_Ok _ _ _ _ _ (get_curr_thread_env_run _ (bl_pid _ _ Hb1))). change (w_env w1) with (w_env w). rewrite He.
  unfold mbind, M_bind. by rewrite Hrun.
Qed.

Lemma echo_main_overflows (w : world K) epfd now garbage :
  blank w now -> w_env w = None -> garbage = 0 \/ 2 <= garbage < 2 ^ 31 -> do_main_calls epfd now (echo_main garbage) w = Fail OutOfBounds.
Proof using. apply main_overflows. Qed.

Lemma sleep_main_overflows (w : world K) epfd now garbage :
  blank w now -> w_env w = None -> garbage = 0 \/ 2 <= garbage < 2 ^ 31 -> do_main_calls epfd now (sleep_main garbage) w = Fail OutOfBounds.
Proof using. apply main_overflows. Qed.
End main.
