(* ===== verification/EchoProps.v ===== *)
(** The handler of the echo server: what it receives it sends back, and it
    closes its connection and ends; and the round of its listener, against the
    contract of [coroutine_new_task]. *)

From stdpp Require Import gmap list.
From S2P Require Import Prelude TimerWheel Events Thread Hooks HooksSpec HooksProps SocketProps AcceptProps Examples.

(** * The connection

    What the peer has sent and been sent, as the kernel accounts for it:
    [received] are the bytes that [recv] has handed over, and [coming] bounds
    the calls of [recv] until the peer's end of file.  While a coroutine
    waits, no other one reads from, writes to or closes its descriptor. *)
Class PeerContract (S : Type) `{!HookSys S} (fd : Z) `{!WriteContract (fun d => SysSend fd d 0)} := {
  received : S -> list Z;
  coming : S -> nat;
  recv_gives : forall n s, 0 < n -> let r := sys_call (SysRecv fd n 0) s in
    sr_ret r.1 <= n /\ (0 < sr_ret r.1 -> length (sr_bytes r.1) = Z.to_nat (sr_ret r.1)) /\
    received r.2 = received s ++ (if 0 <? sr_ret r.1 then sr_bytes r.1 else []) /\
    sent r.2 = sent s /\ (credit r.2 <= credit s)%nat /\
    if (0 <? sr_ret r.1) || would_block r.1 then (coming r.2 < coming s)%nat else (coming r.2 <= coming s)%nat;
  send_keeps : forall d s, let s' := (sys_call (SysSend fd d 0) s).2 in
    received s' = received s /\ (coming s' <= coming s)%nat;
  wait_keeps : forall fds t b h, let h' := (poll_inner fds t b h).2 in
    received (hk_sys h') = received (hk_sys h) /\ (coming (hk_sys h') <= coming (hk_sys h))%nat /\
    hk_socks h' !! fd = hk_socks h !! fd;
  close_keeps : forall s, let s' := (sys_call (SysClose fd) s).2 in received s' = received s /\ sent s' = sent s
}.

Section proofs.
Context {S : Type} `{!HookSys S} `{!PollContract S} (fd : Z) `{!WriteContract (fun d => SysSend fd d 0)}.
Context `{!PeerContract S fd}.
Implicit Types h : hooks S.
Implicit Types v : server S.

(** What the calls of the handler leave alone, except [received] and [sent]. *)
Record calm h h' : Prop := {
  ca_coming : (coming (hk_sys h') <= coming (hk_sys h))%nat;
  ca_credit : (credit (hk_sys h') <= credit (hk_sys h))%nat;
  ca_entry : hk_socks h' !! fd = hk_socks h !! fd;
  ca_enabled : hook_enabled (hk_sys h') = hook_enabled (hk_sys h)
}.

#[local] Instance calm_preorder : PreOrder calm.
Proof using. split; [by split|]. intros h1 h2 h3 [] []. split; congruence || lia. Qed.

Lemma calm_hooked lp h h' : calm h h' -> hooked fd lp h -> hooked fd lp h'.
Proof using. intros [_ _ He Hen] (H1 & H2 & H3). split_and!; congruence. Qed.

Lemma calm_wait events t h : calm h (after_wait fd events t h) /\
  received (hk_sys (after_wait fd events t h)) = received (hk_sys h) /\ sent (hk_sys (after_wait fd events t h)) = sent (hk_sys h).
Proof using PollContract0.
  unfold after_wait. destruct (wait_keeps (fd := fd) [mk_pollfd fd events 0] t true h) as (H1 & H2 & H3).
  split; [split; [done|apply wait_credit|done|apply poll_enabled]|]. split; [done|apply wait_sends_nothing].
Qed.

(** The end of a connection. *)
Lemma close_run lp h : hooked fd lp h ->
  exists r h', close fd h = Ok (r, h') /\ hk_socks h' !! fd = None /\
    received (hk_sys h') = received (hk_sys h) /\ sent (hk_sys h') = sent (hk_sys h).
Proof using.
  intros Hh. destruct (close_keeps (fd := fd) (hk_sys h)) as [HR HS]. unfold close, is_enable_sys_hook, free_by_fd, g_sys_ret.
  rewrite (bind_Ok _ _ h true h) by (mrun; by rewrite (proj1 Hh)). cbn [negb].
  rewrite (bind_Ok _ _ _ _ _ (get_by_fd_hooked _ _ _ Hh)). destruct Hh as (_ & Ht & _). rewrite Ht.
  set (h1 := h <| hk_socks := delete fd (hk_socks h) |>). rewrite (bind_Ok _ _ h tt h1) by done.
  rewrite (bind_Ok _ _ _ _ _ (g_sys_run _ _)). eexists _, _. split; [done|]. split; [apply lookup_delete_eq|done].
Qed.

(** * Receiving *)

Notation sys := (fun n => SysRecv fd n 0).

(** One round of [recv]. *)
Lemma round_spec n t h : 0 < n ->
  let r := read_round sys fd n t h in
  calm h r.2 /\ sent (hk_sys r.2) = sent (hk_sys h) /\ sr_ret r.1 <= n /\
  (0 < sr_ret r.1 -> length (sr_bytes r.1) = Z.to_nat (sr_ret r.1)) /\
  received (hk_sys r.2) = received (hk_sys h) ++ (if 0 <? sr_ret r.1 then sr_bytes r.1 else []) /\
  ((0 <? sr_ret r.1) || would_block r.1 = true -> (coming (hk_sys r.2) < coming (hk_sys h))%nat).
Proof using PollContract0.
  intros Hn. unfold read_round. destruct (calm_wait (Z.lor POLLIN (Z.lor POLLERR POLLHUP)) t h) as (HC & HR & HS).
  set (h1 := after_wait _ _ _ h) in *. destruct (recv_gives (fd := fd) n (hk_sys h1) Hn) as (G1 & G2 & G3 & G4 & G5 & G6).
  cbn [fst snd]. unfold after_sys. cbn [hk_sys hk_socks set_field]. set (r := sys_call _ _) in *. destruct HC as [C1 C2 C3 C4].
  split_and!; [split; cbn; [case_match; lia|lia|done|unfold r; by rewrite sys_enabled]|congruence|done|done|congruence|].
  intros Hb. rewrite Hb in G6. lia.
Qed.

(** [recv] gets to the end of its rounds. *)
Lemma rounds_exist n t : 0 < n -> forall m h, (coming (hk_sys h) < m)%nat ->
  exists k r h', rounds sys fd n t k h r h' /\ (k <= coming (hk_sys h))%nat /\ calm h h' /\ sent (hk_sys h') = sent (hk_sys h) /\
    sr_ret r <= n /\ (0 < sr_ret r -> length (sr_bytes r) = Z.to_nat (sr_ret r)) /\
    received (hk_sys h') = received (hk_sys h) ++ (if 0 <? sr_ret r then sr_bytes r else []) /\
    (0 < sr_ret r -> (coming (hk_sys h') < coming (hk_sys h))%nat) /\
    exists s, r = (sys_call (SysRecv fd n 0) s).1.
Proof using PollContract0.
  intros Hn. induction m as [|m IH]; intros h Hm; [lia|].
  destruct (round_spec n t h Hn) as (HC & HS & H1 & H2 & H3 & H4). destruct (read_round sys fd n t h) as [r h1] eqn:Hr. cbn [fst snd] in *.
  assert (exists s, r = (sys_call (SysRecv fd n 0) s).1) as Hs by (injection Hr as <- _; by eexists).
  destruct (would_block r) eqn:Hb.
  - rewrite orb_true_r in H4. specialize (H4 eq_refl).
    assert ((0 <? sr_ret r) = false) as Hneg.
    { unfold would_block in Hb. apply andb_true_iff in Hb as [Hb _]. destruct (Z.ltb_spec 0 (sr_ret r)); [lia|done]. }
    rewrite Hneg, app_nil_r in H3.
    destruct (IH h1) as (k & r' & h' & HR & Hk & HC' & HS' & G1 & G2 & G3 & G4 & G5); [lia|].
    exists (Datatypes.S k), r', h'. split; [by eapply rounds_again|]. split; [lia|]. split; [by transitivity h1|].
    split_and!; [congruence|done|done|congruence| |done]. intros Hp. specialize (G4 Hp). lia.
  - rewrite orb_false_r in H4. exists 0%nat, r, h1. split; [by apply rounds_last|]. split_and!; [lia|done|done|done|done|done| |done].
    intros Hp. apply H4. by apply Z.ltb_lt.
Qed.

(** * Sending *)

Notation send_sys := (fun d => SysSend fd d 0).

(** The kernel takes something or asks to wait. *)
Definition takes_all : Prop := forall d s, d <> [] -> let r := (sys_call (SysSend fd d 0) s).1 in 0 < sr_ret r \/ would_block r = true.

Lemma calm_send d h : calm h (after_sys (SysSend fd d 0) h) /\
  received (hk_sys (after_sys (SysSend fd d 0) h)) = received (hk_sys h).
Proof using PollContract0.
  destruct (send_keeps (fd := fd) d (hk_sys h)) as [H1 H2]. pose proof (write_credit (sys := send_sys) d (hk_sys h)) as Hc.
  split; [|done]. split; [done| |done|apply sys_enabled]. unfold after_sys. cbn [hk_sys set_field]. cbv zeta in Hc. case_match; lia.
Qed.

(** Waiting for room. *)
Lemma wait_out t h : hook_enabled (hk_sys h) = true ->
  exists h1, wait_io_ready fd (Z.lor POLLOUT (Z.lor POLLERR POLLHUP)) t h = Ok (1, h1) /\ calm h h1 /\
    received (hk_sys h1) = received (hk_sys h) /\ hook_enabled (hk_sys h1) = true.
Proof using PollContract0 PeerContract0.
  intros He. eexists. split; [by apply wait_io_ready_run|]. destruct (calm_wait (Z.lor POLLOUT (Z.lor POLLERR POLLHUP)) t h) as (HC & HR & _).
  split; [done|]. split; [done|]. by rewrite (ca_enabled _ _ HC).
Qed.

Lemma write_loop_calm t buf fuel : forall n ret h,
  hook_enabled (hk_sys h) = true -> 0 <= n <= Z.of_nat (length buf) ->
  wp (write_loop fuel send_sys fd t buf n ret) (fun r h' =>
    calm h h' /\ received (hk_sys h') = received (hk_sys h) /\ (takes_all -> r.1 = Z.of_nat (length buf))) any_error h.
Proof using PollContract0.
  induction fuel as [|fuel IH]; intros n ret h He Hn; cbn [write_loop];
    (destruct (Z.leb_spec (Z.of_nat (length buf)) n) as [Hdone|Hmore]; [wstep; split; [reflexivity|split; [done|simpl; lia]]|]); [done|].
  destruct (wait_out t h He) as (h1 & Hw & HC1 & HR1 & He1). wstep. unfold wp at 1. rewrite Hw. cbn [Z.leb Z.compare].
  wstep. unfold wp at 1, g_sys_ret. rewrite (bind_Ok _ _ _ _ _ (g_sys_run _ _)). cbn [mret M_ret].
  set (d := drop (Z.to_nat n) buf). assert (d <> []) as Hd.
  { unfold d. intros Heq. apply (f_equal length) in Heq. rewrite length_drop in Heq. simpl in Heq. lia. }
  destruct (calm_send d h1) as [HC2 HR2]. destruct (write_takes (sys := send_sys) d (hk_sys h1)) as [Hle _]. cbv beta in Hle.
  pose proof (after_sys_errno (SysSend fd d 0) h1) as Herr.
  set (h2 := after_sys (SysSend fd d 0) h1) in *. set (r := sys_call (SysSend fd d 0) (hk_sys h1)) in *.
  assert (calm h h2) as HC by (by transitivity h1). assert (received (hk_sys h2) = received (hk_sys h)) as HR by congruence.
  assert (hook_enabled (hk_sys h2) = true) as He2 by (by rewrite (ca_enabled _ _ HC)).
  assert (forall n' ret', 0 <= n' <= Z.of_nat (length buf) -> wp (write_loop fuel send_sys fd t buf n' ret') (fun r h' =>
    calm h h' /\ received (hk_sys h') = received (hk_sys h) /\ (takes_all -> r.1 = Z.of_nat (length buf))) any_error h2) as Hgo.
  { intros n' ret' Hn'. refine (wp_mono _ _ _ _ _ _ (IH n' ret' h2 He2 Hn') _ (fun e H => H)).
    intros x h' (H1 & H2 & H3). split; [by transitivity h2|]. split; [congruence|done]. }
  assert ((sr_ret r.1 <= 0 -> would_block r.1 = true -> False) -> sr_ret r.1 <= 0 -> takes_all -> n = Z.of_nat (length buf)) as Hbad.
  { intros Hnb Hneg Hall. destruct (Hall d (hk_sys h1) Hd) as [?|Hb]; [|by destruct Hnb]. fold r in H. lia. }
  destruct (Z.ltb_spec (sr_ret r.1) 0) as [Hneg|Hpos].
  - wstep. unfold wp at 1, errno, gets. specialize (Herr _ Hneg eq_refl). rewrite Herr. rewrite <- negb_orb.
    destruct ((sr_errno r.1 =? EAGAIN) || _) eqn:Eb; simpl; [by apply Hgo|].
    split; [done|]. split; [done|]. apply Hbad; [|lia]. intros _. unfold would_block. by rewrite Eb, andb_false_r.
  - destruct (Z.eqb_spec (sr_ret r.1) 0) as [Hz|Hnz].
    + split; [done|]. split; [done|]. apply Hbad; [|lia]. unfold would_block. rewrite Hz. done.
    + apply Hgo. fold r in Hle. unfold d in Hle. rewrite length_drop in Hle. lia.
Qed.

Lemma send_calm rf lp buf h : hooked fd lp h -> buf <> [] ->
  wp (send rf fd buf 0) (fun r h' => calm h h' /\ received (hk_sys h') = received (hk_sys h) /\
    (takes_all -> r = Z.of_nat (length buf))) any_error h.
Proof using PollContract0.
  intros Hh Hbuf. unfold send, write_common. wstep. unfold wp at 1, is_enable_sys_hook, gets. rewrite (proj1 Hh).
  wstep. unfold wp at 1. rewrite (get_by_fd_hooked _ _ _ Hh). wstep. unfold wp at 1, g_sys_ret.
  rewrite (bind_Ok _ _ _ _ _ (g_sys_run _ _)). cbn [mret M_ret].
  destruct (calm_send buf h) as [HC HR]. pose proof (write_takes (sys := send_sys) buf (hk_sys h)) as [Hle _].
  set (h1 := after_sys (SysSend fd buf 0) h) in *. set (r := sys_call (SysSend fd buf 0) (hk_sys h)) in *. simpl in Hle.
  assert (hook_enabled (hk_sys h1) = true) as He by (by rewrite (ca_enabled _ _ HC), (proj1 Hh)).
  destruct (Z.eqb_spec (sr_ret r.1) 0) as [Hz|Hnz].
  { split; [done|]. split; [done|]. intros Hall. destruct (Hall buf (hk_sys h) Hbuf) as [H|H]; fold r in H; [lia|].
    unfold would_block in H. by rewrite Hz in H. }
  assert (0 < length buf)%nat by (destruct buf; simpl; [done|lia]).
  wstep. refine (wp_mono _ _ _ _ _ _ (write_loop_calm _ buf rf _ _ h1 He _) _ (fun e H => H)); [case_match; lia|].
  intros [n ret] h' (H1 & H2 & H3). cbn [fst] in H3.
  assert (calm h h' /\ received (hk_sys h') = received (hk_sys h)) as [HC' HR'] by (split; [by transitivity h1|congruence]).
  destruct ((ret <=? 0) && (n =? 0)) eqn:Eb; wstep; (split; [done|]; split; [done|]; intros Hall; rewrite H3 in * by done).
  - apply andb_true_iff in Eb as [_ Eb%Z.eqb_eq]. lia.
  - done.
Qed.

(** * The handler *)

Lemma on_hooks_run {A} (m : M (hooks S) A) v a h : m (sv_hooks v) = Ok (a, h) -> on_hooks m v = Ok (a, v <| sv_hooks := h |>).
Proof using. intros H. unfold on_hooks. by rewrite H. Qed.

(** [recv] hands over a message, or reports the end. *)
Lemma recv_spec rf lp h : hooked fd lp h -> (coming (hk_sys h) < rf)%nat ->
  exists n data h', recv rf fd sizeof_buf 0 h = Ok ((n, data), h') /\ calm h h' /\ sent (hk_sys h') = sent (hk_sys h) /\
    received (hk_sys h') = received (hk_sys h) ++ data /\ Z.of_nat (length data) = n /\ n <= sizeof_buf /\
    (0 < n -> (coming (hk_sys h') < coming (hk_sys h))%nat /\ exists s, n = sr_ret (sys_call (SysRecv fd sizeof_buf 0) s).1).
Proof using PollContract0.
  intros Hh Hrf.
  destruct (rounds_exist sizeof_buf (timeval_ms (rh_read_timeout lp)) ltac:(done) _ h (Nat.lt_succ_diag_r _))
    as (k & r & h' & HR & Hk & HC & HS & H1 & H2 & H3 & H4 & [s Hs]).
  exists (Z.max 0 (sr_ret r)), (if 0 <? sr_ret r then sr_bytes r else []), h'. split.
  { unfold recv. rewrite (read_common_hooked _ _ _ _ _ _ Hh).
    assert (k < rf)%nat as Hkf by lia.
    by rewrite (bind_Ok _ _ _ _ _ (read_loop_rounds _ _ _ _ _ _ _ _ _ HR (proj1 Hh) ltac:(done) Hkf)). }
  do 3 (split; [done|]). destruct (Z.ltb_spec 0 (sr_ret r)) as [Hp|Hp].
  - rewrite Z.max_r, (H2 Hp) by lia. split; [lia|]. split; [done|]. intros _. split; [auto|]. exists s. by rewrite Hs.
  - rewrite Z.max_l by lia. by split_and!.
Qed.

(** The end of the handler's loop. *)
Lemma hang_up lp v : hooked fd lp (sv_hooks v) ->
  exists h', (on_hooks (close fd);; mret tt) v = Ok (tt, v <| sv_hooks := h' |>) /\ hk_socks h' !! fd = None /\
    received (hk_sys h') = received (hk_sys (sv_hooks v)) /\ sent (hk_sys h') = sent (hk_sys (sv_hooks v)).
Proof using.
  intros Hh. destruct (close_run lp _ Hh) as (r & h' & Hr & ?). exists h'. split; [|done].
  by rewrite (bind_Ok _ _ _ _ _ (on_hooks_run _ _ _ _ Hr)).
Qed.

(** No message fills the buffer. *)
Definition short_messages : Prop := forall s, sr_ret (sys_call (SysRecv fd sizeof_buf 0) s).1 < sizeof_buf.

Lemma take_message data buf n : Z.of_nat (length data) = n -> take (Z.to_nat n) (<[Z.to_nat n := 0]> (overwrite data buf)) = data.
Proof using. intros <-. rewrite Nat2Z.id, take_insert_ge by lia. unfold overwrite. by rewrite take_app_length. Qed.

Lemma length_overwrite data buf : (length data <= length buf)%nat -> length (overwrite data buf) = length buf.
Proof using. intros H. unfold overwrite. rewrite length_app, length_drop. lia. Qed.

Lemma echo_loop_spec rf lp fuel : forall buf v,
  hooked fd lp (sv_hooks v) -> short_messages -> Z.of_nat (length buf) = sizeof_buf ->
  (coming (hk_sys (sv_hooks v)) < fuel)%nat -> (coming (hk_sys (sv_hooks v)) < rf)%nat ->
  (credit (hk_sys (sv_hooks v)) + 1024 <= rf)%nat ->
  exists v' data out, echo_loop fuel rf fd buf v = Ok (tt, v') /\ hk_socks (sv_hooks v') !! fd = None /\ sv_count v' = sv_count v /\
    received (hk_sys (sv_hooks v')) = received (hk_sys (sv_hooks v)) ++ data /\
    sent (hk_sys (sv_hooks v')) = sent (hk_sys (sv_hooks v)) ++ out /\ (takes_all -> out = data).
Proof using PollContract0.
  induction fuel as [|fuel IH]; intros buf v Hh Hshort Hlen Hf Hr Hc; [lia|]. cbn [echo_loop].
  destruct (recv_spec rf lp _ Hh Hr) as (n & data & h1 & Hrecv & HC1 & HS1 & HR1 & Hn & _ & Hpos).
  rewrite (bind_Ok _ _ _ _ _ (on_hooks_run _ _ _ _ Hrecv)). set (v1 := v <| sv_hooks := h1 |>).
  pose proof (calm_hooked _ _ _ HC1 Hh) as Hh1.
  destruct (Z.leb_spec n 0) as [Hend|Hgo].
  { destruct (hang_up lp v1 Hh1) as (h2 & Hup & Hno & HR2 & HS2). exists (v1 <| sv_hooks := h2 |>), [], [].
    destruct data; [|simpl in Hn; lia]. rewrite !app_nil_r in *. split_and!; [done|done|done|simpl in *; congruence|simpl in *; congruence|done]. }
  destruct (Hpos Hgo) as [Hless [s Hs]]. pose proof (Hshort s) as Hlt. rewrite <- Hs in Hlt.
  rewrite (bind_Ok _ _ v1 (<[Z.to_nat n := 0]> (overwrite data buf)) v1).
  2: { unfold array_set. rewrite bool_decide_eq_true_2; [done|]. rewrite length_overwrite; lia. }
  set (text := L_recv _ _). set (v2 := v1 <| sv_out ::= fun o => o ++ [text] |>). rewrite (bind_Ok _ _ v1 tt v2) by done.
  rewrite take_message by lia.
  assert (data <> []) as Hd by (destruct data; [simpl in Hn; lia|done]).
  destruct HC1 as [C1 C2 C3 C4].
  destruct (write_common_sent (fun d => SysSend fd d 0) fd (timeval_ms (rh_write_timeout lp)) data rf lp h1 Hh1 eq_refl Hd)
    as (m & h2 & Hsend & Hm & HS2); [unfold sizeof_buf in *; lia|].
  destruct (wp_Ok _ _ _ _ _ _ (send_calm rf lp data h1 Hh1 Hd) Hsend) as (HC2 & HR2 & Hall).
  erewrite bind_Ok by (apply (on_hooks_run _ v2); exact Hsend). set (v3 := v2 <| sv_hooks := h2 |>).
  pose proof (calm_hooked _ _ _ HC2 Hh1) as Hh2.
  assert (takes_all -> take (Z.to_nat m) data = data) as Hwhole by (intros H; rewrite (Hall H), Nat2Z.id; by rewrite firstn_all).
  destruct (Z.leb_spec m 0) as [Hend2|Hgo2].
  - destruct (hang_up lp v3 Hh2) as (h3 & Hup & Hno & HR3 & HS3).
    exists (v3 <| sv_hooks := h3 |>), data, (take (Z.to_nat m) data). split_and!; [done|done|done|simpl in *; congruence|simpl in *; congruence|done].
  - destruct (IH (<[Z.to_nat n := 0]> (overwrite data buf)) v3) as (v' & data' & out & Hrun & Hno & Hcnt & HR3 & HS3 & Hwhole').
    + done.
    + done.
    + rewrite length_insert, length_overwrite; lia.
    + simpl. pose proof (ca_coming _ _ HC2). lia.
    + simpl. pose proof (ca_coming _ _ HC2). lia.
    + simpl. pose proof (ca_credit _ _ HC2). lia.
    + exists v', (data ++ data'), (take (Z.to_nat m) data ++ out). split_and!; [done|done|done| | |].
      * rewrite HR3. simpl. by rewrite HR2, HR1, app_assoc.
      * rewrite HS3. simpl. by rewrite HS2, HS1, app_assoc.
      * intros H. by rewrite Hwhole, Hwhole'.
Qed.

(** C21. The echo server echoes.  A handler whose peer sends messages of fewer
    than 1024 bytes and reaches its end of file returns, with fuel for its
    rounds: it has closed and forgotten its descriptor and counted itself, and
    if the kernel never refuses what is sent, the bytes it sent are the bytes
    it received, in order, each once. *)
Theorem echo_echoes lp fuel rf buf v :
  sv_fd v = fd -> hooked fd lp (sv_hooks v) -> short_messages -> Z.of_nat (length buf) = sizeof_buf ->
  (coming (hk_sys (sv_hooks v)) < fuel)%nat -> (coming (hk_sys (sv_hooks v)) < rf)%nat ->
  (credit (hk_sys (sv_hooks v)) + 1024 <= rf)%nat ->
  exists v' data out, echo fuel rf buf fd_var v = Ok (tt, v') /\ hk_socks (sv_hooks v') !! fd = None /\
    sv_count v' = to_int (sv_count v + 1) /\
    received (hk_sys (sv_hooks v')) = received (hk_sys (sv_hooks v)) ++ data /\
    sent (hk_sys (sv_hooks v')) = sent (hk_sys (sv_hooks v)) ++ out /\ (takes_all -> out = data).
Proof using PollContract0.
  intros Hfd Hh Hs Hlen Hf Hr Hc. set (v1 := v <| sv_out ::= fun o => o ++ [L_in_echo] |>).
  destruct (echo_loop_spec rf lp fuel buf v1 Hh Hs Hlen Hf Hr Hc) as (v2 & data & out & Hrun & Hno & Hcnt & HR & HS & Hall).
  eexists _, data, out. unfold echo. rewrite (bind_Ok _ _ v (sv_fd v) v1), Hfd by done.
  rewrite (bind_Ok _ _ _ _ _ Hrun). split; [done|]. cbn. rewrite Hcnt. by split_and!.
Qed.

(** C25. A message that fills the buffer overflows it: when [recv] returns 1024,
    the handler writes the terminating zero one byte behind its array. *)
Theorem echo_full_buffer_overflows lp fuel rf buf v k r h' :
  sv_fd v = fd -> hooked fd lp (sv_hooks v) -> Z.of_nat (length buf) = sizeof_buf ->
  rounds sys fd sizeof_buf (timeval_ms (rh_read_timeout lp)) k (sv_hooks v) r h' -> (k < rf)%nat ->
  sr_ret r = sizeof_buf -> Z.of_nat (length (sr_bytes r)) = sizeof_buf ->
  echo (Datatypes.S fuel) rf buf fd_var v = Fail OutOfBounds.
Proof using PollContract0.
  intros Hfd Hh Hlen HR Hk Hret Hbytes. set (v1 := v <| sv_out ::= fun o => o ++ [L_in_echo] |>).
  unfold echo. rewrite (bind_Ok _ _ v (sv_fd v) v1), Hfd by done. cbn [echo_loop].
  assert (recv rf fd sizeof_buf 0 (sv_hooks v1) = Ok ((sizeof_buf, sr_bytes r), h')) as Hrecv.
  { unfold recv. rewrite (read_common_hooked _ _ _ _ _ _ Hh).
    rewrite (bind_Ok _ _ _ _ _ (read_loop_rounds _ _ _ _ _ _ _ _ _ HR (proj1 Hh) ltac:(done) Hk)). by rewrite Hret. }
  rewrite bind_assoc, (bind_Ok _ _ _ _ _ (on_hooks_run _ _ _ _ Hrecv)). cbn [Z.leb sizeof_buf Z.compare].
  rewrite bind_assoc. unfold mbind at 1, M_bind at 1, array_set. rewrite bool_decide_eq_false_2; [done|].
  rewrite length_overwrite by lia. unfold sizeof_buf in *. lia.
Qed.

(** C24. One round of the listener, when [accept] gets a connection [fd].  If
    the pool has a free task, the function that [coroutine_new_task] calls is
    [echo], and what it reads through its argument, the address of the
    listener's variable, is [fd]: it runs before the next round stores another
    descriptor there.  If no task is free, nothing more happens: the connection
    stays open and in the table, without a handler. *)
Theorem listener_round_hands_over `{!TaskSys S} `{!TaskContract S} l lp v rf k r h1 :
  hooked l lp (sv_hooks v) -> (k < rf)%nat ->
  awaits l k (sys_call (SysAccept l) (hk_sys (sv_hooks v))).1 (after_sys (SysAccept l) (sv_hooks v)) r h1 ->
  0 < sr_ret r -> in_table (sr_ret r) = true ->
  exists h' flags, accept rf l (sv_hooks v) = Ok (sr_ret r, h') /\ hk_socks h' = <[sr_ret r := accepted flags]> (hk_socks h1) /\
    match start_task conn_attr h' with
    | Ok (Some _, h2) => hk_socks h2 = hk_socks h' /\
        listener_round rf l v = Ok (tt, run_on (mk_server h2 (sv_count v) (sr_ret r) (sv_out v ++ [L_in_echo]) (sv_handlers v ++ [sr_ret r])))
    | Ok (None, _) => listener_round rf l v = Ok (tt, mk_server h' (sv_count v) (sr_ret r) (sv_out v) (sv_handlers v))
    | Fail e => listener_round rf l v = Fail e
    end.
Proof using PollContract0.
  intros Hh Hk HA Hpos Ht.
  destruct (proj1 (proj2 (accept_ends l lp (sv_hooks v) rf k r h1 Hh Hk HA)) Ht) as (h' & flags & Hacc & Hs & _).
  exists h', flags. split; [done|]. split; [done|].
  set (v1 := v <| sv_hooks := h' |> <| sv_fd := sr_ret r |>).
  assert (listener_round rf l v = (new_handler conn_attr;; mret tt) v1) as ->.
  { unfold listener_round. rewrite (bind_Ok _ _ _ _ _ (on_hooks_run _ _ _ _ Hacc)).
    rewrite (bind_Ok _ _ _ tt v1) by done. by rewrite (proj2 (Z.ltb_lt _ _)). }
  unfold new_handler. rewrite bind_assoc. destruct (start_task conn_attr h') as [[[[fn arg]|] h2]|e] eqn:Hstart.
  - destruct (task_runs _ _ _ _ _ Hstart) as ([= <-] & -> & Hsame). split; [done|].
    by rewrite (bind_Ok _ _ _ _ _ (on_hooks_run _ v1 _ _ Hstart)).
  - rewrite (bind_Ok _ _ _ _ _ (on_hooks_run _ v1 _ _ Hstart)). rewrite (no_task _ _ _ Hstart). done.
  - unfold mbind at 1, M_bind at 1, on_hooks. change (sv_hooks v1) with h'. by rewrite Hstart.
Qed.
End proofs.

(** * A peer

    Its messages, in which an empty one stands for "not yet"; the kernel hands
    over at most 1000 bytes at a time and takes 3. *)
Record peer := mk_peer { pr_in : list (list Z); pr_got : list Z; pr_out : list Z }.

Definition peer_ret (d : list Z) : sysret := mk_sysret (Z.of_nat (length d)) 0 d [] [].

Definition peer_call (c : syscall) (s : peer) : sysret * peer :=
  match c with
  | SysRecv _ n _ =>
      match pr_in s with
      | [] => (peer_ret [], s)
      | [] :: ms => (again, mk_peer ms (pr_got s) (pr_out s))
      | d :: ms =>
          let m := Z.to_nat (Z.min n 1000) in
          (peer_ret (take m d), mk_peer (match drop m d with [] => ms | d' => d' :: ms end) (pr_got s ++ take m d) (pr_out s))
      end
  | SysSend _ d _ => (peer_ret (take 3 d), mk_peer (pr_in s) (pr_got s) (pr_out s ++ take 3 d))
  | _ => (peer_ret [], s)
  end.

#[export] Instance peer_sys : HookSys peer := {|
  sys_call := peer_call;
  hook_enabled _ := true;
  task_timed_out _ := false;
  poll_inner fds t b h := (Z.of_nat (length fds), (fun f => f <| pfd_revents := pfd_events f |>) <$> fds, h)
|}.

#[export] Instance peer_poll : PollContract peer.
Proof.
  split; try done; intros fds t b h; simpl; [lia|by rewrite <- list_fmap_compose].
Qed.

Fixpoint messages_left (ms : list (list Z)) : nat :=
  match ms with [] => 0%nat | d :: ms' => Datatypes.S (length d + messages_left ms') end.
Definition peer_coming (s : peer) : nat := messages_left (pr_in s).

Lemma peer_ret_ready d : would_block (peer_ret d) = false.
Proof. unfold would_block. simpl. destruct (Z.ltb_spec (Z.of_nat (length d)) 0); [lia|done]. Qed.

#[export] Program Instance peer_write fd : WriteContract (fun d => SysSend fd d 0) := {|
  sent := pr_out;
  credit _ := 0%nat
|}.
Next Obligation.
  intros fd d s. simpl. rewrite Nat2Z.id, length_take. split; [lia|]. f_equal.
  destruct (Nat.min_spec 3 (length d)) as [[? ->]|[? ->]]; [done|by rewrite firstn_all, take_ge by lia].
Qed.
Next Obligation. intros fd d s. cbn [sys_call peer_sys peer_call fst snd]. by rewrite peer_ret_ready. Qed.
Next Obligation. done. Qed.
Next Obligation. intros. simpl. lia. Qed.

#[export] Program Instance peer_contract fd : PeerContract peer fd := {|
  received := pr_got;
  coming := peer_coming
|}.
Next Obligation.
  intros fd n [ms got out] Hn. destruct ms as [|[|b d] ms]; cbn [sys_call peer_sys peer_call pr_in pr_got pr_out fst snd].
  - simpl. rewrite app_nil_r. split_and!; [lia|done..].
  - simpl. rewrite app_nil_r. split_and!; [lia|done|done|done|done|]. unfold peer_coming. simpl. lia.
  - set (m := Z.to_nat (Z.min n 1000)). assert (m <> 0%nat) as Hm by lia.
    assert (0 < length (take m (b :: d)))%nat as Hlen by (destruct m; simpl; [done|lia]).
    assert (length (take m (b :: d)) <= m)%nat as Hle by (rewrite length_take; lia).
    cbn [sr_ret peer_ret sr_bytes]. rewrite (proj2 (Z.ltb_lt _ _)) by lia. cbn [orb]. rewrite Nat2Z.id.
    split_and!; [lia|done|done|done|done|]. unfold peer_coming. cbn [pr_in].
    assert (length (drop m (b :: d)) < length (b :: d))%nat as Hdrop by (rewrite length_drop; simpl; lia).
    destruct (drop m (b :: d)); simpl in *; lia.
Qed.
Next Obligation. intros fd d s. by split. Qed.
Next Obligation. intros fd fds t b h. by split_and!. Qed.
Next Obligation. intros fd s. by split. Qed.

(** A connection on descriptor 9: "hello", a pause, and two bytes more. *)
Definition demo_peer : peer := mk_peer [[104; 101; 108; 108; 111]; []; [1; 2]] [] [].
Definition demo_server : server peer := mk_server (mk_hooks {[9 := new_rpchook]} 0 demo_peer) 0 9 [] [].
Definition demo_buf : list Z := replicate 1024 55.

Lemma peer_short : short_messages (S := peer) 9.
Proof.
  intros [[|[|b d] ms] got out]; simpl; [unfold sizeof_buf; lia..|].
  rewrite length_take. unfold sizeof_buf. lia.
Qed.

Lemma peer_takes_all : takes_all (S := peer) 9.
Proof. intros [|x d] s Hd; [done|]. left. simpl. lia. Qed.

Lemma echo_echoes_witness :
  exists v', echo 20 1100 demo_buf fd_var demo_server = Ok (tt, v') /\ sv_count v' = 1 /\
    pr_out (hk_sys (sv_hooks v')) = pr_got (hk_sys (sv_hooks v')).
Proof.
  destruct (echo_echoes 9 new_rpchook 20 1100 demo_buf demo_server) as (v' & data & out & Hrun & _ & Hcnt & HR & HS & Hall).
  - reflexivity.
  - split; [|split]; reflexivity.
  - exact peer_short.
  - reflexivity.
  - vm_compute. lia.
  - vm_compute. lia.
  - vm_compute. lia.
  - exists v'. split; [exact Hrun|]. split; [exact Hcnt|]. rewrite (Hall peer_takes_all) in HS.
    exact (eq_trans HS (eq_sym HR)).
Defined.

(** A message of 1024 bytes. *)
Definition demo_flood : hooks script := mk_hooks {[9 := new_rpchook]} 0 (mk_script [good 1024] [] [] true false).

Lemma echo_full_buffer_overflows_witness :
  echo 1 1 demo_buf fd_var (mk_server demo_flood 0 9 [] []) = Fail OutOfBounds.
Proof.
  eapply (echo_full_buffer_overflows 9 new_rpchook 0 1 demo_buf (mk_server demo_flood 0 9 [] []) 0 (good 1024)).
  - reflexivity.
  - split; [|split]; reflexivity.
  - reflexivity.
  - apply rounds_last; reflexivity.
  - repeat constructor.
  - reflexivity.
  - reflexivity.
Defined.
