(* ===== verification/TestServer.v ===== *)
(** The example of the first version (src/example/test.cc): an echo server on
    the first scheduler, and what becomes of two connections that arrive
    together.

    The coroutines are trees of calls.  The variable [fd] of the listener has
    one place on its stack in every round of the loop, [off] bytes from the
    lower end; the compiler chooses [off].  [n] and [m] bound the rounds of the
    two endless loops; what is printed is left out. *)

From stdpp Require Import gmap list.
From S2P Require Import Prelude TimerWheel Events Thread Hooks IdMap IdMapSpec OldSched OldSchedSpec OldProps OldIO Examples.

(** * The program *)

(** The loop of [echo]; the array [buf] has 1024 bytes, and the zero behind the
    message may be stored outside. *)
Fixpoint test_echo_loop (m : nat) (fd : Z) : prog :=
  match m with
  | O => PFuel
  | S m' =>
      PRecv fd sizeof_buf 0 (fun n buf =>
        if n <=? 0 then PReturn
        else if negb (n <? sizeof_buf) then PTrap
        else PSend fd (take (Z.to_nat n) buf) 0 (fun n => if n <=? 0 then PReturn else test_echo_loop m' fd))
  end.

Definition test_echo (m : nat) : cfunc := fun arg => PLoad arg (test_echo_loop m).

(** The rest of a round of [listener], after [accept]. *)
Definition test_accepted (m : nat) (off fd : Z) (next : prog) : prog :=
  PLocal off (fun p => PStore p fd (
    if negb (fd =? -1) then
      PRaw (SysFcntl fd F_GETFL None) (fun fl =>
      PRaw (SysFcntl fd F_SETFL (Some (Z.lor (sr_ret fl) O_NONBLOCK))) (fun _ =>
      PSpawn p (test_echo m) (fun _ => next)))
    else next)).

Fixpoint test_listener_loop (n m : nat) (off socket_desc : Z) : prog :=
  match n with
  | O => PFuel
  | S n' => PAccept socket_desc (fun fd => test_accepted m off fd (test_listener_loop n' m off socket_desc))
  end.

Definition test_listener (n m : nat) (off : Z) : cfunc := fun _ =>
  PRaw (SysSocket AF_INET SOCK_STREAM 0) (fun r => let socket_desc := sr_ret r in
  PRaw (SysFcntl socket_desc F_GETFL None) (fun fl =>
  PRaw (SysFcntl socket_desc F_SETFL (Some (Z.lor (sr_ret fl) O_NONBLOCK))) (fun _ =>
  PRaw (SysBind socket_desc AF_INET (htons 18888)) (fun _ =>
  PRaw (SysSetsockopt socket_desc SOL_SOCKET SO_REUSEADDR [1; 0; 0; 0] (mk_timeval 1 0)) (fun _ =>
  PRaw (SysListen socket_desc 200) (fun _ =>
  test_listener_loop n m off socket_desc)))))).

(** [main]: the listener, and [rounds] rounds of [gSched.Run()]. *)
Definition test_main {S} `{!OldSys S} (n m : nat) (off : Z) (fuel visits rounds : nat) : M (Scheduler S) unit :=
  main_program [(test_listener n m off, 0)] fuel visits rounds.

Lemma test_main_inv {S} `{!OldSys S} (Hw : old_wsz = 4 \/ old_wsz = 8) n m off fuel visits rounds (k : S) s :
  test_main n m off fuel visits rounds (new_Scheduler k) = Ok (tt, s) -> OldInv s.
Proof.
  intros H. apply bind_inv in H as (ids & s0 & Hc & Hrun).
  pose proof (wp_Ok _ _ _ _ _ _ (create_all_inv Hw _ _ (new_Scheduler_inv Hw k)) Hc) as I0.
  exact (wp_Ok _ _ _ _ _ _ (Run_inv Hw fuel visits rounds s0 I0) Hrun).
Qed.

(** * The kernel

    [queue] are the connections that wait on the listening socket [l], and
    [watched] says whether [l] is registered with the epoll. *)
Record AcceptKernel {S} `{!OldSys S} (l : Z) (queue : S -> list Z) (watched : S -> bool) : Prop := {
  ak_accept : forall st, let r := old_call (SysAccept l) st in
    watched r.2 = watched st /\
    match queue st with
    | [] => sr_ret r.1 = -1 /\ sr_errno r.1 = EAGAIN /\ queue r.2 = []
    | a :: q => sr_ret r.1 = a /\ 0 <= a /\ queue r.2 = q
    end;
  ak_fcntl : forall fd cmd arg st, let r := old_call (SysFcntl fd cmd arg) st in
    queue r.2 = queue st /\ watched r.2 = watched st;
  ak_del : forall epfd ev st, let r := old_epoll_ctl epfd EPOLL_CTL_DEL l ev st in
    queue r.2 = queue st /\ watched r.2 = false;
  ak_add : forall epfd ev st, let r := old_epoll_ctl epfd EPOLL_CTL_ADD l ev st in
    queue r.2 = queue st /\ (watched st = false -> r.1 = 0 /\ watched r.2 = true)
}.

Section listener.
Context {S : Type} `{!OldSys S} (Hw : old_wsz = 4 \/ old_wsz = 8).
Context (l : Z) (Hl : 0 <= l < kCoroNum) (queue : S -> list Z) (watched : S -> bool) (K : AcceptKernel l queue watched).
Context (m : nat) (off : Z) (Hoff : 0 <= off < kProtectStackSize + kDefaulaStackSize).
Implicit Types s : Scheduler S.

Notation next n := (fun fd => test_accepted m off fd (test_listener_loop n m off l)).

(** * The coroutines *)

(** The listener, coroutine [id] at [p] with its stack at [st], waits in
    [accept], with [n] more rounds to go after this one. *)
Record Listening (id p st : Z) (n : nat) s : Prop := {
  li_inv : OldInv s;
  li_coro : exists c w, ob_coros s !! p = Some c /\ id_ c = id /\ stack_ c = st /\ status_ c = kStatusSuspend /\
    uc_at (ctx_ c) = KAccept (mk_frame id p) w (next n) /\ wf_fd w = l /\ wf_coro w = p
}.

(** [h] has been created with the address [a], and has not run yet. *)
Definition ready (a h : Z) s : Prop :=
  exists d, ob_coros s !! h = Some d /\ status_ d = kStatusReady /\ arg_ d = a /\ fun_ d = test_echo m.

(** When [h] is resumed in [s], it serves the descriptor [fd]. *)
Definition handles (h fd : Z) s : Prop :=
  exists d s', ob_coros s !! h = Some d /\ sc_sys s' = sc_sys s /\
    forall fuel, Resume fuel (id_ d) s = run_prog (mk_frame (id_ d) h) (test_echo_loop m fd) s'.

Lemma on_some_stack_of s p c a : ob_coros s !! p = Some c -> on_stack c a = true -> on_some_stack s a = true.
Proof using.
  intros Hp Ha. apply existsb_exists. exists (p, c). split; [|done]. apply list_elem_of_In. by apply elem_of_map_to_list.
Qed.

Lemma own_local c : on_stack c (stack_ c + off) = true.
Proof using Hoff. unfold on_stack. apply andb_true_iff. split; [apply Z.leb_le|apply Z.ltb_lt]; lia. Qed.

Lemma coros_at_live s p c : OldInv s -> ob_coros s !! p = Some c -> coros_at (id_ c) s = Ok (Some p, s).
Proof using.
  intros I Hc. destruct (oi_live _ I _ _ Hc) as [H0 He]. unfold coros_at, array_get. mrun.
  by rewrite bool_decide_eq_true_2, He.
Qed.

(** A handler that has not run reads the variable when it is resumed. *)
Lemma handler_reads s p c h v :
  OldInv s -> ob_coros s !! p = Some c -> status_ c = kStatusSuspend -> ready (stack_ c + off) h s ->
  ob_vars s !! (stack_ c + off) = Some v -> handles h v s.
Proof using Hoff.
  intros I Hp Hst (d & Hd & Hsd & Ha & Hf) Hv.
  assert (h <> p) as Hne by (intros ->; rewrite Hp in Hd; injection Hd as <-; rewrite Hst in Hsd; done).
  eexists d, _. split; [done|].
  assert (forall s1, running_ s1 = id_ d -> coros_ s1 = coros_ s -> coros_at (running_ s1) s1 = Ok (Some h, s1)) as Hat.
  { intros s1 H1 H2. destruct (oi_live _ I _ _ Hd) as [H0 He]. unfold coros_at, array_get. mrun.
    by rewrite H1, H2, bool_decide_eq_true_2, He. }
  split; cycle 1.
  - intros fuel. unfold Resume. rewrite (bind_Ok _ _ _ _ _ (coros_at_live _ _ _ I Hd)), (bind_Ok _ _ _ _ _ (get_coro_run _ _ _ Hd)).
    rewrite Hsd. cbn [Z.eqb kStatusReady Pos.eqb].
    rewrite (bind_Ok _ _ _ _ _ (upd_coro_run _ _ _ _ Hd)). erewrite bind_Ok by done.
    erewrite bind_Ok by (apply upd_coro_run; simpl; apply lookup_insert_eq).
    erewrite bind_Ok by (apply save_ctx_run; simpl; apply lookup_insert_eq). cbn. rewrite !insert_insert_eq.
    match goal with |- swap_to _ _ ?x = _ => set (s1 := x) end. unfold swap_to.
    erewrite bind_Ok by (apply get_coro_run; apply lookup_insert_eq). cbn. unfold mainfunc.
    rewrite (bind_Ok _ _ _ s1 s1) by done. rewrite (bind_Ok _ _ _ _ _ (Hat s1 eq_refl eq_refl)).
    rewrite (bind_Ok _ _ _ h s1) by done. erewrite bind_Ok by (apply get_coro_run; apply lookup_insert_eq). cbn.
    rewrite Hf, Ha. unfold test_echo. cbn [run_prog].
    rewrite (bind_Ok _ _ _ v s1); [reflexivity|].
    unfold load_var. rewrite (bind_Ok _ _ _ s1 s1) by done.
    rewrite (on_some_stack_of s1 p c); [|simpl; by rewrite lookup_insert_ne|apply own_local].
    change (ob_vars s1) with (ob_vars s). by rewrite Hv.
  - reflexivity.
Qed.

(** * The listener *)

(** [accept] after the switch, with a connection there. *)
Lemma accept_leaves fuel s f w k a q :
  Running f s -> wf_fd w = l -> queue (sc_sys s) = a :: q ->
  exists k', Accept_leave (Datatypes.S fuel) f w k s = Ok (Some a, s <| sc_sys := k' |>) /\
    0 <= a /\ queue k' = q /\ watched k' = false.
Proof using K.
  intros R Hfd Hq. unfold Accept_leave. rewrite (bind_Ok _ _ _ _ _ (wait_leave_run w s)). unfold after_leave. rewrite Hfd.
  destruct (ak_del _ _ _ K (epfd_ s) (wf_ev w) (sc_sys s)) as [Q1 W1]. set (k1 := (old_epoll_ctl _ _ _ _ _).2) in *.
  destruct (ak_accept _ _ _ K k1) as [W2 HA]. rewrite Q1, Hq in HA. destruct HA as (Ha & H0 & Q2).
  erewrite bind_Ok; cycle 1.
  { cbn [accept_try]. rewrite (bind_Ok _ _ _ _ _ (raw_run _ _)). cbn [sc_sys set_field eta eta_scheduler].
    rewrite Ha, (proj2 (Z.ltb_ge _ _)) by done. rewrite (bind_Ok _ _ _ _ _ (raw_run _ _)), (bind_Ok _ _ _ _ _ (raw_run _ _)). done. }
  cbn [sc_sys set_field eta eta_scheduler]. set (k2 := (old_call (SysAccept l) k1).2) in *.
  destruct (ak_fcntl _ _ _ K l F_GETFL None k2) as [Q3 W3]. set (k3 := (old_call (SysFcntl l F_GETFL None) k2).2) in *.
  match goal with |- context [SysFcntl a F_SETFL ?x] => destruct (ak_fcntl _ _ _ K a F_SETFL x k3) as [Q4 W4] end.
  eexists. split; [done|]. split; [done|]. split; congruence.
Qed.

Lemma epoll_ctl_eq s op fd ev :
  epoll_ctl op fd ev s = Ok ((old_epoll_ctl (epfd_ s) op fd ev (sc_sys s)).1, s <| sc_sys := (old_epoll_ctl (epfd_ s) op fd ev (sc_sys s)).2 |>).
Proof using. clear. unfold epoll_ctl. mrun. by destruct old_epoll_ctl. Qed.

(** [accept] up to the switch. *)
Lemma socket_of_run s fd p :
  Z.of_nat (length (socks_ s)) = kCoroNum -> 0 <= fd < kCoroNum ->
  exists q s', socket_of fd p s = Ok (q, s') /\ ob_coros s' = ob_coros s /\ sc_sys s' = sc_sys s /\
    active_ s' = active_ s /\ ob_vars s' = ob_vars s /\ id_map_ s' = id_map_ s /\ epfd_ s' = epfd_ s.
Proof using.
  clear Hl K. intros Hlen Hfd. unfold socket_of, socks_at, array_get. mrun. rewrite bool_decide_eq_true_2 by lia.
  destruct (lookup_lt_is_Some_2 (socks_ s) (Z.to_nat fd) ltac:(lia)) as [[q|] ->].
  - eexists q, s. by split_and!.
  - unfold set_socks, array_set. mrun. rewrite bool_decide_eq_true_2 by lia. eexists _, _. by split_and!.
Qed.

Lemma accept_waits s f c k :
  Running f s -> ob_coros s !! fr_coro f = Some c -> watched (sc_sys s) = false ->
  exists w d s', Accept_enter f l k s = Ok (None, s') /\ wf_fd w = l /\ wf_coro w = fr_coro f /\
    d = c <| status_ := kStatusSuspend |> <| ctx_ := mk_ucontext (uc_sp (ctx_ c)) (uc_size (ctx_ c)) (uc_link_main (ctx_ c)) (KAccept f w k) |> /\
    ob_coros s' = <[fr_coro f := d]> (ob_coros s) /\ queue (sc_sys s') = queue (sc_sys s) /\
    active_ s' = active_ s /\ ob_vars s' = ob_vars s /\ id_map_ s' = id_map_ s.
Proof using Hl K.
  intros R Hc Hwt. destruct (socket_of_run s l (Some (fr_coro f)) (oi_socks_len _ (ru_inv _ _ R)) Hl) as (q & s1 & Hso & C1 & K1 & A1 & V1 & M1 & E1).
  set (ev := mk_epoll_event EPOLLIN q). destruct (ak_add _ _ _ K (epfd_ s1) ev (sc_sys s)) as [Q1 W1].
  destruct (W1 Hwt) as [R0 _]. set (s2 := s1 <| sc_sys := (old_epoll_ctl (epfd_ s1) EPOLL_CTL_ADD l ev (sc_sys s)).2 |>).
  assert (wait_enter l EPOLLIN s = Ok (Some (fr_coro f), Some ev, s2)) as Hwe.
  { unfold wait_enter. rewrite (bind_Ok _ _ _ s s) by done.
    rewrite (bind_Ok _ _ _ _ _ (coros_at_running _ _ R)), (bind_Ok _ _ _ _ _ Hso).
    cbv zeta. fold ev. rewrite (bind_Ok _ _ _ _ _ (epoll_ctl_eq _ _ _ _)), K1. by rewrite R0. }
  unfold Accept_enter, enter_hook. rewrite (bind_Ok _ _ _ _ _ Hwe). cbn [deref]. erewrite bind_Ok by done. erewrite bind_Ok; cycle 1.
  { unfold wait_swap. erewrite bind_Ok by (apply upd_coro_run; simpl; rewrite C1; exact Hc).
    apply save_ctx_run. simpl. apply lookup_insert_eq. }
  eexists (mk_wait (fr_coro f) l ev), _, _. split; [reflexivity|]. cbn. rewrite C1, insert_insert_eq. by split_and!.
Qed.

Lemma spawn_run s arg fn i im :
  Z.of_nat (length (coros_ s)) = kCoroNum -> Allocate old_wsz (id_map_ s) = Ok (i, im) -> 0 <= i < kCoroNum ->
  exists s' d, Spawn arg fn s = Ok (i, s') /\ ob_coros s' = <[ob_next s := d]> (ob_coros s) /\
    (status_ d = kStatusReady /\ arg_ d = arg /\ fun_ d = fn) /\
    active_ s' = active_ s ++ [Some (ob_next s)] /\ sc_sys s' = sc_sys s /\ ob_vars s' = ob_vars s /\ id_map_ s' = im.
Proof using.
  clear Hl K. intros Hlen Ha Hi. unfold Spawn. erewrite bind_Ok by (unfold in_id_map; rewrite Ha; done).
  rewrite (proj2 (Z.ltb_ge _ _)) by lia. unfold new_coroutine, set_coros, array_set. mrun.
  rewrite bool_decide_eq_true_2 by (simpl; lia). eexists _, _. by split_and!.
Qed.

(** [Resume] of a suspended coroutine. *)
Lemma resume_suspended s p c fuel :
  OldInv s -> ob_coros s !! p = Some c -> status_ c = kStatusSuspend ->
  let s1 := s <| running_ := id_ c |> <| ob_coros ::= <[p := c <| status_ := kStatusRunning |>]> |> in
  Running (mk_frame (id_ c) p) s1 /\ Resume fuel (id_ c) s = continue fuel (uc_at (ctx_ c)) s1.
Proof using.
  clear Hl K. intros I Hc Hst s1. split.
  - split; [|done|eexists; split; [apply lookup_insert_eq|done]].
    apply (inv_frame (s <| ob_coros ::= <[p := c <| status_ := kStatusRunning |>]> |>)); [|done..].
    by apply (inv_upd s p c).
  - unfold Resume. rewrite (bind_Ok _ _ _ _ _ (coros_at_live _ _ _ I Hc)), (bind_Ok _ _ _ _ _ (get_coro_run _ _ _ Hc)), Hst.
    cbn [Z.eqb kStatusReady kStatusSuspend Pos.eqb]. erewrite bind_Ok by done.
    rewrite (bind_Ok _ _ _ tt s1) by by apply upd_coro_run. unfold swap_to.
    by erewrite bind_Ok by (apply get_coro_run; apply lookup_insert_eq).
Qed.

(** A call of [fcntl] concerns neither the queue nor the epoll. *)
Lemma fcntl_run s f fd cmd arg :
  Running f s -> exists r k', raw (SysFcntl fd cmd arg) s = Ok (r, s <| sc_sys := k' |>) /\
    Running f (s <| sc_sys := k' |>) /\ queue k' = queue (sc_sys s) /\ watched k' = watched (sc_sys s).
Proof using K.
  intros R. rewrite raw_run. eexists _, _. split; [done|]. split; [by apply running_sys|]. apply (ak_fcntl _ _ _ K).
Qed.

(** The listener stores the connection [a], makes a handler with the address
    of its variable, and waits again. *)
Definition handed (f : frame) (c : Coroutine) (a : Z) (im : IdMap) (n : nat) s s' : Prop :=
  exists w d e h, wf_fd w = l /\ wf_coro w = fr_coro f /\
    (id_ d = id_ c /\ stack_ d = stack_ c /\ status_ d = kStatusSuspend /\ uc_at (ctx_ d) = KAccept f w (next n)) /\
    (status_ e = kStatusReady /\ arg_ e = stack_ c + off /\ fun_ e = test_echo m) /\
    ob_coros s !! h = None /\ ob_coros s' = <[fr_coro f := d]> (<[h := e]> (ob_coros s)) /\
    queue (sc_sys s') = queue (sc_sys s) /\ active_ s' = active_ s ++ [Some h] /\
    ob_vars s' = <[stack_ c + off := a]> (ob_vars s) /\ id_map_ s' = im.

(** The last part of a round: [pthread_create], and [accept] again. *)
Lemma spawns_and_waits s f c a i im n :
  Running f s -> ob_coros s !! fr_coro f = Some c -> watched (sc_sys s) = false -> ob_vars s !! (stack_ c + off) = Some a ->
  Allocate old_wsz (id_map_ s) = Ok (i, im) -> 0 <= i < kCoroNum ->
  exists s', run_prog f (PSpawn (stack_ c + off) (test_echo m) (fun _ => test_listener_loop (Datatypes.S n) m off l)) s = Ok (tt, s') /\
    handed f c a im n s s'.
Proof using Hw Hl K.
  intros R Hc Hwt Hv Hal Hi. pose proof (ru_inv _ _ R) as I. cbn [run_prog test_listener_loop].
  destruct (spawn_run s (stack_ c + off) (test_echo m) i im (oi_coros_len _ I) Hal Hi) as (s1 & e & Hsp & C1 & He & A1 & K1 & V1 & M1).
  destruct (wp_Ok _ _ _ _ _ _ (Spawn_inv Hw s _ _ I) Hsp) as (I1 & Hr1 & Hc1).
  assert (ob_coros s !! ob_next s = None) as Hnew.
  { destruct (ob_coros s !! ob_next s) eqn:Hp; [|done]. pose proof (oi_next _ I _ (or_introl (mk_is_Some _ _ Hp))). lia. }
  assert (Running f s1) as R1.
  { split; [done|by rewrite Hr1, (ru_id _ _ R)|]. destruct (ru_live _ _ R) as (c' & Hc' & Hid). eauto. }
  rewrite (bind_Ok _ _ _ _ _ Hsp).
  destruct (accept_waits s1 f c (next n) R1 (Hc1 _ _ Hc)) as (w & d & s2 & Hacc & Hfd & Hwc & Hd & C2 & Q2 & A2 & V2 & M2); [by rewrite K1|].
  rewrite (bind_Ok _ _ _ _ _ Hacc). exists s2. split; [done|]. exists w, d, e, (ob_next s).
  rewrite C2, C1, Q2, K1, A2, A1, V2, V1, M2, M1. split_and!; try done; [by rewrite Hd..|apply He|apply He|apply He|by rewrite insert_id].
Qed.

(** From the connection [a] to the next wait. *)
Lemma hands_over s f c a i im n :
  Running f s -> ob_coros s !! fr_coro f = Some c -> 0 <= a -> watched (sc_sys s) = false ->
  Allocate old_wsz (id_map_ s) = Ok (i, im) -> 0 <= i < kCoroNum ->
  exists s', run_prog f (next (Datatypes.S n) a) s = Ok (tt, s') /\ handed f c a im n s s'.
Proof using Hw Hl Hoff K.
  intros R Hc Ha Hwt Hal Hi. unfold test_accepted. cbn [run_prog].
  rewrite (bind_Ok _ _ _ (stack_ c + off) s) by (unfold local_address; by rewrite (bind_Ok _ _ _ _ _ (get_coro_run _ _ _ Hc))).
  set (s1 := s <| ob_vars ::= <[stack_ c + off := a]> |>).
  assert (store_var (stack_ c + off) a s = Ok (tt, s1)) as Hst.
  { unfold store_var. rewrite (bind_Ok _ _ _ s s) by done. by rewrite (on_some_stack_of _ _ _ _ Hc (own_local c)). }
  pose proof (wp_Ok _ _ _ _ _ _ (store_var_inv _ f _ _ R) Hst) as R1.
  rewrite (bind_Ok _ _ _ _ _ Hst), (proj2 (Z.eqb_neq a (-1))) by lia. cbn [negb]. cbn [run_prog].
  destruct (fcntl_run s1 f a F_GETFL None R1) as (r & k2 & Hg & R2 & Q2 & W2). rewrite (bind_Ok _ _ _ _ _ Hg).
  destruct (fcntl_run _ f a F_SETFL (Some (Z.lor (sr_ret r) O_NONBLOCK)) R2) as (r3 & k3 & Hset & R3 & Q3 & W3).
  rewrite (bind_Ok _ _ _ _ _ Hset). set (s3 := _ <| sc_sys := k3 |>) in *.
  change (watched k2 = watched (sc_sys s)) in W2. change (queue k2 = queue (sc_sys s)) in Q2.
  change (watched k3 = watched k2) in W3. change (queue k3 = queue k2) in Q3.
  destruct (spawns_and_waits s3 f c a i im n R3 Hc) as (s' & Hrun & w & d & e & h & H1 & H2 & H3 & H4 & H5 & H6 & H7 & H8 & H9 & H10);
    [simpl; congruence|simpl; apply lookup_insert_eq|done|done|].
  exists s'. split; [exact Hrun|]. exists w, d, e, h. do 6 (split; [done|]). split; [by rewrite H7, <- Q2|]. split; [done|].
  split; [|done]. rewrite H9. simpl. apply insert_insert_eq.
Qed.

(** The listener is resumed with a connection there. *)
Lemma listener_resumed fuel id p st n s a q i im :
  Listening id p st (Datatypes.S n) s -> queue (sc_sys s) = a :: q -> Allocate old_wsz (id_map_ s) = Ok (i, im) -> 0 <= i < kCoroNum ->
  exists h s', Resume (Datatypes.S fuel) id s = Ok (tt, s') /\ Listening id p st n s' /\ queue (sc_sys s') = q /\ id_map_ s' = im /\
    active_ s' = active_ s ++ [Some h] /\ ready (st + off) h s' /\ (forall h', ready (st + off) h' s -> ready (st + off) h' s') /\
    ob_vars s' !! (st + off) = Some a.
Proof using Hw Hl Hoff K.
  intros [I (c & w & Hc & <- & <- & Hst & Hat & Hfd & Hwc)] Hq Hal Hi.
  destruct (resume_suspended s p c (Datatypes.S fuel) I Hc Hst) as [R1 Hres]. set (s1 := _ <| ob_coros ::= _ |>) in *.
  destruct (accept_leaves fuel s1 (mk_frame (id_ c) p) w (next (Datatypes.S n)) a q R1 Hfd Hq) as (k2 & Hacc & Ha & Q2 & W2).
  set (s2 := s1 <| sc_sys := k2 |>) in *. set (c1 := c <| status_ := kStatusRunning |>).
  destruct (hands_over s2 (mk_frame (id_ c) p) c1 a i im n) as (s' & Hrun & w' & d & e & h & Hfd' & Hwc' & Hd & He & Hh & C3 & Q3 & A3 & V3 & M3);
    [by apply running_sys|apply lookup_insert_eq|done..|].
  assert (Resume (Datatypes.S fuel) (id_ c) s = Ok (tt, s')) as HR.
  { rewrite Hres, Hat. cbn [continue]. by rewrite (bind_Ok _ _ _ _ _ Hacc). }
  assert (h <> p) as Hne by (intros ->; simpl in Hh; by rewrite lookup_insert_eq in Hh).
  exists h, s'. split; [done|]. split_and!.
  - split; [exact (wp_Ok _ _ _ _ _ _ (Resume_inv Hw s _ _ I) HR)|]. exists d, w'. rewrite C3. simpl. rewrite lookup_insert_eq.
    split_and!; [done|apply Hd..|done|done].
  - by rewrite Q3.
  - done.
  - done.
  - exists e. rewrite C3. simpl. rewrite lookup_insert_ne, lookup_insert_eq by done. by split; [|apply He].
  - intros h' (d' & Hd' & Hs' & Hrest). exists d'. rewrite C3. simpl.
    assert (h' <> p) as Hne' by (intros ->; rewrite Hc in Hd'; injection Hd' as <-; rewrite Hst in Hs'; done).
    rewrite lookup_insert_ne by done. rewrite lookup_insert_ne; [by rewrite lookup_insert_ne|].
    intros <-. simpl in Hh. rewrite lookup_insert_ne in Hh by done. congruence.
  - rewrite V3. simpl. apply lookup_insert_eq.
Qed.

(** A pass over the list resumes the listener where it finds it. *)
Lemma pass_listener fuel visits i id p st n s s' :
  Listening id p st n s -> active_ s !! i = Some (Some p) -> Resume fuel id s = Ok (tt, s') ->
  run_active fuel (Datatypes.S visits) i s = run_active fuel visits (i + 1) s'.
Proof using.
  clear Hl K. intros [_ (c & w & Hc & Hid & _)] Hi Hres. cbn [run_active]. rewrite (bind_Ok _ _ _ s s) by done. rewrite Hi.
  cbn [deref]. rewrite (bind_Ok _ _ _ p s) by done. rewrite (bind_Ok _ _ _ _ _ (get_coro_run _ _ _ Hc)), Hid.
  by rewrite (bind_Ok _ _ _ _ _ Hres).
Qed.

Lemma listening_handles id p st n s h v :
  Listening id p st n s -> ready (st + off) h s -> ob_vars s !! (st + off) = Some v -> handles h v s.
Proof using Hoff.
  clear Hl K. intros [I (c & w & Hc & _ & <- & Hst & _)] Hr Hv. by apply (handler_reads s p c).
Qed.
End listener.

(** C38. Two connections, one variable.  The listener of the example waits in
    [accept] and is on the list twice (every event of its socket lists it once
    more).  When the connections [a] and [b] have both arrived, a pass over the
    list resumes it twice before it gets to the handlers: after the first
    time the handler of [a] would have served [a]; but the listener stores [b]
    in the same variable, and then both handlers, which come next, serve [b]:
    nobody serves [a]. *)
Theorem handlers_share_descriptor {S} `{!OldSys S} l queue watched m off fuel id p st n (s : Scheduler S) i a b q i1 i2 im :
  old_wsz = 4 \/ old_wsz = 8 -> 0 <= l < kCoroNum -> 0 <= off < kProtectStackSize + kDefaulaStackSize ->
  AcceptKernel l queue watched -> Listening l m off id p st (2 + n) s ->
  active_ s !! i = Some (Some p) -> active_ s !! (i + 1)%nat = Some (Some p) -> queue (sc_sys s) = a :: b :: q ->
  alloc_many old_wsz 2 (id_map_ s) = Ok ([i1; i2], im) -> 0 <= i1 < kCoroNum -> 0 <= i2 < kCoroNum ->
  exists h1 h2 s1 s2,
    (forall visits, run_active (1 + fuel) (2 + visits) i s = run_active (1 + fuel) (1 + visits) (i + 1) s1) /\ handles m h1 a s1 /\
    (forall visits, run_active (1 + fuel) (2 + visits) i s = run_active (1 + fuel) visits (i + 2) s2) /\
    active_ s2 = active_ s ++ [Some h1; Some h2] /\ queue (sc_sys s2) = q /\ handles m h1 b s2 /\ handles m h2 b s2.
Proof.
  intros Hw Hl Hoff K L Hi Hi' Hq Hal Hr1 Hr2. cbn [alloc_many] in Hal.
  apply bind_inv in Hal as (j1 & im1 & Ha1 & Hal). apply bind_inv in Hal as (rest & im2 & Hal & Heq).
  apply bind_inv in Hal as (j2 & im2' & Ha2 & Hal). injection Hal as <- <-. injection Heq as -> -> <-.
  destruct (listener_resumed Hw l Hl queue watched K m off Hoff fuel id p st (Datatypes.S n) s a (b :: q) i1 im1 L Hq Ha1 Hr1)
    as (h1 & s1 & R1 & L1 & Q1 & M1 & A1 & Y1 & _ & V1).
  rewrite <- M1 in Ha2.
  destruct (listener_resumed Hw l Hl queue watched K m off Hoff fuel id p st n s1 b q i2 im2' L1 Q1 Ha2 Hr2)
    as (h2 & s2 & R2 & L2 & Q2 & _ & A2 & Y2 & F2 & V2).
  assert (active_ s1 !! (i + 1)%nat = Some (Some p)) as Hi1.
  { rewrite A1, lookup_app_l; [done|]. by apply lookup_lt_Some in Hi'. }
  exists h1, h2, s1, s2. split_and!.
  - intros v. by apply (pass_listener l m off (1 + fuel) (1 + v) i id p st _ s s1 L).
  - by apply (listening_handles l m off Hoff id p st _ s1 h1 a L1).
  - intros v. transitivity (run_active (1 + fuel) (1 + v) (i + 1) s1); [by apply (pass_listener l m off (1 + fuel) (1 + v) i id p st _ s s1 L)|].
    replace (i + 2)%nat with (i + 1 + 1)%nat by lia. by apply (pass_listener l m off (1 + fuel) v (i + 1) id p st _ s1 s2 L1).
  - by rewrite A2, A1, <- app_assoc.
  - done.
  - apply (listening_handles l m off Hoff id p st _ s2 h1 b L2); [by apply F2|done].
  - by apply (listening_handles l m off Hoff id p st _ s2 h2 b L2).
Qed.

(** * A run of the program

    The listening socket is 3; the connections 5 and 6 arrive before the first
    event.  [tk_queue], [tk_watched], and the descriptors of the calls of
    [recv]. *)
Record test_kernel := mk_test_kernel { tk_queue : list nat; tk_watched : bool; tk_recv : list Z }.

Definition test_call (c : syscall) (k : test_kernel) : sysret * test_kernel :=
  match c, tk_queue k with
  | SysSocket _ _ _, _ => (mk_sysret 3 0 [] [] [], k)
  | SysAccept _, a :: q => (mk_sysret (Z.of_nat a) 0 [] [] [], mk_test_kernel q (tk_watched k) (tk_recv k))
  | SysAccept _, [] => (mk_sysret (-1) EAGAIN [] [] [], k)
  | SysRecv fd _ _, q => (mk_sysret (-1) EAGAIN [] [] [], mk_test_kernel q (tk_watched k) (tk_recv k ++ [fd]))
  | _, _ => (mk_sysret 0 0 [] [] [], k)
  end.

Definition test_ctl (op fd : Z) (k : test_kernel) : Z * test_kernel :=
  if fd =? 3 then
    if op =? EPOLL_CTL_DEL then (0, mk_test_kernel (tk_queue k) false (tk_recv k))
    else if tk_watched k then (-1, k) else (0, mk_test_kernel (tk_queue k) true (tk_recv k))
  else (0, k).

(** Every wait reports the socket object of the listener. *)
#[export] Instance test_sys : OldSys test_kernel := {|
  old_wsz := 8;
  old_freed_stack := true;
  old_call := test_call;
  old_epoll_create _ k := (4, k);
  old_epoll_ctl _ op fd _ k := test_ctl op fd k;
  old_epoll_wait _ _ _ k := (1, [mk_epoll_event EPOLLIN 112642], k)
|}.

Lemma test_accept_kernel : AcceptKernel 3 (fun k => map Z.of_nat (tk_queue k)) tk_watched.
Proof.
  split.
  - intros [[|a q] w r]; simpl; split_and!; [done..|lia|done].
  - intros fd cmd arg [[|a q] w r]; done.
  - done.
  - intros epfd ev [q w r]. unfold old_epoll_ctl, test_sys, test_ctl. simpl. by destruct w.
Qed.

Lemma test_wsz : old_wsz (S := test_kernel) = 4 \/ old_wsz (S := test_kernel) = 8.
Proof. by right. Qed.

(** The listener after the first round, when the first event has come. *)
Notation test_start := (test_main 3 1 64 10 10 1 (new_Scheduler (mk_test_kernel [5; 6]%nat false []))).
Definition test_state : Scheduler test_kernel :=
  match test_start with Ok (_, s) => s | Fail _ => new_Scheduler (mk_test_kernel [] false []) end.

Lemma test_started : test_start = Ok (tt, test_state).
Proof. unfold test_state. destruct test_start as [[[] s]|e] eqn:H; [done|by vm_compute in H]. Qed.

Lemma test_state_inv : OldInv test_state.
Proof. exact (test_main_inv test_wsz _ _ _ _ _ _ _ _ test_started). Qed.

Lemma test_listening : Listening 3 1 64 0 1 2 2 test_state.
Proof.
  split; [apply test_state_inv|].
  exists (mk_old_coroutine 0 (test_listener 3 1 64) 0 2 kStatusSuspend
    (mk_ucontext 2 kDefaulaStackSize true (KAccept (mk_frame 0 1) (mk_wait 1 3 (mk_epoll_event EPOLLIN 112642))
      (fun fd => test_accepted 1 64 fd (test_listener_loop 2 1 64 3))))), (mk_wait 1 3 (mk_epoll_event EPOLLIN 112642)).
  split; [vm_compute; reflexivity|]. by split_and!.
Qed.

Definition test_ids : IdMap := match alloc_many 8 2 (id_map_ test_state) with Ok (_, im) => im | Fail _ => new_IdMap 8 end.

Lemma test_alloc : alloc_many old_wsz 2 (id_map_ test_state) = Ok ([1; 2], test_ids).
Proof.
  change (alloc_many 8 2 (id_map_ test_state) = Ok ([1; 2], test_ids)).
  unfold test_ids. destruct (alloc_many 8 2 (id_map_ test_state)) as [[ids im]|] eqn:H; [|by vm_compute in H].
  assert (match alloc_many 8 2 (id_map_ test_state) with Ok (l, _) => l | Fail _ => [] end = [1; 2]) as E by (vm_compute; reflexivity).
  rewrite H in E. by rewrite E.
Qed.

Lemma test_lists : active_ test_state = [Some 1; Some 1] /\ tk_queue (sc_sys test_state) = [5; 6]%nat.
Proof. vm_compute. done. Qed.

Lemma handlers_share_descriptor_witness :
  exists h1 h2 s1 s2, test_start = Ok (tt, test_state) /\
    run_active 3 3 0 test_state = run_active 3 2 1 s1 /\ handles 1 h1 5 s1 /\
    run_active 3 3 0 test_state = run_active 3 1 2 s2 /\ active_ s2 = [Some 1; Some 1; Some h1; Some h2] /\
    handles 1 h1 6 s2 /\ handles 1 h2 6 s2.
Proof.
  destruct test_lists as [Ha Hq]. assert (forall x, 0 <= x < 10 -> 0 <= x < kCoroNum) as Hr by (unfold kCoroNum; lia).
  destruct (handlers_share_descriptor 3 (fun k => map Z.of_nat (tk_queue k)) tk_watched 1 64 2 0 1 2 0 test_state 0 5 6 [] 1 2
    test_ids test_wsz) as (h1 & h2 & s1 & s2 & H1 & H2 & H3 & H4 & _ & H5 & H6);
    [apply Hr; lia|unfold kProtectStackSize, kDefaulaStackSize; lia|exact test_accept_kernel|exact test_listening|by rewrite Ha|by rewrite Ha|by rewrite Hq|exact test_alloc|apply Hr; lia|apply Hr; lia|].
  exists h1, h2, s1, s2. split; [exact test_started|]. rewrite Ha in H4.
  exact (conj (H1 1%nat) (conj H2 (conj (H3 1%nat) (conj H4 (conj H5 H6))))).
Defined.
