(* ===== verification/HostLookup.v ===== *)
(** Host name lookup (src/src/hook_sys_call.c, [gethostbyname] and
    [coroutine_gethostbyname]): the reentrant call of the C library, with a
    result and a buffer per coroutine that grows until the answer fits. *)

From stdpp Require Import gmap list.
From S2P Require Import Prelude.

Definition ERANGE : Z := 34.
Definition NETDB_INTERNAL : Z := -1.

(** * State *)

Record hostbuf_wrap := mk_hostbuf {
  hb_host : Z;                (* the contents of the [hostent] *)
  hb_buffer : option Z;
  hb_buffer_size : Z;
  hb_host_errno : Z
}.
#[export] Instance eta_hostbuf : Eta hostbuf_wrap := fun r =>
  mk_hostbuf (hb_host r) (hb_buffer r) (hb_buffer_size r) (hb_host_errno r).

Record hosts (S : Type) := mk_hosts {
  ho_wraps : gmap Z hostbuf_wrap;   (* what [calloc] made *)
  ho_bufs : gmap Z Z;               (* what [malloc] made: the sizes *)
  ho_next : Z;
  ho_sys : S
}.
Arguments mk_hosts {S}. Arguments ho_wraps {S}. Arguments ho_bufs {S}. Arguments ho_next {S}. Arguments ho_sys {S}.
#[export] Instance eta_hosts S : Eta (hosts S) := fun r => mk_hosts (ho_wraps r) (ho_bufs r) (ho_next r) (ho_sys r).

(** What [gethostbyname_r] returns, whether it stores [host] in [*result],
    what it stores in [*host] and in [*h_errnop]. *)
Record host_answer := mk_answer { ha_ret : Z; ha_found : bool; ha_host : Z; ha_errno : Z }.

(** The layers below: hooking and the specific data of the current coroutine,
    and the C library.  While [gethostbyname_r] waits, other coroutines may
    run; they use buffers of their own. *)
Class HostSys (S : Type) := {
  host_hooked : S -> bool;
  host_getspecific : S -> option Z;        (* coroutine_getspecific(gCoroutineHostbufKey) *)
  host_setspecific : Z -> S -> Z * S;
  gethostbyname_r : Z -> Z -> S -> host_answer * S
}.

Section host.
Context {S : Type} `{!HostSys S}.
Notation MH := (M (hosts S)).

Definition get_wrap (w : Z) : MH hostbuf_wrap :=
  h ← get; match ho_wraps h !! w with Some x => mret x | None => fail BadPointer end.

Definition upd_wrap (w : Z) (f : hostbuf_wrap -> hostbuf_wrap) : MH unit :=
  x ← get_wrap w; modify (fun h => h <| ho_wraps ::= <[w := f x]> |>).

Definition malloc_buf (size : Z) : MH Z :=
  h ← get;
  put (h <| ho_bufs ::= <[ho_next h := size]> |> <| ho_next := ho_next h + 1 |>);;
  mret (ho_next h).

Definition free_buf (b : Z) : MH unit :=
  h ← get;
  match ho_bufs h !! b with
  | Some _ => put (h <| ho_bufs ::= delete b |>)
  | None => fail BadPointer
  end.

(** * The lookup *)

(** The wrap of the coroutine, made when it has none. *)
Definition host_wrap : MH (option Z) :=
  h ← get;
  match host_getspecific (ho_sys h) with
  | Some w => mret (Some w)
  | None =>
      let w := ho_next h in
      put (h <| ho_wraps ::= <[w := mk_hostbuf 0 None 0 0]> |> <| ho_next := w + 1 |>);;
      h ← get;
      let '(ret, k) := host_setspecific w (ho_sys h) in
      put (h <| ho_sys := k |>);;
      if negb (ret =? 0) then
        modify (fun h => h <| ho_wraps ::= delete w |>);;
        mret None
      else mret (Some w)
  end.

(** A buffer larger than 1024 bytes is given back; without one, 1024 bytes are
    allocated. *)
Definition host_buffer (w : Z) : MH unit :=
  x ← get_wrap w;
  (match hb_buffer x with
   | Some b => if 1024 <? hb_buffer_size x then free_buf b;; upd_wrap w (fun x => x <| hb_buffer := None |>) else mret tt
   | None => mret tt
   end);;
  x ← get_wrap w;
  match hb_buffer x with
  | Some _ => mret tt
  | None =>
      b ← malloc_buf 1024;
      upd_wrap w (fun x => x <| hb_buffer := Some b |>);;
      upd_wrap w (fun x => x <| hb_buffer_size := 1024 |>)
  end.

(** The call, into a buffer that has to be as large as it is told. *)
Definition host_call (name w : Z) : MH host_answer :=
  x ← get_wrap w;
  b ← deref (hb_buffer x);
  h ← get;
  match ho_bufs h !! b with
  | None => fail BadPointer
  | Some size =>
      if size <? hb_buffer_size x then fail OutOfBounds
      else
        let '(a, k) := gethostbyname_r name (hb_buffer_size x) (ho_sys h) in
        put (h <| ho_sys := k |>);;
        upd_wrap w (fun x => x <| hb_host := ha_host a |> <| hb_host_errno := ha_errno a |>);;
        mret a
  end.

Definition too_small (a : host_answer) : bool := (ha_ret a =? ERANGE) && (ha_errno a =? NETDB_INTERNAL).

Fixpoint host_loop (fuel : nat) (name w : Z) : MH host_answer :=
  a ← host_call name w;
  if too_small a then
    match fuel with
    | O => fail OutOfFuel
    | Datatypes.S n =>
        x ← get_wrap w;
        b ← deref (hb_buffer x);
        free_buf b;;
        upd_wrap w (fun x => x <| hb_buffer_size := to_ullong (hb_buffer_size x * 2) |>);;
        x ← get_wrap w;
        b ← malloc_buf (hb_buffer_size x);
        upd_wrap w (fun x => x <| hb_buffer := Some b |>);;
        host_loop n name w
    end
  else mret a.

(** The result points to the [host] of the wrap, given here by the wrap. *)
Definition coroutine_gethostbyname (fuel : nat) (name : option Z) : MH (option Z) :=
  match name with
  | None => mret None
  | Some name =>
      wrap ← host_wrap;
      w ← deref wrap;
      host_buffer w;;
      a ← host_loop fuel name w;
      mret (if (ha_ret a =? 0) && ha_found a then Some w else None)
  end.

(** [g_sys_gethostbyname] is NULL: nothing assigns it. *)
Definition gethostbyname (fuel : nat) (name : option Z) : MH (option Z) :=
  h ← get;
  if negb (host_hooked (ho_sys h)) then fail NullDeref else coroutine_gethostbyname fuel name.
End host.
