(* ===== verification/HostSpec.v ===== *)
(** Host name lookup: the buffers are allocated and freed in balance, and the
    loop ends with a buffer in which the answer fits. *)

From stdpp Require Import gmap list.
From S2P Require Import Prelude HostLookup.

Section spec.
Context {S : Type} `{!HostSys S}.
Implicit Types h : hosts S.

(** Every wrap has its own buffer, of the size it records; no other buffer is
    allocated. *)
Record HostInv h : Prop := {
  hi_buf : forall w x b, ho_wraps h !! w = Some x -> hb_buffer x = Some b ->
    ho_bufs h !! b = Some (hb_buffer_size x) /\ 1024 <= hb_buffer_size x;
  hi_owned : forall b n, ho_bufs h !! b = Some n -> exists w x, ho_wraps h !! w = Some x /\ hb_buffer x = Some b;
  hi_inj : forall w x w' x' b, ho_wraps h !! w = Some x -> ho_wraps h !! w' = Some x' ->
    hb_buffer x = Some b -> hb_buffer x' = Some b -> w = w';
  hi_next : forall p, is_Some (ho_wraps h !! p) \/ is_Some (ho_bufs h !! p) -> p < ho_next h;
  hi_self : forall w, host_getspecific (ho_sys h) = Some w -> is_Some (ho_wraps h !! w)
}.

(** What is assumed of the C library for [name]: an answer needs [need] bytes,
    ERANGE says so; the specific data belongs to the coroutine. *)
Record HostContract (name need : Z) : Prop := {
  hc_small : forall size st, size < need -> too_small (gethostbyname_r name size st).1 = true;
  hc_large : forall size st, need <= size -> too_small (gethostbyname_r name size st).1 = false;
  hc_self : forall size st, host_getspecific (gethostbyname_r name size st).2 = host_getspecific st;
  hc_set : forall w st, (host_setspecific w st).1 = 0 /\ host_getspecific (host_setspecific w st).2 = Some w
}.

(** The answer of the C library to the call that follows [j] refused ones, into
    buffers of [size], [2 * size], ... bytes, and its state after it. *)
Fixpoint nth_answer (j : nat) (name size : Z) (st : S) : host_answer * S :=
  let r := gethostbyname_r name size st in
  match j with O => r | Datatypes.S j' => nth_answer j' name (size * 2) r.2 end.

(** The result of the coroutine, and the state of the C library with it. *)
Definition own_wrap h : Z := default (ho_next h) (host_getspecific (ho_sys h)).
Definition own_state h : S :=
  match host_getspecific (ho_sys h) with Some _ => ho_sys h | None => (host_setspecific (ho_next h) (ho_sys h)).2 end.

Lemma get_wrap_run h w x : ho_wraps h !! w = Some x -> get_wrap w h = Ok (x, h).
Proof using. intros H. unfold get_wrap. mrun. by rewrite H. Qed.

Lemma upd_wrap_run h w x f :
  ho_wraps h !! w = Some x -> upd_wrap w f h = Ok (tt, h <| ho_wraps ::= <[w := f x]> |>).
Proof using. intros H. unfold upd_wrap. by rewrite (bind_Ok _ _ _ _ _ (get_wrap_run _ _ _ H)). Qed.

(** The wrap's contents change, not its buffer, and the rest of the state not
    at all for the wraps. *)
Lemma host_inv_upd h w x x' k :
  HostInv h -> ho_wraps h !! w = Some x -> hb_buffer x' = hb_buffer x -> hb_buffer_size x' = hb_buffer_size x ->
  host_getspecific k = host_getspecific (ho_sys h) ->
  HostInv (h <| ho_sys := k |> <| ho_wraps ::= <[w := x']> |>).
Proof using.
  intros I Hx Hb Hs Hk.
  assert (forall v y, <[w := x']> (ho_wraps h) !! v = Some y ->
    exists z, ho_wraps h !! v = Some z /\ hb_buffer z = hb_buffer y /\ hb_buffer_size z = hb_buffer_size y) as Hl.
  { intros v y. rewrite lookup_insert. case_decide as Hv; [subst v|eauto]. intros [= <-]. eauto. }
  destruct I. split; simpl.
  - intros v y b (z & Hz & <- & <-)%Hl. eauto.
  - intros b n (v & y & Hy & Hyb)%hi_owned0. destruct (decide (v = w)) as [->|Hv].
    + exists w, x'. rewrite lookup_insert_eq. split; [done|]. congruence.
    + exists v, y. by rewrite lookup_insert_ne.
  - intros v y v' y' b (z & Hz & <- & _)%Hl (z' & Hz' & <- & _)%Hl. eauto.
  - intros p [[y Hp]|Hp]; [|eauto]. apply Hl in Hp as (z & Hz & _). eauto.
  - rewrite Hk. intros v Hv%hi_self0. rewrite lookup_insert. case_decide; eauto.
Qed.

Definition drop_buffer (b : option Z) (bufs : gmap Z Z) : gmap Z Z :=
  match b with Some b => delete b bufs | None => bufs end.

(** The buffer of a wrap is replaced by a new one. *)
Lemma host_inv_replace h w x x' n :
  HostInv h -> ho_wraps h !! w = Some x -> hb_buffer x' = Some (ho_next h) -> hb_buffer_size x' = n -> 1024 <= n ->
  HostInv (mk_hosts (<[w := x']> (ho_wraps h)) (<[ho_next h := n]> (drop_buffer (hb_buffer x) (ho_bufs h)))
             (ho_next h + 1) (ho_sys h)).
Proof using.
  intros I Hx Hb Hs Hn.
  assert (forall b m, drop_buffer (hb_buffer x) (ho_bufs h) !! b = Some m <-> ho_bufs h !! b = Some m /\ hb_buffer x <> Some b) as Hd.
  { intros b m. destruct (hb_buffer x) as [c|]; simpl; [rewrite lookup_delete_Some|]; naive_solver. }
  assert (forall b, b = ho_next h -> ho_bufs h !! b = None) as Hfresh.
  { intros b ->. destruct (ho_bufs h !! ho_next h) eqn:E; [|done]. pose proof (hi_next _ I (ho_next h) ltac:(right; eauto)). lia. }
  assert (forall v y b, v <> w -> ho_wraps h !! v = Some y -> hb_buffer y = Some b -> b <> ho_next h /\ hb_buffer x <> Some b) as Hne.
  { intros v y b Hv Hy Hyb. split.
    - intros E. destruct (hi_buf _ I _ _ _ Hy Hyb) as [Hbb _]. by rewrite (Hfresh b E) in Hbb.
    - intros Hxb. apply Hv. by apply (hi_inj _ I _ _ _ _ b Hy Hx). }
  split; simpl.
  - intros v y b. rewrite (lookup_insert (ho_wraps h)). case_decide as Hv.
    + subst v. intros [= <-]. rewrite Hb, Hs. intros [= <-]. by rewrite lookup_insert_eq.
    + intros Hy Hyb. destruct (Hne v y b ltac:(done) Hy Hyb) as [Hn1 Hn2]. destruct (hi_buf _ I _ _ _ Hy Hyb) as [H1 H2].
      rewrite lookup_insert_ne by done. split; [|done]. by apply Hd.
  - intros b m. rewrite lookup_insert. case_decide as Hbn.
    + intros _. exists w, x'. rewrite lookup_insert_eq. split; [done|congruence].
    + intros [Hbm Hbx]%Hd. destruct (hi_owned _ I _ _ Hbm) as (v & y & Hy & Hyb). exists v, y.
      rewrite lookup_insert_ne; [done|]. intros <-. assert (y = x) as -> by congruence. done.
  - intros v y v' y' b. rewrite !(lookup_insert (ho_wraps h)). case_decide as Hv; case_decide as Hv'; [congruence| | |apply (hi_inj _ I)].
    + intros [= <-] Hy' Hyb Hyb'. destruct (Hne v' y' b ltac:(congruence) Hy' Hyb') as [? _]. congruence.
    + intros Hy [= <-] Hyb Hyb'. destruct (Hne v y b ltac:(congruence) Hy Hyb) as [? _]. congruence.
  - intros p Hp. destruct (decide (p = ho_next h)) as [->|Hpn]; [lia|].
    enough (p < ho_next h) by lia. apply (hi_next _ I). destruct Hp as [Hp|[m Hp]].
    + left. rewrite lookup_insert in Hp. case_decide; [subst; eauto|done].
    + right. rewrite lookup_insert_ne in Hp by congruence. apply Hd in Hp as [Hp _]. eauto.
  - intros v Hv%(hi_self _ I). rewrite lookup_insert. case_decide; eauto.
Qed.

(** * One call, and one replacement *)

Lemma host_call_run h name need w x :
  HostInv h -> HostContract name need -> ho_wraps h !! w = Some x -> is_Some (hb_buffer x) ->
  exists a h' x', host_call name w h = Ok (a, h') /\ HostInv h' /\ ho_wraps h' !! w = Some x' /\
    hb_buffer x' = hb_buffer x /\ hb_buffer_size x' = hb_buffer_size x /\
    host_getspecific (ho_sys h') = host_getspecific (ho_sys h) /\
    too_small a = bool_decide (hb_buffer_size x < need) /\ (hb_host x' = ha_host a /\ hb_host_errno x' = ha_errno a) /\
    gethostbyname_r name (hb_buffer_size x) (ho_sys h) = (a, ho_sys h').
Proof using.
  intros I C Hx [b Hb]. destruct (hi_buf _ I _ _ _ Hx Hb) as [Hbuf Hsz].
  pose proof (hc_self _ _ C (hb_buffer_size x) (ho_sys h)) as Hself.
  assert (too_small (gethostbyname_r name (hb_buffer_size x) (ho_sys h)).1 = bool_decide (hb_buffer_size x < need)) as Hts.
  { case_bool_decide; [by apply (hc_small _ _ C)|apply (hc_large _ _ C); lia]. }
  unfold host_call. rewrite (bind_Ok _ _ _ _ _ (get_wrap_run _ _ _ Hx)). rewrite Hb. erewrite bind_Ok by done.
  erewrite bind_Ok by done. rewrite Hbuf, (proj2 (Z.ltb_ge _ _)) by lia.
  destruct (gethostbyname_r name (hb_buffer_size x) (ho_sys h)) as [a k]. simpl in Hself, Hts. erewrite bind_Ok by done.
  erewrite bind_Ok by (apply upd_wrap_run; exact Hx).
  set (x' := x <| hb_host := ha_host a |> <| hb_host_errno := ha_errno a |>).
  eexists a, _, x'. split; [done|]. split; [by apply (host_inv_upd h w x x' k)|].
  split; [apply lookup_insert_eq|]. by repeat (split; [done|]).
Qed.

(** The growth of the buffer, in the body of the loop. *)
Lemma host_grow_run {B} h w x b (rest : M (hosts S) B) :
  HostInv h -> ho_wraps h !! w = Some x -> hb_buffer x = Some b -> hb_buffer_size x < 2 ^ 62 ->
  exists h' x', (x ← get_wrap w; b ← deref (hb_buffer x); free_buf b;;
      upd_wrap w (fun x => x <| hb_buffer_size := to_ullong (hb_buffer_size x * 2) |>);;
      x ← get_wrap w; b ← malloc_buf (hb_buffer_size x);
      upd_wrap w (fun x => x <| hb_buffer := Some b |>);; rest) h = rest h' /\
    HostInv h' /\ ho_wraps h' !! w = Some x' /\ is_Some (hb_buffer x') /\ hb_buffer_size x' = hb_buffer_size x * 2 /\
    ho_sys h' = ho_sys h.
Proof using.
  intros I Hx Hb Hlt. destruct (hi_buf _ I _ _ _ Hx Hb) as [Hbuf Hsz].
  rewrite (bind_Ok _ _ _ _ _ (get_wrap_run _ _ _ Hx)). rewrite Hb. erewrite bind_Ok by done.
  erewrite bind_Ok by (unfold free_buf; mrun; rewrite Hbuf; done).
  erewrite bind_Ok by (apply upd_wrap_run; exact Hx).
  erewrite bind_Ok by (apply get_wrap_run; simpl; apply lookup_insert_eq).
  erewrite bind_Ok by done. erewrite bind_Ok by (apply upd_wrap_run; simpl; apply lookup_insert_eq).
  set (x' := x <| hb_buffer := Some (ho_next h) |> <| hb_buffer_size := hb_buffer_size x * 2 |>).
  exists (mk_hosts (<[w := x']> (ho_wraps h)) (<[ho_next h := hb_buffer_size x * 2]> (drop_buffer (hb_buffer x) (ho_bufs h)))
             (ho_next h + 1) (ho_sys h)), x'.
  split; [|split; [|split; [apply lookup_insert_eq|split; [by eexists|done]]]].
  - f_equal. cbn. rewrite insert_insert_eq, to_ullong_small by lia. by rewrite Hb.
  - apply host_inv_replace; [done..|lia].
Qed.

(** The size reached: the least of 1024, 2048, ... that holds the answer. *)
Definition buffer_fits (j : nat) (need : Z) : Prop :=
  need <= 1024 * 2 ^ Z.of_nat j /\ forall i, (i < j)%nat -> 1024 * 2 ^ Z.of_nat i < need.

Lemma host_loop_run name need w k : HostContract name need -> need <= 1024 * 2 ^ Z.of_nat k -> (k <= 50)%nat ->
  forall m j fuel h x, (j + m = k)%nat -> (m <= fuel)%nat -> (forall i, (i < j)%nat -> 1024 * 2 ^ Z.of_nat i < need) ->
  HostInv h -> ho_wraps h !! w = Some x -> is_Some (hb_buffer x) -> hb_buffer_size x = 1024 * 2 ^ Z.of_nat j ->
  exists a h' x' j', host_loop fuel name w h = Ok (a, h') /\ HostInv h' /\ ho_wraps h' !! w = Some x' /\
    host_getspecific (ho_sys h') = host_getspecific (ho_sys h) /\ is_Some (hb_buffer x') /\
    hb_buffer_size x' = 1024 * 2 ^ Z.of_nat j' /\ buffer_fits j' need /\ (j <= j')%nat /\
    (hb_host x' = ha_host a /\ hb_host_errno x' = ha_errno a) /\
    nth_answer (j' - j) name (hb_buffer_size x) (ho_sys h) = (a, ho_sys h').
Proof using.
  intros C Hk Hk50. induction m as [|m IH]; intros j fuel h x Hj Hf Hlow I Hx Hb Hs;
    destruct (host_call_run h name need w x I C Hx Hb) as (a & h1 & x1 & Hrun & I1 & Hx1 & Hb1 & Hs1 & Hg1 & Hts & Hh & Hans).
  - exists a, h1, x1, j. rewrite bool_decide_eq_false_2 in Hts by (rewrite Hs; replace j with k by lia; lia).
    rewrite Nat.sub_diag. split; [destruct fuel; cbn [host_loop]; by rewrite (bind_Ok _ _ _ _ _ Hrun), Hts|]. rewrite Hb1, Hs1.
    do 5 (split; [done|]). split; [split; [by replace j with k by lia|done]|]. by split.
  - destruct fuel as [|fuel]; [lia|]. cbn [host_loop]. rewrite (bind_Ok _ _ _ _ _ Hrun). case_bool_decide as Hneed; rewrite Hts.
    + destruct Hb as [b Hb].
      assert (1024 * 2 ^ Z.of_nat j < 2 ^ 62) as Hlt.
      { pose proof (Z.pow_le_mono_r 2 (Z.of_nat j) 50 ltac:(lia) ltac:(lia)). lia. }
      destruct (host_grow_run h1 w x1 b (host_loop fuel name w) I1 Hx1 ltac:(congruence) ltac:(lia))
        as (h2 & x2 & Hgrow & I2 & Hx2 & Hb2 & Hs2 & Hsys).
      rewrite Hgrow. destruct (IH (Datatypes.S j) fuel h2 x2) as (a' & h' & x' & j' & Hl & I' & Hx' & Hg' & Hb' & Hsz' & Hfit' & Hle & Hh' & Hans');
        try done; [lia|lia| | |].
      * intros i Hi. destruct (decide (i = j)) as [->|]; [by rewrite <- Hs|apply Hlow; lia].
      * rewrite Hs2, Hs1, Hs, Nat2Z.inj_succ, Z.pow_succ_r by lia. lia.
      * exists a', h', x', j'. rewrite Hsys, Hg1 in Hg'. do 7 (split; [done|]). split; [lia|]. split; [done|].
        replace (j' - j)%nat with (Datatypes.S (j' - Datatypes.S j)) by lia. cbn [nth_answer]. rewrite Hans. cbn [snd].
        by rewrite <- Hs1, <- Hs2, <- Hsys.
    + exists a, h1, x1, j. rewrite Nat.sub_diag, Hb1, Hs1. do 6 (split; [done|]). split; [split; [lia|done]|]. by split.
Qed.

(** * The wrap and its first buffer *)

Lemma host_wrap_run h name need :
  HostInv h -> HostContract name need ->
  exists h', host_wrap h = Ok (Some (own_wrap h), h') /\ HostInv h' /\ is_Some (ho_wraps h' !! own_wrap h) /\
    host_getspecific (ho_sys h') = Some (own_wrap h) /\ ho_sys h' = own_state h.
Proof using.
  intros I C. unfold host_wrap, own_wrap, own_state. erewrite bind_Ok by done.
  destruct (host_getspecific (ho_sys h)) as [w|] eqn:Hself.
  { exists h. split; [done|]. split; [done|]. split; [by apply (hi_self _ I)|]. by split. }
  destruct (hc_set _ _ C (ho_next h) (ho_sys h)) as [Hret Hset].
  erewrite bind_Ok by done. erewrite bind_Ok by done. cbn [ho_sys set_field ho_wraps]. cbn.
  destruct (host_setspecific (ho_next h) (ho_sys h)) as [ret k]. simpl in Hret, Hset. subst ret.
  assert (ho_wraps h !! ho_next h = None) as Hfresh.
  { destruct (ho_wraps h !! ho_next h) eqn:E; [|done]. pose proof (hi_next _ I (ho_next h) ltac:(left; eauto)). lia. }
  eexists. split; [done|]. cbn. split; [|split; [rewrite lookup_insert_eq; eauto|by split]].
  assert (forall v y b, <[ho_next h := mk_hostbuf 0 None 0 0]> (ho_wraps h) !! v = Some y -> hb_buffer y = Some b -> ho_wraps h !! v = Some y) as Hl.
  { intros v y b. rewrite lookup_insert. case_decide; [by intros [= <-]|done]. }
  destruct I. split; simpl.
  - intros v y b Hy Hyb. eauto.
  - intros b n (v & y & Hy & Hyb)%hi_owned0. exists v, y. rewrite lookup_insert_ne; [done|]. congruence.
  - intros v y v' y' b Hy Hy' Hyb Hyb'. eauto.
  - intros p Hp. destruct (decide (p = ho_next h)) as [->|Hpn]; [lia|]. enough (p < ho_next h) by lia.
    apply hi_next0. rewrite lookup_insert_ne in Hp by congruence. done.
  - intros v Hv. rewrite Hset in Hv. injection Hv as <-. rewrite lookup_insert_eq. eauto.
Qed.

Lemma host_buffer_run h w x :
  HostInv h -> ho_wraps h !! w = Some x ->
  exists h' x', host_buffer w h = Ok (tt, h') /\ HostInv h' /\ ho_wraps h' !! w = Some x' /\
    is_Some (hb_buffer x') /\ hb_buffer_size x' = 1024 /\ ho_sys h' = ho_sys h.
Proof using.
  intros I Hx.
  assert (forall h1 x1, ho_wraps h1 = <[w := x1]> (ho_wraps h) -> ho_bufs h1 = drop_buffer (hb_buffer x) (ho_bufs h) ->
    ho_next h1 = ho_next h -> ho_sys h1 = ho_sys h -> hb_buffer x1 = None ->
    exists h' x', (x ← get_wrap w;
        match hb_buffer x with
        | Some _ => mret tt
        | None => b ← malloc_buf 1024; upd_wrap w (fun x => x <| hb_buffer := Some b |>);; upd_wrap w (fun x => x <| hb_buffer_size := 1024 |>)
        end) h1 = Ok (tt, h') /\ HostInv h' /\ ho_wraps h' !! w = Some x' /\
      is_Some (hb_buffer x') /\ hb_buffer_size x' = 1024 /\ ho_sys h' = ho_sys h) as Hnew.
  { intros h1 x1 Hw Hbf Hn Hsys Hb1.
    erewrite bind_Ok by (apply get_wrap_run; rewrite Hw; apply lookup_insert_eq). rewrite Hb1.
    erewrite bind_Ok by done. erewrite bind_Ok by (apply upd_wrap_run; simpl; rewrite Hw; apply lookup_insert_eq).
    set (x' := x1 <| hb_buffer := Some (ho_next h) |> <| hb_buffer_size := 1024 |>).
    exists (mk_hosts (<[w := x']> (ho_wraps h)) (<[ho_next h := 1024]> (drop_buffer (hb_buffer x) (ho_bufs h)))
             (ho_next h + 1) (ho_sys h)), x'.
    split; [|split; [by apply host_inv_replace|split; [apply lookup_insert_eq|split; [by eexists|done]]]].
    erewrite upd_wrap_run by (simpl; apply lookup_insert_eq). cbn. by rewrite Hw, Hbf, Hn, Hsys, !insert_insert_eq. }
  unfold host_buffer. rewrite (bind_Ok _ _ _ _ _ (get_wrap_run _ _ _ Hx)). destruct (hb_buffer x) as [b|] eqn:Hb.
  - destruct (hi_buf _ I _ _ _ Hx Hb) as [Hbuf Hsz]. destruct (Z.ltb_spec 1024 (hb_buffer_size x)) as [Hlt|Hge].
    + erewrite bind_Ok.
      2: { erewrite bind_Ok by (unfold free_buf; mrun; rewrite Hbuf; done). apply upd_wrap_run. exact Hx. }
      apply (Hnew _ (x <| hb_buffer := None |>)); done.
    + erewrite bind_Ok by done. rewrite (bind_Ok _ _ _ _ _ (get_wrap_run _ _ _ Hx)), Hb.
      exists h, x. split; [done|]. split; [done|]. split; [done|]. rewrite Hb. split; [by eexists|]. split; [lia|done].
  - erewrite bind_Ok by done. apply (Hnew h x); try done. by rewrite insert_id.
Qed.
End spec.

(** C28. The lookup of a hooked task ends: when an answer that needs [need]
    bytes, at most 1024 * 2^k, is refused with ERANGE in a smaller buffer, [k]
    further rounds of the loop are enough.  It makes [j] calls that are
    refused and one more, where 1024 * 2^j is the first size that holds the
    answer; [a] is what the C library answers to the last of them.  The
    coroutine's own result ([own_wrap], the same at every lookup) holds the
    host and the error of [a], and a pointer to it is returned exactly when
    [a] is a success that found a host, NULL otherwise; its buffer has the
    size 1024 * 2^j, the smaller ones have been freed, and every coroutine
    still has its own result and buffer. *)
Theorem gethostbyname_terminates {S} `{!HostSys S} (h : hosts S) name need k fuel :
  HostInv h -> HostContract name need -> host_hooked (ho_sys h) = true ->
  need <= 1024 * 2 ^ Z.of_nat k -> (k <= 50)%nat -> (k <= fuel)%nat ->
  exists j h' x, buffer_fits j need /\ let a := (nth_answer j name 1024 (own_state h)).1 in
    gethostbyname fuel (Some name) h = Ok (if (ha_ret a =? 0) && ha_found a then Some (own_wrap h) else None, h') /\
    ho_sys h' = (nth_answer j name 1024 (own_state h)).2 /\ HostInv h' /\ ho_wraps h' !! own_wrap h = Some x /\
    hb_host x = ha_host a /\ hb_host_errno x = ha_errno a /\ hb_buffer_size x = 1024 * 2 ^ Z.of_nat j /\
    host_getspecific (ho_sys h') = Some (own_wrap h).
Proof.
  intros I C Hhook Hneed Hk Hf. unfold gethostbyname. erewrite bind_Ok by done. rewrite Hhook.
  destruct (host_wrap_run h name need I C) as (h1 & R1 & I1 & [x1 Hx1] & Hs1 & Hst1).
  destruct (host_buffer_run h1 (own_wrap h) x1 I1 Hx1) as (h2 & x2 & R2 & I2 & Hx2 & Hb2 & Hsz2 & Hs2).
  destruct (host_loop_run name need (own_wrap h) k C Hneed Hk k 0 fuel h2 x2)
    as (a & h3 & x3 & j & R3 & I3 & Hx3 & Hs3 & _ & Hsz3 & Hfit & _ & [Hh He] & Hans);
    [lia|done|lia|done|done|done|by rewrite Hsz2|].
  rewrite Nat.sub_0_r, Hsz2, Hs2, Hst1 in Hans. exists j, h3, x3. rewrite Hans. cbn [fst snd]. split; [done|]. split.
  { unfold coroutine_gethostbyname. cbn [negb]. rewrite (bind_Ok _ _ _ _ _ R1). erewrite bind_Ok by done.
    rewrite (bind_Ok _ _ _ _ _ R2), (bind_Ok _ _ _ _ _ R3). done. }
  rewrite Hs3, Hs2. by repeat (split; [done|]).
Qed.

(** A resolver whose answer needs 3000 bytes; the state is the specific data. *)
#[export] Instance demo_host_sys : HostSys (option Z) := {|
  host_hooked _ := true;
  host_getspecific st := st;
  host_setspecific w st := (0, Some w);
  gethostbyname_r name size st :=
    if size <? 3000 then (mk_answer ERANGE false 0 NETDB_INTERNAL, st) else (mk_answer 0 true (name + 1) 0, st)
|}.

Lemma gethostbyname_terminates_witness :
  exists w h' x, gethostbyname 2 (Some 7) (mk_hosts ∅ ∅ 1 (None : option Z)) = Ok (Some w, h') /\
    ho_wraps h' !! w = Some x /\ hb_host x = 8 /\ hb_buffer_size x = 4096 /\ size (ho_bufs h') = 1%nat.
Proof.
  assert (HostInv (mk_hosts ∅ ∅ 1 (None : option Z))) as I.
  { split; simpl; try done; intros *; rewrite ?lookup_empty; try done. by intros [[]|[]]. }
  assert (HostContract (S := option Z) 7 3000) as C.
  { split; simpl; intros size st; repeat case_match; naive_solver lia. }
  destruct (gethostbyname_terminates (mk_hosts ∅ ∅ 1 (None : option Z)) 7 3000 2 2 I C) as (j & h' & x & _ & Hrun & _ & _ & Hx & _);
    [reflexivity|simpl; lia|lia|lia|].
  exists 1, h', x. vm_compute in Hrun. injection Hrun as _ <-.
  vm_compute in Hx. injection Hx as <-. repeat split.
Defined.
