(* ===== verification/ThreadServer.v ===== *)
(** The listener of the echo server on a thread: the interface
    [Examples.TaskSys] implemented by [coroutine_new_task] of
    src/src/coroutine_impl.c and [task_main] of src/src/coroutine_task.c, and
    the proof that they keep the contract [Examples.TaskContract] which the
    theorem on the listener assumes. *)

From stdpp Require Import gmap list.
From S2P Require Import Prelude TimerList TimerListSpec ListProgram TimerWheel TimerWheelSpec TimerFrame Context Events.
From S2P Require Import Thread ThreadSpec Sched Coroutine TaskPool CtlInv Poll MemInv MemPoll CtlSteps.
From S2P Require Import PollFrames System Boot ThreadProps PollReturn NewTask NestProps Hooks HooksSpec ThreadHooks.
From S2P Require Import HooksProps SocketProps AcceptProps Examples EchoProps.

Section start.
Context {K : Type} `{!EpollKernel K}.
Implicit Types w : world K.

(** [coroutine_new_task] up to the call of the function of the new task, in a
    thread that is initialised. *)
Definition thread_start (now : timeval) (attr : coroutine_task_attr_t) : M (world K) (option (coroutine_fun_t * void_ptr)) :=
  m ← gets w_mode;
  match m, attr_fun attr with
  | M_user u, Some (F_user _) =>
      r ← coroutine_new_task 0 now attr u;
      if r =? 0 then
        step_thread A_run;;
        fn ← task_function;
        arg ← coroutine_arg;
        mret (Some (fn, arg))
      else mret None
  | _, _ => fail BadPointer
  end.

(** With a full call stack, [coroutine_resume] stores out of bounds. *)
Lemma resume_overflows w e l cur co rc k :
  w_env w = Some e -> stack_env e (l ++ [cur]) -> Z.of_nat (length l) + 1 = kMaxCallStack ->
  w_cos w !! co = Some rc -> co_state rc = RUNNING -> coroutine_resume co k w = Fail OutOfBounds.
Proof using.
  intros He Hse Hdepth Hco Hst. destruct (stack_env_top _ _ _ Hse) as [Htop1 Htop2]. destruct Hse as [Hlen Hsz _].
  rewrite length_app in Hsz. simpl in Hsz. unfold coroutine_resume. step. step.
  erewrite bind_Ok by (apply array_get_run; [exact Htop1|exact Htop2]). rewrite decide_True by done. step.
  unfold array_set. by rewrite bool_decide_eq_false_2 by (unfold kMaxCallStack in *; lia).
Qed.

Lemma new_task_overflows th w ep s attr u t fr :
  CtlInv w th ep s -> s_pc s = PC_user u -> s_free s = t :: fr -> Z.of_nat (length (s_stack s)) + 1 = kMaxCallStack ->
  new_task (th_pool th) attr u w = Fail OutOfBounds.
Proof using.
  intros [B HT (pool & Hpl & HP) _] Hpc Hfr Hdepth. pose proof (cb_sched _ _ _ _ B) as OK.
  destruct (user_pool th _ _ _ _ Hpc HP) as (Hfree & _ & Hsize & Hwork & _). rewrite Hfr in Hfree, Hwork.
  destruct (HT t _ (so_frees _ OK t ltac:(rewrite Hfr; by left))) as (c & tk & rc & _ & Htk & Hrc & Hsta & _).
  pose proof (ts_coroutine _ _ _ _ _ Hsta) as Htc. destruct (cb_env _ _ _ _ B) as (e & He & Hse & _ & Hep).
  rewrite stack_cos_top in Hse.
  unfold new_task. step. rewrite (proj2 (Z.eqb_neq _ _)) by (simpl in Hwork; lia). rewrite Hfree. cbn [head].
  step. step. step. step. step. step. step. step. step.
  erewrite bind_Ok by (eapply get_now_run; [exact (cb_pid _ _ _ _ B)|exact He|exact Hep]). step. step.
  match goal with |- context [(coroutine_resume c _ ≫= _) ?w1] => set (w2 := w1) end.
  unfold mbind, M_bind. erewrite (resume_overflows w2 e _ _ c); [done|exact He|exact Hse| |apply lookup_insert_eq|apply Hsta].
  pose proof (stack_cos_length th (s_stack s)) as Hlen. rewrite stack_cos_top, length_app in Hlen. simpl in Hlen. lia.
Qed.

(** The depth of the call stack of a thread. *)
Lemma depth_bound th w ep s : CtlInv w th ep s -> exists e, w_env w = Some e /\ env_epoll e = Some ep /\
  env_callstacksize e = Z.of_nat (length (s_stack s)) + 1 /\ Z.of_nat (length (s_stack s)) + 1 <= kMaxCallStack.
Proof using.
  intros HC. destruct (cb_env _ _ _ _ (ci_base _ _ _ _ HC)) as (e & He & [Hlen Hsz Hslots] & _ & Hep).
  exists e. rewrite stack_cos_length in Hsz. split_and!; [done|done|lia|].
  pose proof (lookup_lt_is_Some_2 (stack_cos th (s_stack s)) (length (s_stack s)) ltac:(rewrite stack_cos_length; lia)) as [c Hc].
  pose proof (lookup_lt_Some _ _ _ (Hslots _ _ Hc)) as Hlt. rewrite Hlen in Hlt. lia.
Qed.

(** A task that has been started: its function runs, on the argument. *)
Lemma start_new th w s xs u t fr f now attr :
  Inv th w s xs -> s_pc s = PC_user u -> s_free s = t :: fr -> attr_fun attr = Some (F_user f) ->
  Z.of_nat (length (s_stack s)) + 1 < kMaxCallStack -> flags_ok w ->
  exists w2 s2, thread_start now attr w = Ok (Some (F_user f, attr_arg attr), w2) /\ Inv th w2 s2 xs /\
    s_pc s2 = PC_user U_fun /\ s_stack s2 = t :: s_stack s /\ flags_ok w2.
Proof using.
  intros I Hpc Hfr Hf Hdepth Hflags. pose proof (inv_mode _ _ _ _ I) as Hm. rewrite Hpc in Hm.
  pose proof I as [_ (ep & live & L & HC & _) _]. destruct (depth_bound th w ep s HC) as (e & He & Hep & Hsz & _).
  destruct (new_task_started th w s xs u e 0 now attr t fr f I Hpc He ltac:(lia) Hf Hfr)
    as (w1 & w2 & tk & Hnew & Hm1 & Hrun2 & _ & _ & Harg & Hfn & _).
  assert (step_thread (A_new_task 0 now attr) w = Ok (tt, w1)) as Hrun1.
  { rewrite (step_user_new w u) by done. by rewrite (bind_Ok _ _ _ _ _ Hnew). }
  assert (allowed (A_new_task 0 now attr) w) as Ha1.
  { exists e, ep. rewrite Hm. split; [done|]. split; [done|]. simpl. destruct u; (split; [by exists f|lia]). }
  destruct (inv_step th w s xs _ I Ha1) as (w1' & s1 & xs1 & Hrun1' & Hs1 & I1). rewrite Hrun1 in Hrun1'. injection Hrun1' as <-.
  assert (s1 = s_push t PC_start u (K_user u) s /\ xs1 = xs) as [-> ->] by (inversion Hs1; simpl in *; split; congruence).
  assert (allowed A_run w1) as Ha2.
  { destruct I1 as [_ (ep1 & live1 & L1 & HC1 & _) _]. destruct (cb_env _ _ _ _ (ci_base _ _ _ _ HC1)) as (e1 & He1 & _ & _ & Hep1).
    exists e1, ep1. by rewrite Hm1. }
  destruct (inv_step th w1 _ xs _ I1 Ha2) as (w2' & s2 & xs2 & Hrun2' & Hs2 & I2). rewrite Hrun2 in Hrun2'. injection Hrun2' as <-.
  assert (s2 = s_goto (PC_user U_fun) (s_push t PC_start u (K_user u) s) /\ xs2 = xs) as [-> ->] by (inversion Hs2; simpl in *; split; congruence).
  eexists w2, _. split; [|split; [exact I2|split; [done|split; [done|]]]].
  - unfold thread_start. rewrite (bind_Ok _ _ _ _ _ (gets_run w_mode w)), Hm, Hf. cbn [mode_of].
    rewrite (bind_Ok _ _ _ _ _ Hnew). cbn [Z.eqb].
    by rewrite (bind_Ok _ _ _ _ _ Hrun2), (bind_Ok _ _ _ _ _ Hfn), (bind_Ok _ _ _ _ _ Harg).
  - apply (flags_run th [A_new_task 0 now attr; A_run] w s xs w2 I); [| |done]; simpl.
    + split; [done|]. intros w' Hw'. rewrite Hrun1 in Hw'. injection Hw' as <-. split; [done|by intros].
    + by rewrite (bind_Ok _ _ _ _ _ Hrun1), (bind_Ok _ _ _ _ _ Hrun2).
Qed.

(** All outcomes of a call by a running task. *)
Lemma thread_start_ok now attr w r w' :
  task_running w -> thread_start now attr w = Ok (r, w') ->
  match r with
  | Some (fn, arg) => attr_fun attr = Some fn /\ arg = attr_arg attr /\ task_running w'
  | None => w' = w
  end.
Proof using.
  intros [Hflags (th & s & xs & u & t0 & r0 & I & Hpc & Hst)] Hrun. pose proof (inv_mode _ _ _ _ I) as Hm. rewrite Hpc in Hm.
  destruct (attr_fun attr) as [[|f]|] eqn:Hf.
  - unfold thread_start in Hrun. by rewrite (bind_Ok _ _ _ _ _ (gets_run w_mode w)), Hm, Hf in Hrun.
  - pose proof I as [_ (ep & live & L & HC & _) _]. destruct (depth_bound th w ep s HC) as (e & He & Hep & Hsz & Hle).
    destruct (s_free s) as [|t fr] eqn:Hfr.
    + unfold thread_start in Hrun. rewrite (bind_Ok _ _ _ _ _ (gets_run w_mode w)), Hm, Hf in Hrun. cbn [mode_of] in Hrun.
      erewrite bind_Ok in Hrun by exact (new_task_none th w s xs u 0 now attr I Hpc Hfr). by injection Hrun as <- <-.
    + destruct (decide (Z.of_nat (length (s_stack s)) + 1 < kMaxCallStack)) as [Hlt|Hge].
      * destruct (start_new th w s xs u t fr f now attr I Hpc Hfr Hf Hlt Hflags) as (w2 & s2 & Hrun2 & I2 & Hpc2 & Hst2 & Hflags2).
        rewrite Hrun in Hrun2. injection Hrun2 as -> ->. split; [done|]. split; [done|]. split; [done|].
        by exists th, s2, xs, U_fun, t, (s_stack s).
      * unfold thread_start in Hrun. rewrite (bind_Ok _ _ _ _ _ (gets_run w_mode w)), Hm, Hf in Hrun. cbn [mode_of] in Hrun.
        unfold mbind, M_bind in Hrun. rewrite (new_task_call th w ep s _ _ _ _ HC) in Hrun.
        by rewrite (new_task_overflows th w ep s attr u t fr HC Hpc Hfr) in Hrun by lia.
  - unfold thread_start in Hrun. by rewrite (bind_Ok _ _ _ _ _ (gets_run w_mode w)), Hm, Hf in Hrun.
Qed.
End start.

(** * The interface of the listener *)

Section tasks.
Context {K R : Type} `{!EpollKernel K} `{!Surroundings K R}.
Notation tstate := (tstate (K := K) (R := R)).
Implicit Types h : hooks tstate.

(** What follows the first lines of a new task, until the caller is switched in
    again. *)
Context (others : server tstate -> server tstate).

Definition call_world h : world K := (ts_world (hk_sys h)) <| w_errno := hk_errno h |>.

Lemma call_running h : task_running (call_world h).
Proof using.
  destruct (ts_ok (hk_sys h)) as [Hflags (th & s & xs & u & t & r & I & Hpc & Hst)]. split; [exact Hflags|].
  exists th, s, xs, u, t, r. split; [by apply inv_errno|done].
Qed.

Definition call_start attr h : res (option (coroutine_fun_t * void_ptr) * world K) :=
  thread_start (call_time (ts_raw (hk_sys h))) attr (call_world h).

Lemma started_running attr h fn arg w' : call_start attr h = Ok (Some (fn, arg), w') -> task_running w'.
Proof using. intros H. apply (thread_start_ok _ _ _ _ _ (call_running h) H). Qed.

(** The new task runs, in the state after its start. *)
Definition start_state attr h fn arg w' (H : call_start attr h = Ok (Some (fn, arg), w')) : hooks tstate :=
  mk_hooks (hk_socks h) (w_errno w') (mk_tstate w' (ts_raw (hk_sys h)) (started_running attr h fn arg w' H)).

#[export] Instance thread_tasks : TaskSys tstate := {|
  start_task attr h :=
    match call_start attr h as o return call_start attr h = o -> res (option (coroutine_fun_t * void_ptr) * hooks tstate) with
    | Ok (Some (fn, arg), w') => fun H => Ok (Some (fn, arg), start_state attr h fn arg w' H)
    | Ok (None, _) => fun _ => Ok (None, h)
    | Fail e => fun _ => Fail e
    end eq_refl;
  run_on := others
|}.

(** The three outcomes of [start_task], as those of [thread_start]. *)
Lemma start_task_cases attr h :
  (exists fn arg w' H, start_task attr h = Ok (Some (fn, arg), start_state attr h fn arg w' H)) \/
  (exists w', call_start attr h = Ok (None, w') /\ start_task attr h = Ok (None, h)) \/
  (exists e, call_start attr h = Fail e /\ start_task attr h = Fail e).
Proof using.
  unfold start_task, thread_tasks.
  assert (forall o (E : call_start attr h = o),
    let out := match o as o' return call_start attr h = o' -> res (option (coroutine_fun_t * void_ptr) * hooks tstate) with
      | Ok (Some (fn, arg), w') => fun H => Ok (Some (fn, arg), start_state attr h fn arg w' H)
      | Ok (None, _) => fun _ => Ok (None, h)
      | Fail e => fun _ => Fail e
      end E in
    (exists fn arg w' H, out = Ok (Some (fn, arg), start_state attr h fn arg w' H)) \/
    (exists w', o = Ok (None, w') /\ out = Ok (None, h)) \/ (exists e, o = Fail e /\ out = Fail e)) as Hgen.
  { intros [[[[fn arg]|] w']|e] E; [left; by exists fn, arg, w', E|right; left; by exists w'|right; right; by exists e]. }
  apply Hgen.
Qed.

(** A thread keeps the contract of the listener: the task that
    [coroutine_new_task] starts runs the function of its attributes on the
    argument of its attributes, and without a free task nothing happens. *)
#[export] Instance thread_tasks_contract : TaskContract tstate.
Proof using.
  split.
  - intros attr h fn arg h' Hstart. destruct (start_task_cases attr h) as [(fn' & arg' & w' & H & E)|[(w' & _ & E)|(e & _ & E)]];
      rewrite E in Hstart; [|done|done]. injection Hstart as <- <- <-.
    by destruct (thread_start_ok _ _ _ _ _ (call_running h) H) as (-> & -> & _).
  - intros attr h h' Hstart. destruct (start_task_cases attr h) as [(fn' & arg' & w' & H & E)|[(w' & _ & E)|(e & _ & E)]];
      rewrite E in Hstart; [done|by injection Hstart|done].
Qed.
End tasks.

(** * A round in a thread

    The raw [accept] has the connection 8 at once; the other raw calls return
    0.  Nothing follows the first lines of the handler. *)

Definition listener_raw (c : syscall) (r : unit) : sysret * unit :=
  match c with
  | SysAccept _ => (good 8, r)
  | SysPoll fds _ => (mk_sysret 0 0 [] fds [], r)
  | _ => (good 0, r)
  end.

#[export] Program Instance listener_surroundings : Surroundings (gmap Z Z) unit := {|
  raw_call := listener_raw;
  call_time _ := demo_time 1;
  meanwhile _ _ _ _ _ _ := None
|}.
Solve Obligations with done.

Notation listener_state := (tstate (K := gmap Z Z) (R := unit)).

Definition listener_tasks : TaskSys listener_state := thread_tasks id.
#[local] Existing Instance listener_tasks.

(** The listener is the task of a thread; [n] is the number of its tasks. *)
Definition listener_world (n : Z) : world (gmap Z Z) :=
  match do_init_with n 3 (demo_time 0) (demo_blank <| w_options := mk_options 131072 n |>) with
  | Ok (_, w) => default demo_blank (check_run [A_new_task 3 (demo_time 0) listener_attr; A_run] w)
  | Fail _ => demo_blank
  end.

Lemma listener_world_reach n : 0 <= n < 2 ^ 31 -> match w_mode (listener_world n) with M_user U_fun => True | _ => False end ->
  Reach (listener_world n).
Proof.
  intros Hn. unfold listener_world. set (w0 := demo_blank <| w_options := _ |>).
  assert (blank w0 (demo_time 0)) as Hb by (destruct demo_blank_ok; by split).
  assert (opt_task_per_thread (w_options w0) = n) as Hopt by done.
  destruct (boot_inv w0 n 3 (demo_time 0) Hb) as (w & th & free & Hrun & _); [lia|lia|]. rewrite Hrun.
  destruct (check_run _ w) as [w'|] eqn:Hc; [|done]. intros _. destruct (check_run_sound _ _ _ Hc) as [H1 H2].
  apply (run_reach _ w w') in H2; [done| |done]. by apply (reach_boot w0 n 3 (demo_time 0) w); [|lia|lia|].
Qed.

Definition two_tasks : Reach (listener_world 2) := listener_world_reach 2 ltac:(lia) ltac:(vm_compute; exact I).
Definition one_task : Reach (listener_world 1) := listener_world_reach 1 ltac:(lia) ltac:(vm_compute; exact I).

Definition listener_on (n : Z) (HR : Reach (listener_world n)) (Hm : w_mode (listener_world n) = M_user U_fun) : server listener_state :=
  mk_server (mk_hooks {[5 := new_rpchook]} 0 (mk_tstate (listener_world n) tt (reach_running _ U_fun HR Hm ltac:(discriminate)))) 0 0 [] [].

Definition server_with_room : server listener_state := listener_on 2 two_tasks ltac:(vm_compute; reflexivity).
Definition server_without_room : server listener_state := listener_on 1 one_task ltac:(vm_compute; reflexivity).

(** Whether the connection gets a task. *)
Definition gets_task (v : server listener_state) : option bool :=
  match accept 1 5 (sv_hooks v) with
  | Ok (_, h) => match start_task conn_attr h with Ok (Some _, _) => Some true | Ok (None, _) => Some false | Fail _ => None end
  | Fail _ => None
  end.

Lemma listener_round_hands_over_witness :
  (exists h, listener_round 1 5 server_with_room = Ok (tt, mk_server h 0 8 [L_in_echo] [8])) /\
  (exists h, listener_round 1 5 server_without_room = Ok (tt, mk_server h 0 8 [] [])).
Proof.
  split.
  - destruct (listener_round_hands_over 5 new_rpchook server_with_room 1 0 (good 8)
      (after_sys (SysAccept 5) (sv_hooks server_with_room))) as (h' & flags & Hacc & _ & Hround).
    + split; [vm_compute; reflexivity|split; [reflexivity|apply lookup_singleton_eq]].
    + lia.
    + by apply awaits_last.
    + reflexivity.
    + reflexivity.
    + assert (gets_task server_with_room = Some true) as Hg by (vm_compute; reflexivity).
      unfold gets_task in Hg. rewrite Hacc in Hg. destruct (start_task conn_attr h') as [[[x|] h2]|e]; [|discriminate Hg..].
      exists h2. exact (proj2 Hround).
  - destruct (listener_round_hands_over 5 new_rpchook server_without_room 1 0 (good 8)
      (after_sys (SysAccept 5) (sv_hooks server_without_room))) as (h' & flags & Hacc & _ & Hround).
    + split; [vm_compute; reflexivity|split; [reflexivity|apply lookup_singleton_eq]].
    + lia.
    + by apply awaits_last.
    + reflexivity.
    + reflexivity.
    + assert (gets_task server_without_room = Some false) as Hg by (vm_compute; reflexivity).
      unfold gets_task in Hg. rewrite Hacc in Hg. destruct (start_task conn_attr h') as [[[x|] h2]|e]; [discriminate Hg| |discriminate Hg].
      exists h'. exact Hround.
Defined.
